(** * Online query allocation: budget ledger, scoring and the three allocators

    A shallow embedding of [advertiser.py], [utils.py], [pessimistic.py],
    [optimistic.py], [balanced.py] and the driver of [experiment.py].

    Numbers, in two layers.  Counts (predicted demand, plan cells) are [Z]
    everywhere.  Budgets, bids and scores are Python floats.

    - The first layer embeds them as real numbers [R] with exact arithmetic.
      It carries the registry of advertisers with its aliasing, the linear
      program, the three allocators and the driver, and it is used for what
      does not depend on how a sum, a difference or a quotient is rounded:
      which objects a call touches, which list a holder sees, the shape of the
      program and of the plan, the integers of the plan, the keys that are
      looked up.  Its statements about the value of a budget or of a score
      are statements about exact arithmetic.

    - The module [Double] embeds the ledger operations, the scoring function,
      the pessimistic allocator and the rounding of the plan on binary64
      numbers, with every operation rounded as Python rounds it.  [math.exp]
      is the platform's and is a parameter there.  The properties of values
      (bounds on what is spent, the best score, the cost of a plan) are
      settled on this layer.

    Objects.  An [Advertiser] instance is mutable and shared by reference.
    The registry keeps the authoritative list and every deep copy ever made of
    it, so that two holders of the same copied list see each other's
    deductions and a holder of a superseded copy keeps seeing the old one. *)

From Stdlib Require Import Reals Lra Lia ZArith List String Bool Arith.
From Stdlib Require Import DecimalString DecimalNat Permutation Sorted.
From Stdlib Require Import Floats.
Import ListNotations.

Open Scope R_scope.

(** ** Python values *)

Inductive exn : Type :=
| ValueError
| KeyError
| IndexError
| ZeroDivisionError
| AttributeError
| TypeError
| OverflowError.

Inductive Result (A : Type) : Type :=
| Ok (a : A)
| Raise (e : exn).

Arguments Ok {A} a.
Arguments Raise {A} e.

Definition bind {A B : Type} (m : Result A) (k : A -> Result B) : Result B :=
  match m with
  | Ok a => k a
  | Raise e => Raise e
  end.

Notation "'do' x <- m ; k" := (bind m (fun x => k))
  (at level 10, x name, m at level 100, k at level 200).

(** Comparisons of Python numbers, as booleans. *)

Definition Rgtb (a b : R) : bool := if Rgt_dec a b then true else false.
Definition Rgeb (a b : R) : bool := if Rge_dec a b then true else false.

(** [int(x)]: truncation towards zero. *)
Definition int_of_float (x : R) : Z :=
  if Rle_dec 0 x then Zfloor x else Zceil x.

(** [a // b] on numbers: the floor of the quotient, [ZeroDivisionError] when
    the divisor is zero. *)
Definition floordiv (a b : R) : Result Z :=
  if Req_dec_T b 0 then Raise ZeroDivisionError else Ok (Zfloor (a / b)).

(** A [dict] keeps its keys in insertion order. *)
Definition dict (V : Type) : Type := list (string * V).

Fixpoint dict_get {V : Type} (d : dict V) (k : string) : option V :=
  match d with
  | [] => None
  | (k', v) :: d' => if String.eqb k' k then Some v else dict_get d' k
  end.

(** [d.get(k, default)] *)
Definition dict_get_default {V : Type} (d : dict V) (k : string) (default : V) : V :=
  match dict_get d k with
  | Some v => v
  | None => default
  end.

(** [d[k]] *)
Definition dict_item {V : Type} (d : dict V) (k : string) : Result V :=
  match dict_get d k with
  | Some v => Ok v
  | None => Raise KeyError
  end.

(** [d[k] = v] *)
Fixpoint dict_set {V : Type} (d : dict V) (k : string) (v : V) : dict V :=
  match d with
  | [] => [(k, v)]
  | (k', v') :: d' =>
      if String.eqb k' k then (k', v) :: d' else (k', v') :: dict_set d' k v
  end.

(** [list(d.keys())] *)
Definition dict_keys {V : Type} (d : dict V) : list string := map fst d.

(** [l.index(x)] on a list of strings. *)
Fixpoint list_index (l : list string) (x : string) : option nat :=
  match l with
  | [] => None
  | y :: l' =>
      if String.eqb y x then Some 0%nat
      else match list_index l' x with
           | Some n => Some (S n)
           | None => None
           end
  end.

(** [l[i] = v] for an index known to the caller to be in range; out of range
    the list is returned as it is. *)
Fixpoint list_assign {A : Type} (l : list A) (i : nat) (v : A) : list A :=
  match l, i with
  | [], _ => []
  | _ :: l', O => v :: l'
  | x :: l', S i' => x :: list_assign l' i' v
  end.

(** [l[i]] *)
Definition list_item {A : Type} (l : list A) (i : nat) : Result A :=
  match nth_error l i with
  | Some x => Ok x
  | None => Raise IndexError
  end.

(** The bid table: advertiser name -> keyword -> bid. *)
Definition Bids : Type := dict (dict R).

(** [f"k{i+1}"] *)
Definition keyword_name (i : nat) : string :=
  String.append "k" (NilEmpty.string_of_uint (Nat.to_uint (S i))).

(** [[f"k{i+1}" for i in range(n)]] *)
Definition keyword_names (n : nat) : list string := map keyword_name (seq 0 n).

(** Scores: a finite number or one of the special floats the code can
    produce from [float('-inf')]. *)
Inductive score : Type :=
| NegInf
| Fin (r : R)
| PosInf
| NaN.

(** [a > b] *)
Definition score_gt (a b : score) : bool :=
  match a, b with
  | NaN, _ | _, NaN => false
  | NegInf, _ => false
  | _, PosInf => false
  | Fin x, Fin y => Rgtb x y
  | Fin _, NegInf => true
  | PosInf, _ => true
  end.

(** [a >= b] *)
Definition score_ge (a b : score) : bool :=
  match a, b with
  | NaN, _ | _, NaN => false
  | _, NegInf => true
  | PosInf, _ => true
  | Fin x, Fin y => Rgeb x y
  | Fin _, PosInf => false
  | NegInf, _ => false
  end.

(** [alpha * s] for a finite [alpha]. *)
Definition score_scale (alpha : R) (s : score) : score :=
  match s with
  | Fin x => Fin (alpha * x)
  | NaN => NaN
  | NegInf =>
      if Rgt_dec alpha 0 then NegInf
      else if Req_dec_T alpha 0 then NaN else PosInf
  | PosInf =>
      if Rgt_dec alpha 0 then PosInf
      else if Req_dec_T alpha 0 then NaN else NegInf
  end.

(** ** advertiser.py *)

Module Advertiser.

Record t : Type := mk {
  name : string;
  initial_budget : R;
  spent_budget : R
}.

Definition remaining_budget (self : t) : R :=
  initial_budget self - spent_budget self.

Definition budget_fraction (self : t) : R :=
  if Req_dec_T (initial_budget self) 0 then 1
  else spent_budget self / initial_budget self.

Definition deduct_budget (self : t) (amount : R) : Result t :=
  if Rgt_dec amount (remaining_budget self) then Raise ValueError
  else Ok (mk (name self) (initial_budget self) (spent_budget self + amount)).

(** A list object holding advertisers: the authoritative class list, or
    the [n]-th deep copy made of it. *)
Inductive ListRef : Type :=
| Authoritative
| Snapshot (n : nat).

(** A reference to one advertiser object: the list that holds it and its
    position there. *)
Definition Ref : Type := (ListRef * nat)%type.

(** The class attributes. [copies] is the heap of the deep copies made so
    far; [_advertiser_list_copy] points at the cached one. *)
Record Registry : Type := mkRegistry {
  advertisers : list t;
  copies : list (list t);
  _advertiser_list_copy : option nat
}.

Definition empty : Registry := mkRegistry [] [] None.

(** [Advertiser(name, initial_budget)] *)
Definition init (nm : string) (budget : R) (cls : Registry) : Registry :=
  mkRegistry (advertisers cls ++ [mk nm budget 0])
             (copies cls) (_advertiser_list_copy cls).

(** The advertisers a list reference denotes. *)
Definition deref (cls : Registry) (r : ListRef) : list t :=
  match r with
  | Authoritative => advertisers cls
  | Snapshot n => nth n (copies cls) []
  end.

(** Write the new state of the advertiser object [(r, i)]. *)
Definition store (cls : Registry) (r : ListRef) (i : nat) (a : t) : Registry :=
  match r with
  | Authoritative =>
      mkRegistry (list_assign (advertisers cls) i a) (copies cls)
                 (_advertiser_list_copy cls)
  | Snapshot n =>
      mkRegistry (advertisers cls)
                 (list_assign (copies cls) n
                    (list_assign (nth n (copies cls) []) i a))
                 (_advertiser_list_copy cls)
  end.

Definition get_advertisers (cls : Registry) : ListRef := Authoritative.

(** [copy.deepcopy(cls.advertisers)] allocates a new list of new objects. *)
Definition reset_advertiser_list_copy (cls : Registry) : Registry :=
  mkRegistry (advertisers cls) (copies cls ++ [advertisers cls])
             (Some (List.length (copies cls))).

Definition get_advertiser_list_copy (cls : Registry) : ListRef * Registry :=
  match _advertiser_list_copy cls with
  | Some n => (Snapshot n, cls)
  | None => (Snapshot (List.length (copies cls)), reset_advertiser_list_copy cls)
  end.

Definition reset_budgets (cls : Registry) : Registry :=
  mkRegistry
    (map (fun a => mk (name a) (initial_budget a) 0) (advertisers cls))
    (copies cls) (_advertiser_list_copy cls).

(** [advertiser.deduct_budget(amount)] on the object [(r, i)] of the store. *)
Definition deduct_at (cls : Registry) (r : ListRef) (i : nat) (amount : R)
  : Result unit * Registry :=
  match nth_error (deref cls r) i with
  | None => (Raise IndexError, cls)
  | Some a =>
      match deduct_budget a amount with
      | Ok a' => (Ok tt, store cls r i a')
      | Raise e => (Raise e, cls)
      end
  end.

End Advertiser.

(** ** utils.py *)

Definition phi_alpha (f alpha : R) : R := 1 - exp (alpha * (f - 1)).

(** [l.count(x)] *)
Fixpoint list_count (l : list string) (x : string) : Z :=
  match l with
  | [] => 0%Z
  | y :: l' => ((if String.eqb y x then 1 else 0) + list_count l' x)%Z
  end.

(** [del d[k]] for a key the caller has just read. *)
Fixpoint dict_del {V : Type} (d : dict V) (k : string) : dict V :=
  match d with
  | [] => []
  | (k', v) :: d' => if String.eqb k' k then d' else (k', v) :: dict_del d' k
  end.

(** [{key: seq.count(key) for key in keys}] *)
Definition count_dict (seq keys : list string) : dict Z :=
  fold_left (fun d key => dict_set d key (list_count seq key)) keys [].

Section Randomness.

(** What the interpreter and the random generator decide: the order in
    which [set(l)] is iterated, and the two keys the [k]-th call of
    [random.sample(keys, 2)] draws. *)
Variable set_order : list string -> list string.
Variable sample : nat -> list string -> string * string.

(** The [for _ in range(num_changes)] loop; [k] counts the calls of
    [random.sample] made so far. *)
Fixpoint change_loop (rounds : nat) (k : nat) (keyword_counts : dict Z)
  : Result (dict Z) :=
  match rounds with
  | O => Ok keyword_counts
  | S rounds' =>
      if Nat.ltb (List.length keyword_counts) 2 then Ok keyword_counts
      else
        let '(keyword1, keyword2) := sample k (dict_keys keyword_counts) in
        do count1 <- dict_item keyword_counts keyword1 ;
        let transfer_amount := Z.min 1 count1 in
        if Z.gtb transfer_amount 0 then
          let counts1 := dict_set keyword_counts keyword1 (count1 - transfer_amount)%Z in
          do count2 <- dict_item counts1 keyword2 ;
          let counts2 := dict_set counts1 keyword2 (count2 + transfer_amount)%Z in
          do left1 <- dict_item counts2 keyword1 ;
          if Z.eqb left1 0 then change_loop rounds' (S k) (dict_del counts2 keyword1)
          else change_loop rounds' (S k) counts2
        else change_loop rounds' (S k) keyword_counts
  end.

(** [predicted_sequence]: every keyword repeated [count] times. *)
Definition rebuild (keyword_counts : dict Z) : list string :=
  flat_map (fun '(keyword, count) => repeat keyword (Z.to_nat count)) keyword_counts.

Definition generate_predicted_query_sequence (actual_query_sequence : list string)
    (n_keywords : nat) (prediction_error_level : R) : Result (dict Z) :=
  if Req_dec_T prediction_error_level 0 then
    Ok (count_dict actual_query_sequence (keyword_names n_keywords))
  else
    let keyword_counts :=
      count_dict actual_query_sequence (set_order actual_query_sequence) in
    let num_changes :=
      int_of_float (prediction_error_level
                    * IZR (Z.of_nat (List.length actual_query_sequence))) in
    do keyword_counts' <- change_loop (Z.to_nat num_changes) 0 keyword_counts ;
    Ok (count_dict (rebuild keyword_counts') (keyword_names n_keywords)).

End Randomness.

(** ** pessimistic.py *)

Module PessimisticAlgorithm.

Record t : Type := mk {
  bids : Bids;
  advertisers : Advertiser.ListRef;
  alpha : R
}.

Definition init (bids : Bids) (alpha : R) (running_in_balanced : bool)
    (cls : Advertiser.Registry) : t * Advertiser.Registry :=
  let '(advs, cls') :=
    if running_in_balanced then Advertiser.get_advertiser_list_copy cls
    else (Advertiser.get_advertisers cls, cls) in
  (mk bids advs (if running_in_balanced then alpha else 1), cls').

(** [self.bids.get(advertiser.name, {}).get(query, 0)] *)
Definition bid_of (bids : Bids) (advertiser : Advertiser.t) (query : string) : R :=
  dict_get_default (dict_get_default bids (Advertiser.name advertiser) []) query 0.

(** The eligibility test of the scan. *)
Definition eligible (bids : Bids) (query : string) (advertiser : Advertiser.t) : bool :=
  Rgtb (bid_of bids advertiser query) 0
  && Rgeb (Advertiser.remaining_budget advertiser) (bid_of bids advertiser query).

Definition score_of (bids : Bids) (alpha : R) (query : string)
    (advertiser : Advertiser.t) : R :=
  phi_alpha (Advertiser.budget_fraction advertiser) alpha
  * bid_of bids advertiser query.

(** The [for advertiser in self.advertisers] loop; [i] is the position of
    the head of [advs] in the whole list. *)
Fixpoint scan (bids : Bids) (alpha : R) (query : string)
    (advs : list Advertiser.t) (i : nat)
    (best_advertiser : option nat) (highest_score : score) (best_bid : R)
  : option nat * score * R :=
  match advs with
  | [] => (best_advertiser, highest_score, best_bid)
  | advertiser :: rest =>
      if eligible bids query advertiser then
        if score_gt (Fin (score_of bids alpha query advertiser)) highest_score then
          scan bids alpha query rest (S i) (Some i)
               (Fin (score_of bids alpha query advertiser))
               (bid_of bids advertiser query)
        else scan bids alpha query rest (S i) best_advertiser highest_score best_bid
      else scan bids alpha query rest (S i) best_advertiser highest_score best_bid
  end.

Definition allocate_query (self : t) (query : string) (cls : Advertiser.Registry)
  : Result (option Advertiser.Ref * R) * Advertiser.Registry :=
  let '(best_advertiser, _, best_bid) :=
    scan (bids self) (alpha self) query
         (Advertiser.deref cls (advertisers self)) 0 None NegInf 0 in
  match best_advertiser with
  | Some i =>
      match Advertiser.deduct_at cls (advertisers self) i best_bid with
      | (Ok _, cls') => (Ok (Some (advertisers self, i), best_bid), cls')
      | (Raise e, cls') => (Raise e, cls')
      end
  | None => (Ok (None, 0), cls)
  end.

End PessimisticAlgorithm.

(** ** optimistic.py *)

(** The external LP solver [scipy.optimize.linprog], called with the cost
    vector, the inequality matrix and its right-hand side, under the bounds
    [(0, None)] on every variable: [Some x] is [result.success] with
    [result.x = x]. *)
Definition Solver : Type := list R -> list (list R) -> list R -> string -> option (list R).

Module OfflineMaximizationProblem.

Record t : Type := mk {
  n_keywords : nat;
  bids : Bids;
  advertisers : Advertiser.ListRef;
  predicted_queries : dict Z;
  solver_method : string;
  solution : option (list R);
  allocations : option (list (list Z))
}.

Definition init (n_keywords : nat) (bids : Bids)
    (advertisers : Advertiser.ListRef) (predicted_queries : dict Z) : t :=
  mk n_keywords bids advertisers predicted_queries "highs" None None.

(** [self.bids.get(advertiser.name, {}).get(keyword, 0)] *)
Definition lp_bid (bids : Bids) (advertiser : Advertiser.t) (keyword : string) : R :=
  dict_get_default (dict_get_default bids (Advertiser.name advertiser) []) keyword 0.

(** The cost vector [c]. *)
Definition cost_vector (bids : Bids) (advs : list Advertiser.t)
    (keywords : list string) : list R :=
  flat_map (fun keyword => map (fun advertiser => - lp_bid bids advertiser keyword) advs)
           keywords.

(** One budget row: zeros, then [row[i + j * n_advertisers] = bid] for every
    keyword position [j]. *)
Fixpoint budget_row (bids : Bids) (advertiser : Advertiser.t) (i n_advertisers : nat)
    (keywords : list string) (j : nat) (row : list R) : list R :=
  match keywords with
  | [] => row
  | keyword :: rest =>
      budget_row bids advertiser i n_advertisers rest (S j)
        (list_assign row (i + j * n_advertisers) (lp_bid bids advertiser keyword))
  end.

Fixpoint budget_constraints (bids : Bids) (advs : list Advertiser.t) (i n_advertisers : nat)
    (keywords : list string) : list (list R) * list R :=
  match advs with
  | [] => ([], [])
  | advertiser :: rest =>
      let '(A_ub, b_ub) :=
        budget_constraints bids rest (S i) n_advertisers keywords in
      (budget_row bids advertiser i n_advertisers keywords 0
         (repeat 0 (n_advertisers * List.length keywords)) :: A_ub,
       Advertiser.initial_budget advertiser :: b_ub)
  end.

(** One query-volume row: [row[i + j * n_advertisers] = 1] for every
    advertiser position [i]. *)
Definition volume_row (n_advertisers n_keywords j : nat) : list R :=
  fold_left (fun row i => list_assign row (i + j * n_advertisers) 1)
            (seq 0 n_advertisers) (repeat 0 (n_advertisers * n_keywords)).

(** The query-volume loop; it reads [self.predicted_queries[keyword]] for
    every generated keyword name, in order. *)
Fixpoint volume_constraints (predicted_queries : dict Z) (n_advertisers n_keywords : nat)
    (keywords : list string) (j : nat) : Result (list (list R) * list R) :=
  match keywords with
  | [] => Ok ([], [])
  | keyword :: rest =>
      do demand <- dict_item predicted_queries keyword ;
      do tl <- volume_constraints predicted_queries n_advertisers n_keywords rest (S j) ;
      Ok (volume_row n_advertisers n_keywords j :: fst tl, IZR demand :: snd tl)
  end.

(** [sorted(idxs, key=lambda i: -solution[i])]: a stable sort, ascending in
    the key. *)
Fixpoint insert_by (key : nat -> R) (x : nat) (l : list nat) : list nat :=
  match l with
  | [] => [x]
  | y :: l' =>
      if Rle_dec (key x) (key y) then x :: y :: l'
      else y :: insert_by key x l'
  end.

Definition sorted_by (key : nat -> R) (l : list nat) : list nat :=
  fold_right (insert_by key) [] l.

(** [{keyword: self.predicted_queries[keyword] for keyword in keywords}] *)
Fixpoint demand_of (predicted_queries : dict Z) (keywords : list string)
    (acc : dict Z) : Result (dict Z) :=
  match keywords with
  | [] => Ok acc
  | keyword :: rest =>
      do demand <- dict_item predicted_queries keyword ;
      demand_of predicted_queries rest (dict_set acc keyword demand)
  end.

(** [allocations[advertiser_idx, keyword_idx] = v] *)
Definition matrix_assign (m : list (list Z)) (i j : nat) (v : Z) : list (list Z) :=
  list_assign m i (list_assign (nth i m []) j v).

(** What one round of the loop looks up and computes for the variable
    [idx]: the advertiser and keyword positions, the keyword, the bid
    [self.bids[advertiser.name].get(keyword, 1)], [max_allocation] and the
    remaining demand of the keyword. *)
Definition allocation_at (bids : Bids) (advs : list Advertiser.t)
    (solution : list R) (n_advertisers : nat) (keywords : list string)
    (remaining_queries : dict Z) (idx : nat)
  : Result (nat * nat * string * R * Z * Z) :=
  do _ <- (if Nat.eqb n_advertisers 0 then Raise ZeroDivisionError else Ok tt) ;
  let advertiser_idx := (idx mod n_advertisers)%nat in
  let keyword_idx := (idx / n_advertisers)%nat in
  do advertiser <- list_item advs advertiser_idx ;
  do keyword <- list_item keywords keyword_idx ;
  do remaining <- dict_item remaining_queries keyword ;
  do row <- dict_item bids (Advertiser.name advertiser) ;
  let bid := dict_get_default row keyword 1 in
  do affordable <-
     floordiv (Advertiser.initial_budget advertiser
               - Advertiser.spent_budget advertiser) bid ;
  Ok (advertiser_idx, keyword_idx, keyword, bid,
      Z.min (Z.min (int_of_float (nth idx solution 0)) remaining) affordable,
      remaining).

(** The rounding loop, over the sorted indices. *)
Fixpoint round_loop (bids : Bids) (advertisers : Advertiser.ListRef)
    (solution : list R) (n_advertisers : nat) (keywords : list string)
    (fractional_indices : list nat)
    (allocations : list (list Z)) (remaining_queries : dict Z)
    (cls : Advertiser.Registry)
  : Result (list (list Z)) * Advertiser.Registry :=
  match fractional_indices with
  | [] => (Ok allocations, cls)
  | idx :: rest =>
      if Req_dec_T (nth idx solution 0) 0 then
        round_loop bids advertisers solution n_advertisers keywords rest
                   allocations remaining_queries cls
      else
        match allocation_at bids (Advertiser.deref cls advertisers) solution
                n_advertisers keywords remaining_queries idx with
        | Raise e => (Raise e, cls)
        | Ok (advertiser_idx, keyword_idx, keyword, bid, max_allocation, remaining) =>
            match Advertiser.deduct_at cls advertisers advertiser_idx
                    (IZR max_allocation * bid) with
            | (Raise e, cls') => (Raise e, cls')
            | (Ok _, cls') =>
                round_loop bids advertisers solution n_advertisers keywords rest
                  (matrix_assign allocations advertiser_idx keyword_idx max_allocation)
                  (dict_set remaining_queries keyword (remaining - max_allocation)%Z)
                  cls'
            end
        end
  end.

(** [advertisers = self.advertisers.copy()] copies the list, not the
    objects in it: the loop deducts from the advertisers of
    [self.advertisers] themselves. *)
Definition round_solution_to_integers (self : t) (n_advertisers : nat)
    (keywords : list string) (cls : Advertiser.Registry)
  : Result unit * t * Advertiser.Registry :=
  match demand_of (predicted_queries self) keywords [] with
  | Raise e => (Raise e, self, cls)
  | Ok remaining_queries =>
      match solution self with
      | None => (Raise TypeError, self, cls)
      | Some x =>
          let fractional_indices :=
            sorted_by (fun i => - nth i x 0) (seq 0 (List.length x)) in
          match round_loop (bids self) (advertisers self) x n_advertisers keywords
                  fractional_indices
                  (repeat (repeat 0%Z (List.length keywords)) n_advertisers)
                  remaining_queries cls with
          | (Raise e, cls') => (Raise e, self, cls')
          | (Ok allocations, cls') =>
              (Ok tt,
               mk (n_keywords self) (bids self) (advertisers self)
                  (predicted_queries self) (solver_method self) (solution self)
                  (Some allocations),
               cls')
          end
      end
  end.

Definition solve_allocation (linprog : Solver) (self : t) (cls : Advertiser.Registry)
  : Result unit * t * Advertiser.Registry :=
  let advs := Advertiser.deref cls (advertisers self) in
  let n_advertisers := List.length advs in
  let keywords := keyword_names (n_keywords self) in
  let c := cost_vector (bids self) advs keywords in
  let '(A_budget, b_budget) :=
    budget_constraints (bids self) advs 0 n_advertisers keywords in
  match volume_constraints (predicted_queries self) n_advertisers (n_keywords self)
          keywords 0 with
  | Raise e => (Raise e, self, cls)
  | Ok (A_volume, b_volume) =>
      match linprog c (A_budget ++ A_volume) (b_budget ++ b_volume)
              (solver_method self) with
      | Some x =>
          round_solution_to_integers
            (mk (n_keywords self) (bids self) (advertisers self)
                (predicted_queries self) (solver_method self) (Some x)
                (allocations self))
            n_advertisers keywords cls
      | None => (Raise ValueError, self, cls)
      end
  end.

End OfflineMaximizationProblem.

Module OptimisticAlgorithm.

Record t : Type := mk {
  remaining_queries : dict Z;
  offline_allocations : list (list Z);
  advertisers : Advertiser.ListRef;
  bids : Bids;
  keywords : list string
}.

(** [oracle.allocations] is a matrix whenever [solve_allocation] returns; the
    [None] it starts as is never read as a plan. *)
Definition init (linprog : Solver) (n_keywords : nat) (bids : Bids)
    (predicted_queries : dict Z) (running_in_balanced : bool)
    (cls : Advertiser.Registry) : Result t * Advertiser.Registry :=
  let '(working, cls1) := Advertiser.get_advertiser_list_copy cls in
  let oracle := OfflineMaximizationProblem.init n_keywords bids working predicted_queries in
  match OfflineMaximizationProblem.solve_allocation linprog oracle cls1 with
  | (Raise e, _, cls2) => (Raise e, cls2)
  | (Ok _, oracle', cls2) =>
      match OfflineMaximizationProblem.allocations oracle' with
      | None => (Raise TypeError, cls2)
      | Some plan =>
          let '(advs, cls3) :=
            if running_in_balanced then Advertiser.get_advertiser_list_copy cls2
            else (Advertiser.get_advertisers cls2, cls2) in
          (Ok (mk predicted_queries plan advs bids (dict_keys predicted_queries)), cls3)
      end
  end.

(** [self.offline_allocations[advertiser_idx][keyword_idx]] *)
Definition plan_cell (plan : list (list Z)) (advertiser_idx keyword_idx : nat) : Result Z :=
  do row <- list_item plan advertiser_idx ;
  list_item row keyword_idx.

(** The loop collecting the advertisers with a positive plan cell, by
    position; [i] is the position of the head of [advs]. *)
Fixpoint assigned_loop (plan : list (list Z)) (keyword_idx : nat)
    (advs : list Advertiser.t) (i : nat) : Result (list nat) :=
  match advs with
  | [] => Ok []
  | _ :: rest =>
      do cell <- plan_cell plan i keyword_idx ;
      do tl <- assigned_loop plan keyword_idx rest (S i) ;
      Ok (if Z.gtb cell 0 then i :: tl else tl)
  end.

(** The loop choosing the highest affordable bid among the assigned
    advertisers. *)
Fixpoint bid_loop (bids : Bids) (query : string) (advs : list Advertiser.t)
    (assigned_advertisers : list nat)
    (assigned_advertiser : option nat) (highest_bid : R)
  : Result (option nat * R) :=
  match assigned_advertisers with
  | [] => Ok (assigned_advertiser, highest_bid)
  | i :: rest =>
      do advertiser <- list_item advs i ;
      do row <- dict_item bids (Advertiser.name advertiser) ;
      let bid := dict_get_default row query 0 in
      if Rgeb (Advertiser.remaining_budget advertiser) bid && Rgtb bid highest_bid
      then bid_loop bids query advs rest (Some i) bid
      else bid_loop bids query advs rest assigned_advertiser highest_bid
  end.

Definition allocate_query (self : t) (query : string) (cls : Advertiser.Registry)
  : Result (option Advertiser.Ref * R) * t * Advertiser.Registry :=
  if Z.leb (dict_get_default (remaining_queries self) query 0%Z) 0 then
    (Ok (None, 0), self, cls)
  else
    match list_index (keywords self) query with
    | None => (Ok (None, 0), self, cls)
    | Some keyword_idx =>
        let advs := Advertiser.deref cls (advertisers self) in
        match assigned_loop (offline_allocations self) keyword_idx advs 0 with
        | Raise e => (Raise e, self, cls)
        | Ok [] => (Ok (None, 0), self, cls)
        | Ok assigned_advertisers =>
            match bid_loop (bids self) query advs assigned_advertisers None (-1) with
            | Raise e => (Raise e, self, cls)
            | Ok (None, _) => (Ok (None, 0), self, cls)
            | Ok (Some advertiser_idx, highest_bid) =>
                match plan_cell (offline_allocations self) advertiser_idx keyword_idx with
                | Raise e => (Raise e, self, cls)
                | Ok cell =>
                    let self1 :=
                      mk (remaining_queries self)
                         (OfflineMaximizationProblem.matrix_assign
                            (offline_allocations self) advertiser_idx keyword_idx
                            (cell - 1)%Z)
                         (advertisers self) (bids self) (keywords self) in
                    match Advertiser.deduct_at cls (advertisers self) advertiser_idx
                            highest_bid with
                    | (Raise e, cls') => (Raise e, self1, cls')
                    | (Ok _, cls') =>
                        match dict_item (remaining_queries self1) query with
                        | Raise e => (Raise e, self1, cls')
                        | Ok remaining =>
                            (Ok (Some (advertisers self, advertiser_idx), highest_bid),
                             mk (dict_set (remaining_queries self1) query (remaining - 1)%Z)
                                (offline_allocations self1) (advertisers self1)
                                (bids self1) (keywords self1),
                             cls')
                        end
                    end
                end
            end
        end
    end.

End OptimisticAlgorithm.

(** ** balanced.py *)

Module BalancedAlgorithm.

Record t : Type := mk {
  bids : Bids;
  optimistic_algorithm : OptimisticAlgorithm.t;
  pessimistic_algorithm : PessimisticAlgorithm.t;
  alpha : R;
  allocations : nat * nat
}.

Definition init (linprog : Solver) (n_keywords : nat) (bids : Bids)
    (predicted_queries : dict Z) (alpha : R) (cls : Advertiser.Registry)
  : Result t * Advertiser.Registry :=
  match OptimisticAlgorithm.init linprog n_keywords bids predicted_queries true cls with
  | (Raise e, cls1) => (Raise e, cls1)
  | (Ok o, cls1) =>
      let '(p, cls2) := PessimisticAlgorithm.init bids alpha true cls1 in
      (Ok (mk bids o p alpha (0%nat, 0%nat)), cls2)
  end.

(** [[adv for adv in Advertiser.get_advertisers() if adv.name == nm][0]]:
    the position of the first authoritative advertiser of that name. *)
Fixpoint find_by_name (advs : list Advertiser.t) (nm : string) (i : nat) : Result nat :=
  match advs with
  | [] => Raise IndexError
  | adv :: rest =>
      if String.eqb (Advertiser.name adv) nm then Ok i
      else find_by_name rest nm (S i)
  end.

(** Map a candidate of a sub-allocator to the authoritative advertiser of
    the same name. *)
Definition to_authoritative (cls : Advertiser.Registry)
    (candidate : option Advertiser.Ref * R) : Result (option nat * R) :=
  match candidate with
  | (Some (r, i), bid) =>
      do copy <- list_item (Advertiser.deref cls r) i ;
      do j <- find_by_name (Advertiser.advertisers cls) (Advertiser.name copy) 0 ;
      Ok (Some j, bid)
  | (None, _) => Ok (None, 0)
  end.

(** [phi_alpha(x[0].budget_fraction(), self.alpha) * x[1] if x[0] else
    float('-inf')] *)
Definition score_of (cls : Advertiser.Registry) (alpha : R)
    (x : option nat * R) : Result score :=
  match x with
  | (Some j, bid) =>
      do adv <- list_item (Advertiser.advertisers cls) j ;
      Ok (Fin (phi_alpha (Advertiser.budget_fraction adv) alpha * bid))
  | (None, _) => Ok NegInf
  end.

Definition with_allocators (self : t) (o : OptimisticAlgorithm.t) : t :=
  mk (bids self) o (pessimistic_algorithm self) (alpha self) (allocations self).

Definition count (self : t) (optimistic : bool) : t :=
  mk (bids self) (optimistic_algorithm self) (pessimistic_algorithm self) (alpha self)
     (if optimistic then (S (fst (allocations self)), snd (allocations self))
      else (fst (allocations self), S (snd (allocations self)))).

(** The candidates mapped to the authoritative list, their scores and the
    decision rule: [None] when neither sub-allocator has a candidate,
    otherwise the chosen branch ([true] for the optimistic one) with its
    advertiser and bid. *)
Definition decide (self : t) (cls : Advertiser.Registry)
    (o_copy p_copy : option Advertiser.Ref * R)
  : Result (option (bool * (option nat * R))) :=
  do o <- to_authoritative cls o_copy ;
  do p <- to_authoritative cls p_copy ;
  match fst o, fst p with
  | None, None => Ok None
  | _, _ =>
      do o_score <- score_of cls (alpha self) o ;
      do p_score <- score_of cls (alpha self) p ;
      if score_ge (score_scale (alpha self) o_score) p_score
      then Ok (Some (true, o))
      else Ok (Some (false, p))
  end.

(** The counter update and [chosen_advertiser.deduct_budget(bid_amount)]. *)
Definition commit (self : t) (cls : Advertiser.Registry)
    (decision : Result (option (bool * (option nat * R))))
  : Result (option Advertiser.Ref * R) * t * Advertiser.Registry :=
  match decision with
  | Raise e => (Raise e, self, cls)
  | Ok None => (Ok (None, 0), self, cls)
  | Ok (Some (optimistic, (chosen_advertiser, bid_amount))) =>
      let self' := count self optimistic in
      match chosen_advertiser with
      | None => (Raise AttributeError, self', cls)
      | Some j =>
          match Advertiser.deduct_at cls Advertiser.Authoritative j bid_amount with
          | (Raise e, cls') => (Raise e, self', cls')
          | (Ok _, cls') =>
              (Ok (Some (Advertiser.Authoritative, j), bid_amount), self', cls')
          end
      end
  end.

Definition allocate_query (self : t) (query : string) (cls : Advertiser.Registry)
  : Result (option Advertiser.Ref * R) * t * Advertiser.Registry :=
  let cls0 := Advertiser.reset_advertiser_list_copy cls in
  match OptimisticAlgorithm.allocate_query (optimistic_algorithm self) query cls0 with
  | (Raise e, o', cls1) => (Raise e, with_allocators self o', cls1)
  | (Ok o_copy, o', cls1) =>
      let self1 := with_allocators self o' in
      match PessimisticAlgorithm.allocate_query (pessimistic_algorithm self) query cls1 with
      | (Raise e, cls2) => (Raise e, self1, cls2)
      | (Ok p_copy, cls2) => commit self1 cls2 (decide self cls2 o_copy p_copy)
      end
  end.

End BalancedAlgorithm.

(** ** A simulation run, as the sequence of calls that touch the ledger *)

Module Simulation.

(** The calls of a run.  An allocate call carries the allocator object it is
    made on, in whatever state that object is. *)
Inductive event : Type :=
| NewAdvertiser (nm : string) (initial_budget : R)
| ResetBudgets
| ResetAdvertiserListCopy
| GetAdvertiserListCopy
| NewPessimistic (bids : Bids) (alpha : R) (running_in_balanced : bool)
| NewOptimistic (linprog : Solver) (n_keywords : nat) (bids : Bids)
    (predicted_queries : dict Z) (running_in_balanced : bool)
| NewBalanced (linprog : Solver) (n_keywords : nat) (bids : Bids)
    (predicted_queries : dict Z) (alpha : R)
| PessimisticQuery (self : PessimisticAlgorithm.t) (query : string)
| OptimisticQuery (self : OptimisticAlgorithm.t) (query : string)
| BalancedQuery (self : BalancedAlgorithm.t) (query : string).

(** The ledger after one call; an exception leaves it as it was when raised. *)
Definition step (cls : Advertiser.Registry) (ev : event) : Advertiser.Registry :=
  match ev with
  | NewAdvertiser nm b => Advertiser.init nm b cls
  | ResetBudgets => Advertiser.reset_budgets cls
  | ResetAdvertiserListCopy => Advertiser.reset_advertiser_list_copy cls
  | GetAdvertiserListCopy => snd (Advertiser.get_advertiser_list_copy cls)
  | NewPessimistic bids alpha rib => snd (PessimisticAlgorithm.init bids alpha rib cls)
  | NewOptimistic linprog n bids predicted rib =>
      snd (OptimisticAlgorithm.init linprog n bids predicted rib cls)
  | NewBalanced linprog n bids predicted alpha =>
      snd (BalancedAlgorithm.init linprog n bids predicted alpha cls)
  | PessimisticQuery self query => snd (PessimisticAlgorithm.allocate_query self query cls)
  | OptimisticQuery self query => snd (OptimisticAlgorithm.allocate_query self query cls)
  | BalancedQuery self query => snd (BalancedAlgorithm.allocate_query self query cls)
  end.

Definition run (events : list event) (cls : Advertiser.Registry) : Advertiser.Registry :=
  fold_left step events cls.

End Simulation.

(** ** A small run of the balanced allocator

    One advertiser [A1] with budget 10 and bid 1 on [k1], five predicted
    queries of [k1], [alpha = 1]; the solver answers the optimum [x = 5]. *)

Module Example.

Definition bids : Bids := [("A1", [("k1", 1)])]%string.

Definition predicted_queries : dict Z := [("k1", 5%Z)]%string.

Definition linprog : Solver := fun _ _ _ _ => Some [5].

(** The registry after [Advertiser("A1", 10)] and the driver's
    [reset_advertiser_list_copy()]. *)
Definition cls : Advertiser.Registry :=
  Advertiser.reset_advertiser_list_copy (Advertiser.init "A1" 10 Advertiser.empty).

(** The allocator [BalancedAlgorithm(1, bids, predicted_queries, 1)] and the
    registry it leaves. *)
Definition optimistic : OptimisticAlgorithm.t :=
  OptimisticAlgorithm.mk predicted_queries [[5%Z]] (Advertiser.Snapshot 0) bids
                         ["k1"%string].

Definition pessimistic : PessimisticAlgorithm.t :=
  PessimisticAlgorithm.mk bids (Advertiser.Snapshot 0) 1.

Definition balanced : BalancedAlgorithm.t :=
  BalancedAlgorithm.mk bids optimistic pessimistic 1 (0%nat, 0%nat).

Definition cls_built : Advertiser.Registry :=
  Advertiser.mkRegistry [Advertiser.mk "A1" 10 0] [[Advertiser.mk "A1" 10 5]]
                        (Some 0%nat).

(** The allocator and the registry after the first query [k1]. *)
Definition balanced_served : BalancedAlgorithm.t :=
  BalancedAlgorithm.mk bids
    (OptimisticAlgorithm.mk [("k1", 4%Z)]%string [[4%Z]] (Advertiser.Snapshot 0) bids
                            ["k1"%string])
    pessimistic 1 (1%nat, 0%nat).

Definition cls_served : Advertiser.Registry :=
  Advertiser.mkRegistry [Advertiser.mk "A1" 10 1]
    [[Advertiser.mk "A1" 10 7]; [Advertiser.mk "A1" 10 0]] (Some 1%nat).

End Example.

(** ** experiment.py *)

Module Experiment.

(** The dictionary [run_experiment] returns. *)
Record Summary : Type := mkSummary {
  replication : Z;
  prediction_error_level : R;
  alpha : R;
  optimistic_revenue : R;
  pessimistic_revenue : R;
  balanced_revenue : R
}.

(** The three [for query in query_sequence] loops; a loop stops at the first
    exception. *)
Fixpoint optimistic_loop (optimistic_algorithm : OptimisticAlgorithm.t)
    (query_sequence : list string) (optimistic_revenue : R)
    (cls : Advertiser.Registry) : Result R * Advertiser.Registry :=
  match query_sequence with
  | [] => (Ok optimistic_revenue, cls)
  | query :: rest =>
      match OptimisticAlgorithm.allocate_query optimistic_algorithm query cls with
      | (Raise e, _, cls') => (Raise e, cls')
      | (Ok (opt_advertiser, bid), optimistic_algorithm', cls') =>
          optimistic_loop optimistic_algorithm' rest
            (match opt_advertiser with
             | Some _ => optimistic_revenue + bid
             | None => optimistic_revenue
             end) cls'
      end
  end.

Fixpoint pessimistic_loop (pessimistic_algorithm : PessimisticAlgorithm.t)
    (query_sequence : list string) (pessimistic_revenue : R)
    (cls : Advertiser.Registry) : Result R * Advertiser.Registry :=
  match query_sequence with
  | [] => (Ok pessimistic_revenue, cls)
  | query :: rest =>
      match PessimisticAlgorithm.allocate_query pessimistic_algorithm query cls with
      | (Raise e, cls') => (Raise e, cls')
      | (Ok (pess_advertiser, bid), cls') =>
          pessimistic_loop pessimistic_algorithm rest
            (match pess_advertiser with
             | Some _ => pessimistic_revenue + bid
             | None => pessimistic_revenue
             end) cls'
      end
  end.

Fixpoint balanced_loop (balanced_algorithm : BalancedAlgorithm.t)
    (query_sequence : list string) (balanced_revenue : R)
    (cls : Advertiser.Registry) : Result R * Advertiser.Registry :=
  match query_sequence with
  | [] => (Ok balanced_revenue, cls)
  | query :: rest =>
      match BalancedAlgorithm.allocate_query balanced_algorithm query cls with
      | (Raise e, _, cls') => (Raise e, cls')
      | (Ok (balanced_advertiser, bid), balanced_algorithm', cls') =>
          balanced_loop balanced_algorithm' rest
            (match balanced_advertiser with
             | Some _ => balanced_revenue + bid
             | None => balanced_revenue
             end) cls'
      end
  end.

(** [Advertiser.reset_budgets(); Advertiser.reset_advertiser_list_copy()] *)
Definition fresh_start (cls : Advertiser.Registry) : Advertiser.Registry :=
  Advertiser.reset_advertiser_list_copy (Advertiser.reset_budgets cls).

(** The optimistic phase of [run_experiment]. *)
Definition optimistic_phase (linprog : Solver) (bids : Bids) (query_sequence : list string)
    (predicted_queries : dict Z) (n_keywords : nat) (cls : Advertiser.Registry)
  : Result R * Advertiser.Registry :=
  match OptimisticAlgorithm.init linprog n_keywords bids predicted_queries false
          (fresh_start cls) with
  | (Raise e, cls') => (Raise e, cls')
  | (Ok optimistic_algorithm, cls') =>
      optimistic_loop optimistic_algorithm query_sequence 0 cls'
  end.

(** The pessimistic phase. *)
Definition pessimistic_phase (bids : Bids) (query_sequence : list string) (alpha : R)
    (cls : Advertiser.Registry) : Result R * Advertiser.Registry :=
  let '(pessimistic_algorithm, cls') :=
    PessimisticAlgorithm.init bids alpha false (fresh_start cls) in
  pessimistic_loop pessimistic_algorithm query_sequence 0 cls'.

(** The balanced phase. *)
Definition balanced_phase (linprog : Solver) (bids : Bids) (query_sequence : list string)
    (predicted_queries : dict Z) (n_keywords : nat) (alpha : R)
    (cls : Advertiser.Registry) : Result R * Advertiser.Registry :=
  match BalancedAlgorithm.init linprog n_keywords bids predicted_queries alpha
          (fresh_start cls) with
  | (Raise e, cls') => (Raise e, cls')
  | (Ok balanced_algorithm, cls') =>
      balanced_loop balanced_algorithm query_sequence 0 cls'
  end.

(** [run_experiment]; its [advertisers] argument is not used by the body,
    which works on the class registry. *)
Definition run_experiment (linprog : Solver) (rep : Z) (bids : Bids)
    (query_sequence : list string) (predicted_queries : dict Z) (n_keywords : nat)
    (prediction_error_level : R) (alpha : R) (cls : Advertiser.Registry)
  : Result Summary * Advertiser.Registry :=
  match optimistic_phase linprog bids query_sequence predicted_queries n_keywords cls with
  | (Raise e, cls1) => (Raise e, cls1)
  | (Ok optimistic_revenue, cls1) =>
      match pessimistic_phase bids query_sequence alpha cls1 with
      | (Raise e, cls2) => (Raise e, cls2)
      | (Ok pessimistic_revenue, cls2) =>
          match balanced_phase linprog bids query_sequence predicted_queries n_keywords
                  alpha cls2 with
          | (Raise e, cls3) => (Raise e, cls3)
          | (Ok balanced_revenue, cls3) =>
              (Ok (mkSummary rep prediction_error_level alpha optimistic_revenue
                             pessimistic_revenue balanced_revenue),
               cls3)
          end
      end
  end.

End Experiment.

(** ** A run with a repeated name

    The driver registers its advertisers anew in every repetition and never
    empties [Advertiser.advertisers]: from the second repetition on the
    registry holds every name more than once.  Here [A1] of an earlier
    repetition has budget 1, [A1] of the current one budget 5; the bid of
    [A1] on [k1] is 2, one query of [k1] is predicted, [alpha = 1], and the
    solver answers the optimum [x = [0, 1]]. *)

Module Repeated.

Definition bids : Bids := [("A1", [("k1", 2)])]%string.

Definition predicted_queries : dict Z := [("k1", 1%Z)]%string.

Definition linprog : Solver := fun _ _ _ _ => Some [0; 1].

(** The registry after [Advertiser("A1", 1)], [Advertiser("A1", 5)] and the
    driver's [reset_budgets()] and [reset_advertiser_list_copy()]. *)
Definition cls : Advertiser.Registry :=
  Experiment.fresh_start
    (Advertiser.init "A1" 5 (Advertiser.init "A1" 1 Advertiser.empty)).

(** The allocator [BalancedAlgorithm(1, bids, predicted_queries, 1)] and the
    registry it leaves: the plan gives the one query to the second [A1], whose
    copy the rounding has charged. *)
Definition optimistic : OptimisticAlgorithm.t :=
  OptimisticAlgorithm.mk predicted_queries [[0%Z]; [1%Z]] (Advertiser.Snapshot 0) bids
                         ["k1"%string].

Definition pessimistic : PessimisticAlgorithm.t :=
  PessimisticAlgorithm.mk bids (Advertiser.Snapshot 0) 1.

Definition balanced : BalancedAlgorithm.t :=
  BalancedAlgorithm.mk bids optimistic pessimistic 1 (0%nat, 0%nat).

Definition cls_built : Advertiser.Registry :=
  Advertiser.mkRegistry [Advertiser.mk "A1" 1 0; Advertiser.mk "A1" 5 0]
                        [[Advertiser.mk "A1" 1 0; Advertiser.mk "A1" 5 2]]
                        (Some 0%nat).

End Repeated.

(** ** The same code on binary64 numbers

    The modules above compute with exact real numbers, which is what the
    frame and structure properties need.  The interpreter computes with
    IEEE 754 binary64 numbers: [+], [-], [*] and [/] round to nearest, ties to
    even, and a comparison with a NaN is false.  [Double] embeds the
    arithmetic of the ledger, of the scoring function and of the pessimistic
    allocator on the kernel's binary64 numbers, operation for operation.
    [math.exp] is the platform's; it is a parameter, an exception standing
    for its [OverflowError]. *)

Module Double.

(** [a > b] and [a >= b] *)
Definition gt (a b : float) : bool := PrimFloat.ltb b a.
Definition ge (a b : float) : bool := PrimFloat.leb b a.

Module Advertiser.

Record t : Type := mk {
  name : string;
  initial_budget : float;
  spent_budget : float
}.

(** [Advertiser(name, initial_budget)]: [self.spent_budget = 0.0] *)
Definition init (name : string) (initial_budget : float) : t :=
  mk name initial_budget 0%float.

Definition remaining_budget (self : t) : float :=
  (initial_budget self - spent_budget self)%float.

Definition budget_fraction (self : t) : float :=
  if PrimFloat.eqb (initial_budget self) 0%float then 1%float
  else (spent_budget self / initial_budget self)%float.

Definition deduct_budget (self : t) (amount : float) : Result t :=
  if gt amount (remaining_budget self) then Raise ValueError
  else Ok (mk (name self) (initial_budget self) (spent_budget self + amount)%float).

End Advertiser.

(** The bid table: advertiser name -> keyword -> bid. *)
Definition Bids : Type := dict (dict float).

(** The real number a double stands for (0 for the infinities and NaN). *)
Definition to_R (x : float) : R :=
  match Prim2SF x with
  | S754_finite s m e => IZR (if s then Z.neg m else Z.pos m) * powerRZ 2 e
  | _ => 0
  end.

Section Platform.

Variable math_exp : float -> Result float.

(** [1 - math.exp(alpha * (f - 1))] *)
Definition phi_alpha (f alpha : float) : Result float :=
  do e <- math_exp (alpha * (f - 1))%float ;
  Ok (1 - e)%float.

(** [self.bids.get(advertiser.name, {}).get(query, 0)] *)
Definition bid_of (bids : Bids) (advertiser : Advertiser.t) (query : string) : float :=
  dict_get_default (dict_get_default bids (Advertiser.name advertiser) []) query 0%float.

(** [bid > 0 and advertiser.remaining_budget() >= bid] *)
Definition eligible (bids : Bids) (query : string) (advertiser : Advertiser.t) : bool :=
  gt (bid_of bids advertiser query) 0%float
  && ge (Advertiser.remaining_budget advertiser) (bid_of bids advertiser query).

(** [phi_alpha(advertiser.budget_fraction(), self.alpha) * bid] *)
Definition score_of (bids : Bids) (alpha : float) (query : string)
    (advertiser : Advertiser.t) : Result float :=
  do phi <- phi_alpha (Advertiser.budget_fraction advertiser) alpha ;
  Ok (phi * bid_of bids advertiser query)%float.

(** The [for advertiser in self.advertisers] loop of
    [PessimisticAlgorithm.allocate_query]; [i] is the position of the head
    of [advs] in the whole list. *)
Fixpoint scan (bids : Bids) (alpha : float) (query : string)
    (advs : list Advertiser.t) (i : nat)
    (best_advertiser : option nat) (highest_score : float) (best_bid : float)
  : Result (option nat * float * float) :=
  match advs with
  | [] => Ok (best_advertiser, highest_score, best_bid)
  | advertiser :: rest =>
      if eligible bids query advertiser then
        do score <- score_of bids alpha query advertiser ;
        if gt score highest_score then
          scan bids alpha query rest (S i) (Some i) score (bid_of bids advertiser query)
        else scan bids alpha query rest (S i) best_advertiser highest_score best_bid
      else scan bids alpha query rest (S i) best_advertiser highest_score best_bid
  end.

(** [PessimisticAlgorithm.allocate_query] on the list [self.advertisers]
    refers to, which is returned as the call leaves it; the advertiser is
    returned by its position. *)
Definition allocate_query (bids : Bids) (alpha : float) (query : string)
    (advertisers : list Advertiser.t)
  : Result (option nat * float) * list Advertiser.t :=
  match scan bids alpha query advertisers 0 None neg_infinity 0%float with
  | Raise e => (Raise e, advertisers)
  | Ok (Some i, _, best_bid) =>
      match nth_error advertisers i with
      | None => (Raise IndexError, advertisers)
      | Some best_advertiser =>
          match Advertiser.deduct_budget best_advertiser best_bid with
          | Raise e => (Raise e, advertisers)
          | Ok charged => (Ok (Some i, best_bid), list_assign advertisers i charged)
          end
      end
  | Ok (None, _, _) => (Ok (None, 0%float), advertisers)
  end.

End Platform.

(** The score of the specification, [(1 - e^(alpha (f - 1))) * bid] with [f]
    the spent fraction of the budget, on the real numbers the stored doubles
    stand for and without rounding. *)
Definition exact_fraction (advertiser : Advertiser.t) : R :=
  if Req_dec_T (to_R (Advertiser.initial_budget advertiser)) 0 then 1
  else to_R (Advertiser.spent_budget advertiser)
       / to_R (Advertiser.initial_budget advertiser).

Definition exact_score (bids : Bids) (alpha : float) (query : string)
    (advertiser : Advertiser.t) : R :=
  (1 - exp (to_R alpha * (exact_fraction advertiser - 1)))
  * to_R (bid_of bids advertiser query).

(** *** The rounding of the plan, on Python numbers

    Budgets, bids and the LP answer are floats, the predicted counts are
    ints; [min] returns one of its arguments as it is, so that
    [max_allocation] and the remaining counts are ints or floats. *)

Inductive num : Type :=
| Int (z : Z)
| Float (x : float).

Definition signed (s : bool) (m : positive) : Z := if s then Z.neg m else Z.pos m.

(** [float(z)]: the nearest double, [OverflowError] beyond the range. *)
Definition float_of_int (z : Z) : Result float :=
  match binary_normalize prec emax z 0 false with
  | S754_infinity _ => Raise OverflowError
  | x => Ok (SF2Prim x)
  end.

(** [int(x)]: towards zero. *)
Definition py_int (x : float) : Result Z :=
  match Prim2SF x with
  | S754_nan => Raise ValueError
  | S754_infinity _ => Raise OverflowError
  | S754_zero _ => Ok 0%Z
  | S754_finite s m e =>
      Ok (if (0 <=? e)%Z then signed s m * 2 ^ e
          else Z.quot (signed s m) (2 ^ (- e)))%Z
  end.

(** [z < x] and [x < z] for an int and a float: Python compares the two
    exactly. *)
Definition int_lt_float (z : Z) (x : float) : bool :=
  match Prim2SF x with
  | S754_nan => false
  | S754_infinity s => negb s
  | S754_zero _ => (z <? 0)%Z
  | S754_finite s m e =>
      if (0 <=? e)%Z then (z <? signed s m * 2 ^ e)%Z
      else (z * 2 ^ (- e) <? signed s m)%Z
  end.

Definition float_lt_int (x : float) (z : Z) : bool :=
  match Prim2SF x with
  | S754_nan => false
  | S754_infinity s => s
  | S754_zero _ => (0 <? z)%Z
  | S754_finite s m e =>
      if (0 <=? e)%Z then (signed s m * 2 ^ e <? z)%Z
      else (signed s m <? z * 2 ^ (- e))%Z
  end.

Definition num_lt (a b : num) : bool :=
  match a, b with
  | Int x, Int y => (x <? y)%Z
  | Int x, Float y => int_lt_float x y
  | Float x, Int y => float_lt_int x y
  | Float x, Float y => PrimFloat.ltb x y
  end.

(** [min(a, b, c)]: the first of the least. *)
Definition min3 (a b c : num) : num :=
  let m := if num_lt b a then b else a in
  if num_lt c m then c else m.

(** [n * bid] with a float [bid] *)
Definition num_mul (n : num) (bid : float) : Result float :=
  match n with
  | Int z => do x <- float_of_int z ; Ok (x * bid)%float
  | Float x => Ok (x * bid)%float
  end.

(** [a - b] *)
Definition num_sub (a b : num) : Result num :=
  match a, b with
  | Int x, Int y => Ok (Int (x - y))
  | Int x, Float y => do x' <- float_of_int x ; Ok (Float (x' - y))
  | Float x, Int y => do y' <- float_of_int y ; Ok (Float (x - y'))
  | Float x, Float y => Ok (Float (x - y))
  end.

(** [allocations[i, j] = n] on an array of 64-bit ints: a float goes
    through [int]. *)
Definition to_int64 (n : num) : Result Z :=
  do z <- match n with
          | Int z => Ok z
          | Float x => py_int x
          end ;
  if ((- 2 ^ 63 <=? z) && (z <? 2 ^ 63))%Z then Ok z else Raise OverflowError.

(** C's [fmod], which is exact: the remainder has the sign of [x]. *)
Definition fmod (x y : float) : float :=
  match Prim2SF x, Prim2SF y with
  | S754_nan, _ | _, S754_nan => nan
  | S754_infinity _, _ => nan
  | _, S754_zero _ => nan
  | _, S754_infinity _ => x
  | S754_zero _, _ => x
  | S754_finite sx mx ex, S754_finite _ my ey =>
      let e := Z.min ex ey in
      let r := Z.rem (Z.pos mx * 2 ^ (ex - e)) (Z.pos my * 2 ^ (ey - e)) in
      SF2Prim (binary_normalize prec emax (if sx then - r else r)%Z e sx)
  end.

(** C's [floor] *)
Definition floor (x : float) : float :=
  match Prim2SF x with
  | S754_finite s m e =>
      if (0 <=? e)%Z then x
      else SF2Prim (binary_normalize prec emax (signed s m / 2 ^ (- e))%Z 0 s)
  | _ => x
  end.

(** [copysign(0.0, x)] *)
Definition signed_zero (x : float) : float :=
  match Prim2SF x with
  | S754_zero true | S754_infinity true | S754_finite true _ _ => (-0)%float
  | _ => 0%float
  end.

Definition nonzero (x : float) : bool := negb (PrimFloat.eqb x 0%float).

(** [vx // wx] on floats, as CPython computes it: the quotient of
    [vx - fmod(vx, wx)] by [wx], lowered by one when the remainder and the
    divisor differ in sign, then snapped to the nearest integral value. *)
Definition floor_div (vx wx : float) : Result float :=
  if PrimFloat.eqb wx 0%float then Raise ZeroDivisionError
  else
    let remainder := fmod vx wx in
    let div := ((vx - remainder) / wx)%float in
    let div :=
      if nonzero remainder
         && negb (Bool.eqb (PrimFloat.ltb wx 0%float) (PrimFloat.ltb remainder 0%float))
      then (div - 1)%float else div in
    if nonzero div then
      let floordiv := floor div in
      Ok (if PrimFloat.ltb 0.5%float (div - floordiv)%float
          then (floordiv + 1)%float else floordiv)
    else Ok (signed_zero (vx / wx)%float).

(** [sorted(idxs, key=lambda i: -solution[i])]: stable, ascending in the
    key. *)
Fixpoint insert_by (key : nat -> float) (x : nat) (l : list nat) : list nat :=
  match l with
  | [] => [x]
  | y :: l' =>
      if PrimFloat.ltb (key y) (key x) then y :: insert_by key x l'
      else x :: y :: l'
  end.

Definition sorted_by (key : nat -> float) (l : list nat) : list nat :=
  fold_right (insert_by key) [] l.

(** [{keyword: self.predicted_queries[keyword] for keyword in keywords}] *)
Fixpoint demand_of (predicted_queries : dict Z) (keywords : list string)
    (acc : dict num) : Result (dict num) :=
  match keywords with
  | [] => Ok acc
  | keyword :: rest =>
      do demand <- dict_item predicted_queries keyword ;
      demand_of predicted_queries rest (dict_set acc keyword (Int demand))
  end.

(** What one round of the loop looks up and computes for the variable
    [idx]. *)
Definition allocation_at (bids : Bids) (advs : list Advertiser.t)
    (solution : list float) (n_advertisers : nat) (keywords : list string)
    (remaining_queries : dict num) (idx : nat)
  : Result (nat * nat * string * float * num * num) :=
  do _ <- (if Nat.eqb n_advertisers 0 then Raise ZeroDivisionError else Ok tt) ;
  let advertiser_idx := (idx mod n_advertisers)%nat in
  let keyword_idx := (idx / n_advertisers)%nat in
  do advertiser <- list_item advs advertiser_idx ;
  do keyword <- list_item keywords keyword_idx ;
  do rounded_down <- py_int (nth idx solution 0%float) ;
  do remaining <- dict_item remaining_queries keyword ;
  do row <- dict_item bids (Advertiser.name advertiser) ;
  let bid := dict_get_default row keyword 1%float in
  do affordable <-
     floor_div (Advertiser.initial_budget advertiser
                - Advertiser.spent_budget advertiser)%float bid ;
  Ok (advertiser_idx, keyword_idx, keyword, bid,
      min3 (Int rounded_down) remaining (Float affordable), remaining).

(** The rounding loop, over the sorted indices. *)
Fixpoint round_loop (bids : Bids) (solution : list float) (n_advertisers : nat)
    (keywords : list string) (fractional_indices : list nat)
    (allocations : list (list Z)) (remaining_queries : dict num)
    (advs : list Advertiser.t)
  : Result (list (list Z)) * list Advertiser.t :=
  match fractional_indices with
  | [] => (Ok allocations, advs)
  | idx :: rest =>
      if PrimFloat.eqb (nth idx solution 0%float) 0%float then
        round_loop bids solution n_advertisers keywords rest
                   allocations remaining_queries advs
      else
        match allocation_at bids advs solution n_advertisers keywords
                remaining_queries idx with
        | Raise e => (Raise e, advs)
        | Ok (advertiser_idx, keyword_idx, keyword, bid, max_allocation, remaining) =>
            match to_int64 max_allocation with
            | Raise e => (Raise e, advs)
            | Ok cell =>
                let allocations :=
                  OfflineMaximizationProblem.matrix_assign allocations
                    advertiser_idx keyword_idx cell in
                match
                  (do amount <- num_mul max_allocation bid ;
                   do advertiser <- list_item advs advertiser_idx ;
                   Advertiser.deduct_budget advertiser amount)
                with
                | Raise e => (Raise e, advs)
                | Ok charged =>
                    let advs := list_assign advs advertiser_idx charged in
                    match num_sub remaining max_allocation with
                    | Raise e => (Raise e, advs)
                    | Ok remaining_left =>
                        round_loop bids solution n_advertisers keywords rest
                          allocations (dict_set remaining_queries keyword remaining_left) advs
                    end
                end
            end
        end
  end.

(** [round_solution_to_integers] on the advertisers [self.advertisers]
    holds, returned as the call leaves them, with the plan it stores. *)
Definition round_solution_to_integers (bids : Bids) (advs : list Advertiser.t)
    (predicted_queries : dict Z) (solution : list float) (n_advertisers : nat)
    (keywords : list string)
  : Result (list (list Z)) * list Advertiser.t :=
  match demand_of predicted_queries keywords [] with
  | Raise e => (Raise e, advs)
  | Ok remaining_queries =>
      round_loop bids solution n_advertisers keywords
        (sorted_by (fun i => (- nth i solution 0)%float) (seq 0 (List.length solution)))
        (repeat (repeat 0%Z (List.length keywords)) n_advertisers)
        remaining_queries advs
  end.

End Double.

(** ** Two advertisers a rounding apart

    Both have the budget 1e17 and bid 1 on k1; the first has spent 1, the
    second nothing. *)

Module NearTie.

Definition A1 : Double.Advertiser.t := Double.Advertiser.mk "A1" 1e17%float 1%float.
Definition A2 : Double.Advertiser.t := Double.Advertiser.mk "A2" 1e17%float 0%float.
Definition bids : Double.Bids :=
  [("A1", [("k1", 1%float)]); ("A2", [("k1", 1%float)])]%string.

End NearTie.

Set Warnings "-inexact-float".

(** ** One advertiser whose bids add up to its budget

    The budget is 0.3 and the bids are 0.03 on k1 and 0.27 on k2; one query
    of each keyword is predicted and the LP answers one unit of each. *)

Module Tight.

Definition bids : Double.Bids := [("A1", [("k1", 0.03%float); ("k2", 0.27%float)])]%string.
Definition advertisers : list Double.Advertiser.t := [Double.Advertiser.init "A1" 0.3%float].
Definition predicted_queries : dict Z := [("k1", 1%Z); ("k2", 1%Z)]%string.
Definition solution : list float := [1%float; 1%float].

End Tight.

(** ** Specification predicates *)

(** The ledger invariant of one advertiser. *)
Definition adv_ok (a : Advertiser.t) : Prop :=
  0 <= Advertiser.spent_budget a <= Advertiser.initial_budget a.

(** The invariant for every advertiser object there is: the authoritative
    ones and those of every copy. *)
Definition reg_ok (cls : Advertiser.Registry) : Prop :=
  Forall adv_ok (Advertiser.advertisers cls) /\
  Forall (Forall adv_ok) (Advertiser.copies cls).

(** The bid table holds non-negative bids only. *)
Definition bids_nonneg (bids : Bids) : Prop :=
  forall nm row kw v,
    dict_get bids nm = Some row -> dict_get row kw = Some v -> 0 <= v.

(** Every count of a dictionary is non-negative. *)
Definition dict_nonneg (d : dict Z) : Prop :=
  forall k v, dict_get d k = Some v -> (0 <= v)%Z.

(** [plan[i][j]], zero outside the matrix. *)
Definition cell (plan : list (list Z)) (i j : nat) : Z := nth j (nth i plan []) 0%Z.

(** Sums over [0 .. n-1]. *)
Fixpoint sumZ (f : nat -> Z) (n : nat) : Z :=
  match n with
  | O => 0%Z
  | S n' => (sumZ f n' + f n')%Z
  end.

Fixpoint sumR (f : nat -> R) (n : nat) : R :=
  match n with
  | O => 0
  | S n' => sumR f n' + f n'
  end.

(** The units of the keyword at position [j] the plan hands out, over the
    [n] advertisers. *)
Definition column_total (plan : list (list Z)) (n j : nat) : Z :=
  sumZ (fun i => cell plan i j) n.

(** What the row [i] of the plan costs the advertiser called [nm], at the bids
    [bid nm keyword]. *)
Definition row_cost (bid : string -> string -> R) (keywords : list string)
    (plan : list (list Z)) (i : nat) (nm : string) : R :=
  sumR (fun j => IZR (cell plan i j) * bid nm (nth j keywords EmptyString))
       (List.length keywords).

(** The bid of the bid table, [0] where there is none. *)
Definition table_bid (bids : Bids) (nm keyword : string) : R :=
  dict_get_default (dict_get_default bids nm []) keyword 0.

(** The bid the rounding charges, [1] where the keyword has none. *)
Definition rounding_bid (bids : Bids) (nm keyword : string) : R :=
  dict_get_default (dict_get_default bids nm []) keyword 1.

(** The solver respects the bounds [(0, None)] it is given. *)
Definition solver_nonneg (linprog : Solver) : Prop :=
  forall c A_ub b_ub method x,
    linprog c A_ub b_ub method = Some x -> Forall (fun v => 0 <= v) x.

(** The inputs of a call are those of the data model: budgets, bids, demands
    and LP values are non-negative. *)
Definition event_ok (ev : Simulation.event) : Prop :=
  match ev with
  | Simulation.NewAdvertiser _ b => 0 <= b
  | Simulation.NewOptimistic linprog _ bids predicted _
  | Simulation.NewBalanced linprog _ bids predicted _ =>
      solver_nonneg linprog /\ bids_nonneg bids /\ dict_nonneg predicted
  | Simulation.OptimisticQuery self _ => bids_nonneg (OptimisticAlgorithm.bids self)
  | Simulation.BalancedQuery self _ =>
      bids_nonneg (OptimisticAlgorithm.bids (BalancedAlgorithm.optimistic_algorithm self))
  | _ => True
  end.

(** Every bid of the table is strictly positive. *)
Definition bids_positive (bids : Bids) : Prop :=
  forall nm row kw v,
    dict_get bids nm = Some row -> dict_get row kw = Some v -> 0 < v.

(** Every advertiser of the list has a row in the bid table. *)
Definition bids_cover (bids : Bids) (advs : list Advertiser.t) : Prop :=
  Forall (fun a => dict_get bids (Advertiser.name a) <> None) advs.

(** The advertiser after a successful deduction of [amount]. *)
Definition bump (a : Advertiser.t) (amount : R) : Advertiser.t :=
  Advertiser.mk (Advertiser.name a) (Advertiser.initial_budget a)
                (Advertiser.spent_budget a + amount).

(** A shadow list stands for the authoritative one: same advertisers in the
    same order, none with less spent than its authoritative counterpart. *)
Definition covers (auth shadow : list Advertiser.t) : Prop :=
  List.length shadow = List.length auth /\
  forall i a, nth_error auth i = Some a ->
    exists s, nth_error shadow i = Some s /\
      Advertiser.name s = Advertiser.name a /\
      Advertiser.initial_budget s = Advertiser.initial_budget a /\
      Advertiser.spent_budget a <= Advertiser.spent_budget s.

(** A candidate of a sub-allocator that works on the copy [k]: an object of
    that copy whose authoritative counterpart can afford the bid. *)
Definition candidate_ok (auth shadow : list Advertiser.t) (k : nat)
    (candidate : option Advertiser.Ref * R) : Prop :=
  match candidate with
  | (Some (r, i), b) =>
      r = Advertiser.Snapshot k /\ 0 <= b /\
      exists s a,
        nth_error shadow i = Some s /\ nth_error auth i = Some a /\
        Advertiser.name s = Advertiser.name a /\
        b <= Advertiser.remaining_budget a /\
        Advertiser.spent_budget a + b <= Advertiser.spent_budget s
  | (None, b) => b = 0
  end.

(** The state in which the balanced allocator takes a query: both
    sub-allocators hold the copy [k], which stands for the authoritative list,
    whose names are distinct; [alpha] is positive and bids are non-negative. *)
Definition balanced_ready (self : BalancedAlgorithm.t) (cls : Advertiser.Registry)
    (k : nat) : Prop :=
  0 < BalancedAlgorithm.alpha self /\
  OptimisticAlgorithm.advertisers (BalancedAlgorithm.optimistic_algorithm self)
  = Advertiser.Snapshot k /\
  PessimisticAlgorithm.advertisers (BalancedAlgorithm.pessimistic_algorithm self)
  = Advertiser.Snapshot k /\
  (k < List.length (Advertiser.copies cls))%nat /\
  covers (Advertiser.advertisers cls) (Advertiser.deref cls (Advertiser.Snapshot k)) /\
  NoDup (map Advertiser.name (Advertiser.advertisers cls)) /\
  bids_nonneg (OptimisticAlgorithm.bids (BalancedAlgorithm.optimistic_algorithm self)).

(** What the scan knows after the advertisers of [pre]. *)
Definition scan_inv (bids : Bids) (alpha : R) (query : string)
    (pre : list Advertiser.t) (st : option nat * score * R) : Prop :=
  match st with
  | (None, hs, _) =>
      hs = NegInf /\
      forall a, In a pre -> PessimisticAlgorithm.eligible bids query a = false
  | (Some k, hs, bb) =>
      exists a,
        nth_error pre k = Some a /\
        PessimisticAlgorithm.eligible bids query a = true /\
        hs = Fin (PessimisticAlgorithm.score_of bids alpha query a) /\
        bb = PessimisticAlgorithm.bid_of bids a query /\
        (forall j a', nth_error pre j = Some a' ->
           PessimisticAlgorithm.eligible bids query a' = true ->
           PessimisticAlgorithm.score_of bids alpha query a'
           <= PessimisticAlgorithm.score_of bids alpha query a) /\
        (forall j a', (j < k)%nat -> nth_error pre j = Some a' ->
           PessimisticAlgorithm.eligible bids query a' = true ->
           PessimisticAlgorithm.score_of bids alpha query a'
           < PessimisticAlgorithm.score_of bids alpha query a)
  end.

(** What the bid loop knows about its current choice. *)
Definition bid_loop_inv (bids : Bids) (query : string) (advs : list Advertiser.t)
    (st : option nat * R) : Prop :=
  match st with
  | (None, _) => True
  | (Some i, highest_bid) =>
      exists a row,
        nth_error advs i = Some a /\
        dict_get bids (Advertiser.name a) = Some row /\
        highest_bid = dict_get_default row query 0 /\
        Advertiser.remaining_budget a >= highest_bid /\
        highest_bid > -1
  end.

(** The plan is an [n] by [nk] matrix. *)
Definition shape (plan : list (list Z)) (n nk : nat) : Prop :=
  List.length plan = n /\ Forall (fun row => List.length row = nk) plan.

(** The state of the rounding loop before the variables of [todo]: the plan
    is an [n] by [nk] matrix of non-negative cells, still zero at the
    variables to come; what each keyword has left plus what the plan hands
    out of it is its initial demand; what each working advertiser has spent
    is what it had spent plus the cost of its row. *)
Definition round_inv (bids : Bids) (r : Advertiser.ListRef) (n : nat)
    (keywords : list string) (advs0 : list Advertiser.t) (rq0 : dict Z)
    (todo : list nat) (plan : list (list Z)) (rq : dict Z)
    (cls : Advertiser.Registry) : Prop :=
  shape plan n (List.length keywords) /\
  (forall idx, In idx todo -> cell plan (idx mod n) (idx / n) = 0%Z) /\
  (forall i j, (0 <= cell plan i j)%Z) /\
  (forall j kw d, nth_error keywords j = Some kw -> dict_get rq0 kw = Some d ->
     exists v, dict_get rq kw = Some v /\ (0 <= v)%Z /\
               (column_total plan n j + v = d)%Z) /\
  dict_nonneg rq /\
  Forall adv_ok (Advertiser.deref cls r) /\
  (forall i a0, nth_error advs0 i = Some a0 ->
     exists a, nth_error (Advertiser.deref cls r) i = Some a /\
       Advertiser.name a = Advertiser.name a0 /\
       Advertiser.initial_budget a = Advertiser.initial_budget a0 /\
       Advertiser.spent_budget a
       = Advertiser.spent_budget a0
         + row_cost (rounding_bid bids) keywords plan i (Advertiser.name a0)) /\
  (forall i a, nth_error (Advertiser.deref cls r) i = Some a ->
     exists a0, nth_error advs0 i = Some a0).

(** What the advertisers of a list have spent, and what they were given. *)
Definition total_spent (advs : list Advertiser.t) : R :=
  fold_right (fun a acc => Advertiser.spent_budget a + acc) 0 advs.

Definition total_budget (advs : list Advertiser.t) : R :=
  fold_right (fun a acc => Advertiser.initial_budget a + acc) 0 advs.

(** No advertiser of the list has spent more than its budget. *)
Definition within_budget (advs : list Advertiser.t) : Prop :=
  Forall (fun a => Advertiser.spent_budget a <= Advertiser.initial_budget a) advs.

(** What a call contributes to the revenue the driver adds up. *)
Definition gained (res : Result (option Advertiser.Ref * R)) : R :=
  match res with
  | Ok (Some _, bid) => bid
  | _ => 0
  end.

(** A call whose returned bid is what the authoritative ledger was charged:
    it returns an advertiser and exactly one authoritative advertiser, which
    could afford it, has the bid deducted; or it returns none, or raises, and
    the authoritative list is as before. *)
Definition accounted (cls cls' : Advertiser.Registry)
    (res : Result (option Advertiser.Ref * R)) : Prop :=
  (exists x j a b,
     res = Ok (Some x, b) /\
     nth_error (Advertiser.advertisers cls) j = Some a /\
     b <= Advertiser.remaining_budget a /\
     Advertiser.advertisers cls' = list_assign (Advertiser.advertisers cls) j (bump a b))
  \/
  (Advertiser.advertisers cls' = Advertiser.advertisers cls /\
   (res = Ok (None, 0) \/ exists e, res = Raise e)).

(** The ledger carries exactly the revenue counted so far. *)
Definition tracks (cls : Advertiser.Registry) (revenue total : R) : Prop :=
  within_budget (Advertiser.advertisers cls) /\
  Forall (fun a => 0 <= Advertiser.initial_budget a) (Advertiser.advertisers cls) /\
  total_spent (Advertiser.advertisers cls) = revenue /\
  total_budget (Advertiser.advertisers cls) = total.

(** The list with every spent budget set to zero, as [reset_budgets] leaves
    it. *)
Definition zeroed (advs : list Advertiser.t) : list Advertiser.t :=
  map (fun a => Advertiser.mk (Advertiser.name a) (Advertiser.initial_budget a) 0) advs.

(** The optimistic allocator's plan and remaining demands have no negative
    entry. *)
Definition plan_nonneg (self : OptimisticAlgorithm.t) : Prop :=
  dict_nonneg (OptimisticAlgorithm.remaining_queries self) /\
  forall i j, (0 <= cell (OptimisticAlgorithm.offline_allocations self) i j)%Z.

(** [set(l)] is iterated in some order, each element of [l] once. *)
Definition set_order_ok (set_order : list string -> list string) : Prop :=
  forall l, NoDup (set_order l) /\ forall x, In x (set_order l) <-> In x l.

(** [random.sample(keys, 2)] draws two of the keys. *)
Definition sample_ok (sample : nat -> list string -> string * string) : Prop :=
  forall k keys, (2 <= List.length keys)%nat ->
    In (fst (sample k keys)) keys /\ In (snd (sample k keys)) keys.

(** The sum of the counts of a dictionary. *)
Definition dict_total (d : dict Z) : Z :=
  fold_right (fun kv acc => (snd kv + acc)%Z) 0%Z d.

(** What the loop of changes keeps: distinct keys, all of them queries of the actual
    sequence, counts of at least one, and their sum. *)
Definition counts_inv (actual : list string) (total : Z) (d : dict Z) : Prop :=
  NoDup (dict_keys d) /\
  (forall k v, dict_get d k = Some v -> (1 <= v)%Z /\ In k actual) /\
  dict_total d = total.

(** What a plan is worth at the bids of the table: every cell times the bid of
    its advertiser, by name, on its keyword. *)
Definition plan_value (bids : Bids) (keywords names : list string)
    (plan : list (list Z)) : R :=
  sumR (fun i => row_cost (table_bid bids) keywords plan i (nth i names EmptyString))
       (List.length names).

(** What the binary64 pessimistic scan knows after the first [n]
    advertisers. *)
Definition double_scan_inv (math_exp : float -> Result float) (bids : Double.Bids)
    (alpha : float) (query : string) (advertisers : list Double.Advertiser.t)
    (n : nat) (st : option nat * float * float) : Prop :=
  match st with
  | (None, highest_score, best_bid) =>
      highest_score = neg_infinity /\ best_bid = 0%float /\
      forall j b, (j < n)%nat -> nth_error advertisers j = Some b ->
        Double.eligible bids query b = true ->
        exists s, Double.score_of math_exp bids alpha query b = Ok s /\
                  Double.gt s neg_infinity = false
  | (Some w, highest_score, best_bid) =>
      (w < n)%nat /\
      exists a, nth_error advertisers w = Some a /\
        Double.eligible bids query a = true /\
        Double.score_of math_exp bids alpha query a = Ok highest_score /\
        best_bid = Double.bid_of bids a query /\
        Double.gt highest_score neg_infinity = true /\
        forall j b, (j < n)%nat -> nth_error advertisers j = Some b ->
          Double.eligible bids query b = true ->
          exists s, Double.score_of math_exp bids alpha query b = Ok s /\
                    Double.gt s highest_score = false /\
                    ((j < w)%nat -> Double.ge s highest_score = false)
  end.


(** ** Tactics for doubles *)

(** Case analysis on the comparisons inside [SFcompare]. *)
Ltac cmp_cases :=
  repeat match goal with
  | |- context [Z.compare ?a ?b] => destruct (Z.compare_spec a b)
  | H : context [Z.compare ?a ?b] |- _ => destruct (Z.compare_spec a b)
  | |- context [Pos.compare_cont Eq ?a ?b] =>
      change (Pos.compare_cont Eq a b) with (Pos.compare a b);
      destruct (Pos.compare_spec a b)
  | H : context [Pos.compare_cont Eq ?a ?b] |- _ =>
      change (Pos.compare_cont Eq a b) with (Pos.compare a b) in H;
      destruct (Pos.compare_spec a b)
  end.

(** [to_R x] for a literal [x], as a product of an integer and a power of 2. *)
Ltac to_R_eval x :=
  unfold Double.to_R;
  let v := eval vm_compute in (Prim2SF x) in
  change (Prim2SF x) with v; cbv iota beta.

(** * Properties *)

(** ** Evaluating the code on concrete numbers *)

Ltac rdec :=
  repeat match goal with
    | |- context [Rgt_dec ?a ?b] =>
        destruct (Rgt_dec a b); [try (exfalso; lra) | try (exfalso; lra)]
    | |- context [Rge_dec ?a ?b] =>
        destruct (Rge_dec a b); [try (exfalso; lra) | try (exfalso; lra)]
    | |- context [Rle_dec ?a ?b] =>
        destruct (Rle_dec a b); [try (exfalso; lra) | try (exfalso; lra)]
    | |- context [Req_dec_T ?a ?b] =>
        destruct (Req_dec_T a b); [try (exfalso; lra) | try (exfalso; lra)]
    end.

Ltac pycbn :=
  cbn -[Rgt_dec Rge_dec Req_dec_T Rle_dec Zfloor Zceil IZR Rdiv Rminus Rplus Rmult exp].

Ltac pyeval :=
  repeat (pycbn;
          unfold Rgtb, Rgeb, floordiv, int_of_float,
                 Advertiser.deduct_at, Advertiser.deduct_budget,
                 Advertiser.remaining_budget, Advertiser.budget_fraction,
                 PessimisticAlgorithm.eligible, PessimisticAlgorithm.score_of,
                 PessimisticAlgorithm.bid_of, phi_alpha;
          pycbn; rdec).

(** ** Lists, dictionaries and the store *)

Lemma Rgtb_true (a b : R) : Rgtb a b = true <-> a > b.
Proof. unfold Rgtb. destruct (Rgt_dec a b); split; intros; try easy. Qed.

Lemma Rgeb_true (a b : R) : Rgeb a b = true <-> a >= b.
Proof. unfold Rgeb. destruct (Rge_dec a b); split; intros; try easy. Qed.

Lemma Rgtb_false (a b : R) : Rgtb a b = false <-> a <= b.
Proof.
  unfold Rgtb. destruct (Rgt_dec a b); split; intros; try easy; lra.
Qed.

Lemma list_assign_length {A : Type} (l : list A) (i : nat) (v : A) :
  List.length (list_assign l i v) = List.length l.
Proof.
  revert i. induction l as [| x l IH]; intros [| i]; simpl; auto.
Qed.

Lemma nth_error_list_assign_eq {A : Type} (l : list A) (i : nat) (v : A) :
  (i < List.length l)%nat -> nth_error (list_assign l i v) i = Some v.
Proof.
  revert i. induction l as [| x l IH]; intros [| i] Hlt; simpl in *; try lia; auto.
  apply IH. lia.
Qed.

Lemma nth_error_list_assign_neq {A : Type} (l : list A) (i j : nat) (v : A) :
  i <> j -> nth_error (list_assign l i v) j = nth_error l j.
Proof.
  revert i j. induction l as [| x l IH]; intros [| i] [| j] Hne; simpl; auto;
    try contradiction; try (apply IH; intros ->; apply Hne; reflexivity).
Qed.

Lemma nth_list_assign_eq {A : Type} (l : list A) (i : nat) (v d : A) :
  (i < List.length l)%nat -> nth i (list_assign l i v) d = v.
Proof.
  intros Hlt. apply nth_error_nth. apply nth_error_list_assign_eq. exact Hlt.
Qed.

Lemma nth_list_assign_neq {A : Type} (l : list A) (i j : nat) (v d : A) :
  i <> j -> nth j (list_assign l i v) d = nth j l d.
Proof.
  revert i j. induction l as [| x l IH]; intros [| i] [| j] Hne; simpl; auto;
    try contradiction; try (apply IH; intros ->; apply Hne; reflexivity).
Qed.

Lemma deref_store_same (cls : Advertiser.Registry) (r : Advertiser.ListRef)
    (i : nat) (a : Advertiser.t) :
  Advertiser.deref (Advertiser.store cls r i a) r
  = list_assign (Advertiser.deref cls r) i a.
Proof.
  destruct r as [| n]; simpl; [reflexivity |].
  destruct (Nat.lt_ge_cases n (List.length (Advertiser.copies cls))) as [Hlt | Hge].
  - apply nth_list_assign_eq. exact Hlt.
  - assert (Hnone : nth_error (Advertiser.copies cls) n = None)
      by (apply nth_error_None; exact Hge).
    rewrite (nth_overflow (Advertiser.copies cls) [] Hge).
    rewrite nth_overflow; [destruct i; reflexivity |].
    rewrite list_assign_length. exact Hge.
Qed.

Lemma deref_store_other (cls : Advertiser.Registry) (r r' : Advertiser.ListRef)
    (i : nat) (a : Advertiser.t) :
  r <> r' ->
  Advertiser.deref (Advertiser.store cls r i a) r' = Advertiser.deref cls r'.
Proof.
  intros Hne. destruct r as [| n], r' as [| n']; simpl; try reflexivity.
  - contradiction.
  - apply nth_list_assign_neq. intros ->. apply Hne. reflexivity.
Qed.

(** ** The ledger *)

(** In exact arithmetic, [Advertiser.deduct_budget] raises exactly when the amount exceeds the remaining
    budget (the error is the code's [ValueError]); a failed call leaves the
    advertiser as it was, a successful one adds the amount to [Advertiser.spent_budget] and
    keeps the name and the initial budget. *)
Theorem deduct_budget_spec (a : Advertiser.t) (amount : R) :
  (Advertiser.deduct_budget a amount = Raise ValueError <-> amount > Advertiser.remaining_budget a) /\
  (Advertiser.deduct_budget a amount
     = Ok (Advertiser.mk (Advertiser.name a) (Advertiser.initial_budget a) (Advertiser.spent_budget a + amount))
   <-> ~ amount > Advertiser.remaining_budget a) /\
  (forall reg r i, nth_error (Advertiser.deref reg r) i = Some a ->
     amount > Advertiser.remaining_budget a ->
     Advertiser.deduct_at reg r i amount = (Raise ValueError, reg)) /\
  (forall reg r i, nth_error (Advertiser.deref reg r) i = Some a ->
     ~ amount > Advertiser.remaining_budget a ->
     Advertiser.deduct_at reg r i amount
       = (Ok tt, Advertiser.store reg r i (Advertiser.mk (Advertiser.name a) (Advertiser.initial_budget a)
                                             (Advertiser.spent_budget a + amount)))).
Proof.
  unfold Advertiser.deduct_at, Advertiser.deduct_budget.
  destruct (Rgt_dec amount (Advertiser.remaining_budget a)) as [Hgt | Hle].
  - repeat split; try easy.
    + intros reg r i Hi _. rewrite Hi.
      destruct (Rgt_dec amount (Advertiser.remaining_budget a)); [reflexivity | contradiction].
  - repeat split; try easy.
    + intros reg r i Hi _. rewrite Hi.
      destruct (Rgt_dec amount (Advertiser.remaining_budget a)); [contradiction | reflexivity].
Qed.

(** In exact arithmetic there is no sign check: every amount not above the remaining budget is
    accepted and added, so a negative amount lowers [Advertiser.spent_budget], below zero
    when it is large enough. *)
Theorem deduct_budget_accepts_negative (a : Advertiser.t) (amount : R) :
  amount <= Advertiser.remaining_budget a ->
  Advertiser.deduct_budget a amount
    = Ok (Advertiser.mk (Advertiser.name a) (Advertiser.initial_budget a) (Advertiser.spent_budget a + amount)) /\
  (amount < 0 -> forall a', Advertiser.deduct_budget a amount = Ok a' ->
     Advertiser.spent_budget a' < Advertiser.spent_budget a) /\
  (amount < - Advertiser.spent_budget a -> forall a', Advertiser.deduct_budget a amount = Ok a' ->
     Advertiser.spent_budget a' < 0).
Proof.
  intros Hle. unfold Advertiser.deduct_budget.
  destruct (Rgt_dec amount (Advertiser.remaining_budget a)) as [Hgt | _]; [lra |].
  split; [reflexivity |].
  split; intros Hneg a' Ha'; inversion Ha'; simpl; lra.
Qed.

Lemma deduct_budget_accepts_negative_witness :
  Advertiser.deduct_budget (Advertiser.mk "A1" 10 0) (-3) = Ok (Advertiser.mk "A1" 10 (0 + -3)) /\
  Advertiser.spent_budget (Advertiser.mk "A1" 10 (0 + -3)) < 0.
Proof.
  assert (Hle : -3 <= Advertiser.remaining_budget (Advertiser.mk "A1" 10 0)).
  { unfold Advertiser.remaining_budget; simpl; lra. }
  destruct (deduct_budget_accepts_negative (Advertiser.mk "A1" 10 0) (-3) Hle)
    as [Heq [_ Hbelow]].
  split; [exact Heq |].
  apply Hbelow; [simpl; lra | exact Heq].
Defined.

(** ** The scoring function *)

(** In exact arithmetic, [phi_alpha f alpha] is [1 - e^(alpha (f - 1))]; for positive [alpha]
    it is [0] at [f = 1], [1 - e^(-alpha)] at [f = 0], and strictly decreasing
    in [f]; equal arguments give equal results. *)
Theorem phi_alpha_spec (alpha : R) (Halpha : 0 < alpha) :
  (forall f, phi_alpha f alpha = 1 - exp (alpha * (f - 1))) /\
  phi_alpha 1 alpha = 0 /\
  phi_alpha 0 alpha = 1 - exp (- alpha) /\
  (forall f1 f2, f1 < f2 -> phi_alpha f2 alpha < phi_alpha f1 alpha) /\
  (forall f1 f2 alpha', f1 = f2 -> alpha = alpha' ->
     phi_alpha f1 alpha = phi_alpha f2 alpha').
Proof.
  unfold phi_alpha. repeat split.
  - replace (alpha * (1 - 1)) with 0 by ring. rewrite exp_0. ring.
  - f_equal. f_equal. ring.
  - intros f1 f2 Hlt.
    assert (Hexp : exp (alpha * (f1 - 1)) < exp (alpha * (f2 - 1))).
    { apply exp_increasing. nra. }
    lra.
  - intros f1 f2 alpha' -> ->. reflexivity.
Qed.

Lemma phi_alpha_spec_witness :
  phi_alpha 1 2 = 0 /\ phi_alpha 0 2 = 1 - exp (- (2)) /\
  phi_alpha 1 2 < phi_alpha (1 / 2) 2.
Proof.
  assert (H2 : 0 < 2) by lra.
  destruct (phi_alpha_spec 2 H2) as [_ [H1 [H0 [Hdec _]]]].
  repeat split; [exact H1 | exact H0 | apply Hdec; lra].
Defined.

(** ** The pessimistic allocator *)

Lemma eligible_true (bids : Bids) (query : string) (a : Advertiser.t) :
  PessimisticAlgorithm.eligible bids query a = true <->
  PessimisticAlgorithm.bid_of bids a query > 0 /\
  Advertiser.remaining_budget a >= PessimisticAlgorithm.bid_of bids a query.
Proof.
  unfold PessimisticAlgorithm.eligible.
  rewrite andb_true_iff, Rgtb_true, Rgeb_true. reflexivity.
Qed.

Lemma nth_error_snoc {A : Type} (pre : list A) (a a' : A) (j : nat) :
  nth_error (pre ++ [a]) j = Some a' ->
  ((j < List.length pre)%nat /\ nth_error pre j = Some a') \/
  (j = List.length pre /\ a' = a).
Proof.
  intros H.
  destruct (Nat.lt_ge_cases j (List.length pre)) as [Hlt | Hge].
  - left. split; [exact Hlt |]. rewrite nth_error_app1 in H; assumption.
  - right. rewrite nth_error_app2 in H by exact Hge.
    destruct (j - List.length pre)%nat as [| m] eqn:Hm; simpl in H.
    + inversion H. split; [lia | reflexivity].
    + destruct m; discriminate.
Qed.

Lemma scan_inv_step (bids : Bids) (alpha : R) (query : string)
    (pre : list Advertiser.t) (a : Advertiser.t)
    (best : option nat) (hs : score) (bb : R) :
  scan_inv bids alpha query pre (best, hs, bb) ->
  scan_inv bids alpha query (pre ++ [a])
    (if PessimisticAlgorithm.eligible bids query a then
       if score_gt (Fin (PessimisticAlgorithm.score_of bids alpha query a)) hs
       then (Some (List.length pre),
             Fin (PessimisticAlgorithm.score_of bids alpha query a),
             PessimisticAlgorithm.bid_of bids a query)
       else (best, hs, bb)
     else (best, hs, bb)).
Proof.
  intros Hinv.
  destruct (PessimisticAlgorithm.eligible bids query a) eqn:Hel.
  - destruct (score_gt (Fin (PessimisticAlgorithm.score_of bids alpha query a)) hs)
      eqn:Hgt.
    + (* the new advertiser takes the lead *)
      exists a. repeat split.
      * rewrite nth_error_app2 by lia. rewrite Nat.sub_diag. reflexivity.
      * exact Hel.
      * intros j a' Hj Hel'.
        destruct (nth_error_snoc _ _ _ _ Hj) as [[Hlt Hpre] | [_ ->]]; [| lra].
        destruct best as [k |]; simpl in Hinv.
        -- destruct Hinv as [a0 [_ [_ [-> [_ [Hmax _]]]]]].
           simpl in Hgt. apply Rgtb_true in Hgt.
           specialize (Hmax j a' Hpre Hel'). lra.
        -- destruct Hinv as [_ Hnone].
           rewrite (Hnone a') in Hel'; [discriminate |].
           eapply nth_error_In; exact Hpre.
      * intros j a' Hlt Hj Hel'.
        destruct (nth_error_snoc _ _ _ _ Hj) as [[_ Hpre] | [-> _]]; [| lia].
        destruct best as [k |]; simpl in Hinv.
        -- destruct Hinv as [a0 [_ [_ [-> [_ [Hmax _]]]]]].
           simpl in Hgt. apply Rgtb_true in Hgt.
           specialize (Hmax j a' Hpre Hel'). lra.
        -- destruct Hinv as [_ Hnone].
           rewrite (Hnone a') in Hel'; [discriminate |].
           eapply nth_error_In; exact Hpre.
    + (* the lead is kept *)
      destruct best as [k |]; simpl in Hinv.
      * destruct Hinv as [a0 [Hk [Hel0 [-> [-> [Hmax Hfirst]]]]]].
        simpl in Hgt. apply Rgtb_false in Hgt.
        exists a0. repeat split; try assumption.
        -- rewrite nth_error_app1; [exact Hk |].
           apply nth_error_Some. rewrite Hk. discriminate.
        -- intros j a' Hj Hel'.
           destruct (nth_error_snoc _ _ _ _ Hj) as [[_ Hpre] | [_ ->]];
             [eapply Hmax; eassumption | exact Hgt].
        -- intros j a' Hlt Hj Hel'.
           destruct (nth_error_snoc _ _ _ _ Hj) as [[_ Hpre] | [-> _]].
           ++ eapply Hfirst; eassumption.
           ++ assert (k < List.length pre)%nat; [| lia].
              apply nth_error_Some. rewrite Hk. discriminate.
      * destruct Hinv as [-> _]. simpl in Hgt. discriminate.
  - destruct best as [k |]; simpl in Hinv |- *.
    + destruct Hinv as [a0 [Hk [Hel0 [-> [-> [Hmax Hfirst]]]]]].
      exists a0. repeat split; try assumption.
      * rewrite nth_error_app1; [exact Hk |].
        apply nth_error_Some. rewrite Hk. discriminate.
      * intros j a' Hj Hel'.
        destruct (nth_error_snoc _ _ _ _ Hj) as [[_ Hpre] | [_ ->]];
          [eapply Hmax; eassumption | congruence].
      * intros j a' Hlt Hj Hel'.
        destruct (nth_error_snoc _ _ _ _ Hj) as [[_ Hpre] | [_ ->]];
          [eapply Hfirst; eassumption | congruence].
    + destruct Hinv as [-> Hnone]. split; [reflexivity |].
      intros a' Hin. apply in_app_or in Hin. destruct Hin as [Hin | [<- | []]].
      * apply Hnone; exact Hin.
      * exact Hel.
Qed.

Lemma scan_spec (bids : Bids) (alpha : R) (query : string) (rest : list Advertiser.t) :
  forall (pre : list Advertiser.t) (i : nat) (best : option nat) (hs : score) (bb : R),
    i = List.length pre ->
    scan_inv bids alpha query pre (best, hs, bb) ->
    scan_inv bids alpha query (pre ++ rest)
      (PessimisticAlgorithm.scan bids alpha query rest i best hs bb).
Proof.
  induction rest as [| a rest IH]; intros pre i best hs bb Hi Hinv.
  - rewrite app_nil_r. exact Hinv.
  - pose proof (scan_inv_step bids alpha query pre a best hs bb Hinv) as Hstep.
    replace (pre ++ a :: rest) with ((pre ++ [a]) ++ rest)
      by (rewrite <- app_assoc; reflexivity).
    assert (Hlen : S i = List.length (pre ++ [a]))
      by (rewrite length_app; simpl; lia).
    subst i. cbn [PessimisticAlgorithm.scan].
    destruct (PessimisticAlgorithm.eligible bids query a);
      [destruct (score_gt _ hs) |]; apply IH; assumption.
Qed.

(** The two outcomes of one pessimistic decision. *)
Lemma pessimistic_allocate_query_cases
    (self : PessimisticAlgorithm.t) (query : string) (cls : Advertiser.Registry) :
  let advs := Advertiser.deref cls (PessimisticAlgorithm.advertisers self) in
  let bid := fun a => PessimisticAlgorithm.bid_of (PessimisticAlgorithm.bids self) a query in
  let eligible := fun a => bid a > 0 /\ Advertiser.remaining_budget a >= bid a in
  let score := fun a =>
    phi_alpha (Advertiser.budget_fraction a) (PessimisticAlgorithm.alpha self) * bid a in
  ((forall a, In a advs -> ~ eligible a) /\
   PessimisticAlgorithm.allocate_query self query cls = (Ok (None, 0), cls))
  \/
  (exists i a,
     nth_error advs i = Some a /\ eligible a /\
     (forall j a', nth_error advs j = Some a' -> eligible a' -> score a' <= score a) /\
     (forall j a', (j < i)%nat -> nth_error advs j = Some a' -> eligible a' ->
        score a' < score a) /\
     PessimisticAlgorithm.allocate_query self query cls
     = (Ok (Some (PessimisticAlgorithm.advertisers self, i), bid a),
        Advertiser.store cls (PessimisticAlgorithm.advertisers self) i
          (Advertiser.mk (Advertiser.name a) (Advertiser.initial_budget a)
                         (Advertiser.spent_budget a + bid a)))).
Proof.
  intros advs bid eligible score.
  assert (Hinit : scan_inv (PessimisticAlgorithm.bids self)
                    (PessimisticAlgorithm.alpha self) query [] (None, NegInf, 0)).
  { split; [reflexivity | intros a []]. }
  pose proof (scan_spec _ _ _ advs [] 0%nat None NegInf 0 eq_refl Hinit) as Hscan.
  simpl in Hscan. unfold PessimisticAlgorithm.allocate_query.
  fold advs.
  destruct (PessimisticAlgorithm.scan _ _ query advs 0 None NegInf 0)
    as [[best hs] bb].
  destruct best as [i |]; simpl in Hscan.
  - right. destruct Hscan as [a [Hi [Hel [_ [-> [Hmax Hfirst]]]]]].
    apply eligible_true in Hel.
    exists i, a. repeat split; try apply Hel; try assumption.
    + intros j a' Hj Hel'. eapply Hmax; [exact Hj |]. apply eligible_true. exact Hel'.
    + intros j a' Hlt Hj Hel'. eapply Hfirst; [exact Hlt | exact Hj |].
      apply eligible_true. exact Hel'.
    + unfold Advertiser.deduct_at. fold advs. rewrite Hi.
      unfold Advertiser.deduct_budget.
      destruct (Rgt_dec _ _) as [Hgt | _]; [destruct Hel; lra | reflexivity].
  - left. destruct Hscan as [_ Hnone]. split; [| reflexivity].
    intros a Hin Hel. apply eligible_true in Hel.
    rewrite (Hnone a Hin) in Hel. discriminate.
Qed.


(** ** The optimistic allocator *)

Lemma dict_item_present {V : Type} (d : dict V) (k : string) (v : V) :
  dict_get d k = Some v -> dict_item d k = Ok v.
Proof. unfold dict_item. intros ->. reflexivity. Qed.

Lemma dict_get_default_present (d : dict Z) (k : string) :
  Z.leb (dict_get_default d k 0%Z) 0 = false ->
  exists v, dict_get d k = Some v /\ (0 < v)%Z.
Proof.
  unfold dict_get_default. intros H. apply Z.leb_gt in H.
  destruct (dict_get d k) as [v |]; [| lia].
  exists v. split; [reflexivity | exact H].
Qed.

Lemma bid_loop_spec (bids : Bids) (query : string) (advs : list Advertiser.t)
    (assigned : list nat) :
  forall (best : option nat) (hb : R) (res : option nat * R),
    hb >= -1 ->
    bid_loop_inv bids query advs (best, hb) ->
    OptimisticAlgorithm.bid_loop bids query advs assigned best hb = Ok res ->
    bid_loop_inv bids query advs res.
Proof.
  induction assigned as [| i rest IH]; intros best hb res Hhb Hinv Hres; simpl in Hres.
  - inversion Hres; subst. exact Hinv.
  - unfold list_item, dict_item, bind in Hres.
    destruct (nth_error advs i) as [a |] eqn:Hi; [| discriminate].
    destruct (dict_get bids (Advertiser.name a)) as [row |] eqn:Hrow; [| discriminate].
    destruct (Rgeb (Advertiser.remaining_budget a) (dict_get_default row query 0)
              && Rgtb (dict_get_default row query 0) hb) eqn:Hc.
    + apply andb_true_iff in Hc. destruct Hc as [Hge Hgt].
      apply Rgeb_true in Hge. apply Rgtb_true in Hgt.
      eapply IH; [| | exact Hres]; [lra |].
      exists a, row. repeat split; try assumption; lra.
    + eapply IH; eassumption.
Qed.

(** The outcomes of one optimistic decision: nothing is touched, or exactly one
    advertiser of the allocator's own list, which could afford the returned
    bid, has that bid deducted. *)
Lemma optimistic_allocate_query_cases
    (self : OptimisticAlgorithm.t) (query : string) (cls : Advertiser.Registry) :
  let r := OptimisticAlgorithm.advertisers self in
  (exists self', OptimisticAlgorithm.advertisers self' = r /\
     OptimisticAlgorithm.bids self' = OptimisticAlgorithm.bids self /\
     (OptimisticAlgorithm.allocate_query self query cls = (Ok (None, 0), self', cls) \/
      exists e, OptimisticAlgorithm.allocate_query self query cls = (Raise e, self', cls)))
  \/
  (exists self' i a row,
     OptimisticAlgorithm.advertisers self' = r /\
     OptimisticAlgorithm.bids self' = OptimisticAlgorithm.bids self /\
     nth_error (Advertiser.deref cls r) i = Some a /\
     dict_get (OptimisticAlgorithm.bids self) (Advertiser.name a) = Some row /\
     Advertiser.remaining_budget a >= dict_get_default row query 0 /\
     dict_get_default row query 0 > -1 /\
     OptimisticAlgorithm.allocate_query self query cls
     = (Ok (Some (r, i), dict_get_default row query 0), self',
        Advertiser.store cls r i
          (Advertiser.mk (Advertiser.name a) (Advertiser.initial_budget a)
             (Advertiser.spent_budget a + dict_get_default row query 0)))).
Proof.
  intros r. unfold OptimisticAlgorithm.allocate_query. fold r.
  destruct (Z.leb _ 0) eqn:Hrem.
  { left. exists self. repeat split. left. reflexivity. }
  destruct (dict_get_default_present _ _ Hrem) as [v [Hv _]].
  destruct (list_index _ query) as [keyword_idx |];
    [| left; exists self; repeat split; left; reflexivity].
  destruct (OptimisticAlgorithm.assigned_loop _ keyword_idx _ 0) as [assigned | e];
    [| left; exists self; repeat split; right; exists e; reflexivity].
  destruct assigned as [| i0 assigned];
    [left; exists self; repeat split; left; reflexivity |].
  destruct (OptimisticAlgorithm.bid_loop _ query _ (i0 :: assigned) None (-1))
    as [[best hb] | e] eqn:Hloop;
    [| left; exists self; repeat split; right; exists e; reflexivity].
  destruct best as [i |];
    [| left; exists self; repeat split; left; reflexivity].
  assert (Hinv : bid_loop_inv (OptimisticAlgorithm.bids self) query
                   (Advertiser.deref cls r) (Some i, hb)).
  { eapply bid_loop_spec; [| | exact Hloop]; [lra | exact I]. }
  destruct Hinv as [a [row [Hi [Hrow [-> [Hge Hgt]]]]]].
  destruct (OptimisticAlgorithm.plan_cell _ i keyword_idx) as [cell | e];
    [| left; exists self; repeat split; right; exists e; reflexivity].
  unfold Advertiser.deduct_at. fold r. rewrite Hi.
  unfold Advertiser.deduct_budget.
  destruct (Rgt_dec _ _) as [Hbad | _]; [lra |].
  cbn [OptimisticAlgorithm.remaining_queries].
  rewrite (dict_item_present _ _ _ Hv).
  right. eexists _, i, a, row.
  split; [shelve |]. split; [shelve |].
  repeat (split; [eassumption |]). reflexivity.
  Unshelve. all: reflexivity.
Qed.

(** ** The ledger invariant *)

Lemma Forall_list_assign {A : Type} (P : A -> Prop) (l : list A) (i : nat) (v : A) :
  Forall P l -> P v -> Forall P (list_assign l i v).
Proof.
  intros Hl Hv. revert i.
  induction Hl as [| x l Hx Hl IH]; intros [| i]; simpl; auto.
Qed.

Lemma reg_ok_deref (cls : Advertiser.Registry) (r : Advertiser.ListRef) :
  reg_ok cls -> Forall adv_ok (Advertiser.deref cls r).
Proof.
  intros [Hauth Hcopies]. destruct r as [| n]; simpl; [exact Hauth |].
  destruct (nth_in_or_default n (Advertiser.copies cls) []) as [Hin | ->].
  - rewrite Forall_forall in Hcopies. apply Hcopies. exact Hin.
  - constructor.
Qed.

Lemma store_ok (cls : Advertiser.Registry) (r : Advertiser.ListRef) (i : nat)
    (a : Advertiser.t) :
  reg_ok cls -> adv_ok a -> reg_ok (Advertiser.store cls r i a).
Proof.
  intros Hok Ha. pose proof (reg_ok_deref cls r Hok) as Hr.
  destruct Hok as [Hauth Hcopies].
  destruct r as [| n]; split; simpl in *; try assumption.
  - apply Forall_list_assign; assumption.
  - apply Forall_list_assign; [assumption |].
    apply Forall_list_assign; assumption.
Qed.

Lemma deduct_budget_ok (a a' : Advertiser.t) (amount : R) :
  adv_ok a -> 0 <= amount -> Advertiser.deduct_budget a amount = Ok a' -> adv_ok a'.
Proof.
  unfold adv_ok, Advertiser.deduct_budget, Advertiser.remaining_budget.
  intros Ha Hamount.
  destruct (Rgt_dec _ _) as [| Hle]; [discriminate |].
  intros H. inversion H. simpl. lra.
Qed.

Lemma deduct_at_ok (cls cls' : Advertiser.Registry) (r : Advertiser.ListRef)
    (i : nat) (amount : R) (res : Result unit) :
  reg_ok cls -> 0 <= amount ->
  Advertiser.deduct_at cls r i amount = (res, cls') -> reg_ok cls'.
Proof.
  intros Hok Hamount. unfold Advertiser.deduct_at.
  destruct (nth_error _ i) as [a |] eqn:Hi; [| intros H; inversion H; subst; exact Hok].
  destruct (Advertiser.deduct_budget a amount) as [a' | e] eqn:Hd;
    intros H; inversion H; subst; [| exact Hok].
  apply store_ok; [exact Hok |].
  eapply deduct_budget_ok; [| exact Hamount | exact Hd].
  pose proof (reg_ok_deref cls r Hok) as Hr. rewrite Forall_forall in Hr.
  apply Hr. eapply nth_error_In. exact Hi.
Qed.

Lemma bids_nonneg_default (bids : Bids) (nm kw : string) (row : dict R) (d : R) :
  bids_nonneg bids -> dict_get bids nm = Some row -> 0 <= d ->
  0 <= dict_get_default row kw d.
Proof.
  intros Hb Hrow Hd. unfold dict_get_default.
  destruct (dict_get row kw) as [v |] eqn:Hv; [| exact Hd].
  eapply Hb; eassumption.
Qed.

Lemma reset_advertiser_list_copy_ok (cls : Advertiser.Registry) :
  reg_ok cls -> reg_ok (Advertiser.reset_advertiser_list_copy cls).
Proof.
  intros [Hauth Hcopies]. split; simpl; [exact Hauth |].
  apply Forall_app. split; [exact Hcopies |]. constructor; [exact Hauth | constructor].
Qed.

Lemma get_advertiser_list_copy_ok (cls : Advertiser.Registry) :
  reg_ok cls -> reg_ok (snd (Advertiser.get_advertiser_list_copy cls)).
Proof.
  intros Hok. unfold Advertiser.get_advertiser_list_copy.
  destruct (Advertiser._advertiser_list_copy cls); simpl;
    [exact Hok | apply reset_advertiser_list_copy_ok; exact Hok].
Qed.

Lemma reset_budgets_ok (cls : Advertiser.Registry) :
  reg_ok cls -> reg_ok (Advertiser.reset_budgets cls).
Proof.
  intros [Hauth Hcopies]. split; simpl; [| exact Hcopies].
  apply Forall_map. eapply Forall_impl; [| exact Hauth].
  unfold adv_ok. simpl. intros a Ha. lra.
Qed.

Lemma init_ok (nm : string) (budget : R) (cls : Advertiser.Registry) :
  0 <= budget -> reg_ok cls -> reg_ok (Advertiser.init nm budget cls).
Proof.
  intros Hb [Hauth Hcopies]. split; simpl; [| exact Hcopies].
  apply Forall_app. split; [exact Hauth |].
  constructor; [| constructor]. unfold adv_ok. simpl. lra.
Qed.

Lemma pessimistic_allocate_query_ok (self : PessimisticAlgorithm.t) (query : string)
    (cls cls' : Advertiser.Registry) (res : Result (option Advertiser.Ref * R)) :
  reg_ok cls ->
  PessimisticAlgorithm.allocate_query self query cls = (res, cls') ->
  reg_ok cls' /\ exists x b, res = Ok (x, b) /\ 0 <= b.
Proof.
  intros Hok Hrun.
  destruct (pessimistic_allocate_query_cases self query cls)
    as [[_ Heq] | [i [a [Hi [[Hpos Hge] [_ [_ Heq]]]]]]];
    rewrite Heq in Hrun; inversion Hrun; subst.
  - split; [exact Hok |]. exists None, 0. split; [reflexivity | lra].
  - split.
    + apply store_ok; [exact Hok |].
      pose proof (reg_ok_deref cls (PessimisticAlgorithm.advertisers self) Hok) as Hr.
      rewrite Forall_forall in Hr. specialize (Hr a (nth_error_In _ _ Hi)).
      unfold adv_ok, Advertiser.remaining_budget in *. simpl. lra.
    + eexists _, _. split; [reflexivity | lra].
Qed.

Lemma optimistic_allocate_query_ok (self self' : OptimisticAlgorithm.t) (query : string)
    (cls cls' : Advertiser.Registry) (res : Result (option Advertiser.Ref * R)) :
  bids_nonneg (OptimisticAlgorithm.bids self) -> reg_ok cls ->
  OptimisticAlgorithm.allocate_query self query cls = (res, self', cls') ->
  reg_ok cls' /\ (forall x b, res = Ok (x, b) -> 0 <= b).
Proof.
  intros Hb Hok Hrun.
  destruct (optimistic_allocate_query_cases self query cls)
    as [[s1 [_ [_ [Heq | [e Heq]]]]] | [s1 [i [a [row [_ [_ [Hi [Hrow [Hge [_ Heq]]]]]]]]]]];
    rewrite Heq in Hrun; inversion Hrun; subst.
  - split; [exact Hok |]. intros x b H. inversion H. lra.
  - split; [exact Hok |]. intros x b H. discriminate.
  - pose proof (bids_nonneg_default _ _ query _ 0 Hb Hrow (Rle_refl 0)) as Hbid.
    split.
    + apply store_ok; [exact Hok |].
      pose proof (reg_ok_deref cls (OptimisticAlgorithm.advertisers self) Hok) as Hr.
      rewrite Forall_forall in Hr. specialize (Hr a (nth_error_In _ _ Hi)).
      unfold adv_ok, Advertiser.remaining_budget in *. simpl. lra.
    + intros x b H. inversion H. exact Hbid.
Qed.

Lemma to_authoritative_bid (cls : Advertiser.Registry)
    (candidate : option Advertiser.Ref * R) (x : option nat) (b : R) :
  0 <= snd candidate ->
  BalancedAlgorithm.to_authoritative cls candidate = Ok (x, b) -> 0 <= b.
Proof.
  destruct candidate as [[[r i] |] bid]; simpl; intros Hb H.
  - unfold bind in H.
    destruct (list_item _ i) as [copy |]; [| discriminate].
    destruct (BalancedAlgorithm.find_by_name _ _ 0) as [j |]; [| discriminate].
    inversion H; subst. exact Hb.
  - inversion H. lra.
Qed.

Lemma decide_bid (self : BalancedAlgorithm.t) (cls : Advertiser.Registry)
    (o_copy p_copy : option Advertiser.Ref * R) (f : bool) (x : option nat) (b : R) :
  0 <= snd o_copy -> 0 <= snd p_copy ->
  BalancedAlgorithm.decide self cls o_copy p_copy = Ok (Some (f, (x, b))) -> 0 <= b.
Proof.
  intros Hbo Hbp. unfold BalancedAlgorithm.decide, bind.
  destruct (BalancedAlgorithm.to_authoritative cls o_copy) as [[o ob] |] eqn:Hto;
    [| discriminate].
  destruct (BalancedAlgorithm.to_authoritative cls p_copy) as [[p pb] |] eqn:Htp;
    [| discriminate].
  apply to_authoritative_bid in Hto; [| exact Hbo].
  apply to_authoritative_bid in Htp; [| exact Hbp].
  assert (Hsel : (do o_score <- BalancedAlgorithm.score_of cls (BalancedAlgorithm.alpha self) (o, ob) ;
                  do p_score <- BalancedAlgorithm.score_of cls (BalancedAlgorithm.alpha self) (p, pb) ;
                  if score_ge (score_scale (BalancedAlgorithm.alpha self) o_score) p_score
                  then Ok (Some (true, (o, ob))) else Ok (Some (false, (p, pb))))
                 = Ok (Some (f, (x, b))) -> 0 <= b).
  { unfold bind.
    destruct (BalancedAlgorithm.score_of cls _ (o, ob)) as [so |]; [| discriminate].
    destruct (BalancedAlgorithm.score_of cls _ (p, pb)) as [sp |]; [| discriminate].
    destruct (score_ge _ sp); intros H; inversion H; subst; assumption. }
  simpl. destruct o, p; try exact Hsel. discriminate.
Qed.

Lemma commit_ok (self self' : BalancedAlgorithm.t) (cls cls' : Advertiser.Registry)
    (decision : Result (option (bool * (option nat * R))))
    (res : Result (option Advertiser.Ref * R)) :
  reg_ok cls ->
  (forall f x b, decision = Ok (Some (f, (x, b))) -> 0 <= b) ->
  BalancedAlgorithm.commit self cls decision = (res, self', cls') ->
  reg_ok cls'.
Proof.
  intros Hok Hd. unfold BalancedAlgorithm.commit.
  destruct decision as [[[f [[j |] b]] |] | e]; intros H;
    try (inversion H; subst; exact Hok).
  destruct (Advertiser.deduct_at cls Advertiser.Authoritative j b)
    as [rd cls3] eqn:Hded.
  assert (Hok3 : reg_ok cls3).
  { eapply deduct_at_ok; [exact Hok | | exact Hded]. eapply Hd. reflexivity. }
  destruct rd; inversion H; subst; exact Hok3.
Qed.

Lemma balanced_allocate_query_ok (self self' : BalancedAlgorithm.t) (query : string)
    (cls cls' : Advertiser.Registry) (res : Result (option Advertiser.Ref * R)) :
  bids_nonneg (OptimisticAlgorithm.bids (BalancedAlgorithm.optimistic_algorithm self)) ->
  reg_ok cls ->
  BalancedAlgorithm.allocate_query self query cls = (res, self', cls') ->
  reg_ok cls'.
Proof.
  intros Hb Hok. unfold BalancedAlgorithm.allocate_query.
  pose proof (reset_advertiser_list_copy_ok cls Hok) as Hok0.
  destruct (OptimisticAlgorithm.allocate_query _ query _) as [[ro o'] cls1] eqn:Ho.
  destruct (optimistic_allocate_query_ok _ _ _ _ _ _ Hb Hok0 Ho) as [Hok1 Hbo].
  destruct ro as [o_copy | e]; [| intros H; inversion H; subst; exact Hok1].
  destruct (PessimisticAlgorithm.allocate_query _ query cls1) as [rp cls2] eqn:Hp.
  destruct (pessimistic_allocate_query_ok _ _ _ _ _ Hok1 Hp)
    as [Hok2 [xp [bp [-> Hbp]]]].
  destruct o_copy as [xo bo]. specialize (Hbo xo bo eq_refl).
  intros H. eapply commit_ok; [exact Hok2 | | exact H].
  intros f x b Hdec. eapply decide_bid; [| | exact Hdec]; assumption.
Qed.

(** ** The rounding of the offline oracle *)

Lemma dict_get_set {V : Type} (d : dict V) (k k' : string) (v : V) :
  dict_get (dict_set d k v) k' = if String.eqb k k' then Some v else dict_get d k'.
Proof.
  induction d as [| [k0 v0] d IH]; simpl.
  - destruct (String.eqb k k'); reflexivity.
  - destruct (String.eqb k0 k) eqn:H0; simpl.
    + apply String.eqb_eq in H0. subst k0.
      destruct (String.eqb k k'); reflexivity.
    + destruct (String.eqb k0 k') eqn:H1.
      * apply String.eqb_eq in H1. subst k0.
        rewrite String.eqb_sym in H0. rewrite H0. reflexivity.
      * exact IH.
Qed.

Lemma allocation_at_spec (bids : Bids) (advs : list Advertiser.t) (solution : list R)
    (n : nat) (keywords : list string) (rq : dict Z) (idx : nat)
    (ai ki : nat) (kw : string) (bid : R) (m rem : Z) :
  OfflineMaximizationProblem.allocation_at bids advs solution n keywords rq idx
  = Ok (ai, ki, kw, bid, m, rem) ->
  n <> 0%nat /\ ai = (idx mod n)%nat /\ ki = (idx / n)%nat /\
  exists adv row,
    nth_error advs ai = Some adv /\
    nth_error keywords ki = Some kw /\
    dict_get rq kw = Some rem /\
    dict_get bids (Advertiser.name adv) = Some row /\
    bid = dict_get_default row kw 1 /\
    bid <> 0 /\
    m = Z.min (Z.min (int_of_float (nth idx solution 0)) rem)
              (Zfloor ((Advertiser.initial_budget adv - Advertiser.spent_budget adv)
                       / bid)).
Proof.
  unfold OfflineMaximizationProblem.allocation_at, bind, list_item, dict_item, floordiv.
  destruct (Nat.eqb n 0) eqn:Hn; [discriminate |]. apply Nat.eqb_neq in Hn.
  destruct (nth_error advs (idx mod n)) as [adv |] eqn:Hadv; [| discriminate].
  destruct (nth_error keywords (idx / n)) as [kw0 |] eqn:Hkw; [| discriminate].
  destruct (dict_get rq kw0) as [rem0 |] eqn:Hrem; [| discriminate].
  destruct (dict_get bids (Advertiser.name adv)) as [row |] eqn:Hrow; [| discriminate].
  destruct (Req_dec_T (dict_get_default row kw0 1) 0) as [| Hbid]; [discriminate |].
  intros H. inversion H; subst.
  repeat split; try assumption.
  exists adv, row. repeat split; assumption.
Qed.

Lemma int_of_float_nonneg (x : R) : 0 <= x -> (0 <= int_of_float x)%Z.
Proof.
  intros Hx. unfold int_of_float.
  destruct (Rle_dec 0 x) as [_ | Hn]; [| contradiction].
  apply (Zfloor_lub 0 x). exact Hx.
Qed.

Lemma affordable_nonneg (a : Advertiser.t) (bid : R) :
  adv_ok a -> 0 < bid ->
  (0 <= Zfloor ((Advertiser.initial_budget a - Advertiser.spent_budget a) / bid))%Z.
Proof.
  intros [_ Hle] Hbid. apply (Zfloor_lub 0).
  apply Rmult_le_pos; [lra |]. left. apply Rinv_0_lt_compat. exact Hbid.
Qed.

(** Under non-negative bids, demands and LP values, the amount one round
    deducts is non-negative and leaves a non-negative remaining demand. *)
Lemma allocation_at_nonneg (bids : Bids) (advs : list Advertiser.t) (solution : list R)
    (n : nat) (keywords : list string) (rq : dict Z) (idx : nat)
    (ai ki : nat) (kw : string) (bid : R) (m rem : Z) :
  bids_nonneg bids -> Forall adv_ok advs -> dict_nonneg rq ->
  0 <= nth idx solution 0 ->
  OfflineMaximizationProblem.allocation_at bids advs solution n keywords rq idx
  = Ok (ai, ki, kw, bid, m, rem) ->
  0 < bid /\ (0 <= m <= rem)%Z.
Proof.
  intros Hb Hadvs Hrq Hsol Hat.
  destruct (allocation_at_spec _ _ _ _ _ _ _ _ _ _ _ _ _ Hat)
    as [_ [_ [_ [adv [row [Hadv [_ [Hrem [Hrow [-> [Hne ->]]]]]]]]]]].
  assert (Hbid : 0 < dict_get_default row kw 1).
  { pose proof (bids_nonneg_default _ _ kw _ 1 Hb Hrow Rle_0_1). lra. }
  split; [exact Hbid |].
  pose proof (int_of_float_nonneg _ Hsol).
  pose proof (Hrq _ _ Hrem).
  assert (Hok : adv_ok adv).
  { rewrite Forall_forall in Hadvs. apply Hadvs. eapply nth_error_In. exact Hadv. }
  pose proof (affordable_nonneg adv _ Hok Hbid).
  lia.
Qed.

Lemma dict_set_nonneg (d : dict Z) (k : string) (v : Z) :
  dict_nonneg d -> (0 <= v)%Z -> dict_nonneg (dict_set d k v).
Proof.
  intros Hd Hv k' v' H. rewrite dict_get_set in H.
  destruct (String.eqb k k'); [inversion H; subst; exact Hv | eapply Hd; exact H].
Qed.

Lemma round_loop_ok (bids : Bids) (r : Advertiser.ListRef) (solution : list R)
    (n : nat) (keywords : list string) (todo : list nat) :
  bids_nonneg bids -> (forall i, 0 <= nth i solution 0) ->
  forall (plan : list (list Z)) (rq : dict Z) (cls cls' : Advertiser.Registry)
         (res : Result (list (list Z))),
    dict_nonneg rq -> reg_ok cls ->
    OfflineMaximizationProblem.round_loop bids r solution n keywords todo plan rq cls
    = (res, cls') ->
    reg_ok cls'.
Proof.
  intros Hb Hsol.
  induction todo as [| idx rest IH]; intros plan rq cls cls' res Hrq Hok Hrun;
    simpl in Hrun.
  - inversion Hrun; subst. exact Hok.
  - destruct (Req_dec_T (nth idx solution 0) 0) as [_ | _];
      [eapply IH; eassumption |].
    destruct (OfflineMaximizationProblem.allocation_at _ _ _ _ _ _ idx)
      as [[[[[[ai ki] kw] bid] m] rem] | e] eqn:Hat;
      [| inversion Hrun; subst; exact Hok].
    destruct (allocation_at_nonneg _ _ _ _ _ _ _ _ _ _ _ _ _ Hb
                (reg_ok_deref cls r Hok) Hrq (Hsol idx) Hat) as [Hbid Hm].
    destruct (Advertiser.deduct_at cls r ai (IZR m * bid)) as [rd cls1] eqn:Hded.
    assert (Hok1 : reg_ok cls1).
    { eapply deduct_at_ok; [exact Hok | | exact Hded].
      apply Rmult_le_pos; [apply IZR_le; lia | lra]. }
    destruct rd; [| inversion Hrun; subst; exact Hok1].
    eapply IH; [| exact Hok1 | exact Hrun].
    apply dict_set_nonneg; [exact Hrq | lia].
Qed.

Lemma demand_of_get (predicted : dict Z) (keywords : list string) :
  forall (acc rq : dict Z),
    OfflineMaximizationProblem.demand_of predicted keywords acc = Ok rq ->
    forall kw,
      (In kw keywords ->
       dict_get rq kw = dict_get predicted kw /\ dict_get predicted kw <> None) /\
      (~ In kw keywords -> dict_get rq kw = dict_get acc kw).
Proof.
  induction keywords as [| k rest IH]; intros acc rq Hrun kw; simpl in Hrun.
  - inversion Hrun; subst. split; [intros [] | reflexivity].
  - unfold bind, dict_item in Hrun.
    destruct (dict_get predicted k) as [d |] eqn:Hk; [| discriminate].
    specialize (IH _ _ Hrun kw). destruct IH as [IHin IHout].
    destruct (in_dec string_dec kw rest) as [Hin | Hnin].
    + split; [intros _; apply IHin; exact Hin |].
      intros Hno. exfalso. apply Hno. right. exact Hin.
    + specialize (IHout Hnin). rewrite dict_get_set in IHout. split.
      * intros [-> | Hin]; [| contradiction].
        rewrite String.eqb_refl in IHout. rewrite IHout, Hk. split; [reflexivity | discriminate].
      * intros Hno.
        destruct (String.eqb k kw) eqn:Heq; [| exact IHout].
        apply String.eqb_eq in Heq. exfalso. apply Hno. left. exact Heq.
Qed.

Lemma demand_of_nonneg (predicted : dict Z) (keywords : list string) (rq : dict Z) :
  dict_nonneg predicted ->
  OfflineMaximizationProblem.demand_of predicted keywords [] = Ok rq ->
  dict_nonneg rq.
Proof.
  intros Hp Hrun kw v Hv.
  destruct (demand_of_get _ _ _ _ Hrun kw) as [Hin Hout].
  destruct (in_dec string_dec kw keywords) as [H | H].
  - destruct (Hin H) as [Heq _]. rewrite Heq in Hv. eapply Hp. exact Hv.
  - rewrite (Hout H) in Hv. discriminate.
Qed.

Lemma Forall_nth_nonneg (x : list R) :
  Forall (fun v => 0 <= v) x -> forall i, 0 <= nth i x 0.
Proof.
  intros Hx i. destruct (nth_in_or_default i x 0) as [Hin | ->]; [| lra].
  rewrite Forall_forall in Hx. apply Hx. exact Hin.
Qed.

Lemma round_solution_to_integers_ok (self self' : OfflineMaximizationProblem.t)
    (n : nat) (keywords : list string) (cls cls' : Advertiser.Registry)
    (res : Result unit) :
  bids_nonneg (OfflineMaximizationProblem.bids self) ->
  dict_nonneg (OfflineMaximizationProblem.predicted_queries self) ->
  (forall x, OfflineMaximizationProblem.solution self = Some x ->
             Forall (fun v => 0 <= v) x) ->
  reg_ok cls ->
  OfflineMaximizationProblem.round_solution_to_integers self n keywords cls
  = (res, self', cls') ->
  reg_ok cls'.
Proof.
  intros Hb Hp Hx Hok. unfold OfflineMaximizationProblem.round_solution_to_integers.
  destruct (OfflineMaximizationProblem.demand_of _ keywords []) as [rq | e] eqn:Hrq;
    [| intros H; inversion H; subst; exact Hok].
  destruct (OfflineMaximizationProblem.solution self) as [x |];
    [| intros H; inversion H; subst; exact Hok].
  destruct (OfflineMaximizationProblem.round_loop _ _ x n keywords _ _ rq cls)
    as [rl cls1] eqn:Hloop.
  assert (Hok1 : reg_ok cls1).
  { eapply round_loop_ok; [exact Hb | | | exact Hok | exact Hloop].
    - apply Forall_nth_nonneg. apply Hx. reflexivity.
    - eapply demand_of_nonneg; eassumption. }
  destruct rl; intros H; inversion H; subst; exact Hok1.
Qed.

Lemma solve_allocation_ok (linprog : Solver) (self self' : OfflineMaximizationProblem.t)
    (cls cls' : Advertiser.Registry) (res : Result unit) :
  solver_nonneg linprog ->
  bids_nonneg (OfflineMaximizationProblem.bids self) ->
  dict_nonneg (OfflineMaximizationProblem.predicted_queries self) ->
  reg_ok cls ->
  OfflineMaximizationProblem.solve_allocation linprog self cls = (res, self', cls') ->
  reg_ok cls'.
Proof.
  intros Hlp Hb Hp Hok. unfold OfflineMaximizationProblem.solve_allocation.
  destruct (OfflineMaximizationProblem.budget_constraints _ _ 0 _ _) as [A_budget b_budget].
  destruct (OfflineMaximizationProblem.volume_constraints _ _ _ _ 0)
    as [[A_volume b_volume] | e];
    [| intros H; inversion H; subst; exact Hok].
  destruct (linprog _ _ _ _) as [x |] eqn:Hsolve;
    [| intros H; inversion H; subst; exact Hok].
  intros H. eapply round_solution_to_integers_ok; [| | | exact Hok | exact H].
  - exact Hb.
  - exact Hp.
  - simpl. intros x' Hx'. inversion Hx'; subst. eapply Hlp. exact Hsolve.
Qed.

Lemma optimistic_init_ok (linprog : Solver) (n : nat) (bids : Bids)
    (predicted : dict Z) (rib : bool) (cls : Advertiser.Registry) :
  solver_nonneg linprog -> bids_nonneg bids -> dict_nonneg predicted ->
  reg_ok cls ->
  reg_ok (snd (OptimisticAlgorithm.init linprog n bids predicted rib cls)).
Proof.
  intros Hlp Hb Hp Hok. unfold OptimisticAlgorithm.init.
  pose proof (get_advertiser_list_copy_ok cls Hok) as Hok1.
  destruct (Advertiser.get_advertiser_list_copy cls) as [working cls1]. simpl in Hok1.
  destruct (OfflineMaximizationProblem.solve_allocation linprog _ cls1)
    as [[rs oracle'] cls2] eqn:Hsolve.
  assert (Hok2 : reg_ok cls2).
  { eapply solve_allocation_ok; [exact Hlp | | | exact Hok1 | exact Hsolve]; assumption. }
  destruct rs; [| exact Hok2].
  destruct (OfflineMaximizationProblem.allocations oracle'); [| exact Hok2].
  destruct rib; simpl; [| exact Hok2].
  pose proof (get_advertiser_list_copy_ok cls2 Hok2) as Hok3.
  destruct (Advertiser.get_advertiser_list_copy cls2). exact Hok3.
Qed.

Lemma pessimistic_init_ok (bids : Bids) (alpha : R) (rib : bool)
    (cls : Advertiser.Registry) :
  reg_ok cls -> reg_ok (snd (PessimisticAlgorithm.init bids alpha rib cls)).
Proof.
  intros Hok. unfold PessimisticAlgorithm.init.
  destruct rib; simpl; [| exact Hok].
  pose proof (get_advertiser_list_copy_ok cls Hok) as Hok1.
  destruct (Advertiser.get_advertiser_list_copy cls). exact Hok1.
Qed.

Lemma balanced_init_ok (linprog : Solver) (n : nat) (bids : Bids)
    (predicted : dict Z) (alpha : R) (cls : Advertiser.Registry) :
  solver_nonneg linprog -> bids_nonneg bids -> dict_nonneg predicted ->
  reg_ok cls ->
  reg_ok (snd (BalancedAlgorithm.init linprog n bids predicted alpha cls)).
Proof.
  intros Hlp Hb Hp Hok. unfold BalancedAlgorithm.init.
  pose proof (optimistic_init_ok linprog n bids predicted true cls Hlp Hb Hp Hok) as Hok1.
  destruct (OptimisticAlgorithm.init linprog n bids predicted true cls) as [ro cls1].
  simpl in Hok1. destruct ro; [| exact Hok1].
  pose proof (pessimistic_init_ok bids alpha true cls1 Hok1) as Hok2.
  destruct (PessimisticAlgorithm.init bids alpha true cls1). exact Hok2.
Qed.

Lemma step_ok (cls : Advertiser.Registry) (ev : Simulation.event) :
  event_ok ev -> reg_ok cls -> reg_ok (Simulation.step cls ev).
Proof.
  intros Hev Hok. destruct ev; simpl in *.
  - apply init_ok; assumption.
  - apply reset_budgets_ok; assumption.
  - apply reset_advertiser_list_copy_ok; assumption.
  - apply get_advertiser_list_copy_ok; assumption.
  - apply pessimistic_init_ok; assumption.
  - destruct Hev as [Hlp [Hb Hp]]. apply optimistic_init_ok; assumption.
  - destruct Hev as [Hlp [Hb Hp]]. apply balanced_init_ok; assumption.
  - destruct (PessimisticAlgorithm.allocate_query self query cls) as [res cls'] eqn:Hrun.
    eapply pessimistic_allocate_query_ok; eassumption.
  - destruct (OptimisticAlgorithm.allocate_query self query cls) as [[res s'] cls'] eqn:Hrun.
    eapply optimistic_allocate_query_ok; eassumption.
  - destruct (BalancedAlgorithm.allocate_query self query cls) as [[res s'] cls'] eqn:Hrun.
    eapply balanced_allocate_query_ok; eassumption.
Qed.

Lemma run_ok (events : list Simulation.event) :
  Forall event_ok events ->
  forall cls, reg_ok cls -> reg_ok (Simulation.run events cls).
Proof.
  unfold Simulation.run.
  induction 1 as [| ev events Hev _ IH]; intros cls Hok; simpl; [exact Hok |].
  apply IH. apply step_ok; assumption.
Qed.

(** In exact arithmetic, in every run of calls with inputs of the data model (non-negative
    budgets, bids, demands and LP values), started on the empty registry, every
    advertiser object, authoritative or copied, satisfies
    [0 <= spent_budget <= initial_budget], so its remaining budget is not
    negative; and a deduction above the remaining budget raises and changes
    nothing, it is never cut down to what is left. *)
Theorem ledger_invariant (events : list Simulation.event)
    (Hev : Forall event_ok events) :
  let cls := Simulation.run events Advertiser.empty in
  (forall a,
     In a (Advertiser.advertisers cls) \/
     (exists copy, In copy (Advertiser.copies cls) /\ In a copy) ->
     0 <= Advertiser.spent_budget a <= Advertiser.initial_budget a /\
     Advertiser.remaining_budget a >= 0) /\
  (forall r i a amount,
     nth_error (Advertiser.deref cls r) i = Some a ->
     amount > Advertiser.remaining_budget a ->
     Advertiser.deduct_budget a amount = Raise ValueError /\
     Advertiser.deduct_at cls r i amount = (Raise ValueError, cls)).
Proof.
  intros cls.
  assert (Hok : reg_ok cls).
  { apply run_ok; [exact Hev |]. split; constructor. }
  split.
  - intros a Ha.
    assert (Hadv : adv_ok a).
    { destruct Hok as [Hauth Hcopies]. rewrite Forall_forall in Hauth, Hcopies.
      destruct Ha as [Hin | [copy [Hcopy Hin]]].
      - apply Hauth. exact Hin.
      - specialize (Hcopies copy Hcopy). rewrite Forall_forall in Hcopies.
        apply Hcopies. exact Hin. }
    unfold adv_ok, Advertiser.remaining_budget in *. split; lra.
  - intros r i a amount Hi Hgt.
    unfold Advertiser.deduct_at. rewrite Hi.
    unfold Advertiser.deduct_budget.
    destruct (Rgt_dec amount (Advertiser.remaining_budget a)); [| contradiction].
    split; reflexivity.
Qed.
(** In exact arithmetic, the pessimistic allocator either finds no advertiser with a positive
    bid it can afford, returns [(None, 0)] and leaves the ledger alone, or
    returns the first advertiser of maximal score among those, with its bid,
    after deducting that bid from it. *)
Theorem pessimistic_allocate_query_spec
    (self : PessimisticAlgorithm.t) (query : string) (cls : Advertiser.Registry) :
  let advs := Advertiser.deref cls (PessimisticAlgorithm.advertisers self) in
  let bid := fun a => PessimisticAlgorithm.bid_of (PessimisticAlgorithm.bids self) a query in
  let eligible := fun a => bid a > 0 /\ Advertiser.remaining_budget a >= bid a in
  let score := fun a =>
    phi_alpha (Advertiser.budget_fraction a) (PessimisticAlgorithm.alpha self) * bid a in
  ((forall a, In a advs -> ~ eligible a) /\
   PessimisticAlgorithm.allocate_query self query cls = (Ok (None, 0), cls))
  \/
  (exists i a,
     nth_error advs i = Some a /\ eligible a /\
     (forall j a', nth_error advs j = Some a' -> eligible a' -> score a' <= score a) /\
     (forall j a', (j < i)%nat -> nth_error advs j = Some a' -> eligible a' ->
        score a' < score a) /\
     PessimisticAlgorithm.allocate_query self query cls
     = (Ok (Some (PessimisticAlgorithm.advertisers self, i), bid a),
        Advertiser.store cls (PessimisticAlgorithm.advertisers self) i
          (Advertiser.mk (Advertiser.name a) (Advertiser.initial_budget a)
                         (Advertiser.spent_budget a + bid a)))).
Proof.
  exact (pessimistic_allocate_query_cases self query cls).
Qed.

(** ** Feasibility of the rounded plan *)

Lemma sumZ_ext (f g : nat -> Z) (n : nat) :
  (forall i, (i < n)%nat -> f i = g i) -> sumZ f n = sumZ g n.
Proof.
  induction n as [| n IH]; intros H; simpl; [reflexivity |].
  rewrite IH by (intros i Hi; apply H; lia). rewrite H by lia. reflexivity.
Qed.

Lemma sumZ_update (f g : nat -> Z) (n a : nat) :
  (a < n)%nat -> (forall i, i <> a -> g i = f i) ->
  sumZ g n = (sumZ f n - f a + g a)%Z.
Proof.
  intros Ha Hother. induction n as [| n IH]; [lia |]. simpl.
  destruct (Nat.eq_dec a n) as [-> | Hne].
  - rewrite (sumZ_ext g f n) by (intros i Hi; apply Hother; lia). lia.
  - rewrite IH by lia. rewrite (Hother n) by lia. lia.
Qed.

Lemma sumR_ext (f g : nat -> R) (n : nat) :
  (forall i, (i < n)%nat -> f i = g i) -> sumR f n = sumR g n.
Proof.
  induction n as [| n IH]; intros H; simpl; [reflexivity |].
  rewrite IH by (intros i Hi; apply H; lia). rewrite H by lia. reflexivity.
Qed.

Lemma sumR_update (f g : nat -> R) (n a : nat) :
  (a < n)%nat -> (forall i, i <> a -> g i = f i) ->
  sumR g n = sumR f n - f a + g a.
Proof.
  intros Ha Hother. induction n as [| n IH]; [lia |]. simpl.
  destruct (Nat.eq_dec a n) as [-> | Hne].
  - rewrite (sumR_ext g f n) by (intros i Hi; apply Hother; lia). lra.
  - rewrite IH by lia. rewrite (Hother n) by lia. lra.
Qed.

Lemma sumR_le (f g : nat -> R) (n : nat) :
  (forall i, (i < n)%nat -> f i <= g i) -> sumR f n <= sumR g n.
Proof.
  induction n as [| n IH]; intros H; simpl; [lra |].
  specialize (IH (fun i Hi => H i (Nat.lt_lt_succ_r _ _ Hi))).
  specialize (H n (Nat.lt_succ_diag_r n)). lra.
Qed.

Lemma sumZ_zero (f : nat -> Z) (n : nat) :
  (forall i, f i = 0%Z) -> sumZ f n = 0%Z.
Proof. intros H. induction n as [| n IH]; simpl; [| rewrite IH, H]; reflexivity. Qed.

Lemma sumR_zero (f : nat -> R) (n : nat) :
  (forall i, f i = 0) -> sumR f n = 0.
Proof. intros H. induction n as [| n IH]; simpl; [| rewrite IH, H]; lra. Qed.

Lemma shape_row (plan : list (list Z)) (n nk i : nat) :
  shape plan n nk -> (i < n)%nat -> List.length (nth i plan []) = nk.
Proof.
  intros [Hlen Hrows] Hi. rewrite Forall_forall in Hrows.
  apply Hrows. apply nth_In. lia.
Qed.

Lemma shape_matrix_assign (plan : list (list Z)) (n nk i j : nat) (v : Z) :
  shape plan n nk -> (i < n)%nat ->
  shape (OfflineMaximizationProblem.matrix_assign plan i j v) n nk.
Proof.
  intros Hs Hi. pose proof (shape_row _ _ _ _ Hs Hi) as Hrow.
  destruct Hs as [Hlen Hrows].
  unfold OfflineMaximizationProblem.matrix_assign. split.
  - rewrite list_assign_length. exact Hlen.
  - apply Forall_list_assign; [exact Hrows |].
    rewrite list_assign_length. exact Hrow.
Qed.

Lemma cell_matrix_assign (plan : list (list Z)) (n nk ai ki : nat) (v : Z) (i j : nat) :
  shape plan n nk -> (ai < n)%nat -> (ki < nk)%nat ->
  cell (OfflineMaximizationProblem.matrix_assign plan ai ki v) i j
  = if Nat.eqb i ai && Nat.eqb j ki then v else cell plan i j.
Proof.
  intros Hs Hai Hki. pose proof (shape_row _ _ _ _ Hs Hai) as Hrow.
  destruct Hs as [Hlen _].
  unfold cell, OfflineMaximizationProblem.matrix_assign.
  destruct (Nat.eqb i ai) eqn:Hi; simpl.
  - apply Nat.eqb_eq in Hi. subst i.
    rewrite nth_list_assign_eq by lia.
    destruct (Nat.eqb j ki) eqn:Hj.
    + apply Nat.eqb_eq in Hj. subst j. apply nth_list_assign_eq. lia.
    + apply Nat.eqb_neq in Hj. apply nth_list_assign_neq.
      intros ->. apply Hj. reflexivity.
  - apply Nat.eqb_neq in Hi. rewrite nth_list_assign_neq; [reflexivity |].
    intros ->. apply Hi. reflexivity.
Qed.

Lemma divmod_inj (n a b : nat) :
  n <> 0%nat -> (a mod n = b mod n)%nat -> (a / n = b / n)%nat -> a = b.
Proof.
  intros Hn Hm Hd.
  rewrite (Nat.div_mod_eq a n), (Nat.div_mod_eq b n), Hm, Hd. reflexivity.
Qed.

Lemma shape_zeros (n nk : nat) : shape (repeat (repeat 0%Z nk) n) n nk.
Proof.
  split; [apply repeat_length |].
  apply Forall_forall. intros row Hin. apply repeat_spec in Hin. subst row.
  apply repeat_length.
Qed.

Lemma cell_zeros (n nk i j : nat) : cell (repeat (repeat 0%Z nk) n) i j = 0%Z.
Proof.
  unfold cell.
  destruct (nth_in_or_default i (repeat (repeat 0%Z nk) n) []) as [Hin | ->].
  - apply repeat_spec in Hin. rewrite Hin.
    destruct (nth_in_or_default j (repeat 0%Z nk) 0%Z) as [Hin' | ->]; [| reflexivity].
    apply repeat_spec in Hin'. exact Hin'.
  - destruct j; reflexivity.
Qed.

Lemma deduct_at_success (cls cls' : Advertiser.Registry) (r : Advertiser.ListRef)
    (i : nat) (amount : R) (a : Advertiser.t) (u : unit) :
  nth_error (Advertiser.deref cls r) i = Some a ->
  Advertiser.deduct_at cls r i amount = (Ok u, cls') ->
  amount <= Advertiser.remaining_budget a /\
  cls' = Advertiser.store cls r i
           (Advertiser.mk (Advertiser.name a) (Advertiser.initial_budget a)
                          (Advertiser.spent_budget a + amount)).
Proof.
  intros Hi. unfold Advertiser.deduct_at, Advertiser.deduct_budget. rewrite Hi.
  destruct (Rgt_dec amount (Advertiser.remaining_budget a)) as [| Hle];
    intros H; inversion H; subst.
  split; [lra | reflexivity].
Qed.

Lemma round_inv_skip bids r n keywords advs0 rq0 idx rest plan rq cls :
  round_inv bids r n keywords advs0 rq0 (idx :: rest) plan rq cls ->
  round_inv bids r n keywords advs0 rq0 rest plan rq cls.
Proof.
  intros [Hs [Hz Hrest]]. split; [exact Hs |]. split; [| exact Hrest].
  intros idx' Hin. apply Hz. right. exact Hin.
Qed.

Lemma round_inv_step bids r solution n keywords advs0 rq0 idx rest plan rq cls
    ai ki kw bid m rem u cls' :
  bids_nonneg bids -> 0 <= nth idx solution 0 -> NoDup keywords ->
  NoDup (idx :: rest) ->
  round_inv bids r n keywords advs0 rq0 (idx :: rest) plan rq cls ->
  OfflineMaximizationProblem.allocation_at bids (Advertiser.deref cls r) solution n
    keywords rq idx = Ok (ai, ki, kw, bid, m, rem) ->
  Advertiser.deduct_at cls r ai (IZR m * bid) = (Ok u, cls') ->
  round_inv bids r n keywords advs0 rq0 rest
    (OfflineMaximizationProblem.matrix_assign plan ai ki m)
    (dict_set rq kw (rem - m)%Z) cls'.
Proof.
  intros Hb Hsol Hkeys Hnodup Hinv Hat Hded.
  destruct Hinv as [Hs [Hz [Hn [Hq [Hrq [Hok [Hspent Hdom]]]]]]].
  destruct (allocation_at_nonneg _ _ _ _ _ _ _ _ _ _ _ _ _ Hb Hok Hrq Hsol Hat)
    as [Hbid Hm].
  destruct (allocation_at_spec _ _ _ _ _ _ _ _ _ _ _ _ _ Hat)
    as [Hn0 [Hai [Hki [adv [row [Hadv [Hkw [Hrem [Hrow [Hbid_eq [_ _]]]]]]]]]]].
  destruct (deduct_at_success _ _ _ _ _ _ _ Hadv Hded) as [Hle ->].
  assert (Hai_lt : (ai < n)%nat) by (subst ai; apply Nat.mod_upper_bound; exact Hn0).
  assert (Hki_lt : (ki < List.length keywords)%nat).
  { apply nth_error_Some. rewrite Hkw. discriminate. }
  assert (Hcell : forall i j,
             cell (OfflineMaximizationProblem.matrix_assign plan ai ki m) i j
             = if Nat.eqb i ai && Nat.eqb j ki then m else cell plan i j).
  { intros i j. eapply cell_matrix_assign; eassumption. }
  assert (Hold : cell plan ai ki = 0%Z).
  { subst ai ki. apply Hz. left. reflexivity. }
  inversion Hnodup as [| ? ? Hnotin Hnodup']; subst x l.
  split; [apply shape_matrix_assign; assumption |].
  split.
  { intros idx' Hin. rewrite Hcell.
    destruct (Nat.eqb (idx' mod n) ai && Nat.eqb (idx' / n) ki) eqn:Heq.
    - apply andb_true_iff in Heq. destruct Heq as [H1 H2].
      apply Nat.eqb_eq in H1, H2. exfalso. apply Hnotin.
      replace idx with idx'; [exact Hin |].
      apply (divmod_inj n); [exact Hn0 | congruence | congruence].
    - apply Hz. right. exact Hin. }
  split.
  { intros i j. rewrite Hcell. destruct (_ && _); [lia | apply Hn]. }
  split.
  { intros j kwj d Hj Hd. destruct (Hq j kwj d Hj Hd) as [v [Hv [Hv0 Hsum]]].
    rewrite dict_get_set.
    destruct (Nat.eq_dec j ki) as [-> | Hne].
    - assert (kwj = kw) by congruence. subst kwj.
      rewrite String.eqb_refl. exists (rem - m)%Z.
      split; [reflexivity |]. split; [lia |].
      assert (v = rem) by congruence. subst v.
      unfold column_total in *.
      rewrite (sumZ_update (fun i => cell plan i ki)
                 (fun i => cell (OfflineMaximizationProblem.matrix_assign plan ai ki m) i ki)
                 n ai Hai_lt).
      + cbv beta. rewrite Hcell, !Nat.eqb_refl. simpl. lia.
      + intros i Hi. cbv beta. rewrite Hcell.
        destruct (Nat.eqb i ai) eqn:E; [apply Nat.eqb_eq in E; contradiction |].
        reflexivity.
    - assert (Hkneq : String.eqb kw kwj = false).
      { apply String.eqb_neq. intros ->. apply Hne.
        eapply (proj1 (NoDup_nth_error keywords) Hkeys); [| congruence].
        apply nth_error_Some. rewrite Hj. discriminate. }
      rewrite Hkneq. exists v. split; [exact Hv |]. split; [exact Hv0 |].
      unfold column_total in *. rewrite <- Hsum. f_equal.
      apply sumZ_ext. intros i _. rewrite Hcell.
      destruct (Nat.eqb j ki) eqn:E; [apply Nat.eqb_eq in E; contradiction |].
      rewrite andb_false_r. reflexivity. }
  split; [apply dict_set_nonneg; [exact Hrq | lia] |].
  assert (Hamount : 0 <= IZR m * bid).
  { apply Rmult_le_pos; [apply IZR_le; lia | lra]. }
  assert (Hadv_ok : adv_ok adv).
  { rewrite Forall_forall in Hok. apply Hok. eapply nth_error_In. exact Hadv. }
  split.
  { rewrite deref_store_same. apply Forall_list_assign; [exact Hok |].
    unfold adv_ok, Advertiser.remaining_budget in *. simpl. lra. }
  assert (Hai_len : (ai < List.length (Advertiser.deref cls r))%nat).
  { apply nth_error_Some. rewrite Hadv. discriminate. }
  split.
  { intros i a0 Hi0. destruct (Hspent i a0 Hi0) as [a [Hi [Hname [Hinit Hsp]]]].
    rewrite deref_store_same.
    destruct (Nat.eq_dec i ai) as [-> | Hne].
    - assert (a = adv) by congruence. subst a.
      eexists. split; [apply nth_error_list_assign_eq; exact Hai_len |].
      simpl. repeat split; try assumption.
      rewrite Hsp. unfold row_cost.
      rewrite (sumR_update
                 (fun j => IZR (cell plan ai j)
                           * rounding_bid bids (Advertiser.name a0) (nth j keywords EmptyString))
                 (fun j => IZR (cell (OfflineMaximizationProblem.matrix_assign plan ai ki m) ai j)
                           * rounding_bid bids (Advertiser.name a0) (nth j keywords EmptyString))
                 (List.length keywords) ki Hki_lt).
      + cbv beta. rewrite Hcell, !Nat.eqb_refl, Hold. simpl.
        rewrite (nth_error_nth _ _ EmptyString Hkw).
        assert (Hrb : rounding_bid bids (Advertiser.name a0) kw = bid).
        { unfold rounding_bid. rewrite <- Hname.
          unfold dict_get_default at 2. rewrite Hrow. symmetry. exact Hbid_eq. }
        rewrite Hrb. lra.
      + intros j Hj. cbv beta. rewrite Hcell.
        destruct (Nat.eqb j ki) eqn:E; [apply Nat.eqb_eq in E; contradiction |].
        rewrite andb_false_r. reflexivity.
    - exists a. split; [rewrite nth_error_list_assign_neq by congruence; exact Hi |].
      repeat split; try assumption.
      rewrite Hsp. f_equal. unfold row_cost. apply sumR_ext. intros j _.
      rewrite Hcell.
      destruct (Nat.eqb i ai) eqn:E; [apply Nat.eqb_eq in E; contradiction |].
      reflexivity. }
  intros i a Hi. rewrite deref_store_same in Hi.
  destruct (Nat.eq_dec i ai) as [-> | Hne].
  - apply (Hdom ai adv). exact Hadv.
  - rewrite nth_error_list_assign_neq in Hi by congruence. apply (Hdom i a). exact Hi.
Qed.

Lemma round_loop_inv bids r solution n keywords advs0 rq0 :
  bids_nonneg bids -> (forall i, 0 <= nth i solution 0) -> NoDup keywords ->
  forall todo, NoDup todo ->
  forall plan rq cls plan' cls',
    round_inv bids r n keywords advs0 rq0 todo plan rq cls ->
    OfflineMaximizationProblem.round_loop bids r solution n keywords todo plan rq cls
    = (Ok plan', cls') ->
    exists rq', round_inv bids r n keywords advs0 rq0 [] plan' rq' cls'.
Proof.
  intros Hb Hsol Hkeys.
  induction todo as [| idx rest IH]; intros Hnodup plan rq cls plan' cls' Hinv Hrun;
    simpl in Hrun.
  - inversion Hrun; subst. exists rq. exact Hinv.
  - assert (Hnodup' : NoDup rest) by (inversion Hnodup; assumption).
    destruct (Req_dec_T (nth idx solution 0) 0) as [_ | _].
    + eapply IH; [exact Hnodup' | | exact Hrun].
      eapply round_inv_skip. exact Hinv.
    + destruct (OfflineMaximizationProblem.allocation_at _ _ _ _ _ _ idx)
        as [[[[[[ai ki] kw] bid] m] rem] | e] eqn:Hat; [| discriminate].
      destruct (Advertiser.deduct_at cls r ai (IZR m * bid)) as [[u | e] cls1] eqn:Hded;
        [| discriminate].
      eapply IH; [exact Hnodup' | | exact Hrun].
      eapply round_inv_step; try eassumption. apply Hsol.
Qed.

Lemma insert_by_perm (key : nat -> R) (x : nat) (l : list nat) :
  Permutation (x :: l) (OfflineMaximizationProblem.insert_by key x l).
Proof.
  induction l as [| y l IH]; simpl; [apply Permutation_refl |].
  destruct (Rle_dec (key x) (key y)); [apply Permutation_refl |].
  eapply Permutation_trans; [apply perm_swap |].
  apply perm_skip. exact IH.
Qed.

Lemma sorted_by_perm (key : nat -> R) (l : list nat) :
  Permutation l (OfflineMaximizationProblem.sorted_by key l).
Proof.
  unfold OfflineMaximizationProblem.sorted_by.
  induction l as [| x l IH]; simpl; [apply Permutation_refl |].
  eapply Permutation_trans; [apply perm_skip; exact IH |].
  apply insert_by_perm.
Qed.

Lemma keyword_name_inj (i j : nat) : keyword_name i = keyword_name j -> i = j.
Proof.
  unfold keyword_name. simpl. intros H. inversion H as [Heq].
  assert (Hu : Some (Nat.to_uint (S i)) = Some (Nat.to_uint (S j))).
  { rewrite <- !NilEmpty.usu. rewrite Heq. reflexivity. }
  inversion Hu as [Hu']. apply DecimalNat.Unsigned.to_uint_inj in Hu'. lia.
Qed.

Lemma keyword_names_NoDup (n : nat) : NoDup (keyword_names n).
Proof.
  unfold keyword_names. apply NoDup_map_NoDup_ForallPairs; [| apply seq_NoDup].
  intros i j _ _. apply keyword_name_inj.
Qed.

Lemma keyword_names_nth (n j : nat) :
  (j < n)%nat -> nth_error (keyword_names n) j = Some (keyword_name j).
Proof.
  intros Hj. unfold keyword_names.
  rewrite nth_error_map, nth_error_seq.
  destruct (Nat.ltb_spec j n); [reflexivity | lia].
Qed.

Lemma keyword_names_length (n : nat) : List.length (keyword_names n) = n.
Proof. unfold keyword_names. rewrite length_map, length_seq. reflexivity. Qed.

Lemma table_bid_le_rounding_bid (bids : Bids) (nm kw : string) :
  table_bid bids nm kw <= rounding_bid bids nm kw.
Proof.
  unfold table_bid, rounding_bid, dict_get_default.
  destruct (dict_get bids nm) as [row |]; simpl;
    [destruct (dict_get row kw) |]; lra.
Qed.

(** The plan a successful rounding stores. *)
Lemma round_solution_to_integers_feasible
    (self self' : OfflineMaximizationProblem.t) (n : nat) (keywords : list string)
    (cls cls' : Advertiser.Registry) (x : list R) (u : unit) :
  let r := OfflineMaximizationProblem.advertisers self in
  let bids := OfflineMaximizationProblem.bids self in
  let predicted := OfflineMaximizationProblem.predicted_queries self in
  OfflineMaximizationProblem.solution self = Some x ->
  Forall (fun v => 0 <= v) x ->
  bids_nonneg bids -> dict_nonneg predicted -> NoDup keywords ->
  Forall adv_ok (Advertiser.deref cls r) ->
  OfflineMaximizationProblem.round_solution_to_integers self n keywords cls
  = (Ok u, self', cls') ->
  exists plan,
    OfflineMaximizationProblem.allocations self' = Some plan /\
    shape plan n (List.length keywords) /\
    (forall i j, (0 <= cell plan i j)%Z) /\
    (forall j kw d, nth_error keywords j = Some kw -> dict_get predicted kw = Some d ->
       (column_total plan n j <= d)%Z) /\
    (forall i a, nth_error (Advertiser.deref cls r) i = Some a ->
       row_cost (table_bid bids) keywords plan i (Advertiser.name a)
       <= Advertiser.initial_budget a).
Proof.
  intros r bids predicted Hx Hxpos Hb Hp Hkeys Hadvs.
  unfold OfflineMaximizationProblem.round_solution_to_integers.
  fold predicted. fold bids. fold r.
  destruct (OfflineMaximizationProblem.demand_of predicted keywords []) as [rq0 | e] eqn:Hrq0;
    [| discriminate].
  rewrite Hx.
  destruct (OfflineMaximizationProblem.round_loop bids r x n keywords _ _ rq0 cls)
    as [[plan | e] cls1] eqn:Hloop; [| discriminate].
  intros H. inversion H; subst. clear H.
  exists plan. split; [reflexivity |].
  pose proof (demand_of_nonneg _ _ _ Hp Hrq0) as Hrq0_nonneg.
  assert (Hinit : round_inv bids r n keywords (Advertiser.deref cls r) rq0
                    (OfflineMaximizationProblem.sorted_by (fun i => - nth i x 0)
                       (seq 0 (List.length x)))
                    (repeat (repeat 0%Z (List.length keywords)) n) rq0 cls).
  { split; [apply shape_zeros |].
    split; [intros; apply cell_zeros |].
    split; [intros; rewrite cell_zeros; lia |].
    split.
    { intros j kw d _ Hd. exists d. split; [exact Hd |].
      split; [eapply Hrq0_nonneg; exact Hd |].
      unfold column_total. rewrite sumZ_zero; [lia |].
      intros i. apply cell_zeros. }
    split; [exact Hrq0_nonneg |].
    split; [exact Hadvs |].
    split.
    { intros i a0 Hi. exists a0. repeat split; try assumption.
      unfold row_cost. rewrite sumR_zero; [lra |].
      intros j. rewrite cell_zeros. lra. }
    intros i a Hi. exists a. exact Hi. }
  assert (Hnodup : NoDup (OfflineMaximizationProblem.sorted_by (fun i => - nth i x 0)
                            (seq 0 (List.length x)))).
  { eapply Permutation_NoDup; [apply sorted_by_perm | apply seq_NoDup]. }
  destruct (round_loop_inv bids r x n keywords _ rq0 Hb (Forall_nth_nonneg x Hxpos)
              Hkeys _ Hnodup _ _ _ _ _ Hinit Hloop)
    as [rq' [Hs [_ [Hn [Hq [_ [Hok [Hspent _]]]]]]]].
  split; [exact Hs |]. split; [exact Hn |]. split.
  - intros j kw d Hj Hd.
    destruct (demand_of_get _ _ _ _ Hrq0 kw) as [Hin _].
    destruct (Hin (nth_error_In _ _ Hj)) as [Heq _].
    rewrite <- Heq in Hd.
    destruct (Hq j kw d Hj Hd) as [v [_ [Hv Hsum]]]. lia.
  - intros i a0 Hi.
    destruct (Hspent i a0 Hi) as [a [Hi' [_ [Hinit' Hsp]]]].
    assert (Ha : adv_ok a).
    { rewrite Forall_forall in Hok. apply Hok. eapply nth_error_In. exact Hi'. }
    assert (Ha0 : adv_ok a0).
    { rewrite Forall_forall in Hadvs. apply Hadvs. eapply nth_error_In. exact Hi. }
    assert (Hle : row_cost (table_bid bids) keywords plan i (Advertiser.name a0)
                  <= row_cost (rounding_bid bids) keywords plan i (Advertiser.name a0)).
    { unfold row_cost. apply sumR_le. intros j _.
      apply Rmult_le_compat_l; [apply IZR_le; apply Hn |].
      apply table_bid_le_rounding_bid. }
    unfold adv_ok in *. lra.
Qed.

(** *** The rounding does return a plan *)

Lemma bids_positive_nonneg (bids : Bids) : bids_positive bids -> bids_nonneg bids.
Proof. intros H nm row kw v Hrow Hv. left. eapply H; eassumption. Qed.

Lemma allocation_at_total (bids : Bids) (advs : list Advertiser.t) (solution : list R)
    (n : nat) (keywords : list string) (rq : dict Z) (idx : nat) :
  bids_positive bids -> bids_cover bids advs -> List.length advs = n ->
  (idx < n * List.length keywords)%nat ->
  (forall kw, In kw keywords -> dict_get rq kw <> None) ->
  exists ai ki kw bid m rem adv,
    OfflineMaximizationProblem.allocation_at bids advs solution n keywords rq idx
    = Ok (ai, ki, kw, bid, m, rem) /\
    nth_error advs ai = Some adv /\ In kw keywords /\
    IZR m * bid <= Advertiser.remaining_budget adv.
Proof.
  intros Hpos Hcover Hlen Hidx Hrq.
  assert (Hn : n <> 0%nat) by (intros ->; simpl in Hidx; lia).
  assert (Hai : (idx mod n < n)%nat) by (apply Nat.mod_upper_bound; exact Hn).
  assert (Hki : (idx / n < List.length keywords)%nat)
    by (apply Nat.Div0.div_lt_upper_bound; exact Hidx).
  destruct (nth_error advs (idx mod n)) as [adv |] eqn:Hadv;
    [| apply nth_error_None in Hadv; lia].
  destruct (nth_error keywords (idx / n)) as [kw |] eqn:Hkw;
    [| apply nth_error_None in Hkw; lia].
  pose proof (nth_error_In _ _ Hkw) as Hin.
  destruct (dict_get rq kw) as [rem |] eqn:Hrem; [| exfalso; eapply Hrq; eassumption].
  unfold bids_cover in Hcover. rewrite Forall_forall in Hcover.
  pose proof (Hcover adv (nth_error_In _ _ Hadv)) as Hrow.
  destruct (dict_get bids (Advertiser.name adv)) as [row |] eqn:Hrow'; [| contradiction].
  assert (Hbid : 0 < dict_get_default row kw 1).
  { unfold dict_get_default. destruct (dict_get row kw) eqn:Hv; [| lra].
    eapply Hpos; eassumption. }
  eexists _, _, kw, _, _, rem, adv.
  unfold OfflineMaximizationProblem.allocation_at, bind, list_item, dict_item, floordiv.
  destruct (Nat.eqb_spec n 0) as [| _]; [contradiction |].
  rewrite Hadv, Hkw, Hrem, Hrow'.
  destruct (Req_dec_T (dict_get_default row kw 1) 0) as [H0 | _];
    [exfalso; rewrite H0 in Hbid; exact (Rlt_irrefl 0 Hbid) |].
  split; [reflexivity |]. split; [exact Hadv |]. split; [exact Hin |].
  unfold Advertiser.remaining_budget.
  set (q := (Advertiser.initial_budget adv - Advertiser.spent_budget adv)
            / dict_get_default row kw 1).
  set (m := Z.min _ (Zfloor q)).
  assert (Hm : IZR m <= q).
  { apply Rle_trans with (IZR (Zfloor q)); [apply IZR_le; lia |].
    apply Zfloor_bound. }
  apply Rmult_le_compat_r with (r := dict_get_default row kw 1) in Hm; [| lra].
  unfold q in Hm. unfold Rdiv in Hm. rewrite Rmult_assoc, Rinv_l in Hm by lra. lra.
Qed.

Lemma round_loop_total (bids : Bids) (r : Advertiser.ListRef) (solution : list R)
    (n : nat) (keywords : list string) :
  bids_positive bids ->
  forall todo plan rq cls,
    Forall (fun idx => (idx < n * List.length keywords)%nat) todo ->
    bids_cover bids (Advertiser.deref cls r) ->
    List.length (Advertiser.deref cls r) = n ->
    (forall kw, In kw keywords -> dict_get rq kw <> None) ->
    exists plan' cls',
      OfflineMaximizationProblem.round_loop bids r solution n keywords todo plan rq cls
      = (Ok plan', cls').
Proof.
  intros Hpos.
  induction todo as [| idx rest IH]; intros plan rq cls Htodo Hcover Hlen Hrq; simpl.
  - eexists _, _. reflexivity.
  - apply Forall_cons_iff in Htodo. destruct Htodo as [Hidx Hrest].
    destruct (Req_dec_T (nth idx solution 0) 0) as [_ | _];
      [apply IH; assumption |].
    destruct (allocation_at_total bids _ solution n keywords rq idx Hpos Hcover Hlen
                Hidx Hrq)
      as [ai [ki [kw [bid [m [rem [adv [-> [Hadv [Hin Hle]]]]]]]]]].
    unfold Advertiser.deduct_at, Advertiser.deduct_budget. rewrite Hadv.
    destruct (Rgt_dec _ _) as [Hgt | _]; [lra |].
    apply IH.
    + exact Hrest.
    + rewrite deref_store_same. apply Forall_list_assign; [exact Hcover |].
      simpl. unfold bids_cover in Hcover. rewrite Forall_forall in Hcover.
      apply Hcover. eapply nth_error_In. exact Hadv.
    + rewrite deref_store_same, list_assign_length. exact Hlen.
    + intros kw' Hin'. rewrite dict_get_set.
      destruct (String.eqb kw kw'); [discriminate | apply Hrq; exact Hin'].
Qed.

Lemma demand_of_total (predicted : dict Z) (keywords : list string) :
  (forall kw, In kw keywords -> dict_get predicted kw <> None) ->
  forall acc, exists rq,
    OfflineMaximizationProblem.demand_of predicted keywords acc = Ok rq.
Proof.
  induction keywords as [| k rest IH]; intros Hall acc; simpl.
  - eexists. reflexivity.
  - unfold bind, dict_item.
    destruct (dict_get predicted k) eqn:Hk;
      [| exfalso; apply (Hall k); [left; reflexivity | exact Hk]].
    apply IH. intros kw Hin. apply Hall. right. exact Hin.
Qed.

Lemma round_solution_to_integers_total
    (self : OfflineMaximizationProblem.t) (n : nat) (keywords : list string)
    (cls : Advertiser.Registry) (x : list R) :
  let r := OfflineMaximizationProblem.advertisers self in
  let bids := OfflineMaximizationProblem.bids self in
  let predicted := OfflineMaximizationProblem.predicted_queries self in
  OfflineMaximizationProblem.solution self = Some x ->
  List.length x = (n * List.length keywords)%nat ->
  bids_positive bids -> bids_cover bids (Advertiser.deref cls r) ->
  List.length (Advertiser.deref cls r) = n ->
  (forall kw, In kw keywords -> dict_get predicted kw <> None) ->
  exists self' cls',
    OfflineMaximizationProblem.round_solution_to_integers self n keywords cls
    = (Ok tt, self', cls').
Proof.
  intros r bids predicted Hx Hlenx Hpos Hcover Hlen Hall.
  unfold OfflineMaximizationProblem.round_solution_to_integers.
  fold predicted. fold bids. fold r.
  destruct (demand_of_total predicted keywords Hall []) as [rq0 Hrq0].
  rewrite Hrq0, Hx.
  edestruct (round_loop_total bids r x n keywords Hpos
               (OfflineMaximizationProblem.sorted_by (fun i => - nth i x 0)
                  (seq 0 (List.length x)))
               (repeat (repeat 0%Z (List.length keywords)) n) rq0 cls)
    as [plan' [cls' Hloop]].
  - eapply Permutation_Forall; [apply sorted_by_perm |].
    apply Forall_forall. intros idx Hin. apply in_seq in Hin. lia.
  - exact Hcover.
  - exact Hlen.
  - intros kw Hin. destruct (demand_of_get _ _ _ _ Hrq0 kw) as [Hk _].
    destruct (Hk Hin) as [-> Hne]. exact Hne.
  - rewrite Hloop. eexists _, _. reflexivity.
Qed.

Lemma volume_constraints_missing (predicted : dict Z) (n nk : nat)
    (keywords : list string) :
  (exists kw, In kw keywords /\ dict_get predicted kw = None) ->
  forall j,
    OfflineMaximizationProblem.volume_constraints predicted n nk keywords j
    = Raise KeyError.
Proof.
  induction keywords as [| k rest IH]; intros [kw [Hin Hnone]] j; [destruct Hin |].
  simpl. unfold bind, dict_item.
  destruct (dict_get predicted k) as [d |] eqn:Hk; [| reflexivity].
  rewrite IH; [reflexivity |].
  exists kw. split; [| exact Hnone].
  destruct Hin as [-> | Hin]; [congruence | exact Hin].
Qed.

Lemma volume_constraints_present (predicted : dict Z) (n nk : nat)
    (keywords : list string) :
  (forall kw, In kw keywords -> dict_get predicted kw <> None) ->
  forall j, exists A_ub b_ub,
    OfflineMaximizationProblem.volume_constraints predicted n nk keywords j
    = Ok (A_ub, b_ub).
Proof.
  induction keywords as [| k rest IH]; intros Hall j; simpl.
  - eexists _, _. reflexivity.
  - unfold bind, dict_item.
    destruct (dict_get predicted k) as [d |] eqn:Hk;
      [| exfalso; apply (Hall k); [left; reflexivity | exact Hk]].
    destruct (IH (fun kw Hin => Hall kw (or_intror Hin)) (S j)) as [A [b ->]].
    eexists _, _. reflexivity.
Qed.

Lemma volume_constraints_ok_present (predicted : dict Z) (n nk : nat)
    (keywords : list string) (j : nat) (v : list (list R) * list R) :
  OfflineMaximizationProblem.volume_constraints predicted n nk keywords j = Ok v ->
  forall kw, In kw keywords -> dict_get predicted kw <> None.
Proof.
  intros Hok kw Hin Hnone.
  rewrite volume_constraints_missing in Hok; [discriminate |].
  exists kw. split; assumption.
Qed.

(** In exact arithmetic, when the LP solver succeeds with values inside its bounds, on
    non-negative bids and demands and working advertisers within budget, the
    plan [solve_allocation] stores has non-negative integer cells, hands out
    of every keyword at most its predicted demand, and costs every advertiser
    at most its initial budget; with positive bids, a row of bids for every
    advertiser and a demand for every keyword, a plan is stored. *)
Theorem offline_plan_feasible (linprog : Solver) (self : OfflineMaximizationProblem.t)
    (cls : Advertiser.Registry) :
  let r := OfflineMaximizationProblem.advertisers self in
  let bids := OfflineMaximizationProblem.bids self in
  let predicted := OfflineMaximizationProblem.predicted_queries self in
  let nk := OfflineMaximizationProblem.n_keywords self in
  let advs := Advertiser.deref cls r in
  solver_nonneg linprog -> bids_nonneg bids -> dict_nonneg predicted ->
  Forall adv_ok advs ->
  (forall self' cls',
     OfflineMaximizationProblem.solve_allocation linprog self cls = (Ok tt, self', cls') ->
     exists plan,
       OfflineMaximizationProblem.allocations self' = Some plan /\
       shape plan (List.length advs) nk /\
       (forall i j, (0 <= cell plan i j)%Z) /\
       (forall j d, (j < nk)%nat -> dict_get predicted (keyword_name j) = Some d ->
          (column_total plan (List.length advs) j <= d)%Z) /\
       (forall i a, nth_error advs i = Some a ->
          row_cost (table_bid bids) (keyword_names nk) plan i (Advertiser.name a)
          <= Advertiser.initial_budget a)) /\
  (forall x,
     (forall c A_ub b_ub method, linprog c A_ub b_ub method = Some x) ->
     List.length x = (List.length advs * nk)%nat ->
     bids_positive bids -> bids_cover bids advs ->
     (forall j, (j < nk)%nat -> dict_get predicted (keyword_name j) <> None) ->
     exists self' cls',
       OfflineMaximizationProblem.solve_allocation linprog self cls
       = (Ok tt, self', cls')).
Proof.
  intros r bids predicted nk advs Hlp Hb Hp Hadvs.
  unfold OfflineMaximizationProblem.solve_allocation.
  fold r. fold bids. fold predicted. fold nk. fold advs.
  destruct (OfflineMaximizationProblem.budget_constraints bids advs 0 _ _)
    as [A_budget b_budget].
  split.
  - intros self' cls'.
    destruct (OfflineMaximizationProblem.volume_constraints predicted _ nk _ 0)
      as [[A_volume b_volume] | e]; [| discriminate].
    destruct (linprog _ _ _ _) as [x |] eqn:Hsolve; [| discriminate].
    intros Hround.
    eapply round_solution_to_integers_feasible in Hround;
      [| reflexivity | eapply Hlp; exact Hsolve | exact Hb | exact Hp
       | apply keyword_names_NoDup | exact Hadvs].
    destruct Hround as [plan [Hplan [Hs [Hn [Hcol Hrow]]]]].
    rewrite keyword_names_length in Hs.
    exists plan. repeat split; try assumption; try apply Hs.
    intros j d Hj Hd. eapply Hcol; [apply keyword_names_nth; exact Hj | exact Hd].
  - intros x Hsolve Hlen Hpos Hcover Hall.
    assert (Hall' : forall kw, In kw (keyword_names nk) -> dict_get predicted kw <> None).
    { intros kw Hin. unfold keyword_names in Hin. apply in_map_iff in Hin.
      destruct Hin as [j [<- Hj]]. apply in_seq in Hj. apply Hall. lia. }
    destruct (volume_constraints_present predicted (List.length advs) nk _ Hall' 0%nat)
      as [A [b ->]].
    rewrite Hsolve.
    apply round_solution_to_integers_total with (x := x); try assumption.
    + reflexivity.
    + rewrite keyword_names_length. exact Hlen.
    + reflexivity.
Qed.

(** ** Keyword names and plan columns *)

Lemma round_loop_shape (bids : Bids) (r : Advertiser.ListRef) (solution : list R)
    (n nk : nat) (keywords : list string) :
  forall todo plan rq cls plan' cls',
    shape plan n nk ->
    OfflineMaximizationProblem.round_loop bids r solution n keywords todo plan rq cls
    = (Ok plan', cls') ->
    shape plan' n nk.
Proof.
  induction todo as [| idx rest IH]; intros plan rq cls plan' cls' Hs Hrun;
    simpl in Hrun.
  - inversion Hrun; subst. exact Hs.
  - destruct (Req_dec_T (nth idx solution 0) 0) as [_ | _];
      [eapply IH; eassumption |].
    destruct (OfflineMaximizationProblem.allocation_at _ _ _ _ _ _ idx)
      as [[[[[[ai ki] kw] bid] m] rem] | e] eqn:Hat; [| discriminate].
    destruct (allocation_at_spec _ _ _ _ _ _ _ _ _ _ _ _ _ Hat) as [Hn [-> _]].
    destruct (Advertiser.deduct_at _ _ _ _) as [[u | e] cls1]; [| discriminate].
    eapply IH; [| exact Hrun].
    apply shape_matrix_assign; [exact Hs |].
    apply Nat.mod_upper_bound. exact Hn.
Qed.

Lemma solve_allocation_shape (linprog : Solver) (self self' : OfflineMaximizationProblem.t)
    (cls cls' : Advertiser.Registry) (u : unit) :
  OfflineMaximizationProblem.solve_allocation linprog self cls = (Ok u, self', cls') ->
  (forall j, (j < OfflineMaximizationProblem.n_keywords self)%nat ->
     dict_get (OfflineMaximizationProblem.predicted_queries self) (keyword_name j)
     <> None) /\
  exists plan,
    OfflineMaximizationProblem.allocations self' = Some plan /\
    shape plan
      (List.length (Advertiser.deref cls (OfflineMaximizationProblem.advertisers self)))
      (OfflineMaximizationProblem.n_keywords self).
Proof.
  unfold OfflineMaximizationProblem.solve_allocation.
  destruct (OfflineMaximizationProblem.budget_constraints _ _ 0 _ _) as [A_budget b_budget].
  destruct (OfflineMaximizationProblem.volume_constraints _ _ _ _ 0)
    as [[A_volume b_volume] | e] eqn:Hvol; [| discriminate].
  destruct (linprog _ _ _ _) as [x |]; [| discriminate].
  unfold OfflineMaximizationProblem.round_solution_to_integers. simpl.
  destruct (OfflineMaximizationProblem.demand_of _ _ []) as [rq0 | e]; [| discriminate].
  destruct (OfflineMaximizationProblem.round_loop _ _ x _ _ _ _ rq0 cls)
    as [[plan | e] cls1] eqn:Hloop; [| discriminate].
  intros H. inversion H; subst. simpl. split.
  - intros j Hj. eapply volume_constraints_ok_present; [exact Hvol |].
    eapply nth_error_In. apply keyword_names_nth. exact Hj.
  - exists plan. split; [reflexivity |].
    eapply round_loop_shape in Hloop; [| apply shape_zeros].
    rewrite keyword_names_length in Hloop. exact Hloop.
Qed.

Lemma solve_allocation_key_error (linprog : Solver) (self : OfflineMaximizationProblem.t)
    (cls : Advertiser.Registry) :
  (exists j, (j < OfflineMaximizationProblem.n_keywords self)%nat /\
     dict_get (OfflineMaximizationProblem.predicted_queries self) (keyword_name j) = None) ->
  OfflineMaximizationProblem.solve_allocation linprog self cls = (Raise KeyError, self, cls).
Proof.
  intros [j [Hj Hnone]]. unfold OfflineMaximizationProblem.solve_allocation.
  destruct (OfflineMaximizationProblem.budget_constraints _ _ 0 _ _) as [A_budget b_budget].
  rewrite volume_constraints_missing; [reflexivity |].
  exists (keyword_name j). split; [| exact Hnone].
  eapply nth_error_In. apply keyword_names_nth. exact Hj.
Qed.

Lemma list_index_spec (l : list string) (x : string) (j : nat) :
  list_index l x = Some j <->
  nth_error l j = Some x /\ forall j', (j' < j)%nat -> nth_error l j' <> Some x.
Proof.
  revert j. induction l as [| y l IH]; intros j; simpl.
  - split; [discriminate |]. intros [H _]. destruct j; discriminate.
  - destruct (String.eqb y x) eqn:Heq.
    + apply String.eqb_eq in Heq. subst y. split.
      * intros H. inversion H; subst. split; [reflexivity | intros j' Hj'; lia].
      * intros [Hj Hfirst]. destruct j as [| j]; [reflexivity |].
        exfalso. apply (Hfirst 0%nat); [lia | reflexivity].
    + apply String.eqb_neq in Heq. split.
      * destruct (list_index l x) as [k |] eqn:Hk; [| discriminate].
        intros H. inversion H; subst.
        destruct (proj1 (IH k) eq_refl) as [Hnth Hfirst].
        split; [exact Hnth |].
        intros [| j'] Hj'; simpl; [congruence | apply Hfirst; lia].
      * intros [Hj Hfirst]. destruct j as [| j]; simpl in Hj; [congruence |].
        rewrite (proj2 (IH j)); [reflexivity |].
        split; [exact Hj |]. intros j' Hj'. apply (Hfirst (S j')). lia.
Qed.



Lemma optimistic_init_fields (linprog : Solver) (n : nat) (bids : Bids)
    (predicted : dict Z) (rib : bool) (cls cls' : Advertiser.Registry)
    (o : OptimisticAlgorithm.t) :
  OptimisticAlgorithm.init linprog n bids predicted rib cls = (Ok o, cls') ->
  OptimisticAlgorithm.keywords o = dict_keys predicted /\
  OptimisticAlgorithm.remaining_queries o = predicted /\
  OptimisticAlgorithm.bids o = bids /\
  Forall (fun row => List.length row = n) (OptimisticAlgorithm.offline_allocations o) /\
  (forall j, (j < n)%nat -> dict_get predicted (keyword_name j) <> None).
Proof.
  unfold OptimisticAlgorithm.init.
  destruct (Advertiser.get_advertiser_list_copy cls) as [working cls1].
  destruct (OfflineMaximizationProblem.solve_allocation linprog _ cls1)
    as [[[u | e] oracle'] cls2] eqn:Hsolve; [| discriminate].
  destruct (solve_allocation_shape _ _ _ _ _ _ Hsolve) as [Hall [plan [Hplan [_ Hrows]]]].
  rewrite Hplan. simpl in Hall, Hrows.
  destruct (if rib then Advertiser.get_advertiser_list_copy cls2
            else (Advertiser.get_advertisers cls2, cls2)) as [advs cls3].
  intros H. inversion H; subst. simpl. repeat split; assumption.
Qed.




(** ** The balanced allocator *)

Lemma covers_bump (auth shadow : list Advertiser.t) (i : nat) (s : Advertiser.t) (b : R) :
  covers auth shadow -> nth_error shadow i = Some s -> 0 <= b ->
  covers auth (list_assign shadow i (bump s b)).
Proof.
  intros [Hlen Hcov] Hi Hb. split; [rewrite list_assign_length; exact Hlen |].
  intros j a Hj. destruct (Hcov j a Hj) as [s' [Hj' [Hname [Hinit Hsp]]]].
  destruct (Nat.eq_dec i j) as [-> | Hne].
  - assert (s' = s) by congruence. subst s'.
    exists (bump s b). split.
    + apply nth_error_list_assign_eq. apply nth_error_Some. rewrite Hi. discriminate.
    + simpl. repeat split; try assumption. lra.
  - exists s'. split; [rewrite nth_error_list_assign_neq by exact Hne; exact Hj' |].
    repeat split; assumption.
Qed.

Lemma candidate_ok_bump (auth shadow : list Advertiser.t) (k i : nat)
    (s : Advertiser.t) (b : R) (candidate : option Advertiser.Ref * R) :
  candidate_ok auth shadow k candidate -> nth_error shadow i = Some s -> 0 <= b ->
  candidate_ok auth (list_assign shadow i (bump s b)) k candidate.
Proof.
  destruct candidate as [[[r j] |] bid]; simpl; [| tauto].
  intros [Hr [Hbid [s' [a [Hj [Ha [Hname [Hrem Hsp]]]]]]]] Hi Hb.
  split; [exact Hr |]. split; [exact Hbid |].
  destruct (Nat.eq_dec i j) as [-> | Hne].
  - assert (s' = s) by congruence. subst s'.
    exists (bump s b), a. split.
    + apply nth_error_list_assign_eq. apply nth_error_Some. rewrite Hi. discriminate.
    + simpl. repeat split; try assumption. lra.
  - exists s', a. split; [rewrite nth_error_list_assign_neq by exact Hne; exact Hj |].
    repeat split; assumption.
Qed.

Lemma covers_lookup (auth shadow : list Advertiser.t) (i : nat) (s : Advertiser.t) :
  covers auth shadow -> nth_error shadow i = Some s ->
  exists a, nth_error auth i = Some a /\
    Advertiser.name s = Advertiser.name a /\
    Advertiser.initial_budget s = Advertiser.initial_budget a /\
    Advertiser.spent_budget a <= Advertiser.spent_budget s.
Proof.
  intros [Hlen Hcov] Hi.
  destruct (nth_error auth i) as [a |] eqn:Ha.
  - destruct (Hcov i a Ha) as [s' [Hi' H]].
    assert (s' = s) by congruence. subst s'. exists a. split; [reflexivity | exact H].
  - apply nth_error_None in Ha.
    assert (i < List.length shadow)%nat by (apply nth_error_Some; rewrite Hi; discriminate).
    lia.
Qed.

Lemma store_snapshot_frame (cls : Advertiser.Registry) (k i : nat) (a : Advertiser.t) :
  Advertiser.advertisers (Advertiser.store cls (Advertiser.Snapshot k) i a)
  = Advertiser.advertisers cls /\
  List.length (Advertiser.copies (Advertiser.store cls (Advertiser.Snapshot k) i a))
  = List.length (Advertiser.copies cls).
Proof. simpl. split; [reflexivity | apply list_assign_length]. Qed.

(** One optimistic decision on the copy [k]. *)
Lemma optimistic_step (self self' : OptimisticAlgorithm.t) (query : string)
    (cls cls' : Advertiser.Registry) (k : nat) (auth : list Advertiser.t)
    (o_copy : option Advertiser.Ref * R) :
  OptimisticAlgorithm.advertisers self = Advertiser.Snapshot k ->
  bids_nonneg (OptimisticAlgorithm.bids self) ->
  Advertiser.advertisers cls = auth ->
  covers auth (Advertiser.deref cls (Advertiser.Snapshot k)) ->
  OptimisticAlgorithm.allocate_query self query cls = (Ok o_copy, self', cls') ->
  OptimisticAlgorithm.advertisers self' = Advertiser.Snapshot k /\
  OptimisticAlgorithm.bids self' = OptimisticAlgorithm.bids self /\
  Advertiser.advertisers cls' = auth /\
  List.length (Advertiser.copies cls') = List.length (Advertiser.copies cls) /\
  covers auth (Advertiser.deref cls' (Advertiser.Snapshot k)) /\
  candidate_ok auth (Advertiser.deref cls' (Advertiser.Snapshot k)) k o_copy.
Proof.
  intros Hr Hb Hauth Hcov Hrun.
  destruct (optimistic_allocate_query_cases self query cls)
    as [[s1 [Hr1 [Hb1 [Heq | [e Heq]]]]]
       | [s1 [i [a [row [Hr1 [Hb1 [Hi [Hrow [Hge [_ Heq]]]]]]]]]]];
    rewrite Heq in Hrun; inversion Hrun; subst; clear Hrun.
  - split; [congruence |]. split; [exact Hb1 |].
    split; [reflexivity |]. split; [reflexivity |]. split; [exact Hcov |].
    reflexivity.
  - split; [congruence |]. split; [exact Hb1 |]. clear Hr1 Hb1.
    rewrite Hr in *.
    pose proof (bids_nonneg_default _ _ query _ 0 Hb Hrow (Rle_refl 0)) as Hbid.
    destruct (covers_lookup _ _ _ _ Hcov Hi) as [a0 [Ha0 [Hname [Hinit Hsp]]]].
    assert (Hlt : (i < List.length (Advertiser.deref cls (Advertiser.Snapshot k)))%nat)
      by (apply nth_error_Some; rewrite Hi; discriminate).
    split; [reflexivity |]. split; [apply store_snapshot_frame |].
    rewrite deref_store_same. split.
    + apply (covers_bump _ _ i a); assumption.
    + simpl. split; [reflexivity |]. split; [exact Hbid |].
      exists (bump a (dict_get_default row query 0)), a0. split.
      * apply nth_error_list_assign_eq. exact Hlt.
      * simpl. unfold Advertiser.remaining_budget in *.
        repeat split; try assumption; lra.
Qed.

(** One pessimistic decision on the copy [k]; an earlier candidate stays
    good. *)
Lemma pessimistic_step (self : PessimisticAlgorithm.t) (query : string)
    (cls cls' : Advertiser.Registry) (k : nat) (auth : list Advertiser.t)
    (res : Result (option Advertiser.Ref * R)) (o_copy : option Advertiser.Ref * R) :
  PessimisticAlgorithm.advertisers self = Advertiser.Snapshot k ->
  Advertiser.advertisers cls = auth ->
  covers auth (Advertiser.deref cls (Advertiser.Snapshot k)) ->
  candidate_ok auth (Advertiser.deref cls (Advertiser.Snapshot k)) k o_copy ->
  PessimisticAlgorithm.allocate_query self query cls = (res, cls') ->
  exists p_copy, res = Ok p_copy /\
    Advertiser.advertisers cls' = auth /\
    List.length (Advertiser.copies cls') = List.length (Advertiser.copies cls) /\
    covers auth (Advertiser.deref cls' (Advertiser.Snapshot k)) /\
    candidate_ok auth (Advertiser.deref cls' (Advertiser.Snapshot k)) k o_copy /\
    candidate_ok auth (Advertiser.deref cls' (Advertiser.Snapshot k)) k p_copy.
Proof.
  intros Hr Hauth Hcov Ho Hrun.
  destruct (pessimistic_allocate_query_cases self query cls)
    as [[_ Heq] | [i [a [Hi [[Hpos Hge] [_ [_ Heq]]]]]]];
    rewrite Heq in Hrun; inversion Hrun; subst; clear Hrun.
  - eexists. split; [reflexivity |]. split; [reflexivity |]. split; [reflexivity |].
    split; [exact Hcov |]. split; [exact Ho | reflexivity].
  - rewrite Hr in *.
    set (b := PessimisticAlgorithm.bid_of (PessimisticAlgorithm.bids self) a query) in *.
    assert (Hb : 0 <= b) by lra.
    destruct (covers_lookup _ _ _ _ Hcov Hi) as [a0 [Ha0 [Hname [Hinit Hsp]]]].
    assert (Hlt : (i < List.length (Advertiser.deref cls (Advertiser.Snapshot k)))%nat)
      by (apply nth_error_Some; rewrite Hi; discriminate).
    eexists. split; [reflexivity |].
    split; [reflexivity |]. split; [apply store_snapshot_frame |].
    rewrite deref_store_same. split; [| split].
    + apply (covers_bump _ _ i a); assumption.
    + apply (candidate_ok_bump _ _ k i a b); assumption.
    + simpl. split; [reflexivity |]. split; [exact Hb |].
      exists (bump a b), a0. split.
      * apply nth_error_list_assign_eq. exact Hlt.
      * simpl. unfold Advertiser.remaining_budget in *.
        repeat split; try assumption; lra.
Qed.

Lemma find_by_name_first (advs : list Advertiser.t) :
  NoDup (map Advertiser.name advs) ->
  forall i a off, nth_error advs i = Some a ->
    BalancedAlgorithm.find_by_name advs (Advertiser.name a) off = Ok (off + i)%nat.
Proof.
  induction advs as [| x rest IH]; intros Hnd i a off Hi; [destruct i; discriminate |].
  simpl in Hnd. inversion Hnd as [| ? ? Hnotin Hnd']; subst.
  simpl. destruct i as [| i]; simpl in Hi.
  - inversion Hi; subst. rewrite String.eqb_refl. f_equal. lia.
  - destruct (String.eqb (Advertiser.name x) (Advertiser.name a)) eqn:Heq.
    + apply String.eqb_eq in Heq. exfalso. apply Hnotin. rewrite Heq.
      apply in_map. eapply nth_error_In. exact Hi.
    + rewrite (IH Hnd' i a (S off) Hi). f_equal. lia.
Qed.

Lemma to_authoritative_ok (cls : Advertiser.Registry) (k : nat)
    (candidate : option Advertiser.Ref * R) :
  NoDup (map Advertiser.name (Advertiser.advertisers cls)) ->
  candidate_ok (Advertiser.advertisers cls)
    (Advertiser.deref cls (Advertiser.Snapshot k)) k candidate ->
  BalancedAlgorithm.to_authoritative cls candidate
  = Ok (match candidate with
        | (Some (_, i), b) => (Some i, b)
        | (None, _) => (None, 0)
        end).
Proof.
  intros Hnd. destruct candidate as [[[r i] |] b]; simpl; [| reflexivity].
  intros [-> [_ [s [a [Hs [Ha [Hname _]]]]]]].
  unfold bind, list_item. simpl in *. rewrite Hs, Hname.
  rewrite (find_by_name_first _ Hnd i a 0%nat Ha). reflexivity.
Qed.

Lemma covers_commit (auth shadow : list Advertiser.t) (j : nat)
    (a s : Advertiser.t) (b : R) :
  covers auth shadow -> nth_error auth j = Some a -> nth_error shadow j = Some s ->
  Advertiser.spent_budget a + b <= Advertiser.spent_budget s ->
  covers (list_assign auth j (bump a b)) shadow.
Proof.
  intros [Hlen Hcov] Ha Hs Hle. split; [rewrite list_assign_length; exact Hlen |].
  intros i a' Hi.
  destruct (Nat.eq_dec j i) as [-> | Hne].
  - rewrite nth_error_list_assign_eq in Hi
      by (apply nth_error_Some; rewrite Ha; discriminate).
    inversion Hi; subst a'. destruct (Hcov i a Ha) as [s' [Hs' [Hname [Hinit _]]]].
    assert (s' = s) by congruence. subst s'.
    exists s. simpl. repeat split; assumption.
  - rewrite nth_error_list_assign_neq in Hi by exact Hne. apply Hcov. exact Hi.
Qed.

Lemma map_name_list_assign (auth : list Advertiser.t) (j : nat) (a : Advertiser.t) (b : R) :
  nth_error auth j = Some a ->
  map Advertiser.name (list_assign auth j (bump a b)) = map Advertiser.name auth.
Proof.
  revert j. induction auth as [| x rest IH]; intros [| j] Hj; simpl in *;
    try discriminate.
  - inversion Hj; subst. reflexivity.
  - rewrite IH by exact Hj. reflexivity.
Qed.

(** Committing a good candidate: the deduction goes through on the
    authoritative advertiser at the candidate's position. *)
Lemma commit_candidate (self : BalancedAlgorithm.t) (cls : Advertiser.Registry)
    (k : nat) (optimistic : bool) (r : Advertiser.ListRef) (j : nat) (b : R) :
  candidate_ok (Advertiser.advertisers cls)
    (Advertiser.deref cls (Advertiser.Snapshot k)) k (Some (r, j), b) ->
  exists a w,
    nth_error (Advertiser.advertisers cls) j = Some a /\
    nth_error (Advertiser.deref cls (Advertiser.Snapshot k)) j = Some w /\
    Advertiser.name w = Advertiser.name a /\
    Advertiser.spent_budget a + b <= Advertiser.spent_budget w /\
    BalancedAlgorithm.commit self cls (Ok (Some (optimistic, (Some j, b))))
    = (Ok (Some (Advertiser.Authoritative, j), b),
       BalancedAlgorithm.count self optimistic,
       Advertiser.store cls Advertiser.Authoritative j (bump a b)).
Proof.
  intros [_ [_ [s [a [Hs [Ha [Hname [Hrem Hsp]]]]]]]].
  exists a, s. repeat split; try assumption.
  unfold BalancedAlgorithm.commit, Advertiser.deduct_at, Advertiser.deduct_budget.
  simpl. rewrite Ha.
  destruct (Rgt_dec b (Advertiser.remaining_budget a)) as [Hgt | _]; [lra |].
  reflexivity.
Qed.

(** The decision on two good candidates: none when there is none, otherwise
    one of the candidates there are. *)
Lemma decide_candidates (self : BalancedAlgorithm.t) (cls : Advertiser.Registry)
    (k : nat) (o_copy p_copy : option Advertiser.Ref * R) :
  0 < BalancedAlgorithm.alpha self ->
  NoDup (map Advertiser.name (Advertiser.advertisers cls)) ->
  candidate_ok (Advertiser.advertisers cls)
    (Advertiser.deref cls (Advertiser.Snapshot k)) k o_copy ->
  candidate_ok (Advertiser.advertisers cls)
    (Advertiser.deref cls (Advertiser.Snapshot k)) k p_copy ->
  (fst o_copy = None /\ fst p_copy = None /\
   BalancedAlgorithm.decide self cls o_copy p_copy = Ok None)
  \/
  (exists (optimistic : bool) (r : Advertiser.ListRef) (j : nat) (b : R),
     (if optimistic then o_copy else p_copy) = (Some (r, j), b) /\
     BalancedAlgorithm.decide self cls o_copy p_copy
     = Ok (Some (optimistic, (Some j, b)))).
Proof.
  intros Halpha Hnd Ho Hp. unfold BalancedAlgorithm.decide.
  rewrite (to_authoritative_ok cls k o_copy Hnd Ho).
  rewrite (to_authoritative_ok cls k p_copy Hnd Hp).
  assert (Hscore : forall r j b,
             candidate_ok (Advertiser.advertisers cls)
               (Advertiser.deref cls (Advertiser.Snapshot k)) k (Some (r, j), b) ->
             exists x, BalancedAlgorithm.score_of cls (BalancedAlgorithm.alpha self)
                         (Some j, b) = Ok (Fin x)).
  { intros r j b [_ [_ [s [a [_ [Ha _]]]]]].
    unfold BalancedAlgorithm.score_of, bind, list_item. rewrite Ha.
    eexists. reflexivity. }
  destruct o_copy as [[[ro jo] |] bo], p_copy as [[[rp jp] |] bp];
    cbn [bind fst].
  - destruct (Hscore _ _ _ Ho) as [xo ->]. destruct (Hscore _ _ _ Hp) as [xp ->].
    right. cbn [bind score_scale score_ge].
    destruct (Rgeb (BalancedAlgorithm.alpha self * xo) xp).
    + exists true, ro, jo, bo. split; reflexivity.
    + exists false, rp, jp, bp. split; reflexivity.
  - destruct (Hscore _ _ _ Ho) as [xo ->].
    right. exists true, ro, jo, bo. split; reflexivity.
  - destruct (Hscore _ _ _ Hp) as [xp ->].
    right. exists false, rp, jp, bp. split; [reflexivity |].
    cbn [bind BalancedAlgorithm.score_of score_scale].
    destruct (Rgt_dec (BalancedAlgorithm.alpha self) 0) as [_ | Hn]; [| lra].
    reflexivity.
  - left. repeat split; reflexivity.
Qed.

Lemma reset_copy_deref (cls : Advertiser.Registry) (k : nat) :
  (k < List.length (Advertiser.copies cls))%nat ->
  Advertiser.deref (Advertiser.reset_advertiser_list_copy cls) (Advertiser.Snapshot k)
  = Advertiser.deref cls (Advertiser.Snapshot k).
Proof. intros Hk. simpl. apply app_nth1. exact Hk. Qed.

(** One query of the balanced allocator taken in a ready state, once its
    optimistic sub-allocator has returned. *)
Lemma balanced_allocate_query_ready (self : BalancedAlgorithm.t) (query : string)
    (cls : Advertiser.Registry) (k : nat)
    (o_copy : option Advertiser.Ref * R) (o' : OptimisticAlgorithm.t)
    (cls1 : Advertiser.Registry) :
  balanced_ready self cls k ->
  OptimisticAlgorithm.allocate_query (BalancedAlgorithm.optimistic_algorithm self) query
    (Advertiser.reset_advertiser_list_copy cls) = (Ok o_copy, o', cls1) ->
  exists p_copy cls2,
    PessimisticAlgorithm.allocate_query (BalancedAlgorithm.pessimistic_algorithm self)
      query cls1 = (Ok p_copy, cls2) /\
    Advertiser.advertisers cls2 = Advertiser.advertisers cls /\
    ((fst o_copy = None /\ fst p_copy = None /\
      BalancedAlgorithm.allocate_query self query cls
      = (Ok (None, 0), BalancedAlgorithm.with_allocators self o', cls2) /\
      balanced_ready (BalancedAlgorithm.with_allocators self o') cls2 k)
     \/
     (exists (optimistic : bool) (r : Advertiser.ListRef) (j : nat) (b : R)
             (a w : Advertiser.t) (cls3 : Advertiser.Registry),
        (if optimistic then o_copy else p_copy) = (Some (r, j), b) /\
        nth_error (Advertiser.advertisers cls) j = Some a /\
        nth_error (Advertiser.deref cls2 r) j = Some w /\
        Advertiser.name w = Advertiser.name a /\
        BalancedAlgorithm.allocate_query self query cls
        = (Ok (Some (Advertiser.Authoritative, j), b),
           BalancedAlgorithm.count (BalancedAlgorithm.with_allocators self o') optimistic,
           cls3) /\
        Advertiser.advertisers cls3
        = list_assign (Advertiser.advertisers cls) j (bump a b) /\
        Advertiser.copies cls3 = Advertiser.copies cls2 /\
        balanced_ready
          (BalancedAlgorithm.count (BalancedAlgorithm.with_allocators self o') optimistic)
          cls3 k)).
Proof.
  intros [Halpha [Hro [Hrp [Hk [Hcov [Hnd Hb]]]]]] Hopt.
  set (cls0 := Advertiser.reset_advertiser_list_copy cls) in *.
  assert (Hcov0 : covers (Advertiser.advertisers cls)
                    (Advertiser.deref cls0 (Advertiser.Snapshot k))).
  { unfold cls0. rewrite reset_copy_deref by exact Hk. exact Hcov. }
  assert (Hlen0 : List.length (Advertiser.copies cls0)
                  = S (List.length (Advertiser.copies cls))).
  { unfold cls0. simpl. rewrite length_app. simpl. lia. }
  destruct (optimistic_step _ _ _ cls0 _ k (Advertiser.advertisers cls) _ Hro Hb eq_refl
              Hcov0 Hopt)
    as [Hro' [Hb' [Hauth1 [Hlen1 [Hcov1 Hcand1]]]]].
  destruct (PessimisticAlgorithm.allocate_query _ query cls1) as [rp cls2] eqn:Hpess.
  destruct (pessimistic_step _ _ _ _ k _ _ o_copy Hrp Hauth1 Hcov1 Hcand1 Hpess)
    as [p_copy [-> [Hauth2 [Hlen2 [Hcov2 [Hcand_o Hcand_p]]]]]].
  exists p_copy, cls2. split; [reflexivity |]. split; [exact Hauth2 |].
  assert (Hk2 : (k < List.length (Advertiser.copies cls2))%nat) by lia.
  unfold BalancedAlgorithm.allocate_query. fold cls0. rewrite Hopt, Hpess.
  assert (Hnd2 : NoDup (map Advertiser.name (Advertiser.advertisers cls2)))
    by (rewrite Hauth2; exact Hnd).
  pose proof Hcand_o as Hcand_o'. pose proof Hcand_p as Hcand_p'.
  simpl in Hauth2. rewrite <- Hauth2 in Hcand_o', Hcand_p'.
  destruct (decide_candidates self cls2 k o_copy p_copy Halpha Hnd2 Hcand_o' Hcand_p')
    as [[Hno [Hnp Hdec]] | [optimistic [r [j [b [Hwin Hdec]]]]]].
  - left. split; [exact Hno |]. split; [exact Hnp |].
    rewrite Hdec. split; [reflexivity |].
    repeat split; simpl; try assumption.
    + rewrite Hauth2. apply Hcov2.
    + rewrite Hauth2. apply Hcov2.
    + rewrite Hb'. exact Hb.
  - right.
    assert (Hcand : candidate_ok (Advertiser.advertisers cls2)
                      (Advertiser.deref cls2 (Advertiser.Snapshot k)) k (Some (r, j), b)).
    { rewrite <- Hwin. destruct optimistic; assumption. }
    assert (Hr : r = Advertiser.Snapshot k) by (destruct Hcand as [Hr _]; exact Hr).
    destruct (commit_candidate (BalancedAlgorithm.with_allocators self o') cls2 k
                optimistic r j b Hcand)
      as [a [w [Ha [Hw [Hname [Hsp Hcommit]]]]]].
    exists optimistic, r, j, b, a, w,
      (Advertiser.store cls2 Advertiser.Authoritative j (bump a b)).
    split; [exact Hwin |].
    split; [rewrite <- Hauth2; exact Ha |].
    split; [rewrite Hr; exact Hw |].
    split; [exact Hname |].
    rewrite Hdec, Hcommit. split; [reflexivity |].
    split; [simpl; rewrite Hauth2; reflexivity |].
    split; [reflexivity |].
    split; [destruct optimistic; exact Halpha |].
    split; [destruct optimistic; exact Hro' |].
    split; [destruct optimistic; exact Hrp |].
    split; [exact Hk2 |].
    split.
    { change (covers (list_assign (Advertiser.advertisers cls2) j (bump a b))
                (Advertiser.deref cls2 (Advertiser.Snapshot k))).
      eapply covers_commit; try eassumption. rewrite Hauth2. exact Hcov2. }
    split.
    { change (NoDup (map Advertiser.name
                       (list_assign (Advertiser.advertisers cls2) j (bump a b)))).
      rewrite map_name_list_assign by exact Ha. exact Hnd2. }
    destruct optimistic; simpl; rewrite Hb'; exact Hb.
Qed.

(** ** The small run, evaluated *)

Lemma example_init :
  BalancedAlgorithm.init Example.linprog 1 Example.bids Example.predicted_queries 1
    Example.cls
  = (Ok Example.balanced, Example.cls_built).
Proof.
  assert (Hm : Z.min (Z.min (Zfloor 5) 5) (Zfloor ((10 - 0) / 1)) = 5%Z).
  { rewrite (ZfloorZ 5). rewrite (Zfloor_eq 10 ((10 - 0) / 1)) by lra. reflexivity. }
  unfold BalancedAlgorithm.init, OptimisticAlgorithm.init.
  pyeval; rewrite ?Hm in *; try (exfalso; lra).
  unfold Example.balanced, Example.cls_built, Example.optimistic, Example.pessimistic.
  repeat f_equal. lra.
Qed.

Lemma example_optimistic_query :
  exists o' cls1,
    OptimisticAlgorithm.allocate_query Example.optimistic "k1"
      (Advertiser.reset_advertiser_list_copy Example.cls_built)
    = (Ok (Some (Advertiser.Snapshot 0, 0%nat), 1), o', cls1).
Proof.
  unfold OptimisticAlgorithm.allocate_query. pyeval.
  eexists _, _. reflexivity.
Qed.

Lemma example_query :
  BalancedAlgorithm.allocate_query Example.balanced "k1" Example.cls_built
  = (Ok (Some (Advertiser.Authoritative, 0%nat), 1),
     Example.balanced_served, Example.cls_served).
Proof.
  unfold BalancedAlgorithm.allocate_query, OptimisticAlgorithm.allocate_query,
    PessimisticAlgorithm.allocate_query, BalancedAlgorithm.commit,
    BalancedAlgorithm.decide.
  pyeval.
  unfold Example.balanced_served, Example.cls_served, Example.pessimistic,
    BalancedAlgorithm.count, BalancedAlgorithm.with_allocators.
  pycbn. repeat f_equal; lra.
Qed.

(** ** What the constructors leave untouched *)

Lemma deduct_at_snapshot_frame (cls cls' : Advertiser.Registry) (k i : nat)
    (amount : R) (res : Result unit) :
  Advertiser.deduct_at cls (Advertiser.Snapshot k) i amount = (res, cls') ->
  Advertiser.advertisers cls' = Advertiser.advertisers cls.
Proof.
  unfold Advertiser.deduct_at.
  destruct (nth_error _ i) as [a |]; [| intros H; inversion H; reflexivity].
  destruct (Advertiser.deduct_budget a amount); intros H; inversion H; reflexivity.
Qed.

Lemma round_loop_frame (bids : Bids) (k : nat) (solution : list R) (n : nat)
    (keywords : list string) :
  forall todo plan rq cls res cls',
    OfflineMaximizationProblem.round_loop bids (Advertiser.Snapshot k) solution n
      keywords todo plan rq cls = (res, cls') ->
    Advertiser.advertisers cls' = Advertiser.advertisers cls.
Proof.
  induction todo as [| idx rest IH]; intros plan rq cls res cls' Hrun; simpl in Hrun.
  - inversion Hrun; reflexivity.
  - destruct (Req_dec_T (nth idx solution 0) 0) as [_ | _];
      [eapply IH; exact Hrun |].
    destruct (OfflineMaximizationProblem.allocation_at _ _ _ _ _ _ idx)
      as [[[[[[ai ki] kw] bid] m] rem] | e]; [| inversion Hrun; reflexivity].
    destruct (Advertiser.deduct_at cls (Advertiser.Snapshot k) ai (IZR m * bid))
      as [rd cls1] eqn:Hded.
    apply deduct_at_snapshot_frame in Hded.
    destruct rd; [| inversion Hrun; subst; exact Hded].
    rewrite <- Hded. eapply IH. exact Hrun.
Qed.

Lemma get_advertiser_list_copy_frame (cls : Advertiser.Registry) :
  Advertiser.advertisers (snd (Advertiser.get_advertiser_list_copy cls))
  = Advertiser.advertisers cls /\
  exists k, fst (Advertiser.get_advertiser_list_copy cls) = Advertiser.Snapshot k.
Proof.
  unfold Advertiser.get_advertiser_list_copy.
  destruct (Advertiser._advertiser_list_copy cls); simpl; split;
    try reflexivity; eexists; reflexivity.
Qed.

(** Building an optimistic allocator never writes to the authoritative list. *)
Lemma optimistic_init_frame (linprog : Solver) (n : nat) (bids : Bids)
    (predicted : dict Z) (rib : bool) (cls : Advertiser.Registry) :
  Advertiser.advertisers (snd (OptimisticAlgorithm.init linprog n bids predicted rib cls))
  = Advertiser.advertisers cls.
Proof.
  unfold OptimisticAlgorithm.init.
  destruct (get_advertiser_list_copy_frame cls) as [Hauth1 [k Hk]].
  destruct (Advertiser.get_advertiser_list_copy cls) as [working cls1].
  simpl in Hauth1, Hk. subst working.
  assert (Hsolve : forall res oracle' cls2,
             OfflineMaximizationProblem.solve_allocation linprog
               (OfflineMaximizationProblem.init n bids (Advertiser.Snapshot k) predicted)
               cls1 = (res, oracle', cls2) ->
             Advertiser.advertisers cls2 = Advertiser.advertisers cls1).
  { intros res oracle' cls2. unfold OfflineMaximizationProblem.solve_allocation.
    destruct (OfflineMaximizationProblem.budget_constraints _ _ 0 _ _) as [A_b b_b].
    destruct (OfflineMaximizationProblem.volume_constraints _ _ _ _ 0)
      as [[A_v b_v] | e]; [| intros H; inversion H; reflexivity].
    destruct (linprog _ _ _ _) as [x |]; [| intros H; inversion H; reflexivity].
    unfold OfflineMaximizationProblem.round_solution_to_integers. simpl.
    destruct (OfflineMaximizationProblem.demand_of _ _ []) as [rq0 | e];
      [| intros H; inversion H; reflexivity].
    destruct (OfflineMaximizationProblem.round_loop _ _ x _ _ _ _ rq0 cls1)
      as [rl cls3] eqn:Hloop.
    apply round_loop_frame in Hloop.
    destruct rl; intros H; inversion H; subst; exact Hloop. }
  destruct (OfflineMaximizationProblem.solve_allocation linprog _ cls1)
    as [[rs oracle'] cls2] eqn:Hrun.
  specialize (Hsolve _ _ _ eq_refl).
  destruct rs; simpl; [| congruence].
  destruct (OfflineMaximizationProblem.allocations oracle'); simpl; [| congruence].
  destruct rib; simpl; [| congruence].
  destruct (get_advertiser_list_copy_frame cls2) as [Hauth3 _].
  destruct (Advertiser.get_advertiser_list_copy cls2). simpl in *. congruence.
Qed.

(** ** The constructor of the balanced allocator makes a ready state *)

Lemma round_loop_covers (bids : Bids) (k : nat) (solution : list R) (n : nat)
    (keywords : list string) (auth : list Advertiser.t) :
  bids_nonneg bids -> (forall i, 0 <= nth i solution 0) ->
  forall todo plan rq cls res cls',
    dict_nonneg rq ->
    Forall adv_ok (Advertiser.deref cls (Advertiser.Snapshot k)) ->
    covers auth (Advertiser.deref cls (Advertiser.Snapshot k)) ->
    OfflineMaximizationProblem.round_loop bids (Advertiser.Snapshot k) solution n
      keywords todo plan rq cls = (res, cls') ->
    covers auth (Advertiser.deref cls' (Advertiser.Snapshot k)) /\
    Advertiser._advertiser_list_copy cls' = Advertiser._advertiser_list_copy cls /\
    List.length (Advertiser.copies cls') = List.length (Advertiser.copies cls).
Proof.
  intros Hb Hsol.
  induction todo as [| idx rest IH]; intros plan rq cls res cls' Hrq Hok Hcov Hrun;
    cbn [OfflineMaximizationProblem.round_loop] in Hrun.
  - inversion Hrun; subst. repeat split; try reflexivity; apply Hcov.
  - destruct (Req_dec_T (nth idx solution 0) 0) as [_ | _];
      [eapply IH; eassumption |].
    destruct (OfflineMaximizationProblem.allocation_at _ _ _ _ _ _ idx)
      as [[[[[[ai ki] kw] bid] m] rem] | e] eqn:Hat;
      [| inversion Hrun; subst; repeat split; try reflexivity; apply Hcov].
    destruct (allocation_at_nonneg _ _ _ _ _ _ _ _ _ _ _ _ _ Hb Hok Hrq (Hsol idx) Hat)
      as [Hbid Hm].
    destruct (allocation_at_spec _ _ _ _ _ _ _ _ _ _ _ _ _ Hat)
      as [_ [_ [_ [adv [row [Hadv _]]]]]].
    assert (Hamount : 0 <= IZR m * bid).
    { apply Rmult_le_pos; [apply IZR_le; lia | lra]. }
    destruct (Advertiser.deduct_at cls (Advertiser.Snapshot k) ai (IZR m * bid))
      as [[u | e] cls1] eqn:Hded.
    + destruct (deduct_at_success _ _ _ _ _ _ _ Hadv Hded) as [Hle ->].
      assert (Hadv_ok : adv_ok adv).
      { rewrite Forall_forall in Hok. apply Hok. eapply nth_error_In. exact Hadv. }
      edestruct (IH (OfflineMaximizationProblem.matrix_assign plan ai ki m)
                   (dict_set rq kw (rem - m)%Z)
                   (Advertiser.store cls (Advertiser.Snapshot k) ai
                      (Advertiser.mk (Advertiser.name adv)
                         (Advertiser.initial_budget adv)
                         (Advertiser.spent_budget adv + IZR m * bid)))
                   res cls')
        as [Hcov' [Hcache' Hlen']].
      * apply dict_set_nonneg; [exact Hrq | lia].
      * rewrite deref_store_same. apply Forall_list_assign; [exact Hok |].
        unfold adv_ok, Advertiser.remaining_budget in *. simpl. lra.
      * rewrite deref_store_same. apply (covers_bump _ _ ai adv); assumption.
      * exact Hrun.
      * split; [exact Hcov' |]. split; [exact Hcache' |].
        rewrite Hlen'. apply store_snapshot_frame.
    + unfold Advertiser.deduct_at in Hded. rewrite Hadv in Hded.
      destruct (Advertiser.deduct_budget adv (IZR m * bid)); [discriminate |].
      inversion Hded; subst. inversion Hrun; subst.
      repeat split; try reflexivity; apply Hcov.
Qed.

Lemma covers_refl (auth : list Advertiser.t) : covers auth auth.
Proof.
  split; [reflexivity |]. intros i a Hi. exists a.
  repeat split; try assumption; lra.
Qed.

(** After the driver's [reset_advertiser_list_copy()], on a ledger within
    budget and with distinct names, a balanced allocator that gets built is
    in a ready state. *)
Lemma balanced_init_ready (linprog : Solver) (n : nat) (bids : Bids)
    (predicted : dict Z) (alpha : R) (cls cls' : Advertiser.Registry)
    (self : BalancedAlgorithm.t) :
  solver_nonneg linprog -> bids_nonneg bids -> dict_nonneg predicted ->
  0 < alpha ->
  Forall adv_ok (Advertiser.advertisers cls) ->
  NoDup (map Advertiser.name (Advertiser.advertisers cls)) ->
  BalancedAlgorithm.init linprog n bids predicted alpha
    (Advertiser.reset_advertiser_list_copy cls) = (Ok self, cls') ->
  balanced_ready self cls' (List.length (Advertiser.copies cls)).
Proof.
  intros Hlp Hb Hp Halpha Hok Hnd.
  set (k := List.length (Advertiser.copies cls)).
  set (cls0 := Advertiser.reset_advertiser_list_copy cls).
  assert (Hderef0 : Advertiser.deref cls0 (Advertiser.Snapshot k)
                    = Advertiser.advertisers cls).
  { unfold cls0, k. simpl. apply nth_middle. }
  unfold BalancedAlgorithm.init, OptimisticAlgorithm.init.
  change (Advertiser.get_advertiser_list_copy cls0) with (Advertiser.Snapshot k, cls0).
  unfold OfflineMaximizationProblem.solve_allocation.
  destruct (OfflineMaximizationProblem.budget_constraints _ _ 0 _ _) as [A_b b_b].
  destruct (OfflineMaximizationProblem.volume_constraints _ _ _ _ 0)
    as [[A_v b_v] | e]; [| discriminate].
  destruct (linprog _ _ _ _) as [x |] eqn:Hsolve; [| discriminate].
  unfold OfflineMaximizationProblem.round_solution_to_integers.
  cbn [OfflineMaximizationProblem.init OfflineMaximizationProblem.predicted_queries
       OfflineMaximizationProblem.solution OfflineMaximizationProblem.bids
       OfflineMaximizationProblem.advertisers OfflineMaximizationProblem.n_keywords
       OfflineMaximizationProblem.solver_method
       OfflineMaximizationProblem.allocations].
  destruct (OfflineMaximizationProblem.demand_of predicted _ []) as [rq0 | e] eqn:Hrq0;
    [| discriminate].
  destruct (OfflineMaximizationProblem.round_loop bids (Advertiser.Snapshot k) x _ _ _ _
              rq0 cls0) as [[plan | e] cls2] eqn:Hloop; [| discriminate].
  destruct (round_loop_covers bids k x _ _ (Advertiser.advertisers cls) Hb
              (Forall_nth_nonneg x (Hlp _ _ _ _ _ Hsolve))
              _ _ _ _ _ _ (demand_of_nonneg _ _ _ Hp Hrq0)
              ltac:(rewrite Hderef0; exact Hok)
              ltac:(rewrite Hderef0; apply covers_refl)
              Hloop)
    as [Hcov [Hcache Hlen]].
  pose proof (round_loop_frame _ _ _ _ _ _ _ _ _ _ _ Hloop) as Hauth.
  cbn [OfflineMaximizationProblem.allocations].
  assert (Hget : Advertiser.get_advertiser_list_copy cls2 = (Advertiser.Snapshot k, cls2)).
  { unfold Advertiser.get_advertiser_list_copy. rewrite Hcache. reflexivity. }
  rewrite Hget. unfold PessimisticAlgorithm.init. rewrite Hget.
  intros H. inversion H; subst. clear H.
  split; [exact Halpha |]. split; [reflexivity |]. split; [reflexivity |].
  split; [rewrite Hlen; unfold cls0, k; simpl; rewrite length_app; simpl; lia |].
  split; [rewrite Hauth; exact Hcov |].
  split; [rewrite Hauth; exact Hnd |].
  exact Hb.
Qed.

(** * The claims about the shadow copy *)

(** C3: the part that holds is that no construction writes to the
    authoritative list.  The working copy of the oracle, however, is the
    cached copy itself: in the small run the rounding leaves its deduction of
    5 in the very list both sub-allocators of the balanced allocator hold and
    spend against. *)
Theorem oracle_deductions_reach_shadow :
  (forall linprog n bids predicted rib cls,
     Advertiser.advertisers
       (snd (OptimisticAlgorithm.init linprog n bids predicted rib cls))
     = Advertiser.advertisers cls) /\
  BalancedAlgorithm.init Example.linprog 1 Example.bids Example.predicted_queries 1
    Example.cls = (Ok Example.balanced, Example.cls_built) /\
  Advertiser.deref Example.cls (Advertiser.Snapshot 0) = [Advertiser.mk "A1" 10 0] /\
  Advertiser.deref Example.cls_built
    (OptimisticAlgorithm.advertisers
       (BalancedAlgorithm.optimistic_algorithm Example.balanced))
  = [Advertiser.mk "A1" 10 5] /\
  Advertiser.deref Example.cls_built
    (PessimisticAlgorithm.advertisers
       (BalancedAlgorithm.pessimistic_algorithm Example.balanced))
  = [Advertiser.mk "A1" 10 5] /\
  Advertiser.advertisers Example.cls_built = [Advertiser.mk "A1" 10 0].
Proof.
  split; [exact optimistic_init_frame |].
  split; [exact example_init |].
  repeat split; reflexivity.
Qed.

(** C2: [reset_advertiser_list_copy] makes a fresh copy at the start of every
    query, but the sub-allocators keep the list they were built with.  In the
    small run they evaluate the first query against a spent budget of 5 where
    the ledger has 0, and the second against 7 where the ledger has 1; the
    fresh copies, which do agree with the ledger, are held by nobody. *)
Theorem balanced_shadow_is_stale :
  let at_first := Advertiser.reset_advertiser_list_copy Example.cls_built in
  let at_second := Advertiser.reset_advertiser_list_copy Example.cls_served in
  let shadow_of := fun (self : BalancedAlgorithm.t) =>
    OptimisticAlgorithm.advertisers (BalancedAlgorithm.optimistic_algorithm self) in
  BalancedAlgorithm.allocate_query Example.balanced "k1" Example.cls_built
  = (Ok (Some (Advertiser.Authoritative, 0%nat), 1),
     Example.balanced_served, Example.cls_served) /\
  (Advertiser.deref at_first (shadow_of Example.balanced) = [Advertiser.mk "A1" 10 5] /\
   Advertiser.advertisers at_first = [Advertiser.mk "A1" 10 0] /\
   Advertiser._advertiser_list_copy at_first = Some 1%nat /\
   Advertiser.deref at_first (Advertiser.Snapshot 1) = [Advertiser.mk "A1" 10 0]) /\
  (PessimisticAlgorithm.advertisers
     (BalancedAlgorithm.pessimistic_algorithm Example.balanced)
   = shadow_of Example.balanced /\
   PessimisticAlgorithm.advertisers
     (BalancedAlgorithm.pessimistic_algorithm Example.balanced_served)
   = shadow_of Example.balanced_served) /\
  (shadow_of Example.balanced_served = shadow_of Example.balanced /\
   Advertiser.deref at_second (shadow_of Example.balanced_served)
   = [Advertiser.mk "A1" 10 7] /\
   Advertiser.advertisers at_second = [Advertiser.mk "A1" 10 1] /\
   Advertiser._advertiser_list_copy at_second = Some 2%nat /\
   Advertiser.deref at_second (Advertiser.Snapshot 2) = [Advertiser.mk "A1" 10 1]).
Proof.
  split; [exact example_query |].
  repeat split; reflexivity.
Qed.

(** * The balanced allocator commits once *)

(** In exact arithmetic and in a ready state (both sub-allocators on one copy that stands for the
    authoritative list, distinct names, positive [alpha], non-negative bids),
    once the optimistic sub-allocator has returned, the pessimistic one
    returns too and the authoritative list is still as it was; then either
    neither has a candidate, the call returns [(None, 0)] and the authoritative
    list stays as it was, or the call returns one of the candidates there are,
    mapped to the authoritative advertiser of the same name, and the
    authoritative list differs from before in exactly that advertiser, by that
    bid.  The state after the call is ready again. *)
Theorem balanced_commits_once (self : BalancedAlgorithm.t) (query : string)
    (cls : Advertiser.Registry) (k : nat)
    (o_copy : option Advertiser.Ref * R) (o' : OptimisticAlgorithm.t)
    (cls1 : Advertiser.Registry) :
  balanced_ready self cls k ->
  OptimisticAlgorithm.allocate_query (BalancedAlgorithm.optimistic_algorithm self) query
    (Advertiser.reset_advertiser_list_copy cls) = (Ok o_copy, o', cls1) ->
  exists p_copy cls2,
    PessimisticAlgorithm.allocate_query (BalancedAlgorithm.pessimistic_algorithm self)
      query cls1 = (Ok p_copy, cls2) /\
    Advertiser.advertisers cls2 = Advertiser.advertisers cls /\
    ((fst o_copy = None /\ fst p_copy = None /\
      BalancedAlgorithm.allocate_query self query cls
      = (Ok (None, 0), BalancedAlgorithm.with_allocators self o', cls2) /\
      balanced_ready (BalancedAlgorithm.with_allocators self o') cls2 k)
     \/
     (exists (optimistic : bool) (r : Advertiser.ListRef) (j : nat) (b : R)
             (a w : Advertiser.t) (cls3 : Advertiser.Registry),
        (if optimistic then o_copy else p_copy) = (Some (r, j), b) /\
        nth_error (Advertiser.advertisers cls) j = Some a /\
        nth_error (Advertiser.deref cls2 r) j = Some w /\
        Advertiser.name w = Advertiser.name a /\
        BalancedAlgorithm.allocate_query self query cls
        = (Ok (Some (Advertiser.Authoritative, j), b),
           BalancedAlgorithm.count (BalancedAlgorithm.with_allocators self o') optimistic,
           cls3) /\
        Advertiser.advertisers cls3
        = list_assign (Advertiser.advertisers cls) j (bump a b) /\
        Advertiser.copies cls3 = Advertiser.copies cls2 /\
        balanced_ready
          (BalancedAlgorithm.count (BalancedAlgorithm.with_allocators self o') optimistic)
          cls3 k)).
Proof.
  exact (balanced_allocate_query_ready self query cls k o_copy o' cls1).
Qed.

(** * Witnesses on the small run *)

Lemma example_bids_positive : bids_positive Example.bids.
Proof.
  intros nm row kw v Hrow Hv. unfold Example.bids in Hrow. cbn [dict_get] in Hrow.
  destruct (String.eqb "A1" nm); [| discriminate].
  inversion Hrow; subst. cbn [dict_get] in Hv.
  destruct (String.eqb "k1" kw); [| discriminate].
  inversion Hv. lra.
Qed.

Lemma example_predicted_nonneg : dict_nonneg Example.predicted_queries.
Proof.
  intros kw v Hv. unfold Example.predicted_queries in Hv. cbn [dict_get] in Hv.
  destruct (String.eqb "k1" kw); [| discriminate].
  inversion Hv. lia.
Qed.

Lemma example_solver_nonneg : solver_nonneg Example.linprog.
Proof.
  intros c A_ub b_ub method x Hx. inversion Hx.
  constructor; [lra | constructor].
Qed.

Lemma example_ready : balanced_ready Example.balanced Example.cls_built 0.
Proof.
  split; [simpl; lra |]. split; [reflexivity |]. split; [reflexivity |].
  split; [simpl; lia |]. split.
  { split; [reflexivity |].
    intros [| i] a Hi; simpl in Hi; [| destruct i; discriminate].
    inversion Hi; subst. eexists. split; [reflexivity |].
    simpl. repeat split; lra. }
  split; [repeat constructor; simpl; tauto |].
  apply bids_positive_nonneg. exact example_bids_positive.
Qed.

Lemma balanced_commits_once_witness :
  exists res self' cls',
    BalancedAlgorithm.allocate_query Example.balanced "k1" Example.cls_built
    = (Ok res, self', cls').
Proof.
  destruct example_optimistic_query as [o' [cls1 Hopt]].
  destruct (balanced_commits_once Example.balanced "k1" Example.cls_built 0 _ _ _
              example_ready Hopt)
    as [p_copy [cls2 [_ [_ [[_ [_ [H _]]]
                          | [opt [r [j [b [a [w [cls3 [_ [_ [_ [_ [H _]]]]]]]]]]]]]]]]];
    eexists _, _, _; exact H.
Defined.

Lemma ledger_invariant_witness :
  Forall (fun a => 0 <= Advertiser.spent_budget a <= Advertiser.initial_budget a)
    (Advertiser.advertisers
       (Simulation.run
          [Simulation.NewAdvertiser "A1" 10;
           Simulation.ResetAdvertiserListCopy;
           Simulation.NewBalanced Example.linprog 1 Example.bids
             Example.predicted_queries 1;
           Simulation.BalancedQuery Example.balanced "k1"]
          Advertiser.empty)).
Proof.
  apply Forall_forall. intros a Hin.
  apply (ledger_invariant
           [Simulation.NewAdvertiser "A1" 10;
            Simulation.ResetAdvertiserListCopy;
            Simulation.NewBalanced Example.linprog 1 Example.bids
              Example.predicted_queries 1;
            Simulation.BalancedQuery Example.balanced "k1"]).
  - constructor; [simpl; lra |].
    constructor; [exact I |].
    constructor.
    { split; [exact example_solver_nonneg |].
      split; [apply bids_positive_nonneg; exact example_bids_positive |].
      exact example_predicted_nonneg. }
    constructor; [| constructor].
    simpl. apply bids_positive_nonneg. exact example_bids_positive.
  - left. exact Hin.
Defined.

Lemma offline_plan_feasible_witness :
  exists self' cls' plan,
    OfflineMaximizationProblem.solve_allocation Example.linprog
      (OfflineMaximizationProblem.init 1 Example.bids (Advertiser.Snapshot 0)
         Example.predicted_queries)
      Example.cls = (Ok tt, self', cls') /\
    OfflineMaximizationProblem.allocations self' = Some plan /\
    (column_total plan 1 0 <= 5)%Z /\
    row_cost (table_bid Example.bids) (keyword_names 1) plan 0 "A1" <= 10.
Proof.
  destruct (offline_plan_feasible Example.linprog
              (OfflineMaximizationProblem.init 1 Example.bids (Advertiser.Snapshot 0)
                 Example.predicted_queries)
              Example.cls)
    as [Hfeasible Htotal].
  - exact example_solver_nonneg.
  - apply bids_positive_nonneg. exact example_bids_positive.
  - exact example_predicted_nonneg.
  - constructor; [| constructor]. unfold adv_ok. simpl. lra.
  - destruct (Htotal [5]) as [self' [cls' Hrun]].
    + reflexivity.
    + reflexivity.
    + exact example_bids_positive.
    + constructor; [| constructor]. simpl. discriminate.
    + intros [| j] Hj; [simpl; discriminate | simpl in Hj; lia].
    + destruct (Hfeasible self' cls' Hrun) as [plan [Hplan [_ [_ [Hcol Hrow]]]]].
      exists self', cls', plan.
      split; [exact Hrun |]. split; [exact Hplan |]. split.
      * apply (Hcol 0%nat 5%Z); [simpl; lia | reflexivity].
      * apply (Hrow 0%nat (Advertiser.mk "A1" 10 0)). reflexivity.
Defined.

Lemma deduct_budget_spec_witness :
  Advertiser.deduct_at Example.cls Advertiser.Authoritative 0 11
  = (Raise ValueError, Example.cls) /\
  Advertiser.deduct_budget (Advertiser.mk "A1" 10 0) 3
  = Ok (Advertiser.mk "A1" 10 (0 + 3)).
Proof.
  destruct (deduct_budget_spec (Advertiser.mk "A1" 10 0) 11) as [_ [_ [Hfail _]]].
  destruct (deduct_budget_spec (Advertiser.mk "A1" 10 0) 3) as [_ [Hok _]].
  split.
  - apply Hfail; [reflexivity |]. unfold Advertiser.remaining_budget. simpl. lra.
  - apply Hok. unfold Advertiser.remaining_budget. simpl. lra.
Defined.

Lemma pessimistic_allocate_query_spec_witness :
  exists res cls',
    PessimisticAlgorithm.allocate_query Example.pessimistic "k1" Example.cls_built
    = (Ok res, cls').
Proof.
  destruct (pessimistic_allocate_query_spec Example.pessimistic "k1" Example.cls_built)
    as [[_ H] | [i [a [_ [_ [_ [_ H]]]]]]]; eexists _, _; exact H.
Defined.

(** * Further properties of the code *)

(** ** The registry: cache and copies *)

(** X1: once [get_advertiser_list_copy] has made its copy, every later call
    returns that same list and copies nothing, also after the authoritative
    advertisers were changed or their budgets reset: the cached list then no
    longer agrees with the ledger. *)
Theorem get_advertiser_list_copy_cached (cls : Advertiser.Registry) :
  let r := fst (Advertiser.get_advertiser_list_copy cls) in
  let cls1 := snd (Advertiser.get_advertiser_list_copy cls) in
  Advertiser.get_advertiser_list_copy cls1 = (r, cls1) /\
  (forall i a,
     Advertiser.get_advertiser_list_copy (Advertiser.store cls1 Advertiser.Authoritative i a)
     = (r, Advertiser.store cls1 Advertiser.Authoritative i a) /\
     Advertiser.deref (Advertiser.store cls1 Advertiser.Authoritative i a) r
     = Advertiser.deref cls1 r) /\
  Advertiser.get_advertiser_list_copy (Advertiser.reset_budgets cls1)
  = (r, Advertiser.reset_budgets cls1) /\
  Advertiser.deref (Advertiser.reset_budgets cls1) r = Advertiser.deref cls1 r.
Proof.
  unfold Advertiser.get_advertiser_list_copy.
  destruct (Advertiser._advertiser_list_copy cls) as [n |] eqn:Hc; simpl.
  - rewrite Hc. repeat split; reflexivity.
  - repeat split; reflexivity.
Qed.

(** X2: the list [reset_advertiser_list_copy] makes equals the authoritative
    list and shares nothing with it: a deduction through the copy leaves the
    authoritative advertisers as they were, and a deduction on an authoritative
    advertiser leaves the copy as it was. *)
Theorem fresh_copy_is_independent (cls : Advertiser.Registry) (i : nat) (amount : R) :
  let cls0 := Advertiser.reset_advertiser_list_copy cls in
  let fresh := Advertiser.Snapshot (List.length (Advertiser.copies cls)) in
  Advertiser._advertiser_list_copy cls0 = Some (List.length (Advertiser.copies cls)) /\
  Advertiser.deref cls0 fresh = Advertiser.advertisers cls /\
  Advertiser.advertisers (snd (Advertiser.deduct_at cls0 fresh i amount))
  = Advertiser.advertisers cls /\
  Advertiser.deref (snd (Advertiser.deduct_at cls0 Advertiser.Authoritative i amount)) fresh
  = Advertiser.advertisers cls.
Proof.
  intros cls0 fresh.
  assert (Hfresh : Advertiser.deref cls0 fresh = Advertiser.advertisers cls).
  { unfold cls0, fresh. simpl. apply nth_middle. }
  split; [reflexivity |]. split; [exact Hfresh |]. split.
  - destruct (Advertiser.deduct_at cls0 fresh i amount) as [res cls'] eqn:Hd.
    apply deduct_at_snapshot_frame in Hd. exact Hd.
  - unfold Advertiser.deduct_at.
    destruct (nth_error _ i) as [a |]; [| exact Hfresh].
    destruct (Advertiser.deduct_budget a amount); [| exact Hfresh].
    cbn [snd]. unfold fresh. rewrite deref_store_other by discriminate. exact Hfresh.
Qed.

(** In exact arithmetic, with [0 <= spent_budget <= initial_budget] the fraction of the budget
    spent lies in [[0, 1]] and, for positive [alpha], the score multiplier in
    [[0, 1)]; it is [0] for an advertiser without budget and for one that has
    spent everything. *)
Theorem score_multiplier_range (a : Advertiser.t) (alpha : R) :
  adv_ok a -> 0 < alpha ->
  0 <= Advertiser.budget_fraction a <= 1 /\
  0 <= phi_alpha (Advertiser.budget_fraction a) alpha < 1 /\
  (Advertiser.spent_budget a = Advertiser.initial_budget a ->
   phi_alpha (Advertiser.budget_fraction a) alpha = 0).
Proof.
  intros [H0 H1] Halpha.
  assert (Hf : 0 <= Advertiser.budget_fraction a <= 1).
  { unfold Advertiser.budget_fraction.
    destruct (Req_dec_T (Advertiser.initial_budget a) 0) as [| Hne]; [lra |].
    assert (Hpos : 0 < Advertiser.initial_budget a) by lra.
    split.
    - apply Rmult_le_pos; [lra |]. left. apply Rinv_0_lt_compat. exact Hpos.
    - apply (Rmult_le_reg_r (Advertiser.initial_budget a)); [exact Hpos |].
      unfold Rdiv. rewrite Rmult_assoc, Rinv_l by exact Hne. lra. }
  split; [exact Hf |]. unfold phi_alpha. split.
  - pose proof (exp_pos (alpha * (Advertiser.budget_fraction a - 1))) as Hpos.
    assert (Hle : exp (alpha * (Advertiser.budget_fraction a - 1)) <= 1).
    { destruct (Req_dec_T (Advertiser.budget_fraction a) 1) as [-> | Hne].
      - replace (alpha * (1 - 1)) with 0 by ring. rewrite exp_0. lra.
      - assert (Hlt : exp (alpha * (Advertiser.budget_fraction a - 1)) < exp 0)
          by (apply exp_increasing; nra).
        rewrite exp_0 in Hlt. lra. }
    lra.
  - intros Hall.
    assert (Hone : Advertiser.budget_fraction a = 1).
    { unfold Advertiser.budget_fraction.
      destruct (Req_dec_T (Advertiser.initial_budget a) 0) as [| Hne]; [reflexivity |].
      rewrite Hall. unfold Rdiv. apply Rinv_r. exact Hne. }
    rewrite Hone. replace (alpha * (1 - 1)) with 0 by ring. rewrite exp_0. ring.
Qed.

Lemma score_multiplier_range_witness :
  0 <= phi_alpha (Advertiser.budget_fraction (Advertiser.mk "A1" 10 5)) 1 < 1 /\
  phi_alpha (Advertiser.budget_fraction (Advertiser.mk "A1" 0 0)) 1 = 0.
Proof.
  split.
  - apply (score_multiplier_range (Advertiser.mk "A1" 10 5) 1);
      [unfold adv_ok; simpl; lra | lra].
  - apply (score_multiplier_range (Advertiser.mk "A1" 0 0) 1);
      [unfold adv_ok; simpl; lra | lra | reflexivity].
Defined.

(** ** The driver: revenue and ledger *)

Lemma total_spent_assign (l : list Advertiser.t) (i : nat) (a : Advertiser.t) (b : R) :
  nth_error l i = Some a ->
  total_spent (list_assign l i (bump a b)) = total_spent l + b.
Proof.
  revert i. induction l as [| x l IH]; intros [| i] Hi; simpl in *; try discriminate.
  - inversion Hi; subst. lra.
  - rewrite (IH i Hi). lra.
Qed.

Lemma total_budget_assign (l : list Advertiser.t) (i : nat) (a : Advertiser.t) (b : R) :
  nth_error l i = Some a ->
  total_budget (list_assign l i (bump a b)) = total_budget l.
Proof.
  revert i. induction l as [| x l IH]; intros [| i] Hi; simpl in *; try discriminate.
  - inversion Hi; subst. reflexivity.
  - rewrite (IH i Hi). reflexivity.
Qed.

Lemma within_total (l : list Advertiser.t) :
  within_budget l -> total_spent l <= total_budget l.
Proof.
  induction 1 as [| a l Ha _ IH]; simpl; lra.
Qed.

Lemma accounted_tracks (cls cls' : Advertiser.Registry)
    (res : Result (option Advertiser.Ref * R)) (revenue total : R) :
  accounted cls cls' res -> tracks cls revenue total ->
  tracks cls' (revenue + gained res) total.
Proof.
  intros Hacc [Hw [Hb [Hs Ht]]]. unfold tracks.
  destruct Hacc as [[x [j [a [b [-> [Hj [Hle ->]]]]]]] | [-> Hres]].
  - pose proof (nth_error_In _ _ Hj) as Hin.
    split; [| split; [| split]].
    + apply Forall_list_assign; [exact Hw |].
      unfold Advertiser.remaining_budget in Hle. simpl. lra.
    + apply Forall_list_assign; [exact Hb |].
      rewrite Forall_forall in Hb. simpl. apply Hb. exact Hin.
    + rewrite (total_spent_assign _ _ _ _ Hj), Hs. reflexivity.
    + rewrite (total_budget_assign _ _ _ _ Hj). exact Ht.
  - assert (Hg : gained res = 0) by (destruct Hres as [-> | [e ->]]; reflexivity).
    rewrite Hg, Rplus_0_r. repeat split; assumption.
Qed.

Lemma fresh_start_tracks (cls : Advertiser.Registry) :
  Forall (fun a => 0 <= Advertiser.initial_budget a) (Advertiser.advertisers cls) ->
  tracks (Experiment.fresh_start cls) 0 (total_budget (Advertiser.advertisers cls)).
Proof.
  intros Hb. unfold tracks, Experiment.fresh_start. simpl.
  induction Hb as [| a l Ha _ IH]; simpl.
  - repeat split; constructor.
  - destruct IH as [Hw [Hb' [Hs Ht]]].
    split; [constructor; [simpl; exact Ha | exact Hw] |].
    split; [constructor; [simpl; exact Ha | exact Hb'] |].
    split; [rewrite Hs; lra | rewrite Ht; reflexivity].
Qed.

(** A pessimistic decision on the authoritative list is accounted. *)
Lemma pessimistic_accounted (self : PessimisticAlgorithm.t) (query : string)
    (cls cls' : Advertiser.Registry) (res : Result (option Advertiser.Ref * R)) :
  PessimisticAlgorithm.advertisers self = Advertiser.Authoritative ->
  PessimisticAlgorithm.allocate_query self query cls = (res, cls') ->
  accounted cls cls' res /\ 0 <= gained res.
Proof.
  intros Hr Hrun.
  destruct (pessimistic_allocate_query_cases self query cls)
    as [[_ Heq] | [i [a [Hi [[Hpos Hge] [_ [_ Heq]]]]]]];
    rewrite Heq in Hrun; inversion Hrun; subst; clear Hrun.
  - split; [| simpl; lra]. right. split; [reflexivity | left; reflexivity].
  - rewrite Hr in *. split; [| simpl; lra].
    left. eexists _, i, a, _. split; [reflexivity |]. split; [exact Hi |].
    split; [lra | reflexivity].
Qed.

(** An optimistic decision on the authoritative list is accounted. *)
Lemma optimistic_accounted (self self' : OptimisticAlgorithm.t) (query : string)
    (cls cls' : Advertiser.Registry) (res : Result (option Advertiser.Ref * R)) :
  OptimisticAlgorithm.advertisers self = Advertiser.Authoritative ->
  OptimisticAlgorithm.allocate_query self query cls = (res, self', cls') ->
  accounted cls cls' res /\
  OptimisticAlgorithm.advertisers self' = Advertiser.Authoritative.
Proof.
  intros Hr Hrun.
  destruct (optimistic_allocate_query_cases self query cls)
    as [[s1 [Hr1 [_ [Heq | [e Heq]]]]]
       | [s1 [i [a [row [Hr1 [_ [Hi [Hrow [Hge [_ Heq]]]]]]]]]]];
    rewrite Heq in Hrun; inversion Hrun; subst; clear Hrun;
    (split; [| congruence]).
  - right. split; [reflexivity | left; reflexivity].
  - right. split; [reflexivity | right; exists e; reflexivity].
  - rewrite Hr in *. left. eexists _, i, a, _. split; [reflexivity |].
    split; [exact Hi |]. split; [lra | reflexivity].
Qed.

(** A balanced decision whose sub-allocators work on copies is accounted. *)
Lemma balanced_accounted (self self' : BalancedAlgorithm.t) (query : string)
    (cls cls' : Advertiser.Registry) (res : Result (option Advertiser.Ref * R))
    (ko kp : nat) :
  OptimisticAlgorithm.advertisers (BalancedAlgorithm.optimistic_algorithm self)
  = Advertiser.Snapshot ko ->
  PessimisticAlgorithm.advertisers (BalancedAlgorithm.pessimistic_algorithm self)
  = Advertiser.Snapshot kp ->
  BalancedAlgorithm.allocate_query self query cls = (res, self', cls') ->
  accounted cls cls' res /\
  OptimisticAlgorithm.advertisers (BalancedAlgorithm.optimistic_algorithm self')
  = Advertiser.Snapshot ko /\
  PessimisticAlgorithm.advertisers (BalancedAlgorithm.pessimistic_algorithm self')
  = Advertiser.Snapshot kp.
Proof.
  intros Hro Hrp. unfold BalancedAlgorithm.allocate_query.
  set (cls0 := Advertiser.reset_advertiser_list_copy cls).
  destruct (OptimisticAlgorithm.allocate_query _ query cls0) as [[ro o'] cls1] eqn:Ho.
  assert (Ho' : OptimisticAlgorithm.advertisers o' = Advertiser.Snapshot ko /\
                Advertiser.advertisers cls1 = Advertiser.advertisers cls).
  { destruct (optimistic_allocate_query_cases
                (BalancedAlgorithm.optimistic_algorithm self) query cls0)
      as [[s1 [Hr1 [_ [Heq | [e Heq]]]]]
         | [s1 [i [a [row [Hr1 [_ [_ [_ [_ [_ Heq]]]]]]]]]]];
      rewrite Heq in Ho; inversion Ho; subst; clear Ho;
      (split; [congruence |]); try reflexivity.
    rewrite Hro. reflexivity. }
  destruct Ho' as [Hro' Hauth1].
  destruct ro as [o_copy | e].
  2:{ intros H. inversion H; subst. split; [| split; assumption].
      right. split; [exact Hauth1 | right; exists e; reflexivity]. }
  destruct (PessimisticAlgorithm.allocate_query _ query cls1) as [rp cls2] eqn:Hp.
  assert (Hauth2 : Advertiser.advertisers cls2 = Advertiser.advertisers cls).
  { rewrite <- Hauth1.
    destruct (pessimistic_allocate_query_cases
                (BalancedAlgorithm.pessimistic_algorithm self) query cls1)
      as [[_ Heq] | [i [a [_ [_ [_ [_ Heq]]]]]]];
      rewrite Heq in Hp; inversion Hp; subst; clear Hp; [reflexivity |].
    rewrite Hrp. reflexivity. }
  destruct rp as [p_copy | e].
  2:{ intros H. inversion H; subst. split; [| split; assumption].
      right. split; [exact Hauth2 | right; exists e; reflexivity]. }
  unfold BalancedAlgorithm.commit.
  destruct (BalancedAlgorithm.decide self cls2 o_copy p_copy)
    as [[[optimistic [[j |] b]] |] | e]; intros H.
  - unfold Advertiser.deduct_at, Advertiser.deduct_budget in H.
    cbn [Advertiser.deref] in H.
    destruct (nth_error (Advertiser.advertisers cls2) j) as [a |] eqn:Hj.
    + destruct (Rgt_dec b (Advertiser.remaining_budget a)) as [Hgt | Hle];
        inversion H; subst; clear H;
        (split; [| destruct optimistic; split; assumption]).
      * right. split; [exact Hauth2 | right; eexists; reflexivity].
      * left. eexists _, j, a, b. rewrite <- Hauth2.
        split; [reflexivity |]. split; [exact Hj |]. split; [lra | reflexivity].
    + inversion H; subst; clear H.
      split; [| destruct optimistic; split; assumption].
      right. split; [exact Hauth2 | right; eexists; reflexivity].
  - inversion H; subst; clear H.
    split; [| destruct optimistic; split; assumption].
    right. split; [exact Hauth2 | right; eexists; reflexivity].
  - inversion H; subst; clear H. split; [| split; assumption].
    right. split; [exact Hauth2 | left; reflexivity].
  - inversion H; subst; clear H. split; [| split; assumption].
    right. split; [exact Hauth2 | right; eexists; reflexivity].
Qed.

Lemma pessimistic_loop_tracks (self : PessimisticAlgorithm.t) (total : R) :
  PessimisticAlgorithm.advertisers self = Advertiser.Authoritative ->
  forall query_sequence revenue cls revenue' cls',
    tracks cls revenue total -> 0 <= revenue ->
    Experiment.pessimistic_loop self query_sequence revenue cls = (Ok revenue', cls') ->
    tracks cls' revenue' total /\ 0 <= revenue'.
Proof.
  intros Hr. induction query_sequence as [| query rest IH];
    intros revenue cls revenue' cls' Ht Hpos Hrun; simpl in Hrun.
  - inversion Hrun; subst. split; assumption.
  - destruct (PessimisticAlgorithm.allocate_query self query cls) as [res cls1] eqn:Hq.
    destruct (pessimistic_accounted _ _ _ _ _ Hr Hq) as [Hacc Hg].
    pose proof (accounted_tracks _ _ _ _ _ Hacc Ht) as Ht1.
    destruct res as [[[x |] b] | e]; [| | discriminate];
      simpl in Ht1, Hg; eapply IH; try exact Hrun; try exact Ht1; try lra.
    destruct Hacc as [[x [j [a [b' [Heq _]]]]] | [_ [Heq | [e Heq]]]];
      inversion Heq; subst.
    rewrite Rplus_0_r in Ht1. exact Ht1.
Qed.

Lemma optimistic_loop_tracks (total : R) :
  forall query_sequence self revenue cls revenue' cls',
    OptimisticAlgorithm.advertisers self = Advertiser.Authoritative ->
    tracks cls revenue total ->
    Experiment.optimistic_loop self query_sequence revenue cls = (Ok revenue', cls') ->
    tracks cls' revenue' total.
Proof.
  induction query_sequence as [| query rest IH];
    intros self revenue cls revenue' cls' Hr Ht Hrun; simpl in Hrun.
  - inversion Hrun; subst. exact Ht.
  - destruct (OptimisticAlgorithm.allocate_query self query cls)
      as [[res self1] cls1] eqn:Hq.
    destruct (optimistic_accounted _ _ _ _ _ _ Hr Hq) as [Hacc Hr1].
    pose proof (accounted_tracks _ _ _ _ _ Hacc Ht) as Ht1.
    destruct res as [[[x |] b] | e]; [| | discriminate];
      simpl in Ht1; eapply IH; try exact Hrun; try exact Hr1; try exact Ht1.
    destruct Hacc as [[x [j [a [b' [Heq _]]]]] | [_ [Heq | [e Heq]]]];
      inversion Heq; subst.
    rewrite Rplus_0_r in Ht1. exact Ht1.
Qed.

Lemma balanced_loop_tracks (total : R) (ko kp : nat) :
  forall query_sequence self revenue cls revenue' cls',
    OptimisticAlgorithm.advertisers (BalancedAlgorithm.optimistic_algorithm self)
    = Advertiser.Snapshot ko ->
    PessimisticAlgorithm.advertisers (BalancedAlgorithm.pessimistic_algorithm self)
    = Advertiser.Snapshot kp ->
    tracks cls revenue total ->
    Experiment.balanced_loop self query_sequence revenue cls = (Ok revenue', cls') ->
    tracks cls' revenue' total.
Proof.
  induction query_sequence as [| query rest IH];
    intros self revenue cls revenue' cls' Hro Hrp Ht Hrun; simpl in Hrun.
  - inversion Hrun; subst. exact Ht.
  - destruct (BalancedAlgorithm.allocate_query self query cls)
      as [[res self1] cls1] eqn:Hq.
    destruct (balanced_accounted _ _ _ _ _ _ _ _ Hro Hrp Hq) as [Hacc [Hro1 Hrp1]].
    pose proof (accounted_tracks _ _ _ _ _ Hacc Ht) as Ht1.
    destruct res as [[[x |] b] | e]; [| | discriminate];
      simpl in Ht1; eapply IH; try exact Hrun; try exact Hro1; try exact Hrp1;
      try exact Ht1.
    destruct Hacc as [[x [j [a [b' [Heq _]]]]] | [_ [Heq | [e Heq]]]];
      inversion Heq; subst.
    rewrite Rplus_0_r in Ht1. exact Ht1.
Qed.

Lemma tracks_same_advertisers (cls cls' : Advertiser.Registry) (revenue total : R) :
  Advertiser.advertisers cls' = Advertiser.advertisers cls ->
  tracks cls revenue total -> tracks cls' revenue total.
Proof. unfold tracks. intros ->. tauto. Qed.

Lemma balanced_init_frame (linprog : Solver) (n : nat) (bids : Bids)
    (predicted : dict Z) (alpha : R) (cls : Advertiser.Registry) :
  Advertiser.advertisers (snd (BalancedAlgorithm.init linprog n bids predicted alpha cls))
  = Advertiser.advertisers cls /\
  forall self cls',
    BalancedAlgorithm.init linprog n bids predicted alpha cls = (Ok self, cls') ->
    exists ko kp,
      OptimisticAlgorithm.advertisers (BalancedAlgorithm.optimistic_algorithm self)
      = Advertiser.Snapshot ko /\
      PessimisticAlgorithm.advertisers (BalancedAlgorithm.pessimistic_algorithm self)
      = Advertiser.Snapshot kp.
Proof.
  unfold BalancedAlgorithm.init.
  pose proof (optimistic_init_frame linprog n bids predicted true cls) as Hframe.
  assert (Href : forall o cls1,
             OptimisticAlgorithm.init linprog n bids predicted true cls = (Ok o, cls1) ->
             exists ko, OptimisticAlgorithm.advertisers o = Advertiser.Snapshot ko).
  { unfold OptimisticAlgorithm.init.
    destruct (Advertiser.get_advertiser_list_copy cls) as [working cls1].
    destruct (OfflineMaximizationProblem.solve_allocation linprog _ cls1)
      as [[[u | e] oracle'] cls2]; [| discriminate].
    destruct (OfflineMaximizationProblem.allocations oracle'); [| discriminate].
    destruct (get_advertiser_list_copy_frame cls2) as [_ [ko Hko]].
    destruct (Advertiser.get_advertiser_list_copy cls2) as [advs cls3].
    simpl in Hko. intros o cls4 H. inversion H; subst. exists ko. reflexivity. }
  destruct (OptimisticAlgorithm.init linprog n bids predicted true cls) as [[o | e] cls1];
    simpl in Hframe.
  - unfold PessimisticAlgorithm.init.
    destruct (get_advertiser_list_copy_frame cls1) as [Hauth [kp Hkp]].
    destruct (Advertiser.get_advertiser_list_copy cls1) as [advs cls2].
    simpl in *. split; [congruence |].
    intros self cls' H. inversion H; subst. simpl.
    destruct (Href o cls1 eq_refl) as [ko Hko].
    exists ko, kp. split; [exact Hko | reflexivity].
  - simpl. split; [exact Hframe | discriminate].
Qed.

(** In exact arithmetic, in [run_experiment], whatever the bids, the queries and the LP
    answers, each of the three revenues is at most the sum of the initial
    budgets of the registered advertisers, provided no budget is negative; the
    pessimistic revenue is not negative, and the ledger the call leaves has
    spent exactly the balanced revenue. *)
Theorem revenue_within_budget (linprog : Solver) (rep : Z) (bids : Bids)
    (query_sequence : list string) (predicted_queries : dict Z) (n_keywords : nat)
    (prediction_error_level alpha : R) (cls cls' : Advertiser.Registry)
    (summary : Experiment.Summary) :
  Forall (fun a => 0 <= Advertiser.initial_budget a) (Advertiser.advertisers cls) ->
  Experiment.run_experiment linprog rep bids query_sequence predicted_queries n_keywords
    prediction_error_level alpha cls = (Ok summary, cls') ->
  let total := total_budget (Advertiser.advertisers cls) in
  Experiment.optimistic_revenue summary <= total /\
  0 <= Experiment.pessimistic_revenue summary <= total /\
  Experiment.balanced_revenue summary <= total /\
  total_spent (Advertiser.advertisers cls') = Experiment.balanced_revenue summary /\
  total_budget (Advertiser.advertisers cls') = total.
Proof.
  intros Hb Hrun total. unfold Experiment.run_experiment in Hrun.
  (* optimistic phase *)
  destruct (Experiment.optimistic_phase linprog bids query_sequence predicted_queries
              n_keywords cls) as [[ro | e] cls1] eqn:Hphase1; [| discriminate].
  assert (Ht1 : tracks cls1 ro total).
  { unfold Experiment.optimistic_phase in Hphase1.
    pose proof (optimistic_init_frame linprog n_keywords bids predicted_queries false
                  (Experiment.fresh_start cls)) as Hframe.
    assert (Href : forall o c,
               OptimisticAlgorithm.init linprog n_keywords bids predicted_queries false
                 (Experiment.fresh_start cls) = (Ok o, c) ->
               OptimisticAlgorithm.advertisers o = Advertiser.Authoritative).
    { unfold OptimisticAlgorithm.init.
      destruct (Advertiser.get_advertiser_list_copy _) as [working c1].
      destruct (OfflineMaximizationProblem.solve_allocation linprog _ c1)
        as [[[u | e] oracle'] c2]; [| discriminate].
      destruct (OfflineMaximizationProblem.allocations oracle'); [| discriminate].
      intros o c H. inversion H; reflexivity. }
    destruct (OptimisticAlgorithm.init linprog n_keywords bids predicted_queries false
                (Experiment.fresh_start cls)) as [[o | e] c] eqn:Hinit; [| discriminate].
    cbn [snd] in Hframe.
    eapply optimistic_loop_tracks; [apply (Href o c eq_refl) | | exact Hphase1].
    apply (tracks_same_advertisers (Experiment.fresh_start cls)); [exact Hframe |].
    apply fresh_start_tracks. exact Hb. }
  (* pessimistic phase *)
  destruct (Experiment.pessimistic_phase bids query_sequence alpha cls1)
    as [[rp | e] cls2] eqn:Hphase2; [| discriminate].
  assert (Hb1 : Forall (fun a => 0 <= Advertiser.initial_budget a)
                  (Advertiser.advertisers cls1)) by apply Ht1.
  assert (Htot1 : total_budget (Advertiser.advertisers cls1) = total) by apply Ht1.
  assert (Ht2 : tracks cls2 rp total /\ 0 <= rp).
  { unfold Experiment.pessimistic_phase, PessimisticAlgorithm.init in Hphase2.
    apply (pessimistic_loop_tracks
             (PessimisticAlgorithm.mk bids Advertiser.Authoritative 1) total eq_refl
             query_sequence 0 (Experiment.fresh_start cls1) rp cls2);
      [| apply Rle_refl | exact Hphase2].
    rewrite <- Htot1. apply fresh_start_tracks. exact Hb1. }
  destruct Ht2 as [Ht2 Hrp].
  (* balanced phase *)
  destruct (Experiment.balanced_phase linprog bids query_sequence predicted_queries
              n_keywords alpha cls2) as [[rb | e] cls3] eqn:Hphase3; [| discriminate].
  assert (Hb2 : Forall (fun a => 0 <= Advertiser.initial_budget a)
                  (Advertiser.advertisers cls2)) by apply Ht2.
  assert (Htot2 : total_budget (Advertiser.advertisers cls2) = total) by apply Ht2.
  assert (Ht3 : tracks cls3 rb total).
  { unfold Experiment.balanced_phase in Hphase3.
    destruct (balanced_init_frame linprog n_keywords bids predicted_queries alpha
                (Experiment.fresh_start cls2)) as [Hframe Hrefs].
    destruct (BalancedAlgorithm.init linprog n_keywords bids predicted_queries alpha
                (Experiment.fresh_start cls2)) as [[b | e] c] eqn:Hinit; [| discriminate].
    cbn [snd] in Hframe. destruct (Hrefs b c eq_refl) as [ko [kp [Hko Hkp]]].
    eapply balanced_loop_tracks; [exact Hko | exact Hkp | | exact Hphase3].
    apply (tracks_same_advertisers (Experiment.fresh_start cls2)); [exact Hframe |].
    rewrite <- Htot2. apply fresh_start_tracks. exact Hb2. }
  inversion Hrun; subst. simpl.
  destruct Ht1 as [Hw1 [_ [Hs1 Hb1']]]. destruct Ht2 as [Hw2 [_ [Hs2 Hb2']]].
  destruct Ht3 as [Hw3 [_ [Hs3 Hb3']]].
  apply within_total in Hw1, Hw2, Hw3.
  repeat split; try assumption; lra.
Qed.

Lemma example_run_experiment :
  exists summary cls',
    Experiment.run_experiment Example.linprog 1 Example.bids ["k1"%string]
      Example.predicted_queries 1 0 1 (Advertiser.init "A1" 10 Advertiser.empty)
    = (Ok summary, cls') /\
    Experiment.optimistic_revenue summary = 1 /\
    Experiment.pessimistic_revenue summary = 1 /\
    Experiment.balanced_revenue summary = 1.
Proof.
  assert (Hm : Z.min (Z.min (Zfloor 5) 5) (Zfloor ((10 - 0) / 1)) = 5%Z).
  { rewrite (ZfloorZ 5). rewrite (Zfloor_eq 10 ((10 - 0) / 1)) by lra. reflexivity. }
  unfold Experiment.run_experiment, Experiment.optimistic_phase,
    Experiment.pessimistic_phase, Experiment.balanced_phase, Experiment.fresh_start.
  repeat (progress
            (unfold BalancedAlgorithm.init, OptimisticAlgorithm.init,
               PessimisticAlgorithm.init, BalancedAlgorithm.allocate_query,
               OptimisticAlgorithm.allocate_query, PessimisticAlgorithm.allocate_query,
               BalancedAlgorithm.commit, BalancedAlgorithm.decide;
             pyeval; rewrite ?Hm in *; try (exfalso; lra))).
  eexists _, _. split; [reflexivity |]. simpl. repeat split; lra.
Qed.

Lemma revenue_within_budget_witness :
  exists summary,
    Experiment.optimistic_revenue summary <= 10 + 0 /\
    0 <= Experiment.pessimistic_revenue summary <= 10 + 0 /\
    Experiment.balanced_revenue summary <= 10 + 0.
Proof.
  destruct example_run_experiment as [summary [cls' [Hrun _]]].
  exists summary.
  destruct (revenue_within_budget Example.linprog 1 Example.bids ["k1"%string]
              Example.predicted_queries 1 0 1
              (Advertiser.init "A1" 10 Advertiser.empty) cls' summary)
    as [Ho [Hp [Hb _]]].
  - constructor; [simpl; lra | constructor].
  - exact Hrun.
  - simpl in Ho, Hp, Hb. repeat split; lra.
Defined.

(** X5: the standalone pessimistic allocator replaces the [alpha] it is given
    by [1], and the optimistic allocator has none.  In two calls of
    [run_experiment] that differ in [alpha] only, a failure of the optimistic
    or of the pessimistic phase is the failure of both calls, with the same
    registry left behind, and when both calls return, their optimistic
    revenues are the same and so are their pessimistic revenues. *)
Theorem standalone_phases_ignore_alpha (linprog : Solver) (rep : Z) (bids : Bids)
    (query_sequence : list string) (predicted_queries : dict Z) (n_keywords : nat)
    (prediction_error_level alpha1 alpha2 : R) (cls : Advertiser.Registry) :
  let run := fun alpha =>
    Experiment.run_experiment linprog rep bids query_sequence predicted_queries
      n_keywords prediction_error_level alpha cls in
  PessimisticAlgorithm.alpha (fst (PessimisticAlgorithm.init bids alpha1 false cls)) = 1 /\
  (forall e c,
     Experiment.optimistic_phase linprog bids query_sequence predicted_queries
       n_keywords cls = (Raise e, c) ->
     run alpha1 = (Raise e, c) /\ run alpha2 = (Raise e, c)) /\
  (forall r c e c',
     Experiment.optimistic_phase linprog bids query_sequence predicted_queries
       n_keywords cls = (Ok r, c) ->
     Experiment.pessimistic_phase bids query_sequence alpha1 c = (Raise e, c') ->
     run alpha1 = (Raise e, c') /\ run alpha2 = (Raise e, c')) /\
  (forall s1 c1 s2 c2,
     run alpha1 = (Ok s1, c1) -> run alpha2 = (Ok s2, c2) ->
     Experiment.optimistic_revenue s1 = Experiment.optimistic_revenue s2 /\
     Experiment.pessimistic_revenue s1 = Experiment.pessimistic_revenue s2).
Proof.
  intros run. subst run. cbv beta. split; [reflexivity |].
  unfold Experiment.run_experiment.
  split; [intros e c Hopt; rewrite Hopt; split; reflexivity |].
  split.
  - intros r c e c' Hopt Hpess. rewrite Hopt.
    change (Experiment.pessimistic_phase bids query_sequence alpha2 c)
      with (Experiment.pessimistic_phase bids query_sequence alpha1 c).
    rewrite Hpess. split; reflexivity.
  - intros s1 c1 s2 c2.
    destruct (Experiment.optimistic_phase linprog bids query_sequence predicted_queries
                n_keywords cls) as [[ro | e] cls1]; [| discriminate].
    change (Experiment.pessimistic_phase bids query_sequence alpha2 cls1)
      with (Experiment.pessimistic_phase bids query_sequence alpha1 cls1).
    destruct (Experiment.pessimistic_phase bids query_sequence alpha1 cls1)
      as [[rp | e] cls2]; [| discriminate].
    destruct (Experiment.balanced_phase linprog bids query_sequence predicted_queries
                n_keywords alpha1 cls2) as [[rb1 | e1] c1']; [| discriminate].
    destruct (Experiment.balanced_phase linprog bids query_sequence predicted_queries
                n_keywords alpha2 cls2) as [[rb2 | e2] c2']; [| discriminate].
    intros H1 H2. inversion H1; subst. inversion H2; subst. simpl. split; reflexivity.
Qed.

Lemma zeroed_assign (l : list Advertiser.t) (j : nat) (a : Advertiser.t) (b : R) :
  nth_error l j = Some a -> zeroed (list_assign l j (bump a b)) = zeroed l.
Proof.
  unfold zeroed. revert j.
  induction l as [| x l IH]; intros [| j] Hj; simpl in *; try discriminate.
  - inversion Hj; subst. reflexivity.
  - rewrite (IH j Hj). reflexivity.
Qed.

Lemma accounted_zeroed (cls cls' : Advertiser.Registry)
    (res : Result (option Advertiser.Ref * R)) :
  accounted cls cls' res ->
  zeroed (Advertiser.advertisers cls') = zeroed (Advertiser.advertisers cls).
Proof.
  intros [[x [j [a [b [_ [Hj [_ ->]]]]]]] | [-> _]]; [| reflexivity].
  apply zeroed_assign. exact Hj.
Qed.

(** On the authoritative list a pessimistic decision reads and writes the
    advertisers only. *)
Lemma pessimistic_allocate_query_ext (self : PessimisticAlgorithm.t) (query : string)
    (cls1 cls2 : Advertiser.Registry) :
  PessimisticAlgorithm.advertisers self = Advertiser.Authoritative ->
  Advertiser.advertisers cls1 = Advertiser.advertisers cls2 ->
  fst (PessimisticAlgorithm.allocate_query self query cls1)
  = fst (PessimisticAlgorithm.allocate_query self query cls2) /\
  Advertiser.advertisers (snd (PessimisticAlgorithm.allocate_query self query cls1))
  = Advertiser.advertisers (snd (PessimisticAlgorithm.allocate_query self query cls2)).
Proof.
  intros Hr Heq. unfold PessimisticAlgorithm.allocate_query. rewrite Hr.
  cbn [Advertiser.deref]. rewrite Heq.
  destruct (PessimisticAlgorithm.scan _ _ query _ 0 None NegInf 0) as [[best hs] bb].
  destruct best as [i |]; [| split; [reflexivity | exact Heq]].
  unfold Advertiser.deduct_at. cbn [Advertiser.deref]. rewrite Heq.
  destruct (nth_error (Advertiser.advertisers cls2) i) as [a |];
    [| split; [reflexivity | exact Heq]].
  destruct (Advertiser.deduct_budget a bb); simpl;
    [rewrite Heq; split; reflexivity | split; [reflexivity | exact Heq]].
Qed.

Lemma pessimistic_loop_ext (self : PessimisticAlgorithm.t) :
  PessimisticAlgorithm.advertisers self = Advertiser.Authoritative ->
  forall query_sequence revenue cls1 cls2,
    Advertiser.advertisers cls1 = Advertiser.advertisers cls2 ->
    fst (Experiment.pessimistic_loop self query_sequence revenue cls1)
    = fst (Experiment.pessimistic_loop self query_sequence revenue cls2) /\
    Advertiser.advertisers (snd (Experiment.pessimistic_loop self query_sequence revenue cls1))
    = Advertiser.advertisers (snd (Experiment.pessimistic_loop self query_sequence revenue cls2)).
Proof.
  intros Hr. induction query_sequence as [| query rest IH];
    intros revenue cls1 cls2 Heq; simpl.
  - split; [reflexivity | exact Heq].
  - destruct (pessimistic_allocate_query_ext self query cls1 cls2 Hr Heq) as [Hres Hadv].
    destruct (PessimisticAlgorithm.allocate_query self query cls1) as [r1 c1].
    destruct (PessimisticAlgorithm.allocate_query self query cls2) as [r2 c2].
    simpl in Hres, Hadv. subst r2.
    destruct r1 as [[x b] | e]; [apply IH; exact Hadv | split; [reflexivity | exact Hadv]].
Qed.

Lemma pessimistic_loop_zeroed (self : PessimisticAlgorithm.t) :
  PessimisticAlgorithm.advertisers self = Advertiser.Authoritative ->
  forall query_sequence revenue cls,
    zeroed (Advertiser.advertisers
              (snd (Experiment.pessimistic_loop self query_sequence revenue cls)))
    = zeroed (Advertiser.advertisers cls).
Proof.
  intros Hr. induction query_sequence as [| query rest IH]; intros revenue cls; simpl;
    [reflexivity |].
  destruct (PessimisticAlgorithm.allocate_query self query cls) as [res cls1] eqn:Hq.
  destruct (pessimistic_accounted _ _ _ _ _ Hr Hq) as [Hacc _].
  apply accounted_zeroed in Hacc.
  destruct res as [[x b] | e]; [rewrite IH; exact Hacc | exact Hacc].
Qed.

Lemma zeroed_idempotent (l : list Advertiser.t) : zeroed (zeroed l) = zeroed l.
Proof. unfold zeroed. rewrite map_map. reflexivity. Qed.

(** X6: the pessimistic phase of the driver can be replayed: run again on the
    registry it left, it returns the same revenue and leaves the same
    authoritative advertisers; nothing of the first run survives
    [reset_budgets]. *)
Theorem pessimistic_phase_replays (bids : Bids) (query_sequence : list string)
    (alpha : R) (cls : Advertiser.Registry) :
  let first := Experiment.pessimistic_phase bids query_sequence alpha cls in
  let second := Experiment.pessimistic_phase bids query_sequence alpha (snd first) in
  fst second = fst first /\
  Advertiser.advertisers (snd second) = Advertiser.advertisers (snd first).
Proof.
  unfold Experiment.pessimistic_phase, PessimisticAlgorithm.init.
  cbn [Advertiser.get_advertisers].
  set (self := PessimisticAlgorithm.mk bids Advertiser.Authoritative 1).
  cbv zeta.
  apply (pessimistic_loop_ext self eq_refl).
  unfold Experiment.fresh_start. simpl.
  change (zeroed (Advertiser.advertisers
                    (snd (Experiment.pessimistic_loop self query_sequence 0
                            (Experiment.fresh_start cls))))
          = zeroed (Advertiser.advertisers cls)).
  rewrite (pessimistic_loop_zeroed self eq_refl).
  unfold Experiment.fresh_start. simpl. apply zeroed_idempotent.
Qed.

(** ** The optimistic allocator, in full *)

Lemma plan_cell_bounds (plan : list (list Z)) (i c : nat) (v : Z) :
  OptimisticAlgorithm.plan_cell plan i c = Ok v ->
  (i < List.length plan)%nat /\ (c < List.length (nth i plan []))%nat /\
  cell plan i c = v.
Proof.
  unfold OptimisticAlgorithm.plan_cell, bind, list_item, cell.
  destruct (nth_error plan i) as [row |] eqn:Hrow; [| discriminate].
  destruct (nth_error row c) as [x |] eqn:Hx; [| discriminate].
  intros H. inversion H; subst.
  assert (Hi : (i < List.length plan)%nat)
    by (apply nth_error_Some; rewrite Hrow; discriminate).
  rewrite (nth_error_nth _ _ [] Hrow).
  split; [exact Hi |]. split.
  - apply nth_error_Some. rewrite Hx. discriminate.
  - apply nth_error_nth. exact Hx.
Qed.

Lemma cell_matrix_assign_at (plan : list (list Z)) (i c : nat) (old v : Z) (i' c' : nat) :
  OptimisticAlgorithm.plan_cell plan i c = Ok old ->
  cell (OfflineMaximizationProblem.matrix_assign plan i c v) i' c'
  = if Nat.eqb i' i && Nat.eqb c' c then v else cell plan i' c'.
Proof.
  intros Hold. destruct (plan_cell_bounds _ _ _ _ Hold) as [Hi [Hc _]].
  unfold cell, OfflineMaximizationProblem.matrix_assign.
  destruct (Nat.eqb i' i) eqn:Ei; simpl.
  - apply Nat.eqb_eq in Ei. subst i'. rewrite nth_list_assign_eq by exact Hi.
    destruct (Nat.eqb c' c) eqn:Ec.
    + apply Nat.eqb_eq in Ec. subst c'. apply nth_list_assign_eq. exact Hc.
    + apply Nat.eqb_neq in Ec. apply nth_list_assign_neq. congruence.
  - apply Nat.eqb_neq in Ei. rewrite nth_list_assign_neq by congruence. reflexivity.
Qed.

(** The assigned advertisers: the positions with a positive plan cell in the
    column, in increasing order. *)
Lemma assigned_loop_spec (plan : list (list Z)) (c : nat) (advs : list Advertiser.t) :
  forall off l,
    OptimisticAlgorithm.assigned_loop plan c advs off = Ok l ->
    (forall j, In j l <->
       (off <= j < off + List.length advs)%nat /\
       exists v, OptimisticAlgorithm.plan_cell plan j c = Ok v /\ (0 < v)%Z) /\
    (forall j, (off <= j < off + List.length advs)%nat ->
       exists v, OptimisticAlgorithm.plan_cell plan j c = Ok v).
Proof.
  induction advs as [| a rest IH]; intros off l Hrun; simpl in Hrun.
  - inversion Hrun; subst. split.
    + intros j. split; [intros [] | intros [Hj _]; simpl in Hj; lia].
    + intros j Hj. simpl in Hj. lia.
  - unfold bind in Hrun.
    destruct (OptimisticAlgorithm.plan_cell plan off c) as [v |] eqn:Hv; [| discriminate].
    destruct (OptimisticAlgorithm.assigned_loop plan c rest (S off)) as [tl |] eqn:Htl;
      [| discriminate].
    destruct (IH _ _ Htl) as [IHin IHall].
    inversion Hrun; subst l. clear Hrun. simpl List.length. split.
    + intros j. destruct (Z.gtb v 0) eqn:Hpos.
      * apply Z.gtb_lt in Hpos. split.
        -- intros [<- | Hin].
           ++ split; [lia |]. exists v. split; [exact Hv | lia].
           ++ apply IHin in Hin. destruct Hin as [Hj Hex]. split; [lia | exact Hex].
        -- intros [Hj [v' [Hv' Hpos']]].
           destruct (Nat.eq_dec j off) as [-> | Hne]; [left; reflexivity |].
           right. apply IHin. split; [lia |]. exists v'. split; assumption.
      * assert (Hle : (v <= 0)%Z).
        { destruct (Z.gtb_spec v 0); [discriminate | lia]. }
        split.
        -- intros Hin. apply IHin in Hin. destruct Hin as [Hj Hex].
           split; [lia | exact Hex].
        -- intros [Hj [v' [Hv' Hpos']]].
           destruct (Nat.eq_dec j off) as [-> | Hne].
           ++ rewrite Hv in Hv'. inversion Hv'. lia.
           ++ apply IHin. split; [lia |]. exists v'. split; assumption.
    + intros j Hj. destruct (Nat.eq_dec j off) as [-> | Hne].
      * exists v. exact Hv.
      * apply IHall. lia.
Qed.

Lemma assigned_loop_sorted (plan : list (list Z)) (c : nat) (advs : list Advertiser.t) :
  forall off l,
    OptimisticAlgorithm.assigned_loop plan c advs off = Ok l ->
    forall pre k post, l = pre ++ k :: post -> forall j, In j pre -> (j < k)%nat.
Proof.
  induction advs as [| a rest IH]; intros off l Hrun pre k post Hl j Hj; simpl in Hrun.
  - injection Hrun as Hrun. rewrite <- Hrun in Hl. destruct pre; discriminate.
  - unfold bind in Hrun.
    destruct (OptimisticAlgorithm.plan_cell plan off c) as [v |]; [| discriminate].
    destruct (OptimisticAlgorithm.assigned_loop plan c rest (S off)) as [tl |] eqn:Htl;
      [| discriminate].
    injection Hrun as Hrun. rewrite <- Hrun in Hl. clear Hrun.
    destruct (Z.gtb v 0).
    + destruct pre as [| p pre]; [destruct Hj |].
      simpl in Hl. injection Hl as Hp Htl'. subst p.
      destruct Hj as [<- | Hj].
      * destruct (assigned_loop_spec _ _ _ _ _ Htl) as [Hin _].
        assert (Hk : In k tl) by (rewrite Htl'; apply in_or_app; right; left; reflexivity).
        apply Hin in Hk. lia.
      * exact (IH _ _ Htl pre k post Htl' j Hj).
    + symmetry in Hl. exact (IH _ _ Htl pre k post (eq_sym Hl) j Hj).
Qed.

(** What the bid loop knows after the assigned advertisers of [pre]. *)
Lemma bid_loop_max (bids : Bids) (query : string) (advs : list Advertiser.t)
    (rest : list nat) :
  forall (pre : list nat) (best : option nat) (hb : R) (res : option nat * R),
    (forall j k, In j pre -> In k rest -> (j < k)%nat) ->
    (forall pre' k post, rest = pre' ++ k :: post -> forall j, In j pre' -> (j < k)%nat) ->
    hb >= -1 ->
    match best with
    | Some i => In i pre
    | None => hb = -1
    end ->
    (forall j a row, In j pre -> nth_error advs j = Some a ->
       dict_get bids (Advertiser.name a) = Some row ->
       Advertiser.remaining_budget a >= dict_get_default row query 0 ->
       dict_get_default row query 0 <= hb /\
       (forall i, best = Some i -> (j < i)%nat -> dict_get_default row query 0 < hb)) ->
    OptimisticAlgorithm.bid_loop bids query advs rest best hb = Ok res ->
    match fst res with
    | Some i => In i (pre ++ rest)
    | None => snd res = -1
    end /\
    (forall j a row, In j (pre ++ rest) -> nth_error advs j = Some a ->
       dict_get bids (Advertiser.name a) = Some row ->
       Advertiser.remaining_budget a >= dict_get_default row query 0 ->
       dict_get_default row query 0 <= snd res /\
       (forall i, fst res = Some i -> (j < i)%nat ->
          dict_get_default row query 0 < snd res)).
Proof.
  induction rest as [| k rest IH]; intros pre best hb res Hord Hsorted Hhb Hbest Hmax Hrun;
    simpl in Hrun.
  - inversion Hrun; subst. rewrite app_nil_r. simpl. split; assumption.
  - unfold bind, list_item, dict_item in Hrun.
    destruct (nth_error advs k) as [ak |] eqn:Hk; [| discriminate].
    destruct (dict_get bids (Advertiser.name ak)) as [rowk |] eqn:Hrowk; [| discriminate].
    replace (pre ++ k :: rest) with ((pre ++ [k]) ++ rest)
      by (rewrite <- app_assoc; reflexivity).
    assert (Hord' : forall j k', In j (pre ++ [k]) -> In k' rest -> (j < k')%nat).
    { intros j k' Hj Hk'. apply in_app_or in Hj. destruct Hj as [Hj | [<- | []]].
      - apply Hord; [exact Hj | right; exact Hk'].
      - apply in_split in Hk'. destruct Hk' as [l1 [l2 ->]].
        apply (Hsorted (k :: l1) k' l2); [reflexivity | left; reflexivity]. }
    assert (Hsorted' : forall pre' k' post, rest = pre' ++ k' :: post ->
                       forall j, In j pre' -> (j < k')%nat).
    { intros pre' k' post -> j Hj.
      apply (Hsorted (k :: pre') k' post); [reflexivity | right; exact Hj]. }
    assert (Hlt : forall j, In j pre -> (j < k)%nat).
    { intros j Hj. apply Hord; [exact Hj | left; reflexivity]. }
    destruct (Rgeb (Advertiser.remaining_budget ak) (dict_get_default rowk query 0)
              && Rgtb (dict_get_default rowk query 0) hb) eqn:Hc.
    + apply andb_true_iff in Hc. destruct Hc as [Hge Hgt].
      apply Rgeb_true in Hge. apply Rgtb_true in Hgt.
      apply (IH (pre ++ [k]) (Some k) (dict_get_default rowk query 0) res Hord' Hsorted');
        [lra | apply in_or_app; right; left; reflexivity | | exact Hrun].
      intros j a row Hj Ha Hrow Haff.
      apply in_app_or in Hj. destruct Hj as [Hj | [<- | []]].
      * destruct (Hmax j a row Hj Ha Hrow Haff) as [Hle _].
        split; [lra |]. intros i _ _. lra.
      * assert (a = ak) by congruence. subst a.
        assert (row = rowk) by congruence. subst row.
        split; [lra |]. intros i Hi Hlt'. inversion Hi; subst. lia.
    + apply (IH (pre ++ [k]) best hb res Hord' Hsorted' Hhb); [| | exact Hrun].
      * destruct best as [i |]; [apply in_or_app; left; exact Hbest | exact Hbest].
      * intros j a row Hj Ha Hrow Haff.
        apply in_app_or in Hj. destruct Hj as [Hj | [<- | []]].
        -- exact (Hmax j a row Hj Ha Hrow Haff).
        -- assert (a = ak) by congruence. subst a.
           assert (row = rowk) by congruence. subst row.
           apply andb_false_iff in Hc.
           assert (Hle : dict_get_default rowk query 0 <= hb).
           { destruct Hc as [Hc | Hc].
             - exfalso. apply Rgeb_true in Haff. congruence.
             - apply Rgtb_false. exact Hc. }
           split; [exact Hle |]. intros i Hi Hlt'. subst best.
           specialize (Hlt i Hbest). lia.
Qed.

(** A served query, in full. *)
Lemma optimistic_allocate_query_served
    (self self' : OptimisticAlgorithm.t) (query : string)
    (cls cls' : Advertiser.Registry) (who : Advertiser.Ref) (bid : R) :
  OptimisticAlgorithm.allocate_query self query cls = (Ok (Some who, bid), self', cls') ->
  let r := OptimisticAlgorithm.advertisers self in
  let plan := OptimisticAlgorithm.offline_allocations self in
  exists (c i : nat) (a : Advertiser.t) (row : dict R) (remaining v : Z),
    who = (r, i) /\
    list_index (OptimisticAlgorithm.keywords self) query = Some c /\
    dict_get (OptimisticAlgorithm.remaining_queries self) query = Some remaining /\
    (0 < remaining)%Z /\
    nth_error (Advertiser.deref cls r) i = Some a /\
    OptimisticAlgorithm.plan_cell plan i c = Ok v /\ (0 < v)%Z /\
    dict_get (OptimisticAlgorithm.bids self) (Advertiser.name a) = Some row /\
    bid = dict_get_default row query 0 /\
    Advertiser.remaining_budget a >= bid /\
    (forall j b rowj w,
       nth_error (Advertiser.deref cls r) j = Some b ->
       OptimisticAlgorithm.plan_cell plan j c = Ok w -> (0 < w)%Z ->
       dict_get (OptimisticAlgorithm.bids self) (Advertiser.name b) = Some rowj ->
       Advertiser.remaining_budget b >= dict_get_default rowj query 0 ->
       dict_get_default rowj query 0 <= bid /\
       ((j < i)%nat -> dict_get_default rowj query 0 < bid)) /\
    self' = OptimisticAlgorithm.mk
              (dict_set (OptimisticAlgorithm.remaining_queries self) query (remaining - 1)%Z)
              (OfflineMaximizationProblem.matrix_assign plan i c (v - 1)%Z)
              r (OptimisticAlgorithm.bids self) (OptimisticAlgorithm.keywords self) /\
    cls' = Advertiser.store cls r i (bump a bid).
Proof.
  intros Hrun r plan. unfold OptimisticAlgorithm.allocate_query in Hrun.
  fold r plan in Hrun.
  unfold dict_get_default in Hrun at 1.
  destruct (dict_get (OptimisticAlgorithm.remaining_queries self) query)
    as [remaining |] eqn:Hrem; [| simpl in Hrun; discriminate].
  destruct (Z.leb remaining 0) eqn:Hpos; [discriminate |].
  apply Z.leb_gt in Hpos.
  destruct (list_index (OptimisticAlgorithm.keywords self) query) as [c |] eqn:Hc;
    [| discriminate].
  destruct (OptimisticAlgorithm.assigned_loop plan c (Advertiser.deref cls r) 0)
    as [assigned | e] eqn:Hassigned; [| discriminate].
  destruct (assigned_loop_spec _ _ _ _ _ Hassigned) as [Hin Hall].
  pose proof (assigned_loop_sorted _ _ _ _ _ Hassigned) as Hsorted.
  destruct assigned as [| k0 assigned0] eqn:Hshape; [discriminate |].
  assert (Hne : k0 :: assigned0 <> []) by discriminate.
  rewrite <- Hshape in *. clear Hshape k0 assigned0.
  destruct (OptimisticAlgorithm.bid_loop (OptimisticAlgorithm.bids self) query
              (Advertiser.deref cls r) assigned None (-1)) as [[best hb] | e] eqn:Hloop;
    [| destruct assigned; [contradiction | discriminate]].
  assert (Hrun' :
    match best with
    | None => (Ok (None, 0), self, cls)
    | Some advertiser_idx =>
        match OptimisticAlgorithm.plan_cell plan advertiser_idx c with
        | Raise e => (Raise e, self, cls)
        | Ok cell =>
            let self1 :=
              OptimisticAlgorithm.mk (OptimisticAlgorithm.remaining_queries self)
                (OfflineMaximizationProblem.matrix_assign plan advertiser_idx c (cell - 1)%Z)
                r (OptimisticAlgorithm.bids self) (OptimisticAlgorithm.keywords self) in
            match Advertiser.deduct_at cls r advertiser_idx hb with
            | (Raise e, cls1) => (Raise e, self1, cls1)
            | (Ok _, cls1) =>
                match dict_item (OptimisticAlgorithm.remaining_queries self1) query with
                | Raise e => (Raise e, self1, cls1)
                | Ok remaining0 =>
                    (Ok (Some (r, advertiser_idx), hb),
                     OptimisticAlgorithm.mk
                       (dict_set (OptimisticAlgorithm.remaining_queries self1) query
                                 (remaining0 - 1)%Z)
                       (OptimisticAlgorithm.offline_allocations self1)
                       (OptimisticAlgorithm.advertisers self1)
                       (OptimisticAlgorithm.bids self1)
                       (OptimisticAlgorithm.keywords self1),
                     cls1)
                end
            end
        end
    end = (Ok (Some who, bid), self', cls')).
  { destruct assigned; [contradiction | exact Hrun]. }
  clear Hrun.
  destruct best as [i |]; [| discriminate Hrun'].
  assert (Hm1 : -1 >= -1) by lra.
  pose proof (bid_loop_spec (OptimisticAlgorithm.bids self) query
                (Advertiser.deref cls r) assigned None (-1) (Some i, hb) Hm1 I Hloop)
    as Hinv.
  destruct Hinv as [a [row [Hi [Hrow [Hhb [Haff _]]]]]].
  pose proof (bid_loop_max (OptimisticAlgorithm.bids self) query (Advertiser.deref cls r)
                assigned [] None (-1) (Some i, hb)) as Hmax.
  cbn [app fst snd] in Hmax.
  destruct Hmax as [Hwho Hmax]; try exact Hloop; try reflexivity; try lra.
  { intros j k []. }
  { exact Hsorted. }
  { intros j b rowj []. }
  destruct (OptimisticAlgorithm.plan_cell plan i c) as [v | e] eqn:Hv; [| discriminate].
  apply Hin in Hwho. destruct Hwho as [_ [v' [Hv' Hvpos]]].
  rewrite Hv in Hv'. injection Hv' as <-.
  cbv zeta in Hrun'.
  destruct (Advertiser.deduct_at cls r i hb) as [[u | e] cls1] eqn:Hded; [| discriminate].
  destruct (deduct_at_success _ _ _ _ _ _ _ Hi Hded) as [_ Hcls1].
  cbn [OptimisticAlgorithm.remaining_queries OptimisticAlgorithm.offline_allocations
       OptimisticAlgorithm.advertisers OptimisticAlgorithm.bids
       OptimisticAlgorithm.keywords] in Hrun'.
  unfold dict_item in Hrun'. rewrite Hrem in Hrun'.
  injection Hrun' as Hwho Hbid Hself Hcls. subst who bid self' cls'.
  exists c, i, a, row, remaining, v.
  repeat (split; [first [reflexivity | assumption | lia] |]).
  split.
  { intros j b rowj w Hj Hw Hwpos Hrowj Haffj.
    assert (Hjin : In j assigned).
    { apply Hin. split.
      - split; [lia |]. apply nth_error_Some. congruence.
      - exists w. split; assumption. }
    destruct (Hmax j b rowj Hjin Hj Hrowj Haffj) as [Hle Hlt].
    split; [exact Hle |]. intros Hji. apply (Hlt i eq_refl Hji). }
  split; [reflexivity |]. exact Hcls1.
Qed.

(** In exact arithmetic, when the optimistic allocator serves a query, the keyword still had
    predicted demand left and sits at column [c] of the plan; the served
    advertiser [i] had a positive plan cell there and could afford its bid,
    which is the returned amount; no advertiser with a positive cell that
    could afford its own bid bids more, and none before [i] bids as much
    (ties go to the first).  The step takes one unit from the cell and one
    from the remaining demand, and deducts the bid from that advertiser. *)
Theorem optimistic_serves_best_planned
    (self self' : OptimisticAlgorithm.t) (query : string)
    (cls cls' : Advertiser.Registry) (who : Advertiser.Ref) (bid : R) :
  OptimisticAlgorithm.allocate_query self query cls = (Ok (Some who, bid), self', cls') ->
  let r := OptimisticAlgorithm.advertisers self in
  let plan := OptimisticAlgorithm.offline_allocations self in
  exists (c i : nat) (a : Advertiser.t) (row : dict R) (remaining v : Z),
    who = (r, i) /\
    list_index (OptimisticAlgorithm.keywords self) query = Some c /\
    dict_get (OptimisticAlgorithm.remaining_queries self) query = Some remaining /\
    (0 < remaining)%Z /\
    nth_error (Advertiser.deref cls r) i = Some a /\
    OptimisticAlgorithm.plan_cell plan i c = Ok v /\ (0 < v)%Z /\
    dict_get (OptimisticAlgorithm.bids self) (Advertiser.name a) = Some row /\
    bid = dict_get_default row query 0 /\
    Advertiser.remaining_budget a >= bid /\
    (forall j b rowj w,
       nth_error (Advertiser.deref cls r) j = Some b ->
       OptimisticAlgorithm.plan_cell plan j c = Ok w -> (0 < w)%Z ->
       dict_get (OptimisticAlgorithm.bids self) (Advertiser.name b) = Some rowj ->
       Advertiser.remaining_budget b >= dict_get_default rowj query 0 ->
       dict_get_default rowj query 0 <= bid /\
       ((j < i)%nat -> dict_get_default rowj query 0 < bid)) /\
    self' = OptimisticAlgorithm.mk
              (dict_set (OptimisticAlgorithm.remaining_queries self) query (remaining - 1)%Z)
              (OfflineMaximizationProblem.matrix_assign plan i c (v - 1)%Z)
              r (OptimisticAlgorithm.bids self) (OptimisticAlgorithm.keywords self) /\
    cls' = Advertiser.store cls r i (bump a bid).
Proof.
  intros Hrun. exact (optimistic_allocate_query_served _ _ _ _ _ _ _ Hrun).
Qed.

Lemma optimistic_serves_best_planned_witness :
  exists (c i : nat) (v : Z) (a : Advertiser.t),
    list_index ["k1"%string] "k1" = Some c /\
    OptimisticAlgorithm.plan_cell [[5%Z]] i c = Ok v /\ (0 < v)%Z /\
    Advertiser.remaining_budget a >= 1.
Proof.
  destruct example_optimistic_query as [o' [cls1 Hrun]].
  destruct (optimistic_serves_best_planned _ _ _ _ _ _ _ Hrun)
    as [c [i [a [row [remaining [v [_ [Hc [_ [_ [_ [Hv [Hpos [_ [_ [Haff _]]]]]]]]]]]]]]]].
  exists c, i, v, a. repeat split; assumption.
Defined.

(** The loops raise what a subscript raises. *)
Lemma assigned_loop_raises (plan : list (list Z)) (c : nat) (advs : list Advertiser.t) :
  forall off e,
    OptimisticAlgorithm.assigned_loop plan c advs off = Raise e -> e = IndexError.
Proof.
  induction advs as [| a rest IH]; intros off e Hrun; simpl in Hrun; [discriminate |].
  unfold bind, OptimisticAlgorithm.plan_cell, list_item in Hrun.
  destruct (nth_error plan off) as [row |]; [| inversion Hrun; reflexivity].
  unfold bind in Hrun.
  destruct (nth_error row c) as [v |]; [| inversion Hrun; reflexivity].
  destruct (OptimisticAlgorithm.assigned_loop plan c rest (S off)) as [tl | e'] eqn:Htl;
    [discriminate |].
  inversion Hrun; subst. exact (IH _ _ Htl).
Qed.

Lemma bid_loop_raises (bids : Bids) (query : string) (advs : list Advertiser.t)
    (assigned : list nat) :
  forall best hb e,
    OptimisticAlgorithm.bid_loop bids query advs assigned best hb = Raise e ->
    e = IndexError \/ e = KeyError.
Proof.
  induction assigned as [| i rest IH]; intros best hb e Hrun; simpl in Hrun;
    [discriminate |].
  unfold bind, list_item, dict_item in Hrun.
  destruct (nth_error advs i) as [a |]; [| inversion Hrun; left; reflexivity].
  destruct (dict_get bids (Advertiser.name a)) as [row |];
    [| inversion Hrun; right; reflexivity].
  destruct (Rgeb _ _ && Rgtb _ _); eapply IH; exact Hrun.
Qed.

(** A query that is not served. *)
Lemma optimistic_allocate_query_unserved
    (self self' : OptimisticAlgorithm.t) (query : string)
    (cls cls' : Advertiser.Registry) (res : Result (option Advertiser.Ref * R)) :
  OptimisticAlgorithm.allocate_query self query cls = (res, self', cls') ->
  (forall who bid, res <> Ok (Some who, bid)) ->
  self' = self /\ cls' = cls /\
  (res = Ok (None, 0) \/ res = Raise IndexError \/ res = Raise KeyError).
Proof.
  unfold OptimisticAlgorithm.allocate_query.
  set (r := OptimisticAlgorithm.advertisers self).
  destruct (Z.leb _ 0) eqn:Hrem.
  { intros H _. inversion H. repeat split. left. reflexivity. }
  destruct (dict_get_default_present _ _ Hrem) as [v [Hv _]].
  destruct (list_index _ query) as [keyword_idx |];
    [| intros H _; inversion H; repeat split; left; reflexivity].
  destruct (OptimisticAlgorithm.assigned_loop _ keyword_idx _ 0) as [assigned | e] eqn:Ha.
  2:{ intros H _. inversion H. repeat split. right. left.
      rewrite (assigned_loop_raises _ _ _ _ _ Ha). reflexivity. }
  destruct assigned as [| i0 assigned];
    [intros H _; inversion H; repeat split; left; reflexivity |].
  destruct (OptimisticAlgorithm.bid_loop _ query _ (i0 :: assigned) None (-1))
    as [[best hb] | e] eqn:Hloop.
  2:{ intros H _. inversion H. repeat split. right.
      destruct (bid_loop_raises _ _ _ _ _ _ _ Hloop) as [-> | ->];
        [left | right]; reflexivity. }
  destruct best as [i |];
    [| intros H _; inversion H; repeat split; left; reflexivity].
  assert (Hinv : bid_loop_inv (OptimisticAlgorithm.bids self) query
                   (Advertiser.deref cls r) (Some i, hb)).
  { eapply bid_loop_spec; [| | exact Hloop]; [lra | exact I]. }
  destruct Hinv as [a [row [Hi [Hrow [-> [Hge Hgt]]]]]].
  destruct (OptimisticAlgorithm.plan_cell _ i keyword_idx) as [cell | e] eqn:Hcell.
  2:{ assert (He : e = IndexError).
      { unfold OptimisticAlgorithm.plan_cell, bind, list_item in Hcell.
        destruct (nth_error (OptimisticAlgorithm.offline_allocations self) i) as [rw |];
          [| inversion Hcell; reflexivity].
        destruct (nth_error rw keyword_idx); [discriminate | inversion Hcell; reflexivity]. }
      subst e. intros H _. inversion H. repeat split. right. left. reflexivity. }
  unfold Advertiser.deduct_at. rewrite Hi.
  unfold Advertiser.deduct_budget.
  destruct (Rgt_dec _ _) as [Hbad | _]; [lra |].
  cbn [OptimisticAlgorithm.remaining_queries].
  rewrite (dict_item_present _ _ _ Hv).
  intros H Hno. inversion H; subst. exfalso. eapply Hno. reflexivity.
Qed.

(** X8: an optimistic call that serves nobody changes nothing: the allocator
    and the registry are as before, and the call returned [(None, 0)] or
    raised an [IndexError] or a [KeyError] from a subscript.  The deduction
    itself never fails, the loop having checked the budget, so no plan
    unit is taken without a deduction. *)
Theorem optimistic_unserved_changes_nothing
    (self self' : OptimisticAlgorithm.t) (query : string)
    (cls cls' : Advertiser.Registry) (res : Result (option Advertiser.Ref * R)) :
  OptimisticAlgorithm.allocate_query self query cls = (res, self', cls') ->
  (forall who bid, res <> Ok (Some who, bid)) ->
  self' = self /\ cls' = cls /\
  (res = Ok (None, 0) \/ res = Raise IndexError \/ res = Raise KeyError).
Proof.
  exact (optimistic_allocate_query_unserved self self' query cls cls' res).
Qed.

Lemma optimistic_unserved_changes_nothing_witness :
  snd (fst (OptimisticAlgorithm.allocate_query Example.optimistic "k2" Example.cls_built))
  = Example.optimistic /\
  snd (OptimisticAlgorithm.allocate_query Example.optimistic "k2" Example.cls_built)
  = Example.cls_built.
Proof.
  destruct (OptimisticAlgorithm.allocate_query Example.optimistic "k2" Example.cls_built)
    as [[res self'] cls'] eqn:Hrun.
  destruct (optimistic_unserved_changes_nothing _ _ _ _ _ _ Hrun) as [Hs [Hc _]].
  - intros who bid Hres. subst res. vm_compute in Hrun. discriminate Hrun.
  - split; assumption.
Defined.

Lemma optimistic_allocate_query_nonneg
    (self self' : OptimisticAlgorithm.t) (query : string)
    (cls cls' : Advertiser.Registry) (res : Result (option Advertiser.Ref * R)) :
  plan_nonneg self ->
  OptimisticAlgorithm.allocate_query self query cls = (res, self', cls') ->
  plan_nonneg self'.
Proof.
  intros [Hrq Hplan] Hrun.
  destruct res as [[[who |] bid] | e].
  - destruct (optimistic_allocate_query_served _ _ _ _ _ _ _ Hrun)
      as [c [i [a [row [remaining [v [_ [_ [Hrem [Hpos [_ [Hv [Hvpos [_ [_ [_ [_ [-> _]]]]]]]]]]]]]]]]]].
    split; cbn [OptimisticAlgorithm.remaining_queries
                OptimisticAlgorithm.offline_allocations].
    + apply dict_set_nonneg; [exact Hrq | lia].
    + intros i' c'. rewrite (cell_matrix_assign_at _ _ _ _ _ _ _ Hv).
      destruct (Nat.eqb i' i && Nat.eqb c' c); [lia | apply Hplan].
  - destruct (optimistic_allocate_query_unserved _ _ _ _ _ _ Hrun) as [-> _];
      [intros who b; discriminate | split; assumption].
  - destruct (optimistic_allocate_query_unserved _ _ _ _ _ _ Hrun) as [-> _];
      [intros who b; discriminate | split; assumption].
Qed.

(** X9: non-negative plan cells and remaining demands stay non-negative
    through every call of the optimistic allocator, whatever it returns. *)
Theorem optimistic_plan_stays_nonneg
    (self self' : OptimisticAlgorithm.t) (query : string)
    (cls cls' : Advertiser.Registry) (res : Result (option Advertiser.Ref * R)) :
  plan_nonneg self ->
  OptimisticAlgorithm.allocate_query self query cls = (res, self', cls') ->
  plan_nonneg self'.
Proof.
  intros Hplan Hrun.
  exact (optimistic_allocate_query_nonneg self self' query cls cls' res Hplan Hrun).
Qed.

Lemma optimistic_plan_stays_nonneg_witness :
  exists o', plan_nonneg o'.
Proof.
  destruct example_optimistic_query as [o' [cls1 Hrun]].
  exists o'.
  assert (Hplan : plan_nonneg Example.optimistic).
  { split.
    - exact example_predicted_nonneg.
    - intros i j. unfold cell. simpl.
      destruct i as [| [| i]]; destruct j as [| [| j]]; simpl; lia. }
  exact (optimistic_plan_stays_nonneg _ _ _ _ _ _ Hplan Hrun).
Defined.

(** ** The linear program *)

Lemma index_decode (n i j : nat) :
  (i < n)%nat -> ((i + j * n) mod n = i)%nat /\ ((i + j * n) / n = j)%nat.
Proof.
  intros Hi. assert (Hn : n <> 0%nat) by lia. split.
  - rewrite Nat.Div0.mod_add. apply Nat.mod_small. exact Hi.
  - rewrite Nat.div_add by exact Hn. rewrite Nat.div_small by exact Hi. reflexivity.
Qed.

Lemma index_encode (n idx : nat) : (idx = idx mod n + idx / n * n)%nat.
Proof. rewrite (Nat.div_mod_eq idx n) at 1. lia. Qed.

Lemma index_bounds (n nk idx : nat) :
  (idx < n * nk)%nat -> (idx mod n < n)%nat /\ (idx / n < nk)%nat.
Proof.
  intros Hidx. assert (Hn : n <> 0%nat) by (intros ->; simpl in Hidx; lia). split.
  - apply Nat.mod_upper_bound. exact Hn.
  - apply Nat.Div0.div_lt_upper_bound. exact Hidx.
Qed.

Lemma cost_vector_length (bids : Bids) (advs : list Advertiser.t) (keywords : list string) :
  List.length (OfflineMaximizationProblem.cost_vector bids advs keywords)
  = (List.length advs * List.length keywords)%nat.
Proof.
  unfold OfflineMaximizationProblem.cost_vector.
  induction keywords as [| kw rest IH]; simpl; [lia |].
  rewrite length_app, length_map, IH. lia.
Qed.

Lemma cost_vector_nth (bids : Bids) (advs : list Advertiser.t) (keywords : list string)
    (i : nat) (a : Advertiser.t) :
  nth_error advs i = Some a ->
  forall j kw,
    nth_error keywords j = Some kw ->
    nth_error (OfflineMaximizationProblem.cost_vector bids advs keywords)
              (i + j * List.length advs)
    = Some (- OfflineMaximizationProblem.lp_bid bids a kw).
Proof.
  intros Hi. unfold OfflineMaximizationProblem.cost_vector.
  assert (Hlt : (i < List.length advs)%nat) by (apply nth_error_Some; congruence).
  induction keywords as [| kw0 rest IH]; intros [| j] kw Hj; simpl in Hj; try discriminate.
  - inversion Hj; subst. simpl. rewrite Nat.add_0_r.
    rewrite nth_error_app1 by (rewrite length_map; exact Hlt).
    rewrite nth_error_map, Hi. reflexivity.
  - simpl. rewrite nth_error_app2 by (rewrite length_map; lia).
    rewrite length_map.
    replace (i + (List.length advs + j * List.length advs) - List.length advs)%nat
      with (i + j * List.length advs)%nat by lia.
    apply IH. exact Hj.
Qed.

Lemma budget_row_length (bids : Bids) (a : Advertiser.t) (i n : nat)
    (keywords : list string) :
  forall j0 row,
    List.length (OfflineMaximizationProblem.budget_row bids a i n keywords j0 row)
    = List.length row.
Proof.
  induction keywords as [| kw rest IH]; intros j0 row; simpl; [reflexivity |].
  rewrite IH. apply list_assign_length.
Qed.

Lemma budget_row_nth (bids : Bids) (a : Advertiser.t) (i n : nat) (keywords : list string) :
  (i < n)%nat ->
  forall j0 row idx,
    ((j0 + List.length keywords) * n <= List.length row)%nat ->
    nth idx (OfflineMaximizationProblem.budget_row bids a i n keywords j0 row) 0
    = if Nat.eqb (idx mod n) i && Nat.leb j0 (idx / n)
         && Nat.ltb (idx / n) (j0 + List.length keywords)
      then OfflineMaximizationProblem.lp_bid bids a (nth (idx / n - j0) keywords EmptyString)
      else nth idx row 0.
Proof.
  intros Hi. induction keywords as [| kw rest IH]; intros j0 row idx Hlen.
  - cbn [OfflineMaximizationProblem.budget_row List.length].
    destruct (Nat.eqb (idx mod n) i); cbn [andb]; [| reflexivity].
    destruct (Nat.leb_spec j0 (idx / n)); cbn [andb]; [| reflexivity].
    destruct (Nat.ltb_spec (idx / n) (j0 + 0)); [lia | reflexivity].
  - cbn [OfflineMaximizationProblem.budget_row List.length] in *.
    assert (Hin : (i + j0 * n < List.length row)%nat) by nia.
    rewrite IH by (rewrite list_assign_length; lia).
    destruct (index_decode n i j0 Hi) as [Hm Hd].
    destruct (Nat.eq_dec idx (i + j0 * n)) as [-> | Hne].
    + rewrite Hm, Hd, Nat.eqb_refl. cbn [andb].
      replace (Nat.leb (S j0) j0) with false by (symmetry; apply Nat.leb_gt; lia).
      cbn [andb]. rewrite Nat.leb_refl.
      replace (Nat.ltb j0 (j0 + S (List.length rest))) with true
        by (symmetry; apply Nat.ltb_lt; lia).
      rewrite Nat.sub_diag. cbn [nth].
      apply nth_list_assign_eq. exact Hin.
    + rewrite nth_list_assign_neq by congruence.
      destruct (Nat.eqb_spec (idx mod n) i) as [Hmi | Hmi]; cbn [andb]; [| reflexivity].
      assert (Hq : (idx / n)%nat <> j0).
      { intros Hq. apply Hne. rewrite (index_encode n idx), Hmi, Hq. reflexivity. }
      destruct (Nat.leb_spec (S j0) (idx / n)); destruct (Nat.leb_spec j0 (idx / n));
        try lia; cbn [andb]; try reflexivity.
      destruct (Nat.ltb_spec (idx / n) (S j0 + List.length rest));
        destruct (Nat.ltb_spec (idx / n) (j0 + S (List.length rest)));
        try lia; try reflexivity.
      replace (idx / n - j0)%nat with (S (idx / n - S j0)) by lia. reflexivity.
Qed.

Lemma budget_constraints_nth (bids : Bids) (n : nat) (keywords : list string)
    (advs : list Advertiser.t) :
  forall i0 i a,
    nth_error advs i = Some a ->
    nth_error (fst (OfflineMaximizationProblem.budget_constraints bids advs i0 n keywords)) i
    = Some (OfflineMaximizationProblem.budget_row bids a (i0 + i) n keywords 0
              (repeat 0 (n * List.length keywords))) /\
    nth_error (snd (OfflineMaximizationProblem.budget_constraints bids advs i0 n keywords)) i
    = Some (Advertiser.initial_budget a).
Proof.
  induction advs as [| a0 rest IH]; intros i0 [| i] a Hi; simpl in Hi; try discriminate.
  - inversion Hi; subst. simpl.
    destruct (OfflineMaximizationProblem.budget_constraints bids rest (S i0) n keywords).
    simpl. rewrite Nat.add_0_r. split; reflexivity.
  - simpl.
    destruct (OfflineMaximizationProblem.budget_constraints bids rest (S i0) n keywords)
      as [A b] eqn:Hrest.
    simpl. specialize (IH (S i0) i a Hi). rewrite Hrest in IH. simpl in IH.
    replace (i0 + S i)%nat with (S i0 + i)%nat by lia. exact IH.
Qed.

Lemma volume_fold_nth (n j : nat) (l : list nat) :
  Forall (fun i => (i < n)%nat) l ->
  forall (row : list R) idx,
    (forall i, In i l -> (i + j * n < List.length row)%nat) ->
    nth idx (fold_left (fun row i => list_assign row (i + j * n) 1) l row) 0
    = if Nat.eqb (idx / n) j && existsb (Nat.eqb (idx mod n)) l then 1
      else nth idx row 0.
Proof.
  induction l as [| i l IH]; intros Hl row idx Hrange.
  - simpl. rewrite andb_false_r. reflexivity.
  - apply Forall_cons_iff in Hl. destruct Hl as [Hi Hl].
    cbn [fold_left existsb].
    rewrite IH; [| exact Hl |].
    2:{ intros i' Hi'. rewrite list_assign_length. apply Hrange. right. exact Hi'. }
    destruct (index_decode n i j Hi) as [Hm Hd].
    destruct (Nat.eq_dec idx (i + j * n)) as [-> | Hne].
    + rewrite Hm, Hd, !Nat.eqb_refl. cbn [andb orb].
      rewrite nth_list_assign_eq by (apply Hrange; left; reflexivity).
      destruct (existsb _ l); reflexivity.
    + rewrite nth_list_assign_neq by congruence.
      destruct (Nat.eqb_spec (idx / n) j) as [Hq | Hq]; cbn [andb]; [| reflexivity].
      destruct (Nat.eqb_spec (idx mod n) i) as [Hmi | Hmi]; cbn [orb]; [| reflexivity].
      exfalso. apply Hne. rewrite (index_encode n idx), Hmi, Hq. reflexivity.
Qed.

Lemma volume_row_nth (n nk j idx : nat) :
  (j < nk)%nat -> (idx < n * nk)%nat ->
  nth idx (OfflineMaximizationProblem.volume_row n nk j) 0
  = if Nat.eqb (idx / n) j then 1 else 0.
Proof.
  intros Hj Hidx. destruct (index_bounds _ _ _ Hidx) as [Hm _].
  unfold OfflineMaximizationProblem.volume_row.
  rewrite volume_fold_nth.
  - assert (Hex : existsb (Nat.eqb (idx mod n)) (seq 0 n) = true).
    { apply existsb_exists. exists (idx mod n)%nat. split.
      - apply in_seq. lia.
      - apply Nat.eqb_refl. }
    rewrite Hex, andb_true_r.
    destruct (Nat.eqb (idx / n) j); [reflexivity |].
    apply nth_repeat.
  - apply Forall_forall. intros i Hi. apply in_seq in Hi. lia.
  - intros i Hi. apply in_seq in Hi. rewrite repeat_length. nia.
Qed.

Lemma volume_constraints_nth (predicted : dict Z) (n nk : nat) (keywords : list string) :
  forall j0 A b,
    OfflineMaximizationProblem.volume_constraints predicted n nk keywords j0 = Ok (A, b) ->
    forall j kw,
      nth_error keywords j = Some kw ->
      nth_error A j = Some (OfflineMaximizationProblem.volume_row n nk (j0 + j)) /\
      exists d, dict_get predicted kw = Some d /\ nth_error b j = Some (IZR d).
Proof.
  induction keywords as [| kw0 rest IH]; intros j0 A b Hrun j kw Hj;
    [destruct j; discriminate |].
  simpl in Hrun. unfold bind, dict_item in Hrun.
  destruct (dict_get predicted kw0) as [d0 |] eqn:Hd0; [| discriminate].
  destruct (OfflineMaximizationProblem.volume_constraints predicted n nk rest (S j0))
    as [[A' b'] | e] eqn:Hrest; [| discriminate].
  inversion Hrun; subst. clear Hrun. cbn [fst snd].
  destruct j as [| j]; simpl in Hj.
  - inversion Hj; subst. rewrite Nat.add_0_r. simpl. split; [reflexivity |].
    exists d0. split; [exact Hd0 | reflexivity].
  - simpl. replace (j0 + S j)%nat with (S j0 + j)%nat by lia.
    exact (IH _ _ _ Hrest j kw Hj).
Qed.

(** X10: the linear program [solve_allocation] builds.  With [n] advertisers
    and the generated keywords, the variable [idx] stands for the advertiser at
    [idx mod n] and the keyword at [idx / n], the decoding the rounding uses:
    its cost is minus that advertiser's bid on that keyword ([0] without one);
    the budget row of advertiser [i] holds that bid at the variables of
    advertiser [i] and [0] elsewhere, against the initial budget of [i]; the
    volume row of keyword [j] holds [1] at the variables of keyword [j] and
    [0] elsewhere, against the predicted demand of [j]. *)
Theorem lp_variable_layout (bids : Bids) (advs : list Advertiser.t) (predicted : dict Z)
    (nk idx : nat) :
  let n := List.length advs in
  let keywords := keyword_names nk in
  (idx < n * nk)%nat ->
  exists a,
    nth_error advs (idx mod n) = Some a /\
    nth_error keywords (idx / n) = Some (keyword_name (idx / n)) /\
    List.length (OfflineMaximizationProblem.cost_vector bids advs keywords) = (n * nk)%nat /\
    nth idx (OfflineMaximizationProblem.cost_vector bids advs keywords) 0
    = - OfflineMaximizationProblem.lp_bid bids a (keyword_name (idx / n)) /\
    (forall i ai,
       nth_error advs i = Some ai ->
       let budget := OfflineMaximizationProblem.budget_constraints bids advs 0 n keywords in
       nth_error (snd budget) i = Some (Advertiser.initial_budget ai) /\
       List.length (nth i (fst budget) []) = (n * nk)%nat /\
       nth idx (nth i (fst budget) []) 0
       = if Nat.eqb (idx mod n) i
         then OfflineMaximizationProblem.lp_bid bids a (keyword_name (idx / n))
         else 0) /\
    (forall A_volume b_volume,
       OfflineMaximizationProblem.volume_constraints predicted n nk keywords 0
       = Ok (A_volume, b_volume) ->
       forall j, (j < nk)%nat ->
         nth idx (nth j A_volume []) 0 = (if Nat.eqb (idx / n) j then 1 else 0) /\
         exists d, dict_get predicted (keyword_name j) = Some d /\
                   nth_error b_volume j = Some (IZR d)).
Proof.
  intros n keywords Hidx.
  destruct (index_bounds _ _ _ Hidx) as [Hm Hq].
  destruct (nth_error advs (idx mod n)) as [a |] eqn:Ha;
    [| apply nth_error_None in Ha; fold n in Ha; lia].
  pose proof (keyword_names_nth nk (idx / n) Hq) as Hkw. fold keywords in Hkw.
  exists a. split; [reflexivity |]. split; [exact Hkw |].
  split.
  { rewrite cost_vector_length. unfold keywords. rewrite keyword_names_length.
    reflexivity. }
  split.
  { apply nth_error_nth. rewrite (index_encode n idx) at 1.
    apply cost_vector_nth; assumption. }
  split.
  - intros i ai Hi budget.
    destruct (budget_constraints_nth bids n keywords advs 0 i ai Hi) as [HA Hb].
    fold budget in HA, Hb. cbn [Nat.add] in HA.
    assert (Hlt : (i < n)%nat) by (apply nth_error_Some; congruence).
    assert (Hkeys : List.length keywords = nk) by apply keyword_names_length.
    split; [exact Hb |].
    rewrite (nth_error_nth _ _ [] HA). split.
    + rewrite budget_row_length, repeat_length, Hkeys. reflexivity.
    + rewrite budget_row_nth by (try exact Hlt; rewrite repeat_length; lia).
      rewrite Hkeys, Nat.sub_0_r. cbn [Nat.leb andb].
      replace (Nat.ltb (idx / n) (0 + nk)) with true
        by (symmetry; apply Nat.ltb_lt; lia).
      rewrite andb_true_r, andb_true_r.
      destruct (Nat.eqb_spec (idx mod n) i) as [Hmi | Hmi].
      * rewrite (nth_error_nth _ _ EmptyString Hkw).
        assert (ai = a) by congruence. subst ai. reflexivity.
      * apply nth_repeat.
  - intros A_volume b_volume Hvol j Hj.
    pose proof (keyword_names_nth nk j Hj) as Hkwj. fold keywords in Hkwj.
    destruct (volume_constraints_nth _ _ _ _ _ _ _ Hvol j _ Hkwj) as [HA Hb].
    cbn [Nat.add] in HA.
    split; [| exact Hb].
    rewrite (nth_error_nth _ _ [] HA). apply volume_row_nth; assumption.
Qed.

Lemma lp_variable_layout_witness :
  exists a,
    nth_error [Advertiser.mk "A1" 10 0] 0 = Some a /\
    nth 0 (OfflineMaximizationProblem.cost_vector Example.bids [Advertiser.mk "A1" 10 0]
             (keyword_names 1)) 0
    = - OfflineMaximizationProblem.lp_bid Example.bids a (keyword_name 0).
Proof.
  destruct (lp_variable_layout Example.bids [Advertiser.mk "A1" 10 0]
              Example.predicted_queries 1 0)
    as [a [Ha [_ [_ [Hc _]]]]].
  - simpl. lia.
  - exists a. split; [exact Ha | exact Hc].
Defined.

(** ** The order of the rounding *)

Lemma insert_by_In (key : nat -> R) (x : nat) (l : list nat) (y : nat) :
  In y (OfflineMaximizationProblem.insert_by key x l) -> y = x \/ In y l.
Proof.
  intros Hin. apply (Permutation_in _ (Permutation_sym (insert_by_perm key x l))) in Hin.
  destruct Hin as [<- | Hin]; [left; reflexivity | right; exact Hin].
Qed.

Lemma insert_by_sorted (key : nat -> R) (x : nat) (l : list nat) :
  StronglySorted (fun a b => key a <= key b) l ->
  StronglySorted (fun a b => key a <= key b) (OfflineMaximizationProblem.insert_by key x l).
Proof.
  induction l as [| y l IH]; intros Hs; simpl.
  - constructor; constructor.
  - apply StronglySorted_inv in Hs. destruct Hs as [Hl Hy].
    destruct (Rle_dec (key x) (key y)) as [Hle | Hgt].
    + constructor; [constructor; assumption |].
      constructor; [exact Hle |].
      apply Forall_forall. intros z Hz. rewrite Forall_forall in Hy.
      specialize (Hy z Hz). cbv beta in Hy. lra.
    + constructor; [apply IH; exact Hl |].
      apply Forall_forall. intros z Hz. apply insert_by_In in Hz.
      destruct Hz as [-> | Hz]; [lra |].
      rewrite Forall_forall in Hy. apply Hy. exact Hz.
Qed.

Lemma insert_by_stable (key : nat -> R) (v : R) (x : nat) (l : list nat) :
  let same := fun i => if Req_dec_T (key i) v then true else false in
  filter same (OfflineMaximizationProblem.insert_by key x l)
  = if same x then x :: filter same l else filter same l.
Proof.
  intros same. induction l as [| y l IH]; simpl; [reflexivity |].
  destruct (Rle_dec (key x) (key y)) as [Hle | Hgt]; [reflexivity |].
  simpl. rewrite IH. unfold same.
  destruct (Req_dec_T (key y) v) as [Hy | Hy]; [| reflexivity].
  destruct (Req_dec_T (key x) v) as [Hx | Hx]; [| reflexivity].
  exfalso. lra.
Qed.

(** X11: the rounding visits every variable of the solution exactly once, in
    the order of [sorted(range(len(solution)), key=lambda i: -solution[i])]:
    larger LP values first, variables of equal value in increasing index
    order. *)
Theorem rounding_order (x : list R) :
  let fractional_indices :=
    OfflineMaximizationProblem.sorted_by (fun i => - nth i x 0) (seq 0 (List.length x)) in
  Permutation fractional_indices (seq 0 (List.length x)) /\
  StronglySorted (fun a b => nth a x 0 >= nth b x 0) fractional_indices /\
  forall v,
    filter (fun i => if Req_dec_T (- nth i x 0) v then true else false) fractional_indices
    = filter (fun i => if Req_dec_T (- nth i x 0) v then true else false)
             (seq 0 (List.length x)).
Proof.
  intros fractional_indices. unfold fractional_indices. clear fractional_indices.
  split; [apply Permutation_sym; apply sorted_by_perm |].
  generalize (seq 0 (List.length x)). intros l. split.
  - assert (Hs : StronglySorted (fun a b => - nth a x 0 <= - nth b x 0)
                   (OfflineMaximizationProblem.sorted_by (fun i => - nth i x 0) l)).
    { induction l as [| i l IH]; simpl; [constructor |].
      apply (insert_by_sorted (fun i => - nth i x 0)). exact IH. }
    induction Hs as [| a l' Hl IH Ha]; constructor; [exact IH |].
    apply Forall_forall. intros b Hb. rewrite Forall_forall in Ha.
    specialize (Ha b Hb). cbv beta in Ha. lra.
  - intros v. induction l as [| i l IH]; [reflexivity |].
    cbn [OfflineMaximizationProblem.sorted_by fold_right].
    rewrite (insert_by_stable (fun i => - nth i x 0) v).
    fold (OfflineMaximizationProblem.sorted_by (fun i => - nth i x 0) l).
    cbn [filter]. rewrite IH. reflexivity.
Qed.

(** ** The plan and the LP solution *)

Lemma int_of_float_le_floor (x : R) : 0 <= x -> int_of_float x = Zfloor x.
Proof.
  intros Hx. unfold int_of_float. destruct (Rle_dec 0 x); [reflexivity | contradiction].
Qed.

Lemma round_loop_below (bids : Bids) (r : Advertiser.ListRef) (solution : list R)
    (n nk : nat) (keywords : list string) :
  (forall i, 0 <= nth i solution 0) ->
  List.length keywords = nk ->
  forall todo plan rq cls plan' cls',
    shape plan n nk ->
    (forall i j, (i < n)%nat ->
       (cell plan i j <= Zfloor (nth (i + j * n) solution 0%R))%Z) ->
    OfflineMaximizationProblem.round_loop bids r solution n keywords todo plan rq cls
    = (Ok plan', cls') ->
    forall i j, (i < n)%nat ->
      (cell plan' i j <= Zfloor (nth (i + j * n) solution 0%R))%Z.
Proof.
  intros Hsol Hnk.
  induction todo as [| idx rest IH]; intros plan rq cls plan' cls' Hs Hbelow Hrun;
    cbn [OfflineMaximizationProblem.round_loop] in Hrun.
  - inversion Hrun; subst. exact Hbelow.
  - destruct (Req_dec_T (nth idx solution 0) 0) as [_ | _];
      [eapply IH; eassumption |].
    destruct (OfflineMaximizationProblem.allocation_at _ _ _ _ _ _ idx)
      as [[[[[[ai ki] kw] bid] m] rem] | e] eqn:Hat; [| discriminate].
    destruct (allocation_at_spec _ _ _ _ _ _ _ _ _ _ _ _ _ Hat)
      as [Hn [Hai [Hki [adv [row [_ [Hkw [_ [_ [_ [_ Hm]]]]]]]]]]].
    destruct (Advertiser.deduct_at _ _ _ _) as [[u | e] cls1]; [| discriminate].
    assert (Hai' : (ai < n)%nat) by (subst ai; apply Nat.mod_upper_bound; exact Hn).
    assert (Hki' : (ki < nk)%nat)
      by (rewrite <- Hnk; apply nth_error_Some; congruence).
    eapply IH; [| | exact Hrun].
    + apply shape_matrix_assign; assumption.
    + intros i j Hi. rewrite (cell_matrix_assign _ n nk) by assumption.
      destruct (Nat.eqb_spec i ai) as [-> | Hne]; cbn [andb]; [| apply Hbelow; exact Hi].
      destruct (Nat.eqb_spec j ki) as [-> | Hne]; [| apply Hbelow; exact Hi].
      replace (ai + ki * n)%nat with idx by (subst ai ki; apply index_encode).
      rewrite (int_of_float_le_floor _ (Hsol idx)) in Hm. lia.
Qed.

(** The solver's answer and the plan rounded from it. *)
Lemma solve_allocation_below (linprog : Solver) (self self' : OfflineMaximizationProblem.t)
    (cls cls' : Advertiser.Registry) (u : unit) :
  solver_nonneg linprog ->
  OfflineMaximizationProblem.solve_allocation linprog self cls = (Ok u, self', cls') ->
  let n := List.length (Advertiser.deref cls (OfflineMaximizationProblem.advertisers self)) in
  exists x plan,
    OfflineMaximizationProblem.solution self' = Some x /\
    OfflineMaximizationProblem.allocations self' = Some plan /\
    Forall (fun v => 0 <= v) x /\
    forall i j, (i < n)%nat ->
      (cell plan i j <= Zfloor (nth (i + j * n) x 0%R))%Z /\
      IZR (cell plan i j) <= nth (i + j * n) x 0.
Proof.
  intros Hlp. unfold OfflineMaximizationProblem.solve_allocation.
  destruct (OfflineMaximizationProblem.budget_constraints _ _ 0 _ _) as [A_budget b_budget].
  destruct (OfflineMaximizationProblem.volume_constraints _ _ _ _ 0)
    as [[A_volume b_volume] | e]; [| discriminate].
  destruct (linprog _ _ _ _) as [x |] eqn:Hsolve; [| discriminate].
  pose proof (Hlp _ _ _ _ _ Hsolve) as Hx.
  unfold OfflineMaximizationProblem.round_solution_to_integers.
  cbn [OfflineMaximizationProblem.predicted_queries OfflineMaximizationProblem.solution
       OfflineMaximizationProblem.bids OfflineMaximizationProblem.advertisers
       OfflineMaximizationProblem.n_keywords OfflineMaximizationProblem.solver_method].
  destruct (OfflineMaximizationProblem.demand_of _ _ []) as [rq0 | e]; [| discriminate].
  destruct (OfflineMaximizationProblem.round_loop _ _ x _ _ _ _ rq0 cls)
    as [[plan | e] cls1] eqn:Hloop; [| discriminate].
  intros H. inversion H; subst. clear H.
  set (n := List.length (Advertiser.deref cls (OfflineMaximizationProblem.advertisers self)))
    in *.
  exists x, plan. split; [reflexivity |]. split; [reflexivity |]. split; [exact Hx |].
  intros i j Hi.
  assert (Hz : (cell plan i j <= Zfloor (nth (i + j * n) x 0%R))%Z).
  { eapply (round_loop_below _ _ x n (List.length (keyword_names
              (OfflineMaximizationProblem.n_keywords self))));
      [apply Forall_nth_nonneg; exact Hx | reflexivity | apply shape_zeros | | exact Hloop
       | exact Hi].
    intros i' j' _. rewrite cell_zeros.
    apply (Zfloor_lub 0). apply Forall_nth_nonneg. exact Hx. }
  split; [exact Hz |].
  apply Rle_trans with (IZR (Zfloor (nth (i + j * n) x 0))).
  - apply IZR_le. exact Hz.
  - apply Zfloor_bound.
Qed.

Lemma example_solve_allocation :
  exists self' cls',
    OfflineMaximizationProblem.solve_allocation Example.linprog
      (OfflineMaximizationProblem.init 1 Example.bids (Advertiser.Snapshot 0)
         Example.predicted_queries)
      Example.cls = (Ok tt, self', cls').
Proof.
  assert (Hm : Z.min (Z.min (Zfloor 5) 5) (Zfloor ((10 - 0) / 1)) = 5%Z).
  { rewrite (ZfloorZ 5). rewrite (Zfloor_eq 10 ((10 - 0) / 1)) by lra. reflexivity. }
  unfold OfflineMaximizationProblem.solve_allocation,
    OfflineMaximizationProblem.round_solution_to_integers,
    OfflineMaximizationProblem.allocation_at.
  pyeval; rewrite ?Hm in *; try (exfalso; lra).
  eexists _, _. reflexivity.
Qed.

(** X12: the plan never exceeds the LP solution.  When [solve_allocation]
    stores a plan for a solver that respects its bounds, the cell of
    advertiser [i] and keyword [j] is at most the solution value of the
    variable [i + j * n] rounded down, hence at most that value. *)
Theorem plan_below_lp_solution (linprog : Solver)
    (self self' : OfflineMaximizationProblem.t) (cls cls' : Advertiser.Registry) (u : unit) :
  solver_nonneg linprog ->
  OfflineMaximizationProblem.solve_allocation linprog self cls = (Ok u, self', cls') ->
  let n := List.length (Advertiser.deref cls (OfflineMaximizationProblem.advertisers self)) in
  exists x plan,
    OfflineMaximizationProblem.solution self' = Some x /\
    OfflineMaximizationProblem.allocations self' = Some plan /\
    Forall (fun v => 0 <= v) x /\
    forall i j, (i < n)%nat ->
      (cell plan i j <= Zfloor (nth (i + j * n) x 0%R))%Z /\
      IZR (cell plan i j) <= nth (i + j * n) x 0.
Proof.
  exact (solve_allocation_below linprog self self' cls cls' u).
Qed.

Lemma plan_below_lp_solution_witness :
  exists self' x plan,
    OfflineMaximizationProblem.solution self' = Some x /\
    OfflineMaximizationProblem.allocations self' = Some plan /\
    IZR (cell plan 0 0) <= nth 0 x 0.
Proof.
  destruct example_solve_allocation as [self' [cls' Hrun]].
  destruct (plan_below_lp_solution _ _ _ _ _ _ example_solver_nonneg Hrun)
    as [x [plan [Hx [Hplan [_ Hbelow]]]]].
  exists self', x, plan. split; [exact Hx |]. split; [exact Hplan |].
  apply (Hbelow 0%nat 0%nat). simpl. lia.
Defined.

(** ** The predicted demand *)

Lemma dict_set_absent {V : Type} (d : dict V) (k : string) (v : V) :
  ~ In k (dict_keys d) -> dict_set d k v = d ++ [(k, v)].
Proof.
  induction d as [| [k0 v0] d IH]; intros Hk; simpl; [reflexivity |].
  destruct (String.eqb_spec k0 k) as [-> | Hne].
  - exfalso. apply Hk. left. reflexivity.
  - rewrite IH; [reflexivity |]. intros Hin. apply Hk. right. exact Hin.
Qed.

Lemma count_dict_map (seq keys : list string) :
  NoDup keys ->
  count_dict seq keys = map (fun key => (key, list_count seq key)) keys.
Proof.
  intros Hnd. unfold count_dict.
  assert (H : forall d,
             NoDup (dict_keys d ++ keys) ->
             fold_left (fun d key => dict_set d key (list_count seq key)) keys d
             = d ++ map (fun key => (key, list_count seq key)) keys).
  { clear Hnd. induction keys as [| key keys IH]; intros d Hnd; simpl.
    - rewrite app_nil_r. reflexivity.
    - apply NoDup_remove in Hnd. destruct Hnd as [Hnd Hkey].
      rewrite dict_set_absent
        by (intros Hin; apply Hkey; apply in_or_app; left; exact Hin).
      rewrite IH.
      + rewrite <- app_assoc. reflexivity.
      + unfold dict_keys in *. rewrite map_app. simpl. rewrite <- app_assoc. simpl.
        apply (Permutation_NoDup (l := key :: map fst d ++ keys));
          [apply Permutation_middle |].
        constructor; assumption. }
  apply (H []). simpl. exact Hnd.
Qed.

Lemma dict_get_map (f : string -> Z) (keys : list string) (key : string) :
  dict_get (map (fun key => (key, f key)) keys) key
  = if in_dec string_dec key keys then Some (f key) else None.
Proof.
  induction keys as [| k0 keys IH]; simpl; [reflexivity |].
  destruct (String.eqb_spec k0 key) as [Heq | Hne].
  - destruct (string_dec k0 key); [congruence | contradiction].
  - rewrite IH. destruct (string_dec k0 key) as [Heq | Hne']; [contradiction |].
    destruct (in_dec string_dec key keys); reflexivity.
Qed.

Lemma list_count_nonneg (l : list string) (x : string) : (0 <= list_count l x)%Z.
Proof.
  induction l as [| y l IH]; simpl; [lia |].
  destruct (String.eqb y x); lia.
Qed.

Lemma list_count_pos (l : list string) (x : string) : In x l -> (1 <= list_count l x)%Z.
Proof.
  induction l as [| y l IH]; simpl; [intros [] |].
  pose proof (list_count_nonneg l x).
  intros [-> | Hin].
  - rewrite String.eqb_refl. lia.
  - specialize (IH Hin). destruct (String.eqb y x); lia.
Qed.

Lemma dict_total_map (f : string -> Z) (keys : list string) :
  dict_total (map (fun key => (key, f key)) keys)
  = fold_right (fun key acc => (f key + acc)%Z) 0%Z keys.
Proof.
  unfold dict_total. induction keys as [| k keys IH]; simpl; [reflexivity |].
  rewrite IH. reflexivity.
Qed.

(** The occurrences of the distinct keys add up to at most the length, and to
    the length when every element is one of the keys. *)
Lemma count_sum (keys : list string) :
  NoDup keys ->
  forall l,
    (fold_right (fun key acc => (list_count l key + acc)%Z) 0%Z keys
     <= Z.of_nat (List.length l))%Z /\
    (Forall (fun x => In x keys) l ->
     fold_right (fun key acc => (list_count l key + acc)%Z) 0%Z keys
     = Z.of_nat (List.length l)).
Proof.
  intros Hnd.
  assert (Hone : forall y,
             fold_right (fun key acc => ((if String.eqb y key then 1 else 0) + acc)%Z)
                        0%Z keys
             = if in_dec string_dec y keys then 1%Z else 0%Z).
  { intros y. induction Hnd as [| k keys Hk Hnd IH]; simpl; [reflexivity |].
    rewrite IH.
    destruct (String.eqb_spec y k) as [-> | Hne].
    - destruct (string_dec k k); [| contradiction].
      destruct (in_dec string_dec k keys); [contradiction | reflexivity].
    - destruct (string_dec k y) as [Heq | Hne']; [congruence |].
      destruct (in_dec string_dec y keys); reflexivity. }
  assert (Hsplit : forall y l,
             fold_right (fun key acc => (list_count (y :: l) key + acc)%Z) 0%Z keys
             = (fold_right (fun key acc => ((if String.eqb y key then 1 else 0) + acc)%Z)
                           0%Z keys
                + fold_right (fun key acc => (list_count l key + acc)%Z) 0%Z keys)%Z).
  { intros y l. clear Hone Hnd. induction keys as [| k keys IH]; simpl; [reflexivity |].
    simpl in IH. rewrite IH. lia. }
  induction l as [| y l [IHle IHeq]].
  - simpl. assert (H0 : fold_right (fun key acc => (0 + acc)%Z) 0%Z keys = 0%Z).
    { clear. induction keys as [| k keys IH]; simpl; [reflexivity | exact IH]. }
    simpl in H0. rewrite H0. split; [lia | reflexivity].
  - rewrite Hsplit, Hone. cbn [List.length]. split.
    + destruct (in_dec string_dec y keys); lia.
    + intros Hall. apply Forall_cons_iff in Hall. destruct Hall as [Hy Hall].
      rewrite (IHeq Hall).
      destruct (in_dec string_dec y keys); [lia | contradiction].
Qed.

Lemma dict_keys_map (f : string -> Z) (keys : list string) :
  dict_keys (map (fun key => (key, f key)) keys) = keys.
Proof.
  unfold dict_keys. rewrite map_map. simpl. apply map_id.
Qed.

Lemma dict_get_keys {V : Type} (d : dict V) (k : string) :
  In k (dict_keys d) <-> exists v, dict_get d k = Some v.
Proof.
  induction d as [| [k0 v0] d IH]; simpl.
  - split; [intros [] | intros [v Hv]; discriminate].
  - destruct (String.eqb_spec k0 k) as [Heq | Hne].
    + split; [intros _; exists v0; reflexivity | intros _; left; exact Heq].
    + rewrite <- IH. split; [intros [Heq | Hin]; [contradiction | exact Hin] |].
      intros Hin. right. exact Hin.
Qed.

Lemma dict_get_entry {V : Type} (d : dict V) (k : string) (v : V) :
  NoDup (dict_keys d) -> In (k, v) d -> dict_get d k = Some v.
Proof.
  induction d as [| [k0 v0] d IH]; intros Hnd Hin; simpl in *; [destruct Hin |].
  apply NoDup_cons_iff in Hnd. destruct Hnd as [Hk0 Hnd].
  destruct Hin as [Heq | Hin].
  - inversion Heq; subst. rewrite String.eqb_refl. reflexivity.
  - destruct (String.eqb_spec k0 k) as [Heq | Hne]; [| apply IH; assumption].
    exfalso. apply Hk0. subst k0. unfold dict_keys.
    apply (in_map fst) in Hin. exact Hin.
Qed.

Lemma dict_keys_set {V : Type} (d : dict V) (k : string) (old v : V) :
  dict_get d k = Some old -> dict_keys (dict_set d k v) = dict_keys d.
Proof.
  induction d as [| [k0 v0] d IH]; simpl; [discriminate |].
  destruct (String.eqb k0 k); intros H; simpl; [reflexivity |].
  f_equal. apply IH. exact H.
Qed.

Lemma dict_total_set (d : dict Z) (k : string) (old v : Z) :
  dict_get d k = Some old ->
  dict_total (dict_set d k v) = (dict_total d - old + v)%Z.
Proof.
  unfold dict_total. induction d as [| [k0 v0] d IH]; simpl; [discriminate |].
  destruct (String.eqb k0 k); intros H; simpl.
  - inversion H; subst. lia.
  - rewrite (IH H). lia.
Qed.

Lemma dict_total_del (d : dict Z) (k : string) (old : Z) :
  dict_get d k = Some old ->
  dict_total (dict_del d k) = (dict_total d - old)%Z.
Proof.
  unfold dict_total. induction d as [| [k0 v0] d IH]; simpl; [discriminate |].
  destruct (String.eqb k0 k); intros H; simpl.
  - inversion H; subst. lia.
  - rewrite (IH H). lia.
Qed.

Lemma dict_keys_del {V : Type} (d : dict V) (k k' : string) :
  In k' (dict_keys (dict_del d k)) -> In k' (dict_keys d).
Proof.
  induction d as [| [k0 v0] d IH]; simpl; [intros [] |].
  destruct (String.eqb k0 k); simpl.
  - intros Hin. right. exact Hin.
  - intros [Heq | Hin]; [left; exact Heq | right; apply IH; exact Hin].
Qed.

Lemma dict_del_NoDup {V : Type} (d : dict V) (k : string) :
  NoDup (dict_keys d) -> NoDup (dict_keys (dict_del d k)).
Proof.
  induction d as [| [k0 v0] d IH]; simpl; intros Hnd; [constructor |].
  apply NoDup_cons_iff in Hnd. destruct Hnd as [Hk0 Hnd].
  destruct (String.eqb k0 k); simpl; [exact Hnd |].
  constructor; [| apply IH; exact Hnd].
  intros Hin. apply Hk0. eapply dict_keys_del. exact Hin.
Qed.

Lemma dict_get_del {V : Type} (d : dict V) (k k' : string) :
  NoDup (dict_keys d) ->
  dict_get (dict_del d k) k' = if String.eqb k k' then None else dict_get d k'.
Proof.
  induction d as [| [k0 v0] d IH]; simpl; intros Hnd.
  - destruct (String.eqb k k'); reflexivity.
  - apply NoDup_cons_iff in Hnd. destruct Hnd as [Hk0 Hnd].
    destruct (String.eqb_spec k0 k) as [Heq | Hne].
    + subst k0. destruct (String.eqb_spec k k') as [Heq | Hne]; [| reflexivity].
      subst k'. destruct (dict_get d k) as [v |] eqn:Hv; [| reflexivity].
      exfalso. apply Hk0. apply dict_get_keys. exists v. exact Hv.
    + simpl. rewrite (IH Hnd).
      destruct (String.eqb_spec k0 k') as [Heq | Hne']; [| reflexivity].
      subst k'. destruct (String.eqb_spec k k0) as [Heq | _]; [congruence | reflexivity].
Qed.

Lemma change_loop_inv (sample : nat -> list string -> string * string)
    (actual : list string) (total : Z) :
  sample_ok sample ->
  forall rounds k d,
    counts_inv actual total d ->
    exists d', change_loop sample rounds k d = Ok d' /\ counts_inv actual total d'.
Proof.
  intros Hsample. induction rounds as [| rounds IH]; intros k d Hinv.
  - exists d. split; [reflexivity | exact Hinv].
  - cbn [change_loop].
    destruct (Nat.ltb_spec (List.length d) 2) as [_ | Hlen];
      [exists d; split; [reflexivity | exact Hinv] |].
    destruct Hinv as [Hnd [Hval Htotal]].
    assert (Hkeys : (2 <= List.length (dict_keys d))%nat)
      by (unfold dict_keys; rewrite length_map; exact Hlen).
    destruct (Hsample k _ Hkeys) as [H1 H2].
    destruct (sample k (dict_keys d)) as [keyword1 keyword2]. cbn [fst snd] in H1, H2.
    apply dict_get_keys in H1. destruct H1 as [c1 Hc1].
    apply dict_get_keys in H2. destruct H2 as [c2 Hc2].
    destruct (Hval _ _ Hc1) as [Hc1pos _].
    destruct (Hval _ _ Hc2) as [Hc2pos _].
    unfold dict_item at 1. rewrite Hc1. cbn [bind].
    replace (Z.min 1 c1) with 1%Z by lia. cbn [Z.gtb Z.compare].
    set (counts1 := dict_set d keyword1 (c1 - 1)%Z).
    assert (Hg1 : forall k', dict_get counts1 k'
                             = if String.eqb keyword1 k' then Some (c1 - 1)%Z
                               else dict_get d k')
      by (intros k'; apply dict_get_set).
    assert (Hk1 : dict_keys counts1 = dict_keys d) by (eapply dict_keys_set; exact Hc1).
    assert (Ht1 : dict_total counts1 = (dict_total d - c1 + (c1 - 1))%Z)
      by (apply dict_total_set; exact Hc1).
    destruct (dict_get counts1 keyword2) as [c2' |] eqn:Hc2'.
    2:{ exfalso. rewrite Hg1 in Hc2'.
        destruct (String.eqb keyword1 keyword2); [discriminate | congruence]. }
    assert (Hc2'pos : (0 <= c2')%Z).
    { rewrite Hg1 in Hc2'. destruct (String.eqb keyword1 keyword2).
      - inversion Hc2'. lia.
      - assert (c2' = c2) by congruence. lia. }
    unfold dict_item at 1. rewrite Hc2'. cbn [bind].
    set (counts2 := dict_set counts1 keyword2 (c2' + 1)%Z).
    assert (Hg2 : forall k', dict_get counts2 k'
                             = if String.eqb keyword2 k' then Some (c2' + 1)%Z
                               else dict_get counts1 k')
      by (intros k'; apply dict_get_set).
    assert (Hk2 : dict_keys counts2 = dict_keys d)
      by (rewrite <- Hk1; eapply dict_keys_set; exact Hc2').
    assert (Ht2 : dict_total counts2 = dict_total d)
      by (unfold counts2; rewrite (dict_total_set _ _ _ _ Hc2'); lia).
    destruct (dict_get counts2 keyword1) as [left1 |] eqn:Hleft.
    2:{ exfalso. rewrite Hg2, Hg1, String.eqb_refl in Hleft.
        destruct (String.eqb keyword2 keyword1); discriminate. }
    unfold dict_item. rewrite Hleft. cbn [bind].
    assert (Hval2 : forall k' v, dict_get counts2 k' = Some v ->
                                 ((k' = keyword1 /\ v = left1) \/ (1 <= v)%Z) /\
                                 In k' actual).
    { intros k' v Hv. split.
      - rewrite Hg2 in Hv. destruct (String.eqb_spec keyword2 k') as [Heq | Hne].
        + inversion Hv. right. lia.
        + rewrite Hg1 in Hv. destruct (String.eqb_spec keyword1 k') as [Heq | Hne1].
          * left. split; [symmetry; exact Heq |].
            subst k'. rewrite Hg2, Hg1, String.eqb_refl in Hleft.
            destruct (String.eqb_spec keyword2 keyword1); [contradiction | congruence].
          * right. apply (Hval _ _ Hv).
      - assert (Hin : In k' (dict_keys d)).
        { rewrite <- Hk2. apply dict_get_keys. exists v. exact Hv. }
        apply dict_get_keys in Hin. destruct Hin as [v' Hv'].
        apply (Hval _ _ Hv'). }
    assert (Hleft0 : (0 <= left1)%Z).
    { rewrite Hg2 in Hleft. destruct (String.eqb keyword2 keyword1).
      - inversion Hleft. lia.
      - rewrite Hg1, String.eqb_refl in Hleft. inversion Hleft. lia. }
    destruct (Z.eqb_spec left1 0) as [Hzero | Hnz].
    + apply IH. split; [apply dict_del_NoDup; rewrite Hk2; exact Hnd |]. split.
      * intros k' v Hv. rewrite dict_get_del in Hv by (rewrite Hk2; exact Hnd).
        destruct (String.eqb_spec keyword1 k') as [Heq | Hne]; [discriminate |].
        destruct (Hval2 _ _ Hv) as [[[Heq _] | Hpos] Hin];
          [symmetry in Heq; contradiction | split; assumption].
      * rewrite (dict_total_del _ _ _ Hleft). lia.
    + apply IH. split; [rewrite Hk2; exact Hnd |]. split; [| lia].
      intros k' v Hv.
      destruct (Hval2 _ _ Hv) as [[[_ Heq] | Hpos] Hin]; split; try assumption. lia.
Qed.

Lemma rebuild_length (d : dict Z) :
  Forall (fun kv => (0 <= snd kv)%Z) d ->
  Z.of_nat (List.length (rebuild d)) = dict_total d.
Proof.
  unfold rebuild, dict_total.
  induction d as [| [k v] d IH]; intros Hd; simpl; [reflexivity |].
  apply Forall_cons_iff in Hd. destruct Hd as [Hv Hd]. simpl in Hv.
  rewrite length_app, repeat_length, Nat2Z.inj_add, (IH Hd). lia.
Qed.

Lemma rebuild_In (d : dict Z) (x : string) : In x (rebuild d) -> In x (dict_keys d).
Proof.
  unfold rebuild. induction d as [| [k v] d IH]; simpl; [intros [] |].
  intros Hin. apply in_app_or in Hin. destruct Hin as [Hin | Hin].
  - left. apply repeat_spec in Hin. symmetry. exact Hin.
  - right. apply IH. exact Hin.
Qed.

Lemma count_dict_spec (seq : list string) (n : nat) :
  let d := count_dict seq (keyword_names n) in
  dict_keys d = keyword_names n /\
  dict_nonneg d /\
  (forall j, (j < n)%nat ->
     dict_get d (keyword_name j) = Some (list_count seq (keyword_name j))) /\
  (dict_total d <= Z.of_nat (List.length seq))%Z /\
  (Forall (fun x => In x (keyword_names n)) seq ->
   dict_total d = Z.of_nat (List.length seq)).
Proof.
  intros d. unfold d. clear d.
  rewrite (count_dict_map seq _ (keyword_names_NoDup n)).
  split; [apply dict_keys_map |]. split.
  { intros k v Hv. rewrite dict_get_map in Hv.
    destruct (in_dec string_dec k (keyword_names n)); [| discriminate].
    inversion Hv. apply list_count_nonneg. }
  split.
  { intros j Hj. rewrite dict_get_map.
    destruct (in_dec string_dec (keyword_name j) (keyword_names n)) as [_ | Hout];
      [reflexivity |].
    exfalso. apply Hout. eapply nth_error_In. apply keyword_names_nth. exact Hj. }
  rewrite dict_total_map. apply count_sum. apply keyword_names_NoDup.
Qed.

(** X13: whatever the random draws, a dictionary returned by
    [generate_predicted_query_sequence] has exactly the keys [k1 .. kn], in
    that order, and under each the number of occurrences of that keyword in
    one sequence: the actual one at error level [0].  So every count is
    non-negative and every generated keyword has an entry, which is what the
    offline problem reads. *)
Theorem predicted_queries_shape (set_order : list string -> list string)
    (sample : nat -> list string -> string * string)
    (actual : list string) (n : nat) (level : R) (d : dict Z) :
  generate_predicted_query_sequence set_order sample actual n level = Ok d ->
  exists predicted_sequence,
    (level = 0 -> predicted_sequence = actual) /\
    dict_keys d = keyword_names n /\
    dict_nonneg d /\
    forall j, (j < n)%nat ->
      dict_get d (keyword_name j) = Some (list_count predicted_sequence (keyword_name j)).
Proof.
  unfold generate_predicted_query_sequence.
  destruct (Req_dec_T level 0) as [Hzero | Hnz].
  - intros H. inversion H; subst d. exists actual.
    destruct (count_dict_spec actual n) as [Hk [Hn [Hg _]]].
    split; [reflexivity |]. split; [exact Hk |]. split; [exact Hn | exact Hg].
  - destruct (change_loop sample _ 0 _) as [kc |]; [| discriminate].
    cbn [bind]. intros H. inversion H; subst d. exists (rebuild kc).
    destruct (count_dict_spec (rebuild kc) n) as [Hk [Hn [Hg _]]].
    split; [intros; contradiction |]. split; [exact Hk |]. split; [exact Hn | exact Hg].
Qed.

Lemma predicted_queries_shape_witness :
  exists predicted_sequence,
    predicted_sequence = ["k1"; "k1"]%string /\
    dict_keys [("k1", 2%Z)]%string = keyword_names 1 /\
    dict_get [("k1", 2%Z)]%string (keyword_name 0)
    = Some (list_count predicted_sequence (keyword_name 0)).
Proof.
  destruct (predicted_queries_shape (fun l => l) (fun _ _ => (EmptyString, EmptyString))
              ["k1"; "k1"]%string 1 0 [("k1", 2%Z)]%string)
    as [predicted_sequence [Hseq [Hkeys [_ Hget]]]].
  - unfold generate_predicted_query_sequence.
    destruct (Req_dec_T 0 0) as [_ | Hne]; [reflexivity | exfalso; apply Hne; reflexivity].
  - exists predicted_sequence. split; [apply Hseq; reflexivity |].
    split; [exact Hkeys |]. apply Hget. lia.
Defined.

(** X14: [generate_predicted_query_sequence] returns, and the demand it
    predicts is never more than the length of the actual sequence: the
    changes move single queries from one keyword to another and lose none.
    The predicted counts add up to exactly that length when every actual
    query is one of the keywords [k1 .. kn]; queries on other keywords are
    dropped from the prediction. *)
Theorem predicted_demand_conserved (set_order : list string -> list string)
    (sample : nat -> list string -> string * string)
    (actual : list string) (n : nat) (level : R) :
  set_order_ok set_order -> sample_ok sample ->
  exists d,
    generate_predicted_query_sequence set_order sample actual n level = Ok d /\
    (dict_total d <= Z.of_nat (List.length actual))%Z /\
    (Forall (fun q => In q (keyword_names n)) actual ->
     dict_total d = Z.of_nat (List.length actual)).
Proof.
  intros Hset Hsample. unfold generate_predicted_query_sequence.
  destruct (Req_dec_T level 0) as [Hzero | Hnz].
  - eexists. split; [reflexivity |].
    destruct (count_dict_spec actual n) as [_ [_ [_ [Hle Heq]]]].
    split; [exact Hle | exact Heq].
  - destruct (Hset actual) as [Hnd Hin].
    assert (Hinit : counts_inv actual (Z.of_nat (List.length actual))
                      (count_dict actual (set_order actual))).
    { rewrite (count_dict_map _ _ Hnd). split; [rewrite dict_keys_map; exact Hnd |].
      split.
      - intros k v Hv. rewrite dict_get_map in Hv.
        destruct (in_dec string_dec k (set_order actual)) as [Hk | _]; [| discriminate].
        apply Hin in Hk. inversion Hv. split; [apply list_count_pos |]; exact Hk.
      - rewrite dict_total_map. apply count_sum; [exact Hnd |].
        apply Forall_forall. intros x Hx. apply Hin. exact Hx. }
    destruct (change_loop_inv sample actual _ Hsample
                (Z.to_nat (int_of_float (level * IZR (Z.of_nat (List.length actual)))))
                0%nat _ Hinit) as [kc [-> [Hnd' [Hval Htotal]]]].
    cbn [bind]. eexists. split; [reflexivity |].
    assert (Hlen : Z.of_nat (List.length (rebuild kc)) = Z.of_nat (List.length actual)).
    { rewrite <- Htotal. apply rebuild_length.
      apply Forall_forall. intros [k v] Hkv. simpl.
      destruct (Hval k v (dict_get_entry _ _ _ Hnd' Hkv)) as [Hpos _]. lia. }
    destruct (count_dict_spec (rebuild kc) n) as [_ [_ [_ [Hle Heq]]]].
    rewrite Hlen in Hle, Heq. split; [exact Hle |].
    intros Hall. apply Heq. apply Forall_forall. intros x Hx.
    apply rebuild_In in Hx. apply dict_get_keys in Hx. destruct Hx as [v Hv].
    destruct (Hval _ _ Hv) as [_ Hact].
    rewrite Forall_forall in Hall. apply Hall. exact Hact.
Qed.

Lemma predicted_demand_conserved_witness :
  exists d,
    generate_predicted_query_sequence (nodup string_dec)
      (fun _ keys => (hd EmptyString keys, hd EmptyString keys))
      ["k1"; "k2"; "k1"]%string 2 (1 / 2) = Ok d /\
    dict_total d = 3%Z.
Proof.
  destruct (predicted_demand_conserved (nodup string_dec)
              (fun _ keys => (hd EmptyString keys, hd EmptyString keys))
              ["k1"; "k2"; "k1"]%string 2 (1 / 2))
    as [d [Hrun [_ Heq]]].
  - intros l. split; [apply NoDup_nodup |]. intros x. apply nodup_In.
  - intros k keys Hlen. destruct keys as [| k0 keys]; [simpl in Hlen; lia |].
    simpl. split; left; reflexivity.
  - exists d. split; [exact Hrun |]. apply Heq.
    repeat constructor; simpl; tauto.
Defined.

(** ** The optimistic revenue and the value of the plan *)

Lemma table_bid_nonneg (bids : Bids) (nm kw : string) :
  bids_nonneg bids -> 0 <= table_bid bids nm kw.
Proof.
  intros Hb. unfold table_bid, dict_get_default.
  destruct (dict_get bids nm) as [row |] eqn:Hrow; simpl; [| lra].
  destruct (dict_get row kw) as [v |] eqn:Hv; [| lra].
  exact (Hb _ _ _ _ Hrow Hv).
Qed.

Lemma sumR_nonneg (f : nat -> R) (n : nat) :
  (forall i, (i < n)%nat -> 0 <= f i) -> 0 <= sumR f n.
Proof.
  induction n as [| n IH]; intros H; simpl; [lra |].
  assert (0 <= sumR f n) by (apply IH; intros i Hi; apply H; lia).
  assert (0 <= f n) by (apply H; lia). lra.
Qed.

Lemma plan_value_nonneg (bids : Bids) (keywords names : list string)
    (plan : list (list Z)) :
  bids_nonneg bids -> (forall i j, (0 <= cell plan i j)%Z) ->
  0 <= plan_value bids keywords names plan.
Proof.
  intros Hb Hplan. unfold plan_value, row_cost.
  apply sumR_nonneg. intros i _. apply sumR_nonneg. intros j _.
  apply Rmult_le_pos; [apply IZR_le; apply Hplan | apply table_bid_nonneg; exact Hb].
Qed.

(** Serving takes the served bid off the value of the plan. *)
Lemma plan_value_served (bids : Bids) (keywords : list string) (advs : list Advertiser.t)
    (plan : list (list Z)) (query : string) (c i : nat) (a : Advertiser.t)
    (row : dict R) (v : Z) :
  list_index keywords query = Some c ->
  nth_error advs i = Some a ->
  OptimisticAlgorithm.plan_cell plan i c = Ok v ->
  dict_get bids (Advertiser.name a) = Some row ->
  plan_value bids keywords (map Advertiser.name advs)
    (OfflineMaximizationProblem.matrix_assign plan i c (v - 1)%Z)
  = plan_value bids keywords (map Advertiser.name advs) plan
    - dict_get_default row query 0.
Proof.
  intros Hc Hi Hv Hrow.
  apply list_index_spec in Hc. destruct Hc as [Hkw _].
  assert (Hclt : (c < List.length keywords)%nat) by (apply nth_error_Some; congruence).
  assert (Hilt : (i < List.length (map Advertiser.name advs))%nat)
    by (rewrite length_map; apply nth_error_Some; congruence).
  assert (Hname : nth i (map Advertiser.name advs) EmptyString = Advertiser.name a).
  { apply nth_error_nth. rewrite nth_error_map, Hi. reflexivity. }
  assert (Hbid : table_bid bids (Advertiser.name a) query = dict_get_default row query 0).
  { unfold table_bid. unfold dict_get_default at 2. rewrite Hrow. reflexivity. }
  destruct (plan_cell_bounds _ _ _ _ Hv) as [_ [_ Hcell]].
  unfold plan_value.
  rewrite (sumR_update
             (fun i0 => row_cost (table_bid bids) keywords plan i0
                          (nth i0 (map Advertiser.name advs) EmptyString))
             (fun i0 => row_cost (table_bid bids) keywords
                          (OfflineMaximizationProblem.matrix_assign plan i c (v - 1)%Z) i0
                          (nth i0 (map Advertiser.name advs) EmptyString))
             _ i Hilt).
  - cbv beta. rewrite Hname. unfold row_cost.
    rewrite (sumR_update
               (fun j => IZR (cell plan i j)
                         * table_bid bids (Advertiser.name a) (nth j keywords EmptyString))
               (fun j => IZR (cell (OfflineMaximizationProblem.matrix_assign plan i c
                                      (v - 1)%Z) i j)
                         * table_bid bids (Advertiser.name a) (nth j keywords EmptyString))
               _ c Hclt).
    + cbv beta. rewrite (cell_matrix_assign_at _ _ _ _ _ _ _ Hv).
      rewrite !Nat.eqb_refl. cbn [andb].
      rewrite (nth_error_nth _ _ EmptyString Hkw), Hcell, Hbid, minus_IZR. lra.
    + intros j Hj. rewrite (cell_matrix_assign_at _ _ _ _ _ _ _ Hv).
      rewrite Nat.eqb_refl. cbn [andb].
      destruct (Nat.eqb_spec j c); [contradiction | reflexivity].
  - intros i' Hi'. unfold row_cost. apply sumR_ext. intros j _.
    rewrite (cell_matrix_assign_at _ _ _ _ _ _ _ Hv).
    destruct (Nat.eqb_spec i' i); [contradiction | reflexivity].
Qed.

Lemma optimistic_loop_value :
  forall query_sequence self revenue cls revenue' cls',
    plan_nonneg self -> bids_nonneg (OptimisticAlgorithm.bids self) ->
    Experiment.optimistic_loop self query_sequence revenue cls = (Ok revenue', cls') ->
    revenue <= revenue'
    <= revenue
       + plan_value (OptimisticAlgorithm.bids self) (OptimisticAlgorithm.keywords self)
           (map Advertiser.name
              (Advertiser.deref cls (OptimisticAlgorithm.advertisers self)))
           (OptimisticAlgorithm.offline_allocations self).
Proof.
  induction query_sequence as [| query rest IH];
    intros self revenue cls revenue' cls' Hplan Hb Hrun; simpl in Hrun.
  - inversion Hrun; subst.
    pose proof (plan_value_nonneg (OptimisticAlgorithm.bids self)
                  (OptimisticAlgorithm.keywords self)
                  (map Advertiser.name
                     (Advertiser.deref cls' (OptimisticAlgorithm.advertisers self)))
                  _ Hb (proj2 Hplan)).
    lra.
  - destruct (OptimisticAlgorithm.allocate_query self query cls)
      as [[res self1] cls1] eqn:Hq.
    pose proof (optimistic_allocate_query_nonneg _ _ _ _ _ _ Hplan Hq) as Hplan1.
    destruct res as [[[who |] bid] | e]; [| | discriminate].
    + destruct (optimistic_allocate_query_served _ _ _ _ _ _ _ Hq)
        as [c [i [a [row [remaining [v [_ [Hc [_ [_ [Hi [Hv [_ [Hrow [Hbid [_ [_ [Hself Hcls]]]]]]]]]]]]]]]]]].
      assert (Hb1 : bids_nonneg (OptimisticAlgorithm.bids self1))
        by (rewrite Hself; exact Hb).
      specialize (IH _ _ _ _ _ Hplan1 Hb1 Hrun).
      assert (Hbid0 : 0 <= bid).
      { rewrite Hbid. unfold dict_get_default.
        destruct (dict_get row query) as [w |] eqn:Hw; [| lra].
        exact (Hb _ _ _ _ Hrow Hw). }
      rewrite Hself in IH.
      cbn [OptimisticAlgorithm.bids OptimisticAlgorithm.keywords
           OptimisticAlgorithm.advertisers OptimisticAlgorithm.offline_allocations] in IH.
      rewrite Hcls, deref_store_same, (map_name_list_assign _ _ _ _ Hi) in IH.
      rewrite (plan_value_served _ _ _ _ _ _ _ _ _ _ Hc Hi Hv Hrow) in IH.
      rewrite <- Hbid in IH. lra.
    + destruct (optimistic_allocate_query_unserved _ _ _ _ _ _ Hq) as [-> [-> _]];
        [intros who b; discriminate |].
      exact (IH _ _ _ _ _ Hplan Hb Hrun).
Qed.

(** In exact arithmetic, the optimistic allocator never earns more than its plan is worth.
    With non-negative bids, plan cells and remaining demands, the revenue the
    query loop of the driver adds up is at least what it started from and at
    most that plus the value of the plan: the sum, over the allocator's
    advertisers and the keywords, of the plan cell times the advertiser's
    bid. *)
Theorem optimistic_revenue_within_plan
    (self : OptimisticAlgorithm.t) (query_sequence : list string) (revenue revenue' : R)
    (cls cls' : Advertiser.Registry) :
  plan_nonneg self -> bids_nonneg (OptimisticAlgorithm.bids self) ->
  Experiment.optimistic_loop self query_sequence revenue cls = (Ok revenue', cls') ->
  revenue <= revenue'
  <= revenue
     + plan_value (OptimisticAlgorithm.bids self) (OptimisticAlgorithm.keywords self)
         (map Advertiser.name
            (Advertiser.deref cls (OptimisticAlgorithm.advertisers self)))
         (OptimisticAlgorithm.offline_allocations self).
Proof.
  intros Hplan Hb Hrun.
  exact (optimistic_loop_value query_sequence self revenue cls revenue' cls' Hplan Hb Hrun).
Qed.

Lemma optimistic_revenue_within_plan_witness :
  exists revenue' cls',
    Experiment.optimistic_loop Example.optimistic ["k1"; "k1"]%string 0
      (Advertiser.reset_advertiser_list_copy Example.cls_built) = (Ok revenue', cls') /\
    0 <= revenue' <= 0 + plan_value Example.bids ["k1"%string] ["A1"%string] [[5%Z]].
Proof.
  assert (Hrun : exists revenue' cls',
             Experiment.optimistic_loop Example.optimistic ["k1"; "k1"]%string 0
               (Advertiser.reset_advertiser_list_copy Example.cls_built)
             = (Ok revenue', cls')).
  { unfold Experiment.optimistic_loop, OptimisticAlgorithm.allocate_query. pyeval.
    eexists _, _. reflexivity. }
  destruct Hrun as [revenue' [cls' Hrun]].
  exists revenue', cls'. split; [exact Hrun |].
  assert (Hplan : plan_nonneg Example.optimistic).
  { split.
    - exact example_predicted_nonneg.
    - intros i j. unfold cell. simpl.
      destruct i as [| [| i]]; destruct j as [| [| j]]; simpl; lia. }
  exact (optimistic_revenue_within_plan Example.optimistic _ 0 revenue'
           (Advertiser.reset_advertiser_list_copy Example.cls_built) cls' Hplan
           (bids_positive_nonneg _ example_bids_positive) Hrun).
Defined.

(** ** Candidates are mapped by name *)

Lemma find_by_name_spec (advs : list Advertiser.t) (nm : string) :
  forall off,
    match BalancedAlgorithm.find_by_name advs nm off with
    | Ok j =>
        exists k a,
          j = (off + k)%nat /\ nth_error advs k = Some a /\ Advertiser.name a = nm /\
          forall k' a', (k' < k)%nat -> nth_error advs k' = Some a' ->
                        Advertiser.name a' <> nm
    | Raise e =>
        e = IndexError /\ forall a', In a' advs -> Advertiser.name a' <> nm
    end.
Proof.
  induction advs as [| x rest IH]; intros off; simpl.
  - split; [reflexivity | intros a' []].
  - destruct (String.eqb_spec (Advertiser.name x) nm) as [Heq | Hne].
    + exists 0%nat, x. split; [lia |]. split; [reflexivity |]. split; [exact Heq |].
      intros k' a' Hk'. lia.
    + specialize (IH (S off)).
      destruct (BalancedAlgorithm.find_by_name rest nm (S off)) as [j | e].
      * destruct IH as [k [a [Hj [Hk [Hname Hfirst]]]]].
        exists (S k), a. split; [lia |]. split; [exact Hk |]. split; [exact Hname |].
        intros [| k'] a' Hk' Ha'; simpl in Ha'.
        -- inversion Ha'; subst. exact Hne.
        -- apply (Hfirst k' a'); [lia | exact Ha'].
      * destruct IH as [He Hall]. split; [exact He |].
        intros a' [<- | Hin]; [exact Hne | apply Hall; exact Hin].
Qed.

(** X16: the balanced allocator maps a candidate of a sub-allocator to the
    authoritative list by name: to the first authoritative advertiser that has
    the name of the candidate, with the candidate's bid.  It raises
    [IndexError] when the candidate's position is not in its list, or when no
    authoritative advertiser has that name; it never maps a candidate to
    none. *)
Theorem candidate_mapped_by_name (cls : Advertiser.Registry) (r : Advertiser.ListRef)
    (i : nat) (bid : R) :
  match BalancedAlgorithm.to_authoritative cls (Some (r, i), bid) with
  | Ok (Some j, b) =>
      b = bid /\
      exists copy a,
        nth_error (Advertiser.deref cls r) i = Some copy /\
        nth_error (Advertiser.advertisers cls) j = Some a /\
        Advertiser.name a = Advertiser.name copy /\
        forall j' a', (j' < j)%nat -> nth_error (Advertiser.advertisers cls) j' = Some a' ->
                      Advertiser.name a' <> Advertiser.name copy
  | Ok (None, _) => False
  | Raise e =>
      e = IndexError /\
      (nth_error (Advertiser.deref cls r) i = None \/
       exists copy,
         nth_error (Advertiser.deref cls r) i = Some copy /\
         forall a', In a' (Advertiser.advertisers cls) ->
                    Advertiser.name a' <> Advertiser.name copy)
  end.
Proof.
  unfold BalancedAlgorithm.to_authoritative, bind, list_item.
  destruct (nth_error (Advertiser.deref cls r) i) as [copy |] eqn:Hcopy.
  - pose proof (find_by_name_spec (Advertiser.advertisers cls) (Advertiser.name copy) 0)
      as Hfind.
    destruct (BalancedAlgorithm.find_by_name (Advertiser.advertisers cls)
                (Advertiser.name copy) 0) as [j | e].
    + destruct Hfind as [k [a [Hj [Hk [Hname Hfirst]]]]]. simpl in Hj. subst j.
      split; [reflexivity |]. exists copy, a. repeat split; assumption.
    + destruct Hfind as [He Hall]. split; [exact He |]. right.
      exists copy. split; [reflexivity | exact Hall].
  - split; [reflexivity |]. left. reflexivity.
Qed.

(** ** How [solve_allocation] fails *)

(** X17: [solve_allocation] raises [KeyError] when a generated keyword has no
    predicted demand, whatever the solver would answer, and [ValueError] when
    the solver finds no solution of the program built from the cost vector,
    the budget rows and the volume rows; either way no plan is stored and no
    advertiser is charged. *)
Theorem solve_allocation_failures (linprog : Solver)
    (self : OfflineMaximizationProblem.t) (cls : Advertiser.Registry) :
  let advs := Advertiser.deref cls (OfflineMaximizationProblem.advertisers self) in
  let n := List.length advs in
  let nk := OfflineMaximizationProblem.n_keywords self in
  let bids := OfflineMaximizationProblem.bids self in
  let predicted := OfflineMaximizationProblem.predicted_queries self in
  ((exists j, (j < nk)%nat /\ dict_get predicted (keyword_name j) = None) ->
   OfflineMaximizationProblem.solve_allocation linprog self cls
   = (Raise KeyError, self, cls)) /\
  (forall A_volume b_volume,
     OfflineMaximizationProblem.volume_constraints predicted n nk (keyword_names nk) 0
     = Ok (A_volume, b_volume) ->
     linprog (OfflineMaximizationProblem.cost_vector bids advs (keyword_names nk))
             (fst (OfflineMaximizationProblem.budget_constraints bids advs 0 n
                     (keyword_names nk)) ++ A_volume)
             (snd (OfflineMaximizationProblem.budget_constraints bids advs 0 n
                     (keyword_names nk)) ++ b_volume)
             (OfflineMaximizationProblem.solver_method self) = None ->
     OfflineMaximizationProblem.solve_allocation linprog self cls
     = (Raise ValueError, self, cls)).
Proof.
  intros advs n nk bids predicted. split.
  - apply solve_allocation_key_error.
  - intros A_volume b_volume Hvol Hsolve.
    unfold OfflineMaximizationProblem.solve_allocation.
    fold advs. fold n. fold nk. fold bids. fold predicted.
    destruct (OfflineMaximizationProblem.budget_constraints bids advs 0 n (keyword_names nk))
      as [A_budget b_budget].
    rewrite Hvol. cbn [fst snd] in Hsolve. rewrite Hsolve. reflexivity.
Qed.

Lemma solve_allocation_failures_witness :
  OfflineMaximizationProblem.solve_allocation (fun _ _ _ _ => None)
    (OfflineMaximizationProblem.init 1 Example.bids (Advertiser.Snapshot 0)
       Example.predicted_queries)
    Example.cls
  = (Raise ValueError,
     OfflineMaximizationProblem.init 1 Example.bids (Advertiser.Snapshot 0)
       Example.predicted_queries,
     Example.cls) /\
  OfflineMaximizationProblem.solve_allocation Example.linprog
    (OfflineMaximizationProblem.init 2 Example.bids (Advertiser.Snapshot 0)
       Example.predicted_queries)
    Example.cls
  = (Raise KeyError,
     OfflineMaximizationProblem.init 2 Example.bids (Advertiser.Snapshot 0)
       Example.predicted_queries,
     Example.cls).
Proof.
  split.
  - destruct (solve_allocation_failures (fun _ _ _ _ => None)
                (OfflineMaximizationProblem.init 1 Example.bids (Advertiser.Snapshot 0)
                   Example.predicted_queries)
                Example.cls) as [_ Hfail].
    eapply Hfail; reflexivity.
  - destruct (solve_allocation_failures Example.linprog
                (OfflineMaximizationProblem.init 2 Example.bids (Advertiser.Snapshot 0)
                   Example.predicted_queries)
                Example.cls) as [Hkey _].
    apply Hkey. exists 1%nat. split; [simpl; lia | reflexivity].
Defined.

(** ** What the rounding charges *)

Lemma solve_allocation_charges (linprog : Solver)
    (self self' : OfflineMaximizationProblem.t) (cls cls' : Advertiser.Registry) (u : unit) :
  let r := OfflineMaximizationProblem.advertisers self in
  let bids := OfflineMaximizationProblem.bids self in
  let predicted := OfflineMaximizationProblem.predicted_queries self in
  let nk := OfflineMaximizationProblem.n_keywords self in
  solver_nonneg linprog -> bids_nonneg bids -> dict_nonneg predicted ->
  Forall adv_ok (Advertiser.deref cls r) ->
  OfflineMaximizationProblem.solve_allocation linprog self cls = (Ok u, self', cls') ->
  exists plan,
    OfflineMaximizationProblem.allocations self' = Some plan /\
    forall i a0,
      nth_error (Advertiser.deref cls r) i = Some a0 ->
      exists a,
        nth_error (Advertiser.deref cls' r) i = Some a /\
        Advertiser.name a = Advertiser.name a0 /\
        Advertiser.initial_budget a = Advertiser.initial_budget a0 /\
        Advertiser.spent_budget a
        = Advertiser.spent_budget a0
          + row_cost (rounding_bid bids) (keyword_names nk) plan i (Advertiser.name a0).
Proof.
  intros r bids predicted nk Hlp Hb Hp Hadvs.
  unfold OfflineMaximizationProblem.solve_allocation.
  fold r. fold bids. fold predicted. fold nk.
  destruct (OfflineMaximizationProblem.budget_constraints bids _ 0 _ _)
    as [A_budget b_budget].
  destruct (OfflineMaximizationProblem.volume_constraints predicted _ nk _ 0)
    as [[A_volume b_volume] | e]; [| discriminate].
  destruct (linprog _ _ _ _) as [x |] eqn:Hsolve; [| discriminate].
  pose proof (Hlp _ _ _ _ _ Hsolve) as Hx.
  unfold OfflineMaximizationProblem.round_solution_to_integers.
  cbn [OfflineMaximizationProblem.predicted_queries OfflineMaximizationProblem.solution
       OfflineMaximizationProblem.bids OfflineMaximizationProblem.advertisers
       OfflineMaximizationProblem.n_keywords OfflineMaximizationProblem.solver_method].
  fold r. fold bids. fold predicted. fold nk.
  destruct (OfflineMaximizationProblem.demand_of predicted (keyword_names nk) [])
    as [rq0 | e] eqn:Hrq0; [| discriminate].
  destruct (OfflineMaximizationProblem.round_loop bids r x _ _ _ _ rq0 cls)
    as [[plan | e] cls1] eqn:Hloop; [| discriminate].
  intros H. inversion H; subst self' cls'. clear H.
  exists plan. split; [reflexivity |].
  pose proof (demand_of_nonneg _ _ _ Hp Hrq0) as Hrq0_nonneg.
  assert (Hinit : round_inv bids r (List.length (Advertiser.deref cls r))
                    (keyword_names nk) (Advertiser.deref cls r) rq0
                    (OfflineMaximizationProblem.sorted_by (fun i => - nth i x 0)
                       (seq 0 (List.length x)))
                    (repeat (repeat 0%Z (List.length (keyword_names nk)))
                            (List.length (Advertiser.deref cls r))) rq0 cls).
  { split; [apply shape_zeros |].
    split; [intros; apply cell_zeros |].
    split; [intros; rewrite cell_zeros; lia |].
    split.
    { intros j kw d _ Hd. exists d. split; [exact Hd |].
      split; [eapply Hrq0_nonneg; exact Hd |].
      unfold column_total. rewrite sumZ_zero; [lia |].
      intros i. apply cell_zeros. }
    split; [exact Hrq0_nonneg |].
    split; [exact Hadvs |].
    split.
    { intros i a0 Hi. exists a0. repeat split; try assumption.
      unfold row_cost. rewrite sumR_zero; [lra |].
      intros j. rewrite cell_zeros. lra. }
    intros i a Hi. exists a. exact Hi. }
  assert (Hnodup : NoDup (OfflineMaximizationProblem.sorted_by (fun i => - nth i x 0)
                            (seq 0 (List.length x)))).
  { eapply Permutation_NoDup; [apply sorted_by_perm | apply seq_NoDup]. }
  destruct (round_loop_inv bids r x _ (keyword_names nk) _ rq0 Hb (Forall_nth_nonneg x Hx)
              (keyword_names_NoDup nk) _ Hnodup _ _ _ _ _ Hinit Hloop)
    as [rq' [_ [_ [_ [_ [_ [_ [Hspent _]]]]]]]].
  exact Hspent.
Qed.

(** In exact arithmetic, what building the plan costs the working advertisers.  When
    [solve_allocation] stores a plan (solver within bounds, non-negative bids
    and demands, working advertisers within budget), every advertiser of the
    list the oracle was given keeps its name and initial budget and has spent,
    on top of what it had spent, exactly its row of the plan at the bids the
    rounding charges: the bid of the table, [1] for a keyword without one. *)
Theorem rounding_charges_plan_cost (linprog : Solver)
    (self self' : OfflineMaximizationProblem.t) (cls cls' : Advertiser.Registry) (u : unit) :
  let r := OfflineMaximizationProblem.advertisers self in
  let bids := OfflineMaximizationProblem.bids self in
  let predicted := OfflineMaximizationProblem.predicted_queries self in
  let nk := OfflineMaximizationProblem.n_keywords self in
  solver_nonneg linprog -> bids_nonneg bids -> dict_nonneg predicted ->
  Forall adv_ok (Advertiser.deref cls r) ->
  OfflineMaximizationProblem.solve_allocation linprog self cls = (Ok u, self', cls') ->
  exists plan,
    OfflineMaximizationProblem.allocations self' = Some plan /\
    forall i a0,
      nth_error (Advertiser.deref cls r) i = Some a0 ->
      exists a,
        nth_error (Advertiser.deref cls' r) i = Some a /\
        Advertiser.name a = Advertiser.name a0 /\
        Advertiser.initial_budget a = Advertiser.initial_budget a0 /\
        Advertiser.spent_budget a
        = Advertiser.spent_budget a0
          + row_cost (rounding_bid bids) (keyword_names nk) plan i (Advertiser.name a0).
Proof.
  exact (solve_allocation_charges linprog self self' cls cls' u).
Qed.

Lemma rounding_charges_plan_cost_witness :
  exists cls' plan a,
    nth_error (Advertiser.deref cls' (Advertiser.Snapshot 0)) 0 = Some a /\
    Advertiser.spent_budget a
    = 0 + row_cost (rounding_bid Example.bids) (keyword_names 1) plan 0 "A1".
Proof.
  destruct example_solve_allocation as [self' [cls' Hrun]].
  assert (Hadvs : Forall adv_ok (Advertiser.deref Example.cls (Advertiser.Snapshot 0))).
  { constructor; [unfold adv_ok; simpl; lra | constructor]. }
  destruct (rounding_charges_plan_cost Example.linprog
              (OfflineMaximizationProblem.init 1 Example.bids (Advertiser.Snapshot 0)
                 Example.predicted_queries)
              self' Example.cls cls' tt example_solver_nonneg
              (bids_positive_nonneg _ example_bids_positive) example_predicted_nonneg
              Hadvs Hrun)
    as [plan [_ Hspent]].
  destruct (Hspent 0%nat (Advertiser.mk "A1" 10 0) eq_refl) as [a [Ha [_ [_ Hsp]]]].
  exists cls', plan, a. split; [exact Ha | exact Hsp].
Defined.

(** ** The rule of the balanced allocator *)

(** In exact arithmetic, which candidate the balanced allocator takes.  In a ready state,
    when both sub-allocators propose an advertiser, the call scores each
    proposal with the budget fraction of the authoritative advertiser of that
    name, as the ledger has it before the call, not with the copy the
    sub-allocator looked at; it returns the optimistic proposal when [alpha]
    times its score is at least the pessimistic score, ties included, and the
    pessimistic one otherwise, and counts the branch it took. *)
Theorem balanced_decision_rule (self : BalancedAlgorithm.t) (query : string)
    (cls : Advertiser.Registry) (k : nat)
    (o' : OptimisticAlgorithm.t) (cls1 cls2 : Advertiser.Registry)
    (ro rp : Advertiser.ListRef) (jo jp : nat) (bo bp : R) :
  balanced_ready self cls k ->
  OptimisticAlgorithm.allocate_query (BalancedAlgorithm.optimistic_algorithm self) query
    (Advertiser.reset_advertiser_list_copy cls) = (Ok (Some (ro, jo), bo), o', cls1) ->
  PessimisticAlgorithm.allocate_query (BalancedAlgorithm.pessimistic_algorithm self)
    query cls1 = (Ok (Some (rp, jp), bp), cls2) ->
  exists ao ap,
    nth_error (Advertiser.advertisers cls) jo = Some ao /\
    nth_error (Advertiser.advertisers cls) jp = Some ap /\
    let alpha := BalancedAlgorithm.alpha self in
    let o_score := phi_alpha (Advertiser.budget_fraction ao) alpha * bo in
    let p_score := phi_alpha (Advertiser.budget_fraction ap) alpha * bp in
    let optimistic := Rgeb (alpha * o_score) p_score in
    fst (BalancedAlgorithm.allocate_query self query cls)
    = (Ok (Some (Advertiser.Authoritative, if optimistic then jo else jp),
           if optimistic then bo else bp),
       BalancedAlgorithm.count (BalancedAlgorithm.with_allocators self o') optimistic).
Proof.
  intros [Halpha [Hro [Hrp [Hk [Hcov [Hnd Hb]]]]]] Hopt Hpess.
  set (cls0 := Advertiser.reset_advertiser_list_copy cls) in *.
  assert (Hcov0 : covers (Advertiser.advertisers cls)
                    (Advertiser.deref cls0 (Advertiser.Snapshot k))).
  { unfold cls0. rewrite reset_copy_deref by exact Hk. exact Hcov. }
  destruct (optimistic_step _ _ _ cls0 _ k (Advertiser.advertisers cls) _ Hro Hb eq_refl
              Hcov0 Hopt)
    as [Hro' [Hb' [Hauth1 [Hlen1 [Hcov1 Hcand1]]]]].
  destruct (pessimistic_step _ _ _ _ k _ _ (Some (ro, jo), bo) Hrp Hauth1 Hcov1 Hcand1 Hpess)
    as [p_copy [Hp [Hauth2 [Hlen2 [Hcov2 [Hcand_o Hcand_p]]]]]].
  inversion Hp; subst p_copy. clear Hp.
  assert (Hnd2 : NoDup (map Advertiser.name (Advertiser.advertisers cls2)))
    by (rewrite Hauth2; exact Hnd).
  rewrite <- Hauth2 in Hcand_o, Hcand_p.
  pose proof Hcand_o as [_ [_ [so [ao [_ [Hao _]]]]]].
  pose proof Hcand_p as [_ [_ [sp [ap [_ [Hap _]]]]]].
  exists ao, ap.
  split; [rewrite <- Hauth2; exact Hao |]. split; [rewrite <- Hauth2; exact Hap |].
  intros alpha o_score p_score optimistic.
  unfold BalancedAlgorithm.allocate_query. fold cls0. rewrite Hopt, Hpess.
  assert (Hdec : BalancedAlgorithm.decide self cls2 (Some (ro, jo), bo) (Some (rp, jp), bp)
                 = Ok (Some (optimistic,
                             if optimistic then (Some jo, bo) else (Some jp, bp)))).
  { unfold BalancedAlgorithm.decide.
    rewrite (to_authoritative_ok cls2 k _ Hnd2 Hcand_o).
    rewrite (to_authoritative_ok cls2 k _ Hnd2 Hcand_p).
    cbn [bind fst]. unfold BalancedAlgorithm.score_of, bind, list_item.
    rewrite Hao, Hap. cbn [score_scale score_ge].
    fold alpha. fold o_score. fold p_score. fold optimistic.
    destruct optimistic; reflexivity. }
  rewrite Hdec.
  destruct optimistic.
  - destruct (commit_candidate (BalancedAlgorithm.with_allocators self o') cls2 k
                true ro jo bo Hcand_o) as [a [w [_ [_ [_ [_ Hcommit]]]]]].
    rewrite Hcommit. reflexivity.
  - destruct (commit_candidate (BalancedAlgorithm.with_allocators self o') cls2 k
                false rp jp bp Hcand_p) as [a [w [_ [_ [_ [_ Hcommit]]]]]].
    rewrite Hcommit. reflexivity.
Qed.

Lemma example_candidates :
  exists o' cls1 cls2,
    OptimisticAlgorithm.allocate_query Example.optimistic "k1"
      (Advertiser.reset_advertiser_list_copy Example.cls_built)
    = (Ok (Some (Advertiser.Snapshot 0, 0%nat), 1), o', cls1) /\
    PessimisticAlgorithm.allocate_query Example.pessimistic "k1" cls1
    = (Ok (Some (Advertiser.Snapshot 0, 0%nat), 1), cls2).
Proof.
  eexists _, _, _. split.
  - unfold OptimisticAlgorithm.allocate_query. pyeval. reflexivity.
  - unfold PessimisticAlgorithm.allocate_query. pyeval. reflexivity.
Qed.

Lemma balanced_decision_rule_witness :
  exists ao ap,
    nth_error (Advertiser.advertisers Example.cls_built) 0 = Some ao /\
    nth_error (Advertiser.advertisers Example.cls_built) 0 = Some ap.
Proof.
  destruct example_candidates as [o' [cls1 [cls2 [Hopt Hpess]]]].
  destruct (balanced_decision_rule Example.balanced "k1" Example.cls_built 0 o' cls1 cls2
              (Advertiser.Snapshot 0) (Advertiser.Snapshot 0) 0 0 1 1
              example_ready Hopt Hpess)
    as [ao [ap [Hao [Hap _]]]].
  exists ao, ap. split; assumption.
Defined.

(** ** Generated predictions and the plan *)

Lemma generate_predicted_query_sequence_keys
    (set_order : list string -> list string)
    (sample : nat -> list string -> string * string)
    (actual : list string) (n : nat) (level : R) (d : dict Z) :
  generate_predicted_query_sequence set_order sample actual n level = Ok d ->
  dict_keys d = keyword_names n.
Proof.
  unfold generate_predicted_query_sequence.
  destruct (Req_dec_T level 0) as [Hzero | Hnz].
  - intros H. inversion H; subst d. apply (count_dict_spec actual n).
  - destruct (change_loop sample _ 0 _) as [kc |]; [| discriminate].
    cbn [bind]. intros H. inversion H; subst d. apply (count_dict_spec (rebuild kc) n).
Qed.

(** X20: predictions made by [generate_predicted_query_sequence] for [n]
    keywords fit the optimistic allocator built for [n] keywords: its keyword
    list is [k1 .. kn], so the column it reads for a query is the column the
    plan was built for, and a query has a column exactly when it is one of the
    generated names. *)
Theorem generated_predictions_fit_plan
    (set_order : list string -> list string)
    (sample : nat -> list string -> string * string)
    (actual : list string) (n : nat) (level : R) (d : dict Z)
    (linprog : Solver) (bids : Bids) (running_in_balanced : bool)
    (cls cls' : Advertiser.Registry) (o : OptimisticAlgorithm.t) :
  generate_predicted_query_sequence set_order sample actual n level = Ok d ->
  OptimisticAlgorithm.init linprog n bids d running_in_balanced cls = (Ok o, cls') ->
  OptimisticAlgorithm.keywords o = keyword_names n /\
  OptimisticAlgorithm.remaining_queries o = d /\
  Forall (fun row => List.length row = n) (OptimisticAlgorithm.offline_allocations o) /\
  forall query c,
    list_index (OptimisticAlgorithm.keywords o) query = Some c <->
    (c < n)%nat /\ query = keyword_name c.
Proof.
  intros Hgen Hinit.
  destruct (optimistic_init_fields _ _ _ _ _ _ _ _ Hinit) as [Hkeys [Hrq [_ [Hrows _]]]].
  rewrite (generate_predicted_query_sequence_keys _ _ _ _ _ _ Hgen) in Hkeys.
  split; [exact Hkeys |]. split; [exact Hrq |]. split; [exact Hrows |].
  intros query c. rewrite Hkeys, list_index_spec. split.
  - intros [Hc _].
    assert (Hlt : (c < n)%nat).
    { rewrite <- (keyword_names_length n). apply nth_error_Some. congruence. }
    split; [exact Hlt |].
    rewrite (keyword_names_nth n c Hlt) in Hc. congruence.
  - intros [Hlt ->]. split; [apply keyword_names_nth; exact Hlt |].
    intros c' Hc' Heq.
    rewrite (keyword_names_nth n c') in Heq by lia.
    assert (Hsame : keyword_name c' = keyword_name c) by congruence.
    apply keyword_name_inj in Hsame. lia.
Qed.

Lemma example_optimistic_init :
  exists o cls',
    OptimisticAlgorithm.init Example.linprog 1 Example.bids Example.predicted_queries true
      Example.cls = (Ok o, cls').
Proof.
  assert (Hm : Z.min (Z.min (Zfloor 5) 5) (Zfloor ((10 - 0) / 1)) = 5%Z).
  { rewrite (ZfloorZ 5). rewrite (Zfloor_eq 10 ((10 - 0) / 1)) by lra. reflexivity. }
  unfold OptimisticAlgorithm.init.
  pyeval; rewrite ?Hm in *; try (exfalso; lra).
  eexists _, _. reflexivity.
Qed.

Lemma generated_predictions_fit_plan_witness :
  exists o,
    OptimisticAlgorithm.keywords o = keyword_names 1 /\
    list_index (OptimisticAlgorithm.keywords o) (keyword_name 0) = Some 0%nat.
Proof.
  destruct example_optimistic_init as [o [cls' Hinit]].
  assert (Hgen : generate_predicted_query_sequence (fun l => l)
                   (fun _ _ => (EmptyString, EmptyString))
                   ["k1"; "k1"; "k1"; "k1"; "k1"]%string 1 0
                 = Ok Example.predicted_queries).
  { unfold generate_predicted_query_sequence.
    destruct (Req_dec_T 0 0) as [_ | Hne]; [reflexivity | exfalso; apply Hne; reflexivity]. }
  destruct (generated_predictions_fit_plan _ _ _ _ _ _ _ _ _ _ _ _ Hgen Hinit)
    as [Hkeys [_ [_ Hcol]]].
  exists o. split; [exact Hkeys |].
  apply Hcol. split; [lia | reflexivity].
Defined.

(** * Binary64: what rounding does to the ledger *)

Set Warnings "-inexact-float".

(** C1: the bound [spent_budget <= initial_budget] does not survive rounding.
    On an advertiser with budget [0.3], [deduct_budget(0.03)] and then
    [deduct_budget(0.27)] both pass the guard, as does the test
    [remaining_budget() >= bid] the allocators make before the second; the
    advertiser is left with [spent_budget = 0.30000000000000004], above its
    initial budget, a negative remaining budget and a budget fraction above
    [1].  The pessimistic allocator gets there with bids 0.03 on k1 and 0.27
    on k2 and the queries k1, k2, where [math.exp] returns what it returns on
    the two arguments it is given. *)
Theorem ledger_overspent_by_rounding :
  let a0 := Double.Advertiser.init "A1" 0.3%float in
  (exists a1 a2,
     Double.Advertiser.deduct_budget a0 0.03%float = Ok a1 /\
     Double.ge (Double.Advertiser.remaining_budget a1) 0.27%float = true /\
     Double.Advertiser.deduct_budget a1 0.27%float = Ok a2 /\
     Double.Advertiser.spent_budget a2 = 0.30000000000000004%float /\
     Double.gt (Double.Advertiser.spent_budget a2) (Double.Advertiser.initial_budget a2)
     = true /\
     PrimFloat.ltb (Double.Advertiser.remaining_budget a2) 0%float = true /\
     Double.gt (Double.Advertiser.budget_fraction a2) 1%float = true) /\
  (forall math_exp : float -> Result float,
     math_exp (-1)%float = Ok 0.36787944117144233%float ->
     math_exp (-0.9)%float = Ok 0.4065696597405991%float ->
     exists advs1,
       Double.allocate_query math_exp Tight.bids 1%float "k1" [a0]
       = (Ok (Some 0%nat, 0.03%float), advs1) /\
       Double.allocate_query math_exp Tight.bids 1%float "k2" advs1
       = (Ok (Some 0%nat, 0.27%float),
          [Double.Advertiser.mk "A1" 0.3%float 0.30000000000000004%float])).
Proof.
  intros a0. split.
  - eexists _, _. repeat split; vm_compute; reflexivity.
  - intros math_exp H1 H2. eexists. split.
    + vm_compute. rewrite H1. vm_compute. reflexivity.
    + vm_compute. rewrite H2. vm_compute. reflexivity.
Qed.

(** C5, as stated, fails: with [spent_budget = 1e16] and [initial_budget =
    2e16], [deduct_budget(1.0)] succeeds and leaves [spent_budget] at [1e16];
    it has not increased by the amount. *)
Lemma deduct_budget_absorbs_amount :
  Double.Advertiser.deduct_budget (Double.Advertiser.mk "A1" 2e16%float 1e16%float) 1%float
  = Ok (Double.Advertiser.mk "A1" 2e16%float 1e16%float) /\
  PrimFloat.ltb 0%float 1%float = true.
Proof. split; vm_compute; reflexivity. Qed.

(** C5, amended: [deduct_budget] raises [ValueError], and assigns nothing,
    exactly when [amount > self.initial_budget - self.spent_budget] in
    binary64, the difference rounded; otherwise it returns with [spent_budget]
    the binary64 sum [spent_budget + amount], the exact sum rounded, and the
    name and the initial budget as they were. *)
Theorem deduct_budget_spec_double (a : Double.Advertiser.t) (amount : float) :
  let remaining :=
    (Double.Advertiser.initial_budget a - Double.Advertiser.spent_budget a)%float in
  (Double.Advertiser.deduct_budget a amount = Raise ValueError <->
   PrimFloat.ltb remaining amount = true) /\
  (forall e, Double.Advertiser.deduct_budget a amount = Raise e -> e = ValueError) /\
  (forall a', Double.Advertiser.deduct_budget a amount = Ok a' <->
     PrimFloat.ltb remaining amount = false /\
     Double.Advertiser.name a' = Double.Advertiser.name a /\
     Double.Advertiser.initial_budget a' = Double.Advertiser.initial_budget a /\
     Double.Advertiser.spent_budget a'
     = (Double.Advertiser.spent_budget a + amount)%float).
Proof.
  intros remaining.
  unfold Double.Advertiser.deduct_budget, Double.gt, Double.Advertiser.remaining_budget.
  fold remaining.
  destruct (PrimFloat.ltb remaining amount) eqn:Hgt.
  - split; [split; reflexivity |]. split.
    + intros e H. inversion H. reflexivity.
    + intros a'. split; [discriminate | intros [H _]; discriminate].
  - split; [split; discriminate |]. split.
    + intros e H. discriminate.
    + intros a'. split.
      * intros H. inversion H. simpl. repeat split; reflexivity.
      * intros [_ [Hn [Hi Hs]]]. destruct a' as [n' i' s']. simpl in *.
        subst. reflexivity.
Qed.

(** C9, as stated, fails: with [spent_budget = 1e16] and [initial_budget =
    2e16], [deduct_budget(-1.0)] succeeds and leaves [spent_budget] at [1e16];
    the negative amount has not decreased it. *)
Lemma deduct_budget_absorbs_negative :
  Double.Advertiser.deduct_budget (Double.Advertiser.mk "A1" 2e16%float 1e16%float)
    (-1)%float
  = Ok (Double.Advertiser.mk "A1" 2e16%float 1e16%float) /\
  PrimFloat.ltb (-1)%float 0%float = true.
Proof. split; vm_compute; reflexivity. Qed.

(** C9, amended: there is no test of the sign.  Every amount that is not
    greater than the remaining budget, in binary64, is accepted, a negative
    one like any other, and [spent_budget] becomes the binary64 sum
    [spent_budget + amount].  A negative amount can so take [spent_budget]
    below zero: [deduct_budget(-1.0)] on a new advertiser leaves [-1.0]. *)
Theorem deduct_budget_accepts_negative_double (a : Double.Advertiser.t) (amount : float) :
  Double.gt amount (Double.Advertiser.remaining_budget a) = false ->
  (Double.Advertiser.deduct_budget a amount
   = Ok (Double.Advertiser.mk (Double.Advertiser.name a)
           (Double.Advertiser.initial_budget a)
           (Double.Advertiser.spent_budget a + amount)%float)) /\
  (Double.Advertiser.deduct_budget (Double.Advertiser.init "A1" 10%float) (-1)%float
   = Ok (Double.Advertiser.mk "A1" 10%float (-1)%float) /\
   PrimFloat.ltb (-1)%float 0%float = true).
Proof.
  intros Hle. split.
  - unfold Double.Advertiser.deduct_budget. rewrite Hle. reflexivity.
  - split; vm_compute; reflexivity.
Qed.

Lemma deduct_budget_accepts_negative_double_witness :
  Double.Advertiser.deduct_budget (Double.Advertiser.mk "A1" 10%float 4%float) (-6)%float
  = Ok (Double.Advertiser.mk "A1" 10%float (-2)%float).
Proof.
  destruct (deduct_budget_accepts_negative_double
              (Double.Advertiser.mk "A1" 10%float 4%float) (-6)%float) as [H _].
  - vm_compute. reflexivity.
  - exact H.
Defined.

(** * The balanced allocator on a registry with a repeated name *)

Lemma repeated_init :
  BalancedAlgorithm.init Repeated.linprog 1 Repeated.bids Repeated.predicted_queries 1
    Repeated.cls = (Ok Repeated.balanced, Repeated.cls_built).
Proof.
  assert (Hm : Z.min (Z.min (Zfloor 1) 1) (Zfloor ((5 - 0) / 2)) = 1%Z).
  { rewrite (ZfloorZ 1). rewrite (Zfloor_eq 2 ((5 - 0) / 2)) by (simpl; lra). reflexivity. }
  unfold BalancedAlgorithm.init, OptimisticAlgorithm.init, Repeated.cls,
    Experiment.fresh_start.
  pyeval; rewrite ?Hm in *; try (exfalso; lra).
  unfold Repeated.balanced, Repeated.cls_built, Repeated.optimistic, Repeated.pessimistic.
  repeat f_equal. lra.
Qed.

(** C4: with the name [A1] registered twice (budgets 1 and 5, bid 2), the
    optimistic sub-allocator proposes the second [A1], which can afford the
    bid; the balanced allocator looks the name up in the authoritative list,
    finds the first [A1], counts the optimistic branch and asks the first
    [A1] for the bid, which it cannot afford: the call raises [ValueError]
    and the ledger has received no deduction, although a sub-allocator had a
    candidate. *)
Theorem balanced_repeated_name_no_deduction :
  BalancedAlgorithm.init Repeated.linprog 1 Repeated.bids Repeated.predicted_queries 1
    Repeated.cls = (Ok Repeated.balanced, Repeated.cls_built) /\
  (exists o' cls1,
     OptimisticAlgorithm.allocate_query Repeated.optimistic "k1"
       (Advertiser.reset_advertiser_list_copy Repeated.cls_built)
     = (Ok (Some (Advertiser.Snapshot 0, 1%nat), 2), o', cls1)) /\
  exists b' cls2,
    BalancedAlgorithm.allocate_query Repeated.balanced "k1" Repeated.cls_built
    = (Raise ValueError, b', cls2) /\
    BalancedAlgorithm.allocations b' = (1%nat, 0%nat) /\
    Advertiser.advertisers cls2 = Advertiser.advertisers Repeated.cls_built /\
    Advertiser.advertisers cls2 = [Advertiser.mk "A1" 1 0; Advertiser.mk "A1" 5 0].
Proof.
  split; [exact repeated_init |]. split.
  - unfold OptimisticAlgorithm.allocate_query. pyeval.
    eexists _, _. reflexivity.
  - unfold BalancedAlgorithm.allocate_query, OptimisticAlgorithm.allocate_query,
      PessimisticAlgorithm.allocate_query, BalancedAlgorithm.commit,
      BalancedAlgorithm.decide.
    pyeval.
    all: unfold BalancedAlgorithm.count, BalancedAlgorithm.with_allocators.
    all: pycbn.
    all: eexists _, _; split; [reflexivity |]; repeat split; reflexivity.
Qed.

(** * The column the online phase reads *)






(** * Binary64: the order of doubles *)

Lemma SFltb_leb_trans (x y z : spec_float) :
  SFltb x y = true -> SFleb y z = true -> SFltb x z = true.
Proof.
  unfold SFltb, SFleb.
  destruct x as [sx | sx | | sx mx ex], y as [sy | sy | | sy my ey],
           z as [sz | sz | | sz mz ez];
    try destruct sx; try destruct sy; try destruct sz; cbn;
    try discriminate; try reflexivity; intros H1 H2;
    cmp_cases; simpl in *; try discriminate; try reflexivity; try lia.
Qed.

Lemma SFltb_leb (x y : spec_float) : SFltb x y = true -> SFleb x y = true.
Proof.
  unfold SFltb, SFleb. destruct (SFcompare x y) as [[ | | ] |]; easy.
Qed.

Lemma SFltb_irrefl (x : spec_float) : SFltb x x = false.
Proof.
  unfold SFltb.
  destruct x as [sx | sx | | sx mx ex]; try destruct sx; cbn; try reflexivity;
    rewrite Z.compare_refl; change (Pos.compare_cont Eq mx mx) with (Pos.compare mx mx);
    rewrite Pos.compare_refl; reflexivity.
Qed.

Lemma ltb_leb_trans (x y z : float) :
  PrimFloat.ltb x y = true -> PrimFloat.leb y z = true -> PrimFloat.ltb x z = true.
Proof. rewrite !ltb_spec, leb_spec. apply SFltb_leb_trans. Qed.

Lemma ltb_leb (x y : float) : PrimFloat.ltb x y = true -> PrimFloat.leb x y = true.
Proof. rewrite ltb_spec, leb_spec. apply SFltb_leb. Qed.

Lemma ltb_irrefl (x : float) : PrimFloat.ltb x x = false.
Proof. rewrite ltb_spec. apply SFltb_irrefl. Qed.

Lemma ltb_trans (x y z : float) :
  PrimFloat.ltb x y = true -> PrimFloat.ltb y z = true -> PrimFloat.ltb x z = true.
Proof. intros H1 H2. exact (ltb_leb_trans x y z H1 (ltb_leb y z H2)). Qed.

Lemma ltb_not_leb (x y : float) : PrimFloat.ltb x y = true -> PrimFloat.leb y x = false.
Proof.
  intros H. destruct (PrimFloat.leb y x) eqn:E; [| reflexivity].
  pose proof (ltb_leb_trans x y x H E) as C. rewrite ltb_irrefl in C. discriminate.
Qed.

Lemma leb_not_ltb (x y : float) : PrimFloat.leb x y = true -> PrimFloat.ltb y x = false.
Proof.
  intros H. destruct (PrimFloat.ltb y x) eqn:E; [| reflexivity].
  pose proof (ltb_leb_trans y x y E H) as C. rewrite ltb_irrefl in C. discriminate.
Qed.

(** [a < b] and [not (a < c)] leave [not (b <= c)]: [c] is below [b] or is
    not a number. *)
Lemma ltb_nltb_nleb (a b c : float) :
  PrimFloat.ltb a b = true -> PrimFloat.ltb a c = false -> PrimFloat.leb b c = false.
Proof.
  intros H1 H2. destruct (PrimFloat.leb b c) eqn:E; [| reflexivity].
  rewrite (ltb_leb_trans a b c H1 E) in H2. discriminate.
Qed.

Lemma nleb_nltb (a b : float) : PrimFloat.leb a b = false -> PrimFloat.ltb a b = false.
Proof.
  intros H. destruct (PrimFloat.ltb a b) eqn:E; [| reflexivity].
  rewrite (ltb_leb a b E) in H. discriminate.
Qed.

(** * Binary64: the pessimistic scan *)

Section DoubleScan.

Variable math_exp : float -> Result float.
Variable bids : Double.Bids.
Variable alpha : float.
Variable query : string.
Variable advertisers : list Double.Advertiser.t.

Lemma double_scan_spec (advs : list Double.Advertiser.t) :
  forall i best hs bb res,
    (forall k, nth_error advertisers (i + k) = nth_error advs k) ->
    double_scan_inv math_exp bids alpha query advertisers i (best, hs, bb) ->
    Double.scan math_exp bids alpha query advs i best hs bb = Ok res ->
    double_scan_inv math_exp bids alpha query advertisers (i + List.length advs) res.
Proof.
  induction advs as [| a rest IH]; intros i best hs bb res Hnth Hinv Hrun.
  - simpl in Hrun. inversion Hrun; subst. simpl. rewrite Nat.add_0_r. exact Hinv.
  - assert (Ha : nth_error advertisers i = Some a).
    { specialize (Hnth 0%nat). rewrite Nat.add_0_r in Hnth. exact Hnth. }
    assert (Hrest : forall k, nth_error advertisers (S i + k) = nth_error rest k).
    { intros k. specialize (Hnth (S k)). rewrite Nat.add_succ_r in Hnth. exact Hnth. }
    simpl List.length. rewrite Nat.add_succ_r.
    change (S (i + List.length rest)) with (S i + List.length rest)%nat.
    simpl in Hrun.
    destruct (Double.eligible bids query a) eqn:Hel.
    + unfold bind in Hrun.
      destruct (Double.score_of math_exp bids alpha query a) as [s | e] eqn:Hs;
        [| discriminate].
      destruct (Double.gt s hs) eqn:Hgt.
      * (* the advertiser at [i] takes the lead *)
        apply (IH (S i) (Some i) s (Double.bid_of bids a query) res Hrest); [| exact Hrun].
        unfold Double.gt in Hgt.
        assert (Hfloor : Double.gt s neg_infinity = true).
        { destruct best as [w |]; simpl in Hinv.
          - destruct Hinv as [_ [a0 [_ [_ [_ [_ [Hhs _]]]]]]].
            unfold Double.gt in *. exact (ltb_trans _ _ _ Hhs Hgt).
          - destruct Hinv as [-> _]. exact Hgt. }
        simpl. split; [lia |]. exists a. repeat split; try assumption.
        intros j b Hj Hb Helb.
        destruct (Nat.eq_dec j i) as [-> | Hne].
        -- assert (b = a) by congruence. subst b. exists s. split; [exact Hs |].
           split; [unfold Double.gt; apply ltb_irrefl | intros Hlt; lia].
        -- assert (Hj' : (j < i)%nat) by lia.
           destruct best as [w |]; simpl in Hinv.
           ++ destruct Hinv as [_ [a0 [_ [_ [_ [_ [_ Hall]]]]]]].
              destruct (Hall j b Hj' Hb Helb) as [sj [Hsj [Hle _]]].
              exists sj. split; [exact Hsj |]. unfold Double.gt, Double.ge in *.
              pose proof (ltb_nltb_nleb _ _ _ Hgt Hle) as Hn.
              split; [apply nleb_nltb; exact Hn | intros _; exact Hn].
           ++ destruct Hinv as [-> [_ Hall]].
              destruct (Hall j b Hj' Hb Helb) as [sj [Hsj Hle]].
              exists sj. split; [exact Hsj |]. unfold Double.gt, Double.ge in *.
              pose proof (ltb_nltb_nleb _ _ _ Hgt Hle) as Hn.
              split; [apply nleb_nltb; exact Hn | intros _; exact Hn].
      * (* the lead stays *)
        apply (IH (S i) best hs bb res Hrest); [| exact Hrun].
        destruct best as [w |]; simpl in Hinv |- *.
        -- destruct Hinv as [Hw [a0 [Ha0 [Hel0 [Hs0 [Hbb [Hhs Hall]]]]]]].
           split; [lia |]. exists a0. repeat split; try assumption.
           intros j b Hj Hb Helb.
           destruct (Nat.eq_dec j i) as [-> | Hne].
           ++ assert (b = a) by congruence. subst b. exists s.
              split; [exact Hs |]. split; [exact Hgt | intros Hlt; lia].
           ++ apply (Hall j b); [lia | exact Hb | exact Helb].
        -- destruct Hinv as [-> [-> Hall]]. repeat split.
           intros j b Hj Hb Helb.
           destruct (Nat.eq_dec j i) as [-> | Hne].
           ++ assert (b = a) by congruence. subst b. exists s.
              split; [exact Hs | exact Hgt].
           ++ apply (Hall j b); [lia | exact Hb | exact Helb].
    + (* not considered *)
      apply (IH (S i) best hs bb res Hrest); [| exact Hrun].
      destruct best as [w |]; simpl in Hinv |- *.
      * destruct Hinv as [Hw [a0 [Ha0 [Hel0 [Hs0 [Hbb [Hhs Hall]]]]]]].
        split; [lia |]. exists a0. repeat split; try assumption.
        intros j b Hj Hb Helb.
        destruct (Nat.eq_dec j i) as [-> | Hne]; [congruence |].
        apply (Hall j b); [lia | exact Hb | exact Helb].
      * destruct Hinv as [-> [-> Hall]]. repeat split.
        intros j b Hj Hb Helb.
        destruct (Nat.eq_dec j i) as [-> | Hne]; [congruence |].
        apply (Hall j b); [lia | exact Hb | exact Helb].
Qed.

(** The scan fails only where a score fails, at the first considered
    advertiser whose score does. *)
Lemma double_scan_raises (advs : list Double.Advertiser.t) :
  forall i best hs bb e,
    (forall k, nth_error advertisers (i + k) = nth_error advs k) ->
    Double.scan math_exp bids alpha query advs i best hs bb = Raise e ->
    exists j b, nth_error advertisers j = Some b /\
      Double.eligible bids query b = true /\
      Double.score_of math_exp bids alpha query b = Raise e.
Proof.
  induction advs as [| a rest IH]; intros i best hs bb e Hnth Hrun; [discriminate |].
  assert (Ha : nth_error advertisers i = Some a).
  { specialize (Hnth 0%nat). rewrite Nat.add_0_r in Hnth. exact Hnth. }
  assert (Hrest : forall k, nth_error advertisers (S i + k) = nth_error rest k).
  { intros k. specialize (Hnth (S k)). rewrite Nat.add_succ_r in Hnth. exact Hnth. }
  simpl in Hrun.
  destruct (Double.eligible bids query a) eqn:Hel.
  - unfold bind in Hrun.
    destruct (Double.score_of math_exp bids alpha query a) as [s | e'] eqn:Hs.
    + destruct (Double.gt s hs); exact (IH _ _ _ _ _ Hrest Hrun).
    + inversion Hrun; subst e'. exists i, a. repeat split; assumption.
  - exact (IH _ _ _ _ _ Hrest Hrun).
Qed.

End DoubleScan.

(** C6, amended: the pessimistic allocator on doubles.  It considers the
    advertisers whose bid is positive and whose computed remaining budget
    [initial_budget - spent_budget] is at least the bid, and scores each
    with the computed [phi_alpha(budget_fraction, alpha) * bid].  The
    advertiser it returns is considered, its computed score is above minus
    infinity, no considered advertiser has a greater computed score, and no
    considered advertiser before it has a computed score as great; its
    [spent_budget] becomes the rounded sum [spent_budget + bid], at its
    position of the list, and nothing else changes.  It returns [(None, 0)],
    changing nothing, exactly when no considered advertiser has a computed
    score above minus infinity, and it fails, changing nothing, only where
    [math.exp] fails for a considered advertiser. *)
Theorem pessimistic_allocate_query_spec_double (math_exp : float -> Result float)
    (bids : Double.Bids) (alpha : float) (query : string)
    (advertisers : list Double.Advertiser.t) :
  let r := Double.allocate_query math_exp bids alpha query advertisers in
  (forall i bid, fst r = Ok (Some i, bid) ->
     exists a s,
       nth_error advertisers i = Some a /\
       Double.eligible bids query a = true /\
       bid = Double.bid_of bids a query /\
       Double.score_of math_exp bids alpha query a = Ok s /\
       Double.gt s neg_infinity = true /\
       (forall j b, nth_error advertisers j = Some b ->
          Double.eligible bids query b = true ->
          exists sj, Double.score_of math_exp bids alpha query b = Ok sj /\
                     Double.gt sj s = false /\
                     ((j < i)%nat -> Double.ge sj s = false)) /\
       List.length (snd r) = List.length advertisers /\
       nth_error (snd r) i
       = Some (Double.Advertiser.mk (Double.Advertiser.name a)
                 (Double.Advertiser.initial_budget a)
                 (Double.Advertiser.spent_budget a + bid)%float) /\
       (forall j, j <> i -> nth_error (snd r) j = nth_error advertisers j)) /\
  (forall x, fst r = Ok (None, x) ->
     x = 0%float /\ snd r = advertisers /\
     forall j b, nth_error advertisers j = Some b ->
       Double.eligible bids query b = true ->
       exists sj, Double.score_of math_exp bids alpha query b = Ok sj /\
                  Double.gt sj neg_infinity = false) /\
  (forall e, fst r = Raise e ->
     snd r = advertisers /\
     exists j b, nth_error advertisers j = Some b /\
       Double.eligible bids query b = true /\
       Double.score_of math_exp bids alpha query b = Raise e).
Proof.
  intros r. subst r. unfold Double.allocate_query.
  destruct (Double.scan math_exp bids alpha query advertisers 0 None neg_infinity 0%float)
    as [[[best hs] bb] | e0] eqn:Hscan.
  - pose proof (double_scan_spec math_exp bids alpha query advertisers advertisers
                  0 None neg_infinity 0%float (best, hs, bb)
                  (fun k => eq_refl)) as Hinv.
    assert (Hinit : double_scan_inv math_exp bids alpha query advertisers 0
                      (None, neg_infinity, 0%float)).
    { simpl. repeat split. intros j b Hj. lia. }
    specialize (Hinv Hinit Hscan). simpl Nat.add in Hinv.
    destruct best as [w |]; simpl in Hinv.
    + destruct Hinv as [Hw [a [Ha [Hel [Hs [Hbb [Hhs Hall]]]]]]].
      rewrite Ha.
      assert (Hpay : Double.Advertiser.deduct_budget a bb
                     = Ok (Double.Advertiser.mk (Double.Advertiser.name a)
                             (Double.Advertiser.initial_budget a)
                             (Double.Advertiser.spent_budget a + bb)%float)).
      { unfold Double.Advertiser.deduct_budget.
        unfold Double.eligible in Hel. apply andb_true_iff in Hel.
        destruct Hel as [_ Hge]. unfold Double.ge in Hge. rewrite <- Hbb in Hge.
        unfold Double.gt. rewrite (leb_not_ltb _ _ Hge). reflexivity. }
      rewrite Hpay. cbn [fst snd]. split; [| split].
      * intros i bid Heq. inversion Heq; subst i bid.
        exists a, hs. split; [exact Ha |]. split; [exact Hel |].
        split; [exact Hbb |]. split; [exact Hs |]. split; [exact Hhs |].
        split.
        { intros j b Hb Helb. apply (Hall j b); [| exact Hb | exact Helb].
          apply nth_error_Some. congruence. }
        split; [apply list_assign_length |].
        split; [apply nth_error_list_assign_eq; exact Hw |].
        intros j Hne. apply nth_error_list_assign_neq. congruence.
      * intros x Heq. discriminate Heq.
      * intros e Heq. discriminate Heq.
    + destruct Hinv as [-> [-> Hall]]. cbn [fst snd]. split; [| split].
      * intros i bid Heq. discriminate Heq.
      * intros x Heq. inversion Heq; subst x. repeat split.
        intros j b Hb Helb. apply (Hall j b); [| exact Hb | exact Helb].
        apply nth_error_Some. congruence.
      * intros e Heq. discriminate Heq.
  - cbn [fst snd]. split; [| split].
    + intros i bid Heq. discriminate Heq.
    + intros x Heq. discriminate Heq.
    + intros e Heq. inversion Heq; subst e0. split; [reflexivity |].
      exact (double_scan_raises math_exp bids alpha query advertisers advertisers
               0 None neg_infinity 0%float e (fun k => eq_refl) Hscan).
Qed.

(** The reals three doubles stand for. *)
Lemma powerRZ_2_neg (p : positive) : powerRZ 2 (Z.neg p) = / IZR (Z.pow 2 (Z.pos p)).
Proof. unfold powerRZ. rewrite pow_IZR, positive_nat_Z. reflexivity. Qed.

Lemma powerRZ_2_pos (p : positive) : powerRZ 2 (Z.pos p) = IZR (Z.pow 2 (Z.pos p)).
Proof. unfold powerRZ. rewrite pow_IZR, positive_nat_Z. reflexivity. Qed.

Ltac to_R_norm :=
  rewrite ?powerRZ_2_neg, ?powerRZ_2_pos;
  repeat match goal with
  | |- context [IZR (Z.pow 2 (Z.pos ?p))] =>
      let v := eval vm_compute in (Z.pow 2 (Z.pos p)) in
      change (Z.pow 2 (Z.pos p)) with v
  end.

Lemma to_R_0 : Double.to_R 0%float = 0.
Proof. to_R_eval 0%float. reflexivity. Qed.

Lemma to_R_1 : Double.to_R 1%float = 1.
Proof. to_R_eval 1%float. to_R_norm. lra. Qed.

Lemma to_R_1e17 : Double.to_R 1e17%float = 1e17.
Proof. to_R_eval 1e17%float. to_R_norm. lra. Qed.

(** C6, the counterexample: two advertisers with budget 1e17 bid 1 on k1;
    the first has spent 1, the second nothing.  Both are eligible and the
    score [(1 - e^(alpha (f - 1))) * bid] of the second is the greater one,
    but [f - 1] rounds to -1 for both, the computed scores are equal, and
    the call serves and charges the first. *)
Lemma pessimistic_near_tie_takes_first :
  Double.eligible NearTie.bids "k1" NearTie.A1 = true /\
  Double.eligible NearTie.bids "k1" NearTie.A2 = true /\
  Double.exact_score NearTie.bids 1%float "k1" NearTie.A1
  < Double.exact_score NearTie.bids 1%float "k1" NearTie.A2 /\
  (forall math_exp : float -> Result float,
     math_exp (-1)%float = Ok 0.36787944117144233%float ->
     Double.allocate_query math_exp NearTie.bids 1%float "k1" [NearTie.A1; NearTie.A2]
     = (Ok (Some 0%nat, 1%float),
        [Double.Advertiser.mk "A1" 1e17%float 2%float; NearTie.A2])) /\
  (forall math_exp : float -> Result float,
     fst (Double.allocate_query math_exp NearTie.bids 1%float "k1"
            [NearTie.A1; NearTie.A2])
     <> Ok (Some 1%nat, 1%float)).
Proof.
  split; [vm_compute; reflexivity |]. split; [vm_compute; reflexivity |]. split.
  - unfold Double.exact_score, Double.exact_fraction.
    change (Double.bid_of NearTie.bids NearTie.A1 "k1") with 1%float.
    change (Double.bid_of NearTie.bids NearTie.A2 "k1") with 1%float.
    cbn [Double.Advertiser.initial_budget Double.Advertiser.spent_budget
         NearTie.A1 NearTie.A2].
    rewrite to_R_0, to_R_1, to_R_1e17.
    destruct (Req_dec_T 1e17 0) as [Habs | _]; [lra |].
    assert (Hexp : exp (1 * (0 / 1e17 - 1)) < exp (1 * (1 / 1e17 - 1)))
      by (apply exp_increasing; lra).
    lra.
  - split.
    + intros math_exp Hexp. vm_compute. rewrite Hexp. vm_compute. reflexivity.
    + intros math_exp Heq. vm_compute in Heq.
      destruct (math_exp (-1)%float) as [e |]; cbv beta iota in Heq;
        [| discriminate Heq].
      rewrite ltb_irrefl in Heq.
      match type of Heq with
      | context [if ?c then _ else _] => destruct c
      end; cbv in Heq; discriminate Heq.
Qed.

(** * Binary64: the scoring function *)












(** * Binary64: the rounding of the plan *)

(** C7: one advertiser with budget 0.3 bids 0.03 on k1 and 0.27 on k2, one
    query of each is predicted and the LP answers [1, 1].  After the unit of
    k1 the remainder [0.3 - 0.03] is the double 0.27 and
    [(0.3 - 0.03) // 0.27] is 1.0: the rounding stores the plan [[1, 1]] and
    leaves the advertiser with 0.30000000000000004 spent.  The plan costs
    more than the budget, as the sum of doubles Python computes and as the
    sum of the real numbers the doubles stand for. *)
Theorem offline_plan_over_budget :
  Double.round_solution_to_integers Tight.bids Tight.advertisers
    Tight.predicted_queries Tight.solution 1 ["k1"; "k2"]%string
  = (Ok [[1%Z; 1%Z]],
     [Double.Advertiser.mk "A1" 0.3%float 0.30000000000000004%float]) /\
  (0.3 - 0.03)%float = 0.27%float /\
  Double.floor_div (0.3 - 0.03)%float 0.27%float = Ok 1%float /\
  Double.gt (1 * 0.03 + 1 * 0.27)%float 0.3%float = true /\
  Double.to_R 0.3%float < 1 * Double.to_R 0.03%float + 1 * Double.to_R 0.27%float.
Proof.
  split; [vm_compute; reflexivity |]. split; [vm_compute; reflexivity |].
  split; [vm_compute; reflexivity |]. split; [vm_compute; reflexivity |].
  to_R_eval 0.3%float. to_R_eval 0.03%float. to_R_eval 0.27%float. to_R_norm. lra.
Qed.

Lemma example_run_experiment_twice :
  exists summary cls',
    Experiment.run_experiment Example.linprog 1 Example.bids ["k1"%string]
      Example.predicted_queries 1 0 2 (Advertiser.init "A1" 10 Advertiser.empty)
    = (Ok summary, cls').
Proof.
  assert (Hm : Z.min (Z.min (Zfloor 5) 5) (Zfloor ((10 - 0) / 1)) = 5%Z).
  { rewrite (ZfloorZ 5). rewrite (Zfloor_eq 10 ((10 - 0) / 1)) by lra. reflexivity. }
  unfold Experiment.run_experiment, Experiment.optimistic_phase,
    Experiment.pessimistic_phase, Experiment.balanced_phase, Experiment.fresh_start.
  repeat (progress
            (unfold BalancedAlgorithm.init, OptimisticAlgorithm.init,
               PessimisticAlgorithm.init, BalancedAlgorithm.allocate_query,
               OptimisticAlgorithm.allocate_query, PessimisticAlgorithm.allocate_query,
               BalancedAlgorithm.commit, BalancedAlgorithm.decide;
             pyeval; rewrite ?Hm in *; try (exfalso; lra))).
  all: eexists _, _; reflexivity.
Qed.

Lemma standalone_phases_ignore_alpha_witness :
  exists s1 c1 s2 c2,
    Experiment.run_experiment Example.linprog 1 Example.bids ["k1"%string]
      Example.predicted_queries 1 0 1 (Advertiser.init "A1" 10 Advertiser.empty)
    = (Ok s1, c1) /\
    Experiment.run_experiment Example.linprog 1 Example.bids ["k1"%string]
      Example.predicted_queries 1 0 2 (Advertiser.init "A1" 10 Advertiser.empty)
    = (Ok s2, c2) /\
    Experiment.optimistic_revenue s1 = Experiment.optimistic_revenue s2 /\
    Experiment.pessimistic_revenue s1 = Experiment.pessimistic_revenue s2.
Proof.
  destruct example_run_experiment as [s1 [c1 [H1 _]]].
  destruct example_run_experiment_twice as [s2 [c2 H2]].
  exists s1, c1, s2, c2. split; [exact H1 |]. split; [exact H2 |].
  exact (proj2 (proj2 (proj2
           (standalone_phases_ignore_alpha Example.linprog 1 Example.bids ["k1"%string]
              Example.predicted_queries 1 0 1 2
              (Advertiser.init "A1" 10 Advertiser.empty))))
           s1 c1 s2 c2 H1 H2).
Defined.
